(** * pox.openflow.topology: the OpenFlow-to-topology adaptor

    A shallow embedding of [pox/openflow/topology.py].  Python objects
    (switches, ports, timers) live in heaps indexed by locations, so that
    object identity and aliasing are those of the source; every handler is a
    computation in a state-and-exception monad over the whole world. *)

From stdpp Require Import gmap strings list fin_maps fin_sets.
From Stdlib Require Import NArith Lia.

#[local] Set Warnings "-clear-no-such-hyp".

Local Open Scope N_scope.

(** ** Identifiers *)

(** Object identities.  A location is never reused: heaps only grow. *)
Abbreviation loc := nat (only parsing).
(** Identity of a [Connection] object of the protocol layer. *)
Abbreviation conn := nat (only parsing).
(** Identity of a [Timer] object. *)
Abbreviation tid := nat (only parsing).
(** Identity of one [listenTo] registration. *)
Abbreviation lid := nat (only parsing).

(** [RECONNECT_TIMEOUT = 30] *)
Definition RECONNECT_TIMEOUT : N := 30.

(** [of.OFPP_CONTROLLER] of libopenflow_01. *)
Definition OFPP_CONTROLLER : N := 0xfffd.

(** [of.OFPPR_ADD], [of.OFPPR_DELETE], [of.OFPPR_MODIFY] of libopenflow_01. *)
Definition OFPPR_ADD : N := 0.
Definition OFPPR_DELETE : N := 1.
Definition OFPPR_MODIFY : N := 2.

(** Modelled from the spec: [EthAddr] of pox.lib.addresses is not part of the
    sources; a hardware address is an opaque 48-bit value and the constructor
    keeps it. *)
Definition EthAddr (a : N) : N := a.

(** ** Protocol messages *)

(** [ofp_phy_port]: a port descriptor of the protocol layer. *)
Record ofp_phy_port := mk_phy_port {
  port_no : N;
  hw_addr : N;
  ofp_name : string;
  config : N;
  state : N
}.

(** [ofp_features_reply]: the handshake info. *)
Record ofp_features_reply := mk_features {
  ofp_capabilities : N;
  ofp_ports : list ofp_phy_port
}.

(** [ofp_port_status] *)
Record ofp_port_status := mk_port_status {
  reason : N;
  desc : ofp_phy_port
}.

(** [pox.openflow.discovery.Link] and [LinkEvent] *)
Record Link := mk_link {
  dpid1 : N; port1 : N; dpid2 : N; port2 : N
}.

Record LinkEvent := mk_link_event {
  link : Link;
  added : bool;
  removed : bool
}.

(** ** Objects *)

(** An [OpenFlowPort] object. *)
Record PortObj := mkPort {
  number : N;
  hwAddr : N;
  name : string;
  isController : bool;
  _config : N;
  _state : N;
  exists_ : bool;
  entities : gset nat            (* a set of switch objects *)
}.

(** An [OpenFlowSwitch] object. *)
Record SwitchObj := mkSwitch {
  dpid : N;
  ports : gmap N nat;            (* port number -> port object *)
  capabilities : N;
  connection : option nat;
  _listeners : list nat;
  _reconnectTimeout : option nat
}.

(** Modelled from the spec: [Timer] of pox.lib.recoco is not part of the
    sources.  A timer is a cancellable one-shot deferred task: its callback
    runs only if it was not cancelled before, and cancelling is always safe. *)
Record TimerObj := mkTimer {
  timeToWake : N;
  callback : nat;      (* the switch whose [_timer_ReconnectTimeout] is bound *)
  pending : bool
}.

(** The [OpenFlowTopology] object. *)
Record AdaptorObj := mkAdaptor {
  _wantComponents : option (gset string);
  (* the attribute [wantComponents] (sic) exists once line 77 has run *)
  wantComponents : option unit;
  (* attributes set by [setattr(self, c, ...)]: [true] is the component,
     [false] is [None]; an absent key is an attribute that was never set *)
  attrs : gmap string bool;
  (* event sources this object listens to, by prefix *)
  listening : gset string;
  listening_core : bool
}.

(** What the program lets the outside see: log lines and raised events. *)
Inductive Obs :=
  | LogDebugReady
  | LogWarnAlreadyConnected (dpid : N)
  | LogWarnDoesNotExist (dpid : N)
  | LogWarnWasNotConnected (dpid : N)
  | LogInfoConnected (dpid : N)
  | LogInfoDisconnected (dpid : N)
  | RaisedSwitchJoin (sw : nat)
  | RaisedSwitchLeave (sw : nat)
  | RaisedPortStatus (sw : nat) (ofp : ofp_port_status)
  | RaisedPacketIn (sw : nat)
  | RaisedBarrierIn (sw : nat)
  | RaisedFlowRemoved (sw : nat).

(** ** The world *)

Record World := mkWorld {
  switches : gmap nat SwitchObj;      (* heap of OpenFlowSwitch objects *)
  portobjs : gmap nat PortObj;        (* heap of OpenFlowPort objects *)
  timers : gmap nat TimerObj;                 (* heap of Timer objects *)
  con_listeners : gmap nat (nat * nat);      (* registration -> (connection, switch) *)
  components : gset string;                  (* what pox.core has registered *)
  topology_entities : gmap N nat;            (* the topology store: id -> entity *)
  adaptor : AdaptorObj;
  trace : list Obs
}.

(** ** Exceptions and the monad *)

Inductive exn :=
  | AssertionError
  | KeyError
  | AttributeError
  (* a dereference of a location that holds no object: never raised from a
     well-formed world *)
  | NoSuchObject.

Inductive outcome (A : Type) :=
  | Ret (a : A)
  | Raise (e : exn).
Arguments Ret {A} a.
Arguments Raise {A} e.

Definition M (A : Type) : Type := World → World * outcome A.

Definition raise {A} (e : exn) : M A := λ w, (w, Raise e).

#[export] Instance M_ret : MRet M := λ A a w, (w, Ret a).
#[export] Instance M_bind : MBind M := λ A B k m w,
  match m w with
  | (w', Ret a) => k a w'
  | (w', Raise e) => (w', Raise e)
  end.

Definition get : M World := λ w, (w, Ret w).
Definition modify (f : World → World) : M unit := λ w, (f w, Ret tt).

(** run to the final world / to the outcome *)
Definition exec {A} (m : M A) (w : World) : World := (m w).1.
Definition eval {A} (m : M A) (w : World) : outcome A := (m w).2.

(** Field updates of the world. *)
Definition upd_switches (f : gmap nat SwitchObj → gmap nat SwitchObj)
    (w : World) : World :=
  mkWorld (f (switches w)) (portobjs w) (timers w) (con_listeners w)
          (components w) (topology_entities w) (adaptor w) (trace w).
Definition upd_portobjs (f : gmap nat PortObj → gmap nat PortObj)
    (w : World) : World :=
  mkWorld (switches w) (f (portobjs w)) (timers w) (con_listeners w)
          (components w) (topology_entities w) (adaptor w) (trace w).
Definition upd_timers (f : gmap nat TimerObj → gmap nat TimerObj) (w : World) : World :=
  mkWorld (switches w) (portobjs w) (f (timers w)) (con_listeners w)
          (components w) (topology_entities w) (adaptor w) (trace w).
Definition upd_con_listeners (f : gmap nat (nat * nat) → gmap nat (nat * nat))
    (w : World) : World :=
  mkWorld (switches w) (portobjs w) (timers w) (f (con_listeners w))
          (components w) (topology_entities w) (adaptor w) (trace w).
Definition upd_components (f : gset string → gset string) (w : World) : World :=
  mkWorld (switches w) (portobjs w) (timers w) (con_listeners w)
          (f (components w)) (topology_entities w) (adaptor w) (trace w).
Definition upd_topology_entities (f : gmap N nat → gmap N nat) (w : World) : World :=
  mkWorld (switches w) (portobjs w) (timers w) (con_listeners w)
          (components w) (f (topology_entities w)) (adaptor w) (trace w).
Definition upd_adaptor (f : AdaptorObj → AdaptorObj) (w : World) : World :=
  mkWorld (switches w) (portobjs w) (timers w) (con_listeners w)
          (components w) (topology_entities w) (f (adaptor w)) (trace w).
Definition upd_trace (f : list Obs → list Obs) (w : World) : World :=
  mkWorld (switches w) (portobjs w) (timers w) (con_listeners w)
          (components w) (topology_entities w) (adaptor w) (f (trace w)).

(** [log.*] and [raiseEvent]: what is said is appended to the trace. *)
Definition emit (o : Obs) : M unit := modify (upd_trace (λ t, t ++ [o])).

(** ** The heaps *)

Definition get_switch (l : nat) : M SwitchObj := λ w,
  match switches w !! l with
  | Some s => (w, Ret s)
  | None => (w, Raise NoSuchObject)
  end.
Definition put_switch (l : nat) (s : SwitchObj) : M unit :=
  modify (upd_switches <[l := s]>).
Definition get_port (l : nat) : M PortObj := λ w,
  match portobjs w !! l with
  | Some p => (w, Ret p)
  | None => (w, Raise NoSuchObject)
  end.
Definition put_port (l : nat) (p : PortObj) : M unit :=
  modify (upd_portobjs <[l := p]>).

(** Allocation: a location that holds no object yet. *)
Definition new_switch (s : SwitchObj) : M nat := λ w,
  let l := fresh (dom (switches w)) in (upd_switches <[l := s]> w, Ret l).
Definition new_port (p : PortObj) : M nat := λ w,
  let l := fresh (dom (portobjs w)) in (upd_portobjs <[l := p]> w, Ret l).

(** Attribute assignments. *)
Definition set_ports (f : gmap N nat → gmap N nat) (s : SwitchObj) : SwitchObj :=
  mkSwitch (dpid s) (f (ports s)) (capabilities s) (connection s) (_listeners s)
           (_reconnectTimeout s).
Definition set_capabilities (c : N) (s : SwitchObj) : SwitchObj :=
  mkSwitch (dpid s) (ports s) c (connection s) (_listeners s) (_reconnectTimeout s).
Definition set_connection (c : option nat) (s : SwitchObj) : SwitchObj :=
  mkSwitch (dpid s) (ports s) (capabilities s) c (_listeners s) (_reconnectTimeout s).
Definition set__listeners (ls : list nat) (s : SwitchObj) : SwitchObj :=
  mkSwitch (dpid s) (ports s) (capabilities s) (connection s) ls (_reconnectTimeout s).
Definition set__reconnectTimeout (t : option nat) (s : SwitchObj) : SwitchObj :=
  mkSwitch (dpid s) (ports s) (capabilities s) (connection s) (_listeners s) t.

Definition set_exists (b : bool) (p : PortObj) : PortObj :=
  mkPort (number p) (hwAddr p) (name p) (isController p) (_config p) (_state p)
         b (entities p).
Definition set_entities (e : gset nat) (p : PortObj) : PortObj :=
  mkPort (number p) (hwAddr p) (name p) (isController p) (_config p) (_state p)
         (exists_ p) e.

(** [self.<field> = v] on a switch and on a port *)
Definition assign_switch (self : nat) (f : SwitchObj → SwitchObj) : M unit :=
  s ← get_switch self; put_switch self (f s).
Definition assign_port (self : nat) (f : PortObj → PortObj) : M unit :=
  p ← get_port self; put_port self (f p).

(** ** Collaborators that are not part of the sources *)

(** Modelled from the spec: the topology store (pox.topology) is an entity
    registry keyed by identifier that supports add, remove and lookup-by-ID;
    an [OpenFlowSwitch] has its dpid as identifier. *)
Module Topology.
Definition getEntityByID (id : N) : M (option nat) :=
  w ← get; mret (topology_entities w !! id).
Definition addEntity (entity : nat) : M unit :=
  s ← get_switch entity;
  modify (upd_topology_entities <[dpid s := entity]>).
Definition removeEntity (entity : nat) : M unit :=
  s ← get_switch entity;
  modify (upd_topology_entities (delete (dpid s))).
End Topology.

(** Modelled from the spec: [Timer] (pox.lib.recoco); creating one schedules
    it, [cancel] unschedules it and is safe on a timer that is not pending,
    and the scheduler runs the callback of a pending timer once. *)
Module Timer.
Definition new (timeout : N) (cb : nat) : M nat := λ w,
  let t := fresh (dom (timers w)) in
  (upd_timers <[t := mkTimer timeout cb true]> w, Ret t).
Definition cancel (t : nat) : M unit :=
  modify (upd_timers (alter (λ o, mkTimer (timeToWake o) (callback o) false) t)).
End Timer.

(** Modelled from the spec: [EventMixin] (pox.lib.revent).  [listenTo]
    registers the [_handle_con_*] methods of a switch with a connection and
    returns the handle of the registration; [removeListeners] drops the given
    registrations from that connection. *)
Module EventMixin.
Definition listenTo (source : nat) (self : nat) : M (list nat) := λ w,
  let l := fresh (dom (con_listeners w)) in
  (upd_con_listeners <[l := (source, self)]> w, Ret [l]).
Definition removeListeners (source : nat) (ls : list nat) : M unit :=
  modify (upd_con_listeners
            (filter (λ kv, ¬ (kv.1 ∈ ls ∧ kv.2.1 = source)))).
(** the switches that observe a connection *)
Definition subscribers (source : nat) (w : World) : list nat :=
  (λ kv, kv.2.2) <$>
    filter (λ kv : nat * (nat * nat), kv.2.1 = source) (map_to_list (con_listeners w)).
End EventMixin.

(** ** Loops *)

(** [for x in xs: body], with the local variables the body assigns as [s] *)
Fixpoint foldM {A S} (body : S → A → M S) (s : S) (xs : list A) : M S :=
  match xs with
  | [] => mret s
  | x :: xs' => s' ← body s x; foldM body s' xs'
  end.

Definition for_each {A} (xs : list A) (body : A → M unit) : M unit :=
  foldM (λ _ x, body x) tt xs.

(** ** class OpenFlowPort *)

Module OpenFlowPort.

Definition set_hwAddr (a : N) (p : PortObj) : PortObj :=
  mkPort (number p) a (name p) (isController p) (_config p) (_state p)
         (exists_ p) (entities p).
Definition set__config (c : N) (p : PortObj) : PortObj :=
  mkPort (number p) (hwAddr p) (name p) (isController p) c (_state p)
         (exists_ p) (entities p).
Definition set__state (s : N) (p : PortObj) : PortObj :=
  mkPort (number p) (hwAddr p) (name p) (isController p) (_config p) s
         (exists_ p) (entities p).

Definition _update (self : nat) (ofp : ofp_phy_port) : M unit :=
  p ← get_port self;
  if negb (bool_decide (name p = ofp_name ofp)) then raise AssertionError else
  if negb (bool_decide (number p = port_no ofp)) then raise AssertionError else
  assign_port self (set_hwAddr (EthAddr (hw_addr ofp)));;
  assign_port self (set__config (config ofp));;
  assign_port self (set__state (state ofp)).

(** [OpenFlowPort(ofp)].  [Port.__init__] of pox.topology stores the number,
    the hardware address and the name; the attributes that are assigned
    later start as placeholders that nothing reads. *)
Definition __init__ (ofp : ofp_phy_port) : M nat :=
  self ← new_port (mkPort (port_no ofp) (hw_addr ofp) (ofp_name ofp) false 0 0 false ∅);
  p ← get_port self;
  put_port self (mkPort (number p) (hwAddr p) (name p)
                        (bool_decide (number p = OFPP_CONTROLLER))
                        (_config p) (_state p) (exists_ p) (entities p));;
  _update self ofp;;
  assign_port self (set_exists true);;
  assign_port self (set_entities ∅);;
  mret self.

(** [item in port] *)
Definition __contains__ (self : nat) (item : nat) : M bool :=
  p ← get_port self; mret (bool_decide (item ∈ entities p)).

Definition addEntity (self : nat) (entity : nat) (single : bool) : M unit :=
  if single then assign_port self (set_entities {[entity]})
  else assign_port self (λ p, set_entities (entities p ∪ {[entity]}) p).

(** [port.entities.remove(entity)]: a [KeyError] when it is not a member *)
Definition entities_remove (self : nat) (entity : nat) : M unit :=
  p ← get_port self;
  if bool_decide (entity ∈ entities p)
  then put_port self (set_entities (entities p ∖ {[entity]}) p)
  else raise KeyError.

End OpenFlowPort.

(** ** class OpenFlowSwitch *)

Module OpenFlowSwitch.

Definition __init__ (dpid : N) : M nat :=
  new_switch (mkSwitch dpid ∅ 0 None [] None).

(** lines 224-229: one turn of [for p in ofp.ports] *)
Definition update_port (self : nat) (untouched : gset N) (p : ofp_phy_port)
    : M (gset N) :=
  s ← get_switch self;
  match ports s !! port_no p with
  | Some l =>
      OpenFlowPort._update l p;;
      if bool_decide (port_no p ∈ untouched)
      then mret (untouched ∖ {[port_no p]})
      else raise KeyError
  | None =>
      l ← OpenFlowPort.__init__ p;
      assign_switch self (set_ports <[port_no p := l]>);;
      mret untouched
  end.

(** lines 230-232: one turn of [for p in untouched] *)
Definition drop_port (self : nat) (p : N) : M unit :=
  s ← get_switch self;
  match ports s !! p with
  | Some l =>
      assign_port l (set_exists false);;
      assign_switch self (set_ports (delete p))
  | None => raise KeyError
  end.

(** lines 223-232: update all ports *)
Definition update_all_ports (self : nat) (ps : list ofp_phy_port) : M unit :=
  s ← get_switch self;
  untouched ← foldM (update_port self) (dom (ports s)) ps;
  for_each (elements untouched) (drop_port self).

Definition _setConnection (self : nat) (connection_ : option nat)
    (ofp : option ofp_features_reply) : M unit :=
  s ← get_switch self;
  match connection s with
  | Some c => EventMixin.removeListeners c (_listeners s)
  | None => mret tt
  end;;
  assign_switch self (set__listeners []);;
  assign_switch self (set_connection connection_);;
  s ← get_switch self;
  match _reconnectTimeout s with
  | Some t =>
      Timer.cancel t;;
      assign_switch self (set__reconnectTimeout None)
  | None => mret tt
  end;;
  match connection_ with
  | None =>
      t ← Timer.new RECONNECT_TIMEOUT self;
      assign_switch self (set__reconnectTimeout (Some t))
  | Some _ => mret tt
  end;;
  match ofp with
  | Some ofp =>
      assign_switch self (set_capabilities (ofp_capabilities ofp));;
      update_all_ports self (ofp_ports ofp)
  | None => mret tt
  end;;
  match connection_ with
  | Some c =>
      ls ← EventMixin.listenTo c self;
      assign_switch self (set__listeners ls)
  | None => mret tt
  end.

(** Called if we've been disconnected for RECONNECT_TIMEOUT seconds *)
Definition _timer_ReconnectTimeout (self : nat) : M unit :=
  assign_switch self (set__reconnectTimeout None);;
  w ← get;
  (if bool_decide ("topology"%string ∈ components w)
   then Topology.removeEntity self
   else raise AttributeError);;
  emit (RaisedSwitchLeave self).

Definition _handle_con_PortStatus (self : nat) (ofp : ofp_port_status) : M unit :=
  let p := desc ofp in
  (if bool_decide (reason ofp = OFPPR_DELETE) then
     s ← get_switch self;
     match ports s !! port_no p with
     | Some l =>
         assign_port l (set_exists false);;
         assign_switch self (set_ports (delete (port_no p)))
     | None => mret tt
     end
   else if bool_decide (reason ofp = OFPPR_MODIFY) then
     s ← get_switch self;
     match ports s !! port_no p with
     | Some l => OpenFlowPort._update l p
     | None => raise KeyError
     end
   else
     if negb (bool_decide (reason ofp = OFPPR_ADD)) then raise AssertionError else
     s ← get_switch self;
     if negb (bool_decide (ports s !! port_no p = None)) then raise AssertionError else
     l ← OpenFlowPort.__init__ p;
     assign_switch self (set_ports <[port_no p := l]>));;
  emit (RaisedPortStatus self ofp).

Definition _handle_con_ConnectionDown (self : nat) : M unit :=
  _setConnection self None None.

Definition _handle_con_PacketIn (self : nat) : M unit :=
  emit (RaisedPacketIn self).

Definition _handle_con_BarrierIn (self : nat) : M unit :=
  emit (RaisedBarrierIn self).

Definition _handle_con_FlowRemoved (self : nat) : M unit :=
  emit (RaisedFlowRemoved self).

(** [for p in self.ports.itervalues(): if entity in p: return p] *)
Definition findPortForEntity (self : nat) (entity : nat) : M (option nat) :=
  s ← get_switch self;
  foldM (λ (found : option nat) (kv : N * nat),
           match found return M (option nat) with
           | Some _ => mret found
           | None =>
               b ← OpenFlowPort.__contains__ kv.2 entity;
               mret (if b : bool then Some kv.2 else None)
           end)
        (None : option nat) (map_to_list (ports s)).

End OpenFlowSwitch.

(** ** class OpenFlowTopology *)

Module OpenFlowTopology.

Definition set__wantComponents (v : option (gset string)) (a : AdaptorObj) : AdaptorObj :=
  mkAdaptor v (wantComponents a) (attrs a) (listening a) (listening_core a).
Definition set_wantComponents (v : option unit) (a : AdaptorObj) : AdaptorObj :=
  mkAdaptor (_wantComponents a) v (attrs a) (listening a) (listening_core a).
Definition set_attrs (f : gmap string bool → gmap string bool) (a : AdaptorObj) : AdaptorObj :=
  mkAdaptor (_wantComponents a) (wantComponents a) (f (attrs a)) (listening a)
            (listening_core a).
Definition set_listening (f : gset string → gset string) (a : AdaptorObj) : AdaptorObj :=
  mkAdaptor (_wantComponents a) (wantComponents a) (attrs a) (f (listening a))
            (listening_core a).
Definition set_listening_core (b : bool) (a : AdaptorObj) : AdaptorObj :=
  mkAdaptor (_wantComponents a) (wantComponents a) (attrs a) (listening a) b.

Definition assign (f : AdaptorObj → AdaptorObj) : M unit := modify (upd_adaptor f).

(** Modelled from the spec: [core.hasComponent] (pox.core) asks the external
    provider whether a collaborator of that name is registered. *)
Definition hasComponent (c : string) : M bool :=
  w ← get; mret (bool_decide (c ∈ components w)).

(** [self.<c>]: an [AttributeError] when the attribute was never set *)
Definition getattr (c : string) : M bool :=
  w ← get;
  match attrs (adaptor w) !! c with
  | Some b => mret b
  | None => raise AttributeError
  end.

(** lines 64-73: one turn of [for c in self._wantComponents] *)
Definition resolve_one (got : gset string) (c : string) : M (gset string) :=
  has ← hasComponent c;
  if has : bool then
    assign (set_attrs <[c := true]>);;
    assign (set_listening (λ l, l ∪ {[c]}));;
    mret (got ∪ {[c]})
  else
    assign (set_attrs <[c := false]>);;
    mret got.

(** line 75: [self._wantComponents.remove(c)] *)
Definition want_remove (c : string) : M unit :=
  w ← get;
  match _wantComponents (adaptor w) with
  | Some want =>
      if bool_decide (c ∈ want)
      then assign (set__wantComponents (Some (want ∖ {[c]})))
      else raise KeyError
  | None => raise AttributeError
  end.

Definition _resolveComponents : M bool :=
  w ← get;
  match _wantComponents (adaptor w) with
  | None => assign (set__wantComponents None);; mret true
  | Some want =>
      if bool_decide (size want = 0%nat) then
        assign (set__wantComponents None);; mret true
      else
        got ← foldM resolve_one ∅ (elements want);
        for_each (elements got) want_remove;;
        w ← get;
        match _wantComponents (adaptor w) with
        | Some want =>
            if bool_decide (size want = 0%nat) then
              assign (set_wantComponents (Some tt));;
              emit LogDebugReady;;
              mret true
            else mret false
        | None => raise AttributeError
        end
  end.

(** [OpenFlowTopology()], for the class attribute [_wantComponents] *)
Definition __init__ (want : option (gset string)) : M unit :=
  modify (upd_adaptor (λ _, mkAdaptor want None ∅ ∅ false));;
  ready ← _resolveComponents;
  if negb ready then assign (set_listening_core true) else mret tt.

Definition _handle_openflow_discovery_LinkEvent (event : LinkEvent) : M unit :=
  topology ← getattr "topology";
  if negb topology then mret tt else
  let link := link event in
  sw1 ← Topology.getEntityByID (dpid1 link);
  sw2 ← Topology.getEntityByID (dpid2 link);
  match sw1, sw2 with
  | Some sw1, Some sw2 =>
      s1 ← get_switch sw1;
      s2 ← get_switch sw2;
      match ports s1 !! port1 link, ports s2 !! port2 link with
      | Some _, Some _ =>
          if added event then
            s1 ← get_switch sw1;
            match ports s1 !! port1 link with
            | Some p => OpenFlowPort.addEntity p sw2 true
            | None => raise KeyError
            end;;
            s2 ← get_switch sw2;
            match ports s2 !! port2 link with
            | Some p => OpenFlowPort.addEntity p sw1 true
            | None => raise KeyError
            end
          else if removed event then
            s1 ← get_switch sw1;
            match ports s1 !! port1 link with
            | Some p => OpenFlowPort.entities_remove p sw2
            | None => raise KeyError
            end;;
            s2 ← get_switch sw2;
            match ports s2 !! port2 link with
            | Some p => OpenFlowPort.entities_remove p sw1
            | None => raise KeyError
            end
          else mret tt
      | _, _ => mret tt
      end
  | _, _ => mret tt
  end.

(** The handler returns [EventRemove] ([true]) once everything is resolved. *)
Definition _handle_ComponentRegistered : M bool :=
  ready ← _resolveComponents;
  mret ready.

Definition _handle_openflow_ConnectionUp (event_dpid : N) (event_connection : nat)
    (event_ofp : ofp_features_reply) : M unit :=
  topology ← getattr "topology";
  if negb topology then raise AttributeError else
  sw ← Topology.getEntityByID event_dpid;
  '(sw, add) ← match sw return M (nat * bool) with
               | None =>
                   sw ← OpenFlowSwitch.__init__ event_dpid;
                   mret (sw, true)
               | Some sw =>
                   s ← get_switch sw;
                   match connection s with
                   | Some _ => emit (LogWarnAlreadyConnected event_dpid)
                   | None => mret tt
                   end;;
                   mret (sw, false)
               end;
  OpenFlowSwitch._setConnection sw (Some event_connection) (Some event_ofp);;
  emit (LogInfoConnected event_dpid);;
  if add : bool then
    Topology.addEntity sw;;
    emit (RaisedSwitchJoin sw)
  else mret tt.

Definition _handle_openflow_ConnectionDown (event_dpid : N) : M unit :=
  topology ← getattr "topology";
  if negb topology then raise AttributeError else
  sw ← Topology.getEntityByID event_dpid;
  match sw with
  | None => emit (LogWarnDoesNotExist event_dpid)
  | Some sw =>
      s ← get_switch sw;
      match connection s with
      | Some _ => mret tt
      | None => emit (LogWarnWasNotConnected event_dpid)
      end;;
      assign_switch sw (set_connection None);;
      emit (LogInfoDisconnected event_dpid)
  end.

End OpenFlowTopology.

(** ** The event loop

    Modelled from the spec: the sources of events (pox.core, the openflow
    nexus, the discovery component, the connections and the scheduler) are
    not part of the sources.  An event reaches a handler only through a
    registration made by [listenTo]; handlers run to completion, one event
    at a time. *)

Inductive Event :=
  | ComponentRegistered (name : string)
  | ConnectionUp (dpid : N) (connection : nat) (ofp : ofp_features_reply)
  | ConnectionDown (dpid : N)
  | DiscoveryLinkEvent (event : LinkEvent)
  | ConPortStatus (connection : nat) (ofp : ofp_port_status)
  | ConConnectionDown (connection : nat)
  | ConPacketIn (connection : nat)
  | ConBarrierIn (connection : nat)
  | ConFlowRemoved (connection : nat)
  | TimerExpired (timer : nat).

Module EventLoop.

(** an event of a component, for the handlers bound under [prefix] *)
Definition from_component (prefix : string) (handler : M unit) : M unit :=
  w ← get;
  if bool_decide (prefix ∈ listening (adaptor w)) then handler else mret tt.

(** an event of a connection, for every switch that observes it *)
Definition from_connection (source : nat) (handler : nat → M unit) : M unit :=
  w ← get;
  for_each (EventMixin.subscribers source w) handler.

(** [core.register(name, ...)] followed by the [ComponentRegistered] event *)
Definition register (name : string) : M unit :=
  modify (upd_components (λ cs, cs ∪ {[name]}));;
  w ← get;
  if listening_core (adaptor w) then
    remove ← OpenFlowTopology._handle_ComponentRegistered;
    if remove : bool
    then OpenFlowTopology.assign (OpenFlowTopology.set_listening_core false)
    else mret tt
  else mret tt.

(** the scheduler reaches the wake-up time of a timer *)
Definition expire (timer : nat) : M unit :=
  w ← get;
  match timers w !! timer with
  | Some o =>
      if pending o then
        modify (upd_timers <[timer := mkTimer (timeToWake o) (callback o) false]>);;
        OpenFlowSwitch._timer_ReconnectTimeout (callback o)
      else mret tt
  | None => mret tt
  end.

Definition deliver (e : Event) : M unit :=
  match e with
  | ComponentRegistered name => register name
  | ConnectionUp dpid connection ofp =>
      from_component "openflow"
        (OpenFlowTopology._handle_openflow_ConnectionUp dpid connection ofp)
  | ConnectionDown dpid =>
      from_component "openflow"
        (OpenFlowTopology._handle_openflow_ConnectionDown dpid)
  | DiscoveryLinkEvent event =>
      from_component "openflow_discovery"
        (OpenFlowTopology._handle_openflow_discovery_LinkEvent event)
  | ConPortStatus c ofp =>
      from_connection c (λ sw, OpenFlowSwitch._handle_con_PortStatus sw ofp)
  | ConConnectionDown c =>
      from_connection c OpenFlowSwitch._handle_con_ConnectionDown
  | ConPacketIn c => from_connection c OpenFlowSwitch._handle_con_PacketIn
  | ConBarrierIn c => from_connection c OpenFlowSwitch._handle_con_BarrierIn
  | ConFlowRemoved c => from_connection c OpenFlowSwitch._handle_con_FlowRemoved
  | TimerExpired t => expire t
  end.

(** Events one after the other; as [raiseEventNoErrors] does, an exception
    of a handler ends that handler only. *)
Fixpoint run (es : list Event) (w : World) : World :=
  match es with
  | [] => w
  | e :: es' => run es' (exec (deliver e) w)
  end.

End EventLoop.

(** The empty world: nothing registered, no object allocated. *)
Definition empty_adaptor : AdaptorObj := mkAdaptor None None ∅ ∅ false.
Definition empty_world : World := mkWorld ∅ ∅ ∅ ∅ ∅ ∅ empty_adaptor [].

(** [_wantComponents = set(['openflow','topology','openflow_discovery'])] *)
Definition default_wantComponents : gset string :=
  {[ "openflow"%string; "topology"%string; "openflow_discovery"%string ]}.

(** [launch()] in a core that has registered [cs]: the adaptor is created and
    then registered under the name "openflow_topology", unless a component of
    that name exists. *)
Definition launch (cs : gset string) : World :=
  let w := upd_components (λ _, cs) empty_world in
  if bool_decide ("openflow_topology"%string ∈ cs) then w
  else exec (OpenFlowTopology.__init__ (Some default_wantComponents);;
             EventLoop.register "openflow_topology") w.


(** ** The scenarios of the specification

    Switch 1 connects over connection 7 with ports (1, eth0) and (2, eth1);
    switch 2 connects over connection 8 with port (1, eth0). *)

Definition eth0 : ofp_phy_port := mk_phy_port 1 100 "eth0" 0 0.
Definition eth1 : ofp_phy_port := mk_phy_port 2 101 "eth1" 0 0.
Definition eth2 : ofp_phy_port := mk_phy_port 3 102 "eth2" 0 0.
(** port 1 again, reported under another name *)
Definition eth0_renamed : ofp_phy_port := mk_phy_port 1 100 "wan0" 0 1.
(** port 1 again, with another hardware address and state *)
Definition eth0_down : ofp_phy_port := mk_phy_port 1 177 "eth0" 1 1.

Definition world_ready : World := launch default_wantComponents.

Definition world_one_switch : World :=
  EventLoop.run [ConnectionUp 1 7 (mk_features 5 [eth0; eth1])] world_ready.

Definition world_two_switches : World :=
  EventLoop.run [ConnectionUp 2 8 (mk_features 5 [eth0])] world_one_switch.

(** ** Vocabulary of the statements *)

(** What [_update] leaves of a port: only the hardware address, the config
    and the state are taken from the descriptor. *)
Definition updated (o : PortObj) (p : ofp_phy_port) : PortObj :=
  mkPort (number o) (EthAddr (hw_addr p)) (name o) (isController o)
         (config p) (state p) (exists_ o) (entities o).

(** What [OpenFlowPort(p)] creates. *)
Definition created (p : ofp_phy_port) : PortObj :=
  mkPort (port_no p) (EthAddr (hw_addr p)) (ofp_name p)
         (bool_decide (port_no p = OFPP_CONTROLLER))
         (config p) (state p) true ∅.

(** Every tracked port number leads to a port object of that number. *)
Definition table_ok (T : gmap N nat) (H : gmap nat PortObj) : Prop :=
  ∀ n l, T !! n = Some l → ∃ o, H !! l = Some o ∧ number o = n.

(** The reported descriptors name the tracked ports as they were created. *)
Definition names_agree (T : gmap N nat) (H : gmap nat PortObj)
    (ps : list ofp_phy_port) : Prop :=
  ∀ p l o, p ∈ ps → T !! port_no p = Some l → H !! l = Some o →
           name o = ofp_name p.

(** The port numbers of a reported list. *)
Definition reported (ps : list ofp_phy_port) : gset N :=
  list_to_set (port_no <$> ps).

(** The table [T'] and the heap [H'] after [for p in ofp.ports], from [T] and [H]. *)
Definition update_post (T : gmap N nat) (H : gmap nat PortObj)
    (ps : list ofp_phy_port) (T' : gmap N nat) (H' : gmap nat PortObj) : Prop :=
  table_ok T' H' ∧
  T ⊆ T' ∧
  dom T' = dom T ∪ reported ps ∧
  (∀ p l o, p ∈ ps → T !! port_no p = Some l → H !! l = Some o →
            H' !! l = Some (updated o p)) ∧
  (∀ p, p ∈ ps → T !! port_no p = None →
        ∃ l, H !! l = None ∧ T' !! port_no p = Some l ∧ H' !! l = Some (created p)) ∧
  (∀ l o, H !! l = Some o → (∀ p, p ∈ ps → T !! port_no p ≠ Some l) →
          H' !! l = Some o).

(** The table [T'] and the heap [H'] after [for p in untouched], from [T] and [H]. *)
Definition drop_post (T : gmap N nat) (H : gmap nat PortObj)
    (ks : list N) (T' : gmap N nat) (H' : gmap nat PortObj) : Prop :=
  table_ok T' H' ∧
  (∀ k, T' !! k = if decide (k ∈ ks) then None else T !! k) ∧
  (∀ k l o, k ∈ ks → T !! k = Some l → H !! l = Some o →
            H' !! l = Some (set_exists false o)) ∧
  (∀ l o, H !! l = Some o → (∀ k, k ∈ ks → T !! k ≠ Some l) → H' !! l = Some o) ∧
  dom H' = dom H.

(** Executable forms of [table_ok] and [names_agree]. *)
Definition table_okb (T : gmap N nat) (H : gmap nat PortObj) : bool :=
  forallb (λ nl : N * nat,
             match H !! nl.2 with
             | Some o => bool_decide (number o = nl.1)
             | None => false
             end)
          (map_to_list T).

Definition names_agreeb (T : gmap N nat) (H : gmap nat PortObj)
    (ps : list ofp_phy_port) : bool :=
  forallb (λ p,
             match T !! port_no p with
             | Some l =>
                 match H !! l with
                 | Some o => bool_decide (name o = ofp_name p)
                 | None => true
                 end
             | None => true
             end)
          ps.

(** The fields of a port object are those of a descriptor. *)
Definition port_matches (o : PortObj) (p : ofp_phy_port) : Prop :=
  name o = ofp_name p ∧ number o = port_no p ∧
  hwAddr o = EthAddr (hw_addr p) ∧ _config o = config p ∧ _state o = state p.

(** ** Well-formed worlds *)

(** Every entity of the topology store is a switch object. *)
Definition store_ok (w : World) : Prop :=
  ∀ id sw, topology_entities w !! id = Some sw → is_Some (switches w !! sw).

(** The port table of every switch is [table_ok]. *)
Definition tables_ok (w : World) : Prop :=
  ∀ sw s, switches w !! sw = Some s → table_ok (ports s) (portobjs w).

(** No port object is in the tables of two switches. *)
Definition ports_unshared (w : World) : Prop :=
  ∀ sw1 sw2 s1 s2 n1 n2 l,
    switches w !! sw1 = Some s1 → switches w !! sw2 = Some s2 →
    ports s1 !! n1 = Some l → ports s2 !! n2 = Some l → sw1 = sw2.

(** The link events of the scenarios. *)
Definition link_1_1_2_1 : Link := mk_link 1 1 2 1.
Definition link_added : LinkEvent := mk_link_event link_1_1_2_1 true false.

(** Executable forms of [store_ok] and [ports_unshared]. *)
Definition store_okb (w : World) : bool :=
  forallb (λ e : N * nat, bool_decide (is_Some (switches w !! e.2)))
          (map_to_list (topology_entities w)).

(** every (switch, port object) pair of the tables *)
Definition tracked_ports (w : World) : list (nat * nat) :=
  flat_map (λ e : nat * SwitchObj, (λ nl : N * nat, (e.1, nl.2)) <$> map_to_list (ports e.2))
           (map_to_list (switches w)).

Definition ports_unsharedb (w : World) : bool :=
  forallb (λ a : nat * nat,
             forallb (λ b : nat * nat,
                        implb (bool_decide (a.2 = b.2)) (bool_decide (a.1 = b.1)))
                     (tracked_ports w))
          (tracked_ports w).

(** ** Frames: what a computation leaves alone, whatever its outcome *)

(** A log line or a raised event that is neither a join nor a leave. *)
Definition quiet_obs (o : Obs) : Prop :=
  match o with
  | RaisedSwitchJoin _ | RaisedSwitchLeave _ => False
  | _ => True
  end.

(** The switches that joined, the switches that left, in order. *)
Definition joins (t : list Obs) : list nat :=
  omap (λ o, match o with RaisedSwitchJoin sw => Some sw | _ => None end) t.
Definition leaves (t : list Obs) : list nat :=
  omap (λ o, match o with RaisedSwitchLeave sw => Some sw | _ => None end) t.

(** [frame P Q w w']: from [w] to [w'] the topology store, the adaptor and
    the registered components are the same, no switch object was created,
    nothing was said about joins and leaves, every switch object changed
    within [P] and the timers within [Q]. *)
Definition frame (P : SwitchObj → SwitchObj → Prop)
    (Q : gmap nat TimerObj → gmap nat TimerObj → Prop) (w w' : World) : Prop :=
  topology_entities w' = topology_entities w ∧
  adaptor w' = adaptor w ∧
  components w' = components w ∧
  (∃ rest, trace w' = trace w ++ rest ∧ Forall quiet_obs rest) ∧
  dom (switches w') = dom (switches w) ∧
  (∀ l s s', switches w !! l = Some s → switches w' !! l = Some s' → P s s') ∧
  Q (timers w) (timers w').

(** A computation keeps a relation, whether it returns or raises. *)
Definition preserves {A} (R : World → World → Prop) (m : M A) : Prop :=
  ∀ w, R w (m w).1.

(** Changes of a switch object that keep its identity. *)
Definition same_dpid (s s' : SwitchObj) : Prop := dpid s' = dpid s.

(** Changes of a switch object that keep its identity, its connection handle
    and its timer reference. *)
Definition same_link (s s' : SwitchObj) : Prop :=
  dpid s' = dpid s ∧ connection s' = connection s ∧
  _reconnectTimeout s' = _reconnectTimeout s.

Definition any_timers (T T' : gmap nat TimerObj) : Prop := True.

(** ** The first half of [_setConnection] (lines 211-216), in closed form *)

Definition cancelled (o : TimerObj) : TimerObj :=
  mkTimer (timeToWake o) (callback o) false.

(** the registrations [s] made on its connection are dropped *)
Definition drop_listeners (s : SwitchObj) (L : gmap nat (nat * nat))
    : gmap nat (nat * nat) :=
  match connection s with
  | Some c => filter (λ kv, ¬ (kv.1 ∈ _listeners s ∧ kv.2.1 = c)) L
  | None => L
  end.

(** the timer [s] refers to is cancelled *)
Definition cancel_timer (s : SwitchObj) (T : gmap nat TimerObj) : gmap nat TimerObj :=
  match _reconnectTimeout s with
  | Some t => alter cancelled t T
  | None => T
  end.

(** the world after line 216 of [self._setConnection(connection_, ...)] *)
Definition after_line_216 (self : nat) (s : SwitchObj) (connection_ : option nat)
    (w : World) : World :=
  upd_switches
    <[self := mkSwitch (dpid s) (ports s) (capabilities s) connection_ [] None]>
    (upd_timers (cancel_timer s) (upd_con_listeners (drop_listeners s) w)).

(** the world after [self._setConnection(None)] *)
Definition after_disconnect (self : nat) (s : SwitchObj) (w : World) : World :=
  let t := fresh (dom (timers w)) in
  upd_switches
    <[self := mkSwitch (dpid s) (ports s) (capabilities s) None [] (Some t)]>
    (upd_timers (λ T, <[t := mkTimer RECONNECT_TIMEOUT self true]> (cancel_timer s T))
       (upd_con_listeners (drop_listeners s) w)).

(** the world after the duplicate-connection warning of line 127, if any *)
Definition warned (event_dpid : N) (s : SwitchObj) (w : World) : World :=
  match connection s with
  | Some _ => upd_trace (λ t, t ++ [LogWarnAlreadyConnected event_dpid]) w
  | None => w
  end.

(** what a connection-up for a known switch runs after line 216 *)
Definition reconnect_rest (event_dpid : N) (sw c : nat) (ofp : ofp_features_reply)
    : M unit :=
  (mret tt;;
   (assign_switch sw (set_capabilities (ofp_capabilities ofp));;
    OpenFlowSwitch.update_all_ports sw (ofp_ports ofp));;
   (ls ← EventMixin.listenTo c sw;
    assign_switch sw (set__listeners ls)));;
  emit (LogInfoConnected event_dpid);;
  mret tt.

(** Events that neither connect a switch, nor register a component, nor
    let a timer expire. *)
Definition quiet (e : Event) : Prop :=
  match e with
  | ConnectionUp _ _ _ | ComponentRegistered _ | TimerExpired _ => False
  | _ => True
  end.

(** ** The dependency gate, in closed form *)

(** the attributes after [for c in self._wantComponents] over [cs] *)
Definition resolved_attrs (C : gset string) (cs : list string)
    (m : gmap string bool) : gmap string bool :=
  foldl (λ m c, <[c := bool_decide (c ∈ C)]> m) m cs.

(** the adaptor after lines 63-75, from the wanted set [W] and the registered
    components [C] *)
Definition resolved (W C : gset string) (a : AdaptorObj) : AdaptorObj :=
  mkAdaptor (Some (W ∖ C)) (wantComponents a)
            (resolved_attrs C (elements W) (attrs a))
            (listening a ∪ (W ∩ C)) (listening_core a).

(** how often "ready" was logged *)
Definition is_ready (o : Obs) : bool :=
  match o with LogDebugReady => true | _ => false end.
Definition ready_count (t : list Obs) : nat := length (List.filter is_ready t).

(** [OpenFlowTopology()] in a core that has registered [C], for the class
    attribute [_wantComponents = W] *)
Definition gate_init (W : option (gset string)) (C : gset string) : World :=
  exec (OpenFlowTopology.__init__ W) (upd_components (λ _, C) empty_world).

(** the components [names] register, one after the other *)
Definition registrations (names : list string) : list Event :=
  ComponentRegistered <$> names.

(** The gate is ready: the adaptor does not wait for registrations. *)
Definition gate_ready (w : World) : Prop := listening_core (adaptor w) = false.

(** What holds of the gate for the wanted set [W], whatever was registered. *)
Definition gate_inv (W : gset string) (w : World) : Prop :=
  _wantComponents (adaptor w) = Some (W ∖ components w) ∧
  wantComponents (adaptor w) = (if decide (W ⊆ components w) then Some tt else None) ∧
  (∀ c, attrs (adaptor w) !! c
        = if decide (c ∈ W) then Some (bool_decide (c ∈ components w)) else None) ∧
  listening (adaptor w) = W ∩ components w ∧
  listening_core (adaptor w) = bool_decide (¬ W ⊆ components w) ∧
  ready_count (trace w) = (if decide (W ⊆ components w) then 1 else 0)%nat.

(** The gate that wants nothing. *)
Definition idle_adaptor : AdaptorObj := mkAdaptor None None ∅ ∅ false.

(** A well-formed world: [store_ok], [tables_ok] and [ports_unshared]. *)
Definition wf (w : World) : Prop := store_ok w ∧ tables_ok w ∧ ports_unshared w.

(** A computation keeps an invariant, whether it returns or raises. *)
Definition keeps {A} (I : World → Prop) (m : M A) : Prop :=
  ∀ w, I w → I (m w).1.

(** Changes of a switch object that keep its identity and its timer
    reference, and do not connect it. *)
Definition same_timer (s s' : SwitchObj) : Prop :=
  dpid s' = dpid s ∧ _reconnectTimeout s' = _reconnectTimeout s ∧
  (connection s = None → connection s' = None).

(** A switch that refers to a timer is disconnected, and the timer is pending,
    bound to that switch and armed for the grace period. *)
Definition timer_inv (w : World) : Prop :=
  ∀ sw s t, switches w !! sw = Some s → _reconnectTimeout s = Some t →
    connection s = None ∧
    timers w !! t = Some (mkTimer RECONNECT_TIMEOUT sw true).

(** No object exists before the first connection-up. *)
Definition no_objects (w : World) : Prop :=
  switches w = ∅ ∧ portobjs w = ∅ ∧ timers w = ∅ ∧ con_listeners w = ∅ ∧
  topology_entities w = ∅.

(** ** What no handler undoes *)

(** Changes of a port object that keep its number, its name and its
    controller flag, and do not bring it back into existence. *)
Definition port_kept (o o' : PortObj) : Prop :=
  number o' = number o ∧ name o' = name o ∧ isController o' = isController o ∧
  (exists_ o = false → exists_ o' = false).

(** Changes of a timer that keep its delay and its callback, and do not make
    it pending again. *)
Definition timer_kept (o o' : TimerObj) : Prop :=
  timeToWake o' = timeToWake o ∧ callback o' = callback o ∧
  (pending o = false → pending o' = false).

(** From [w] to [w']: every object is still there, a switch with its dpid, a
    port with its number, name and controller flag and not revived, a timer
    with its delay and callback and not pending again; what was said and what
    was registered is still said and registered. *)
Definition stable (w w' : World) : Prop :=
  (∀ l s, switches w !! l = Some s →
          ∃ s', switches w' !! l = Some s' ∧ dpid s' = dpid s) ∧
  (∀ l o, portobjs w !! l = Some o →
          ∃ o', portobjs w' !! l = Some o' ∧ port_kept o o') ∧
  (∀ t o, timers w !! t = Some o →
          ∃ o', timers w' !! t = Some o' ∧ timer_kept o o') ∧
  (∃ rest, trace w' = trace w ++ rest) ∧
  components w ⊆ components w'.

(** ** The gate among all events *)

(** From [w] to [w'] the adaptor and the registered components are the same
    and "ready" was not logged. *)
Definition gate_same (w w' : World) : Prop :=
  adaptor w' = adaptor w ∧ components w' = components w ∧
  ready_count (trace w') = ready_count (trace w).

(** the names that register in a sequence of events *)
Definition registered_names (es : list Event) : list string :=
  omap (λ e, match e with ComponentRegistered n => Some n | _ => None end) es.

(** ** The exists flag *)

(** A port object exists exactly when the table of some switch refers to it. *)
Definition exists_inv (w : World) : Prop :=
  (∀ sw s n l o, switches w !! sw = Some s → ports s !! n = Some l →
                 portobjs w !! l = Some o → exists_ o = true) ∧
  (∀ l o, portobjs w !! l = Some o → exists_ o = true →
          ∃ sw s n, switches w !! sw = Some s ∧ ports s !! n = Some l).

(** ** Pending timers *)

(** Every pending timer is the one that the switch it is bound to refers to. *)
Definition timer_owned (w : World) : Prop :=
  ∀ t o, timers w !! t = Some o → pending o = true →
    ∃ s, switches w !! callback o = Some s ∧ _reconnectTimeout s = Some t.

(** ** The keys of the topology store *)

(** Every entity of the store is registered under its own dpid. *)
Definition store_keys (w : World) : Prop :=
  ∀ d sw s, topology_entities w !! d = Some sw → switches w !! sw = Some s →
            dpid s = d.

(** ** Who changes the neighbor sets *)

(** From [w] to [w'] every port object is still there, with the neighbors it
    had. *)
Definition neighbours_kept (w w' : World) : Prop :=
  ∀ l o, portobjs w !! l = Some o →
         ∃ o', portobjs w' !! l = Some o' ∧ entities o' = entities o.

(** From [w] to [w'] nothing changed but the neighbor sets of port objects. *)
Definition only_neighbours (w w' : World) : Prop :=
  switches w' = switches w ∧ timers w' = timers w ∧
  con_listeners w' = con_listeners w ∧ components w' = components w ∧
  topology_entities w' = topology_entities w ∧ adaptor w' = adaptor w ∧
  trace w' = trace w ∧
  ∀ l, match portobjs w !! l, portobjs w' !! l with
       | Some o, Some o' => o' = set_entities (entities o') o
       | None, None => True
       | _, _ => False
       end.

(** ** Switches need the topology store *)

(** No switch object exists unless pox.core has the topology store. *)
Definition switches_need_topology (w : World) : Prop :=
  switches w = ∅ ∨ "topology"%string ∈ components w.

(** From [w] to [w'] no switch object is created or lost. *)
Definition same_switches (w w' : World) : Prop :=
  dom (switches w') = dom (switches w).

(** * Proofs *)

(** ** Running the monad *)

Lemma run_bind {A B} (m : M A) (k : A → M B) w :
  (m ≫= k) w = match m w with
               | (w', Ret a) => k a w'
               | (w', Raise e) => (w', Raise e)
               end.
Proof. reflexivity. Qed.

Lemma run_bind_ret {A B} (m : M A) (k : A → M B) w w' a :
  m w = (w', Ret a) → (m ≫= k) w = k a w'.
Proof. intros H. rewrite run_bind, H. reflexivity. Qed.

Lemma run_bind_raise {A B} (m : M A) (k : A → M B) w w' e :
  m w = (w', Raise e) → (m ≫= k) w = (w', Raise e).
Proof. intros H. rewrite run_bind, H. reflexivity. Qed.

Lemma run_mret {A} (a : A) w : mret (M := M) a w = (w, Ret a).
Proof. reflexivity. Qed.

Lemma run_get w : get w = (w, Ret w).
Proof. reflexivity. Qed.

Lemma run_modify f w : modify f w = (f w, Ret tt).
Proof. reflexivity. Qed.

Lemma run_raise {A} e w : raise (A := A) e w = (w, Raise e).
Proof. reflexivity. Qed.

Lemma run_emit o w : emit o w = (upd_trace (λ t, t ++ [o]) w, Ret tt).
Proof. reflexivity. Qed.

Lemma run_get_switch l s w :
  switches w !! l = Some s → get_switch l w = (w, Ret s).
Proof. intros H. unfold get_switch. rewrite H. reflexivity. Qed.

Lemma run_get_switch_None l w :
  switches w !! l = None → get_switch l w = (w, Raise NoSuchObject).
Proof. intros H. unfold get_switch. rewrite H. reflexivity. Qed.

Lemma run_get_port l p w :
  portobjs w !! l = Some p → get_port l w = (w, Ret p).
Proof. intros H. unfold get_port. rewrite H. reflexivity. Qed.

Lemma run_get_port_None l w :
  portobjs w !! l = None → get_port l w = (w, Raise NoSuchObject).
Proof. intros H. unfold get_port. rewrite H. reflexivity. Qed.

Lemma run_assign_switch l f s w :
  switches w !! l = Some s →
  assign_switch l f w = (upd_switches <[l := f s]> w, Ret tt).
Proof.
  intros H. unfold assign_switch.
  rewrite (run_bind_ret _ _ _ _ _ (run_get_switch _ _ _ H)). reflexivity.
Qed.

Lemma run_assign_port l f p w :
  portobjs w !! l = Some p →
  assign_port l f w = (upd_portobjs <[l := f p]> w, Ret tt).
Proof.
  intros H. unfold assign_port.
  rewrite (run_bind_ret _ _ _ _ _ (run_get_port _ _ _ H)). reflexivity.
Qed.

(** Updating a field of the world by the identity changes nothing. *)
Lemma upd_portobjs_id f w : f (portobjs w) = portobjs w → upd_portobjs f w = w.
Proof. intros H. destruct w; unfold upd_portobjs; simpl in *. by rewrite H. Qed.

Lemma upd_switches_id f w : f (switches w) = switches w → upd_switches f w = w.
Proof. intros H. destruct w; unfold upd_switches; simpl in *. by rewrite H. Qed.

Lemma upd_portobjs_twice f g w :
  upd_portobjs f (upd_portobjs g w) = upd_portobjs (f ∘ g) w.
Proof. reflexivity. Qed.

Lemma upd_switches_twice f g w :
  upd_switches f (upd_switches g w) = upd_switches (f ∘ g) w.
Proof. reflexivity. Qed.

Lemma world_ext w w' :
  switches w = switches w' → portobjs w = portobjs w' → timers w = timers w' →
  con_listeners w = con_listeners w' → components w = components w' →
  topology_entities w = topology_entities w' → adaptor w = adaptor w' →
  trace w = trace w' → w = w'.
Proof. destruct w, w'; cbn. by intros -> -> -> -> -> -> -> ->. Qed.

Ltac world_fields :=
  cbn [switches portobjs timers con_listeners components topology_entities adaptor
       trace upd_switches upd_portobjs upd_timers upd_con_listeners upd_components
       upd_topology_entities upd_adaptor upd_trace compose].

Ltac world_eq := apply world_ext; world_fields; try reflexivity.

Tactic Notation "world_fields" "in" hyp(H) :=
  cbn [switches portobjs timers con_listeners components topology_entities adaptor
       trace upd_switches upd_portobjs upd_timers upd_con_listeners upd_components
       upd_topology_entities upd_adaptor upd_trace compose] in H.

(** ** [OpenFlowPort._update] *)

Lemma run__update l o p w :
  portobjs w !! l = Some o →
  name o = ofp_name p → number o = port_no p →
  OpenFlowPort._update l p w = (upd_portobjs <[l := updated o p]> w, Ret tt).
Proof.
  intros Hl Hn Hk. unfold OpenFlowPort._update.
  rewrite (run_bind_ret _ _ _ _ _ (run_get_port _ _ _ Hl)).
  rewrite !bool_decide_eq_true_2 by done. cbn [negb].
  erewrite run_bind_ret; [|by apply run_assign_port].
  erewrite run_bind_ret;
    [|apply run_assign_port; cbn [portobjs upd_portobjs]; apply lookup_insert_eq].
  erewrite run_assign_port by (cbn [portobjs upd_portobjs]; apply lookup_insert_eq).
  rewrite !upd_portobjs_twice. f_equal.
  destruct w; unfold upd_portobjs; cbn. f_equal.
  rewrite !insert_insert_eq. reflexivity.
Qed.

Lemma run__update_fail l o p w :
  portobjs w !! l = Some o →
  name o ≠ ofp_name p ∨ number o ≠ port_no p →
  OpenFlowPort._update l p w = (w, Raise AssertionError).
Proof.
  intros Hl Hne. unfold OpenFlowPort._update.
  rewrite (run_bind_ret _ _ _ _ _ (run_get_port _ _ _ Hl)).
  destruct (decide (name o = ofp_name p)) as [Hn|Hn].
  - rewrite (bool_decide_eq_true_2 _ Hn). cbn [negb].
    destruct Hne as [?|Hk]; [done|].
    by rewrite (bool_decide_eq_false_2 _ Hk).
  - by rewrite (bool_decide_eq_false_2 _ Hn).
Qed.

Lemma run_new_port o w :
  new_port o w = (upd_portobjs <[fresh (dom (portobjs w)) := o]> w,
                  Ret (fresh (dom (portobjs w)))).
Proof. reflexivity. Qed.

Lemma fresh_port_None w : portobjs w !! fresh (dom (portobjs w)) = None.
Proof. apply not_elem_of_dom, is_fresh. Qed.

Lemma fresh_switch_None w : switches w !! fresh (dom (switches w)) = None.
Proof. apply not_elem_of_dom, is_fresh. Qed.

Lemma run_port__init__ p w :
  OpenFlowPort.__init__ p w
  = (upd_portobjs <[fresh (dom (portobjs w)) := created p]> w,
     Ret (fresh (dom (portobjs w)))).
Proof.
  unfold OpenFlowPort.__init__.
  erewrite run_bind_ret by apply run_new_port.
  set (l := fresh (dom (portobjs w))).
  erewrite run_bind_ret
    by (apply run_get_port; cbn [portobjs upd_portobjs]; apply lookup_insert_eq).
  unfold put_port.
  erewrite run_bind_ret by apply run_modify.
  erewrite run_bind_ret;
    [|apply run__update;
      [cbn [portobjs upd_portobjs]; apply lookup_insert_eq|done|done]].
  erewrite run_bind_ret;
    [|apply run_assign_port; cbn [portobjs upd_portobjs]; apply lookup_insert_eq].
  erewrite run_bind_ret;
    [|apply run_assign_port; cbn [portobjs upd_portobjs]; apply lookup_insert_eq].
  rewrite run_mret. f_equal.
  destruct w; unfold upd_portobjs; cbn. f_equal.
  rewrite !insert_insert_eq. reflexivity.
Qed.

(** ** The two loops of [_setConnection] *)

Lemma table_ok_inj T H n1 n2 l :
  table_ok T H → T !! n1 = Some l → T !! n2 = Some l → n1 = n2.
Proof.
  intros Hok H1 H2.
  destruct (Hok _ _ H1) as (o1 & Ho1 & <-).
  destruct (Hok _ _ H2) as (o2 & Ho2 & <-). congruence.
Qed.

Lemma set_ports_const_id s : set_ports (λ _, ports s) s = s.
Proof. by destruct s. Qed.

Lemma set_ports_twice f g s : set_ports f (set_ports g s) = set_ports (f ∘ g) s.
Proof. reflexivity. Qed.

Lemma world_ports_id self s w :
  switches w !! self = Some s →
  upd_switches <[self := set_ports (λ _, ports s) s]>
    (upd_portobjs (λ _, portobjs w) w) = w.
Proof.
  intros Hs. rewrite set_ports_const_id.
  rewrite (upd_portobjs_id _ w) by done.
  apply upd_switches_id. by apply insert_id.
Qed.

Lemma run_update_port_tracked self s U p l o w :
  switches w !! self = Some s →
  ports s !! port_no p = Some l →
  portobjs w !! l = Some o →
  name o = ofp_name p → number o = port_no p →
  port_no p ∈ U →
  OpenFlowSwitch.update_port self U p w
  = (upd_portobjs <[l := updated o p]> w, Ret (U ∖ {[port_no p]})).
Proof.
  intros Hs Hl Ho Hn Hk HU. unfold OpenFlowSwitch.update_port.
  erewrite run_bind_ret by (by apply run_get_switch).
  rewrite Hl.
  erewrite run_bind_ret by (by apply run__update).
  by rewrite (bool_decide_eq_true_2 _ HU).
Qed.

Lemma run_update_port_new self s U p w :
  switches w !! self = Some s →
  ports s !! port_no p = None →
  OpenFlowSwitch.update_port self U p w
  = (upd_switches <[self := set_ports <[port_no p := fresh (dom (portobjs w))]> s]>
       (upd_portobjs <[fresh (dom (portobjs w)) := created p]> w), Ret U).
Proof.
  intros Hs Hl. unfold OpenFlowSwitch.update_port.
  erewrite run_bind_ret by (by apply run_get_switch).
  rewrite Hl.
  erewrite run_bind_ret by apply run_port__init__.
  erewrite run_bind_ret by (by apply run_assign_switch).
  reflexivity.
Qed.

Lemma reported_cons p ps : reported (p :: ps) = {[port_no p]} ∪ reported ps.
Proof. reflexivity. Qed.

Lemma elem_of_reported n ps : n ∈ reported ps ↔ ∃ p, p ∈ ps ∧ port_no p = n.
Proof.
  unfold reported. rewrite elem_of_list_to_set, list_elem_of_fmap.
  split; intros (p & H1 & H2); exists p; by split.
Qed.

Lemma run_update_ports self ps : ∀ w s U,
  switches w !! self = Some s →
  table_ok (ports s) (portobjs w) →
  NoDup (port_no <$> ps) →
  names_agree (ports s) (portobjs w) ps →
  U ⊆ dom (ports s) →
  (∀ p, p ∈ ps → port_no p ∈ dom (ports s) → port_no p ∈ U) →
  ∃ T' H',
    foldM (OpenFlowSwitch.update_port self) U ps w
    = (upd_switches <[self := set_ports (λ _, T') s]> (upd_portobjs (λ _, H') w),
       Ret (U ∖ reported ps)) ∧
    update_post (ports s) (portobjs w) ps T' H'.
Proof.
  induction ps as [|p ps IH]; intros w s U Hs Hok Hnd Hnames HUdom HU.
  - exists (ports s), (portobjs w). split.
    + cbn [foldM]. rewrite run_mret, (world_ports_id _ _ _ Hs).
      do 2 f_equal. unfold reported. cbn. set_solver.
    + repeat split; try done.
      * unfold reported; cbn. set_solver.
      * intros ? ? ? Hin. by apply elem_of_nil in Hin.
      * intros ? Hin. by apply elem_of_nil in Hin.
  - rewrite fmap_cons in Hnd. apply NoDup_cons in Hnd as [Hp Hnd].
    assert (Hp' : ∀ q, q ∈ ps → port_no q ≠ port_no p).
    { intros q Hq Heq. apply Hp. rewrite <- Heq. apply list_elem_of_fmap. eauto. }
    cbn [foldM].
    destruct (ports s !! port_no p) as [l|] eqn:Hl.
    + (* the port is tracked: updated in place *)
      destruct (Hok _ _ Hl) as (o & Ho & Hnum).
      assert (Hname : name o = ofp_name p).
      { eapply Hnames; [apply list_elem_of_here|done..]. }
      assert (HpU : port_no p ∈ U).
      { apply HU; [apply list_elem_of_here|]. apply elem_of_dom; eauto. }
      erewrite run_bind_ret by (by eapply run_update_port_tracked).
      set (w1 := upd_portobjs <[l := updated o p]> w).
      destruct (IH w1 s (U ∖ {[port_no p]})) as (T' & H' & Hrun & Hpost).
      * done.
      * intros n l' Hn. destruct (Hok _ _ Hn) as (o' & Ho' & Hnum').
        cbn [w1 portobjs upd_portobjs].
        destruct (decide (l = l')) as [<-|Hne].
        -- exists (updated o p). rewrite lookup_insert_eq. split; [done|].
           cbn. congruence.
        -- exists o'. by rewrite lookup_insert_ne.
      * done.
      * intros q l' o' Hq Hl' Ho'. cbn [w1 portobjs upd_portobjs] in Ho'.
        assert (l ≠ l').
        { intros <-. eapply Hp'; [done|]. by eapply table_ok_inj. }
        rewrite lookup_insert_ne in Ho' by done.
        eapply Hnames; [by apply list_elem_of_further|done..].
      * set_solver.
      * intros q Hq Hdom. apply elem_of_difference. split.
        -- apply HU; [by apply list_elem_of_further|done].
        -- apply not_elem_of_singleton. by apply Hp'.
      * exists T', H'. split.
        { rewrite Hrun. f_equal. rewrite reported_cons.
          f_equal. set_solver. }
        destruct Hpost as (Hok' & Hsub & Hdom & Htr & Hnew & Hfr).
        cbn [w1 portobjs upd_portobjs] in *.
        repeat split; try done.
        -- rewrite Hdom, reported_cons.
           assert (port_no p ∈ dom (ports s)) by (apply elem_of_dom; eauto).
           set_solver.
        -- intros q l' o' Hq Hl' Ho'. apply elem_of_cons in Hq as [->|Hq].
           ++ assert (l' = l) as -> by congruence.
              assert (o' = o) as -> by congruence.
              apply (Hfr l (updated o p)); [apply lookup_insert_eq|].
              intros q Hq Hq'. eapply Hp'; [done|].
              exact (table_ok_inj _ _ _ _ _ Hok Hq' Hl).
           ++ apply (Htr q l' o'); [done..|].
              rewrite lookup_insert_ne; [done|].
              intros <-. eapply Hp'; [done|].
              exact (table_ok_inj _ _ _ _ _ Hok Hl' Hl).
        -- intros q Hq Hl'. apply elem_of_cons in Hq as [->|Hq]; [congruence|].
           destruct (Hnew q Hq Hl') as (l' & Hfresh & ? & ?).
           exists l'. split; [|done].
           apply lookup_insert_None in Hfresh. tauto.
        -- intros l' o' Ho' Hno. apply Hfr.
           ++ rewrite lookup_insert_ne; [done|]. intros <-.
              eapply (Hno p); [apply list_elem_of_here|done].
           ++ intros q Hq. apply Hno. by apply list_elem_of_further.
    + (* the port is new: created and inserted *)
      erewrite run_bind_ret by (by eapply run_update_port_new).
      set (l := fresh (dom (portobjs w))).
      assert (Hfl : portobjs w !! l = None) by apply fresh_port_None.
      set (s1 := set_ports <[port_no p := l]> s).
      set (w1 := upd_switches <[self := s1]> (upd_portobjs <[l := created p]> w)).
      assert (Hfresh_ne : ∀ n l', ports s !! n = Some l' → l' ≠ l).
      { intros n l' Hn ->. destruct (Hok _ _ Hn) as (? & ? & ?). congruence. }
      assert (HpU : port_no p ∉ U).
      { intros HpU. apply HUdom, elem_of_dom in HpU as [? ?]. congruence. }
      destruct (IH w1 s1 U) as (T' & H' & Hrun & Hpost).
      * cbn [w1 switches upd_switches upd_portobjs]. apply lookup_insert_eq.
      * intros n l' Hn. cbn [w1 s1 ports set_ports portobjs upd_switches upd_portobjs] in *.
        apply lookup_insert_Some in Hn as [[<- <-]|[Hne Hn]].
        -- exists (created p). by rewrite lookup_insert_eq.
        -- destruct (Hok _ _ Hn) as (o' & Ho' & Hnum').
           exists o'. rewrite lookup_insert_ne; [done|].
           intros <-. by eapply Hfresh_ne.
      * done.
      * intros q l' o' Hq Hl' Ho'.
        cbn [w1 s1 ports set_ports portobjs upd_switches upd_portobjs] in *.
        rewrite lookup_insert_ne in Hl' by (intros Heq; by eapply Hp').
        rewrite lookup_insert_ne in Ho' by (intros <-; by eapply Hfresh_ne).
        eapply Hnames; [by apply list_elem_of_further|done..].
      * cbn [s1 ports set_ports]. rewrite dom_insert_L. set_solver.
      * intros q Hq Hdom. cbn [s1 ports set_ports] in Hdom.
        apply HU; [by apply list_elem_of_further|].
        rewrite dom_insert_L in Hdom. apply elem_of_union in Hdom as [Hdom|]; [|done].
        apply elem_of_singleton in Hdom. by eapply Hp' in Hq.
      * exists T', H'. split.
        { rewrite Hrun. f_equal.
          - destruct w; unfold w1, upd_switches, upd_portobjs; cbn. f_equal.
            by rewrite insert_insert_eq.
          - rewrite reported_cons. f_equal. set_solver. }
        destruct Hpost as (Hok' & Hsub & Hdom & Htr & Hnew & Hfr).
        cbn [w1 s1 ports set_ports portobjs upd_switches upd_portobjs] in *.
        assert (Hsub' : ports s ⊆ T').
        { etrans; [|exact Hsub]. by apply insert_subseteq. }
        repeat split; try done.
        -- rewrite Hdom, dom_insert_L, reported_cons. set_solver.
        -- intros q l' o' Hq Hl' Ho'. apply elem_of_cons in Hq as [->|Hq]; [congruence|].
           apply (Htr q l' o'); [done| |].
           ++ rewrite lookup_insert_ne; [done|]. intros Heq; by eapply Hp'.
           ++ rewrite lookup_insert_ne; [done|]. intros <-; by eapply Hfresh_ne.
        -- intros q Hq Hl'. apply elem_of_cons in Hq as [->|Hq].
           ++ exists l. split; [done|]. split.
              ** eapply lookup_weaken; [|exact Hsub]. apply lookup_insert_eq.
              ** apply (Hfr l (created p)); [apply lookup_insert_eq|].
                 intros q Hq Hq'.
                 rewrite lookup_insert_ne in Hq' by (intros Heq; by eapply Hp').
                 by eapply Hfresh_ne.
           ++ destruct (Hnew q Hq) as (l' & Hfresh & ? & ?).
              { rewrite lookup_insert_ne; [done|]. intros Heq; by eapply Hp'. }
              exists l'. split; [|done].
              apply lookup_insert_None in Hfresh. tauto.
        -- intros l' o' Ho' Hno. apply Hfr.
           ++ rewrite lookup_insert_ne; [done|]. intros <-. congruence.
           ++ intros q Hq Hq'.
              rewrite lookup_insert_ne in Hq' by (intros Heq; by eapply Hp').
              eapply Hno; [by apply list_elem_of_further|done].
Qed.

Lemma for_each_nil {A} (body : A → M unit) w : for_each [] body w = (w, Ret tt).
Proof. reflexivity. Qed.

Lemma for_each_cons {A} (body : A → M unit) x xs w :
  for_each (x :: xs) body w
  = match body x w with
    | (w', Ret _) => for_each xs body w'
    | (w', Raise e) => (w', Raise e)
    end.
Proof.
  unfold for_each. cbn [foldM]. rewrite run_bind.
  destruct (body x w) as [w' [[]|e]]; reflexivity.
Qed.

Lemma run_drop_port self s k l o w :
  switches w !! self = Some s →
  ports s !! k = Some l →
  portobjs w !! l = Some o →
  OpenFlowSwitch.drop_port self k w
  = (upd_switches <[self := set_ports (delete k) s]>
       (upd_portobjs <[l := set_exists false o]> w), Ret tt).
Proof.
  intros Hs Hl Ho. unfold OpenFlowSwitch.drop_port.
  erewrite run_bind_ret by (by apply run_get_switch).
  rewrite Hl.
  erewrite run_bind_ret by (by apply run_assign_port).
  by erewrite run_assign_switch.
Qed.

Lemma run_drop_ports self ks : ∀ w s,
  switches w !! self = Some s →
  table_ok (ports s) (portobjs w) →
  NoDup ks →
  (∀ k, k ∈ ks → k ∈ dom (ports s)) →
  ∃ T' H',
    for_each ks (OpenFlowSwitch.drop_port self) w
    = (upd_switches <[self := set_ports (λ _, T') s]> (upd_portobjs (λ _, H') w),
       Ret tt) ∧
    drop_post (ports s) (portobjs w) ks T' H'.
Proof.
  induction ks as [|k ks IH]; intros w s Hs Hok Hnd Hdom.
  - exists (ports s), (portobjs w). split.
    + by rewrite for_each_nil, (world_ports_id _ _ _ Hs).
    + repeat split; try done.
      * intros ? ? ? Hin. by apply elem_of_nil in Hin.
  - apply NoDup_cons in Hnd as [Hk Hnd].
    assert (Hkd : k ∈ dom (ports s)) by (apply Hdom, list_elem_of_here).
    apply elem_of_dom in Hkd as [l Hl].
    destruct (Hok _ _ Hl) as (o & Ho & Hnum).
    rewrite for_each_cons. erewrite run_drop_port by done.
    set (s1 := set_ports (delete k) s).
    set (w1 := upd_switches <[self := s1]> (upd_portobjs <[l := set_exists false o]> w)).
    assert (Hinj : ∀ n, n ≠ k → ports s !! n ≠ Some l).
    { intros n Hne Hn. apply Hne. exact (table_ok_inj _ _ _ _ _ Hok Hn Hl). }
    destruct (IH w1 s1) as (T' & H' & Hrun & Hpost).
    + cbn [w1 switches upd_switches upd_portobjs]. apply lookup_insert_eq.
    + intros n l' Hn. cbn [w1 s1 ports set_ports portobjs upd_switches upd_portobjs] in *.
      apply lookup_delete_Some in Hn as [Hne Hn].
      destruct (Hok _ _ Hn) as (o' & Ho' & Hnum').
      exists o'. rewrite lookup_insert_ne; [done|].
      intros <-. by eapply Hinj.
    + done.
    + intros n Hn. cbn [s1 ports set_ports]. rewrite dom_delete_L.
      apply elem_of_difference. split.
      * apply Hdom. by apply list_elem_of_further.
      * apply not_elem_of_singleton. intros ->. done.
    + exists T', H'. split.
      { rewrite Hrun. f_equal.
        destruct w; unfold w1, upd_switches, upd_portobjs; cbn. f_equal.
        by rewrite insert_insert_eq. }
      destruct Hpost as (Hok' & HT' & Hdr & Hfr & HdomH).
      cbn [w1 s1 ports set_ports portobjs upd_switches upd_portobjs] in *.
      repeat split; try done.
      * intros n. rewrite HT'. destruct (decide (n = k)) as [->|Hne].
        -- rewrite lookup_delete_eq.
           rewrite (decide_True (P := k ∈ k :: ks)) by apply list_elem_of_here.
           by destruct (decide (k ∈ ks)).
        -- rewrite lookup_delete_ne by done.
           destruct (decide (n ∈ ks)) as [Hin|Hin].
           ++ rewrite decide_True; [done|]. by apply list_elem_of_further.
           ++ rewrite decide_False; [done|].
              intros [?|?]%elem_of_cons; done.
      * intros n l' o' Hn Hl' Ho'. apply elem_of_cons in Hn as [->|Hn].
        -- assert (l' = l) as -> by congruence.
           assert (o' = o) as -> by congruence.
           apply Hfr; [apply lookup_insert_eq|].
           intros n Hn Hn'. apply lookup_delete_Some in Hn' as [Hne Hn'].
           by eapply Hinj.
        -- assert (n ≠ k) by (intros ->; done).
           eapply Hdr; [done| |].
           ++ by rewrite lookup_delete_ne.
           ++ rewrite lookup_insert_ne; [done|]. intros <-. by eapply Hinj.
      * intros l' o' Ho' Hno. apply Hfr.
        -- rewrite lookup_insert_ne; [done|]. intros <-.
           eapply (Hno k); [apply list_elem_of_here|done].
        -- intros n Hn Hn'. apply lookup_delete_Some in Hn' as [Hne Hn'].
           eapply Hno; [by apply list_elem_of_further|done].
      * rewrite HdomH, dom_insert_L.
        assert (l ∈ dom (portobjs w)) by (apply elem_of_dom; eauto).
        set_solver.
Qed.

(** ** Full-mode reconciliation *)

Lemma run_update_all_ports self s ps w :
  switches w !! self = Some s →
  table_ok (ports s) (portobjs w) →
  NoDup (port_no <$> ps) →
  names_agree (ports s) (portobjs w) ps →
  ∃ T1 H1 T' H',
    OpenFlowSwitch.update_all_ports self ps w
    = (upd_switches <[self := set_ports (λ _, T') s]> (upd_portobjs (λ _, H') w),
       Ret tt) ∧
    update_post (ports s) (portobjs w) ps T1 H1 ∧
    drop_post T1 H1 (elements (dom (ports s) ∖ reported ps)) T' H'.
Proof.
  intros Hs Hok Hnd Hnames. unfold OpenFlowSwitch.update_all_ports.
  erewrite run_bind_ret by (by apply run_get_switch).
  destruct (run_update_ports self ps w s (dom (ports s)))
    as (T1 & H1 & Hrun1 & Hpost1); [done..|].
  erewrite run_bind_ret by exact Hrun1.
  set (s1 := set_ports (λ _, T1) s).
  set (w1 := upd_switches <[self := s1]> (upd_portobjs (λ _, H1) w)).
  destruct (run_drop_ports self (elements (dom (ports s) ∖ reported ps)) w1 s1)
    as (T' & H' & Hrun2 & Hpost2).
  - cbn [w1 switches upd_switches upd_portobjs]. apply lookup_insert_eq.
  - apply Hpost1.
  - apply NoDup_elements.
  - intros k Hk%elem_of_elements. cbn [s1 ports set_ports].
    destruct Hpost1 as (_ & _ & -> & _). set_solver.
  - exists T1, H1, T', H'. split; [|done].
    rewrite Hrun2. f_equal.
    destruct w; unfold w1, upd_switches, upd_portobjs; cbn. f_equal.
    by rewrite insert_insert_eq.
Qed.

Lemma update_all_ports_end_state self s ps w :
  switches w !! self = Some s →
  table_ok (ports s) (portobjs w) →
  NoDup (port_no <$> ps) →
  names_agree (ports s) (portobjs w) ps →
  ∃ T' H',
    OpenFlowSwitch.update_all_ports self ps w
    = (upd_switches <[self := set_ports (λ _, T') s]> (upd_portobjs (λ _, H') w),
       Ret tt) ∧
    dom T' = reported ps ∧
    (∀ n l o, ports s !! n = Some l → n ∉ reported ps → portobjs w !! l = Some o →
       T' !! n = None ∧ H' !! l = Some (set_exists false o)) ∧
    (∀ p l o, p ∈ ps → ports s !! port_no p = Some l → portobjs w !! l = Some o →
       T' !! port_no p = Some l ∧ H' !! l = Some (updated o p)) ∧
    (∀ p, p ∈ ps → ports s !! port_no p = None →
       ∃ l, portobjs w !! l = None ∧ T' !! port_no p = Some l ∧
            H' !! l = Some (created p)) ∧
    (∀ l o, portobjs w !! l = Some o → (∀ n, ports s !! n ≠ Some l) →
       H' !! l = Some o) ∧
    table_ok T' H'.
Proof.
  intros Hs Hok Hnd Hnames.
  destruct (run_update_all_ports self s ps w) as (T1 & H1 & T' & H' & Hrun & Hup & Hdr);
    [done..|].
  exists T', H'. split; [done|].
  destruct Hup as (Hok1 & Hsub & Hdom1 & Htr & Hnew & Hfr).
  destruct Hdr as (Hok' & HT' & Hgone & Hfr' & HdomH).
  set (ks := elements (dom (ports s) ∖ reported ps)) in *.
  assert (Hks : ∀ k, k ∈ ks ↔ k ∈ dom (ports s) ∧ k ∉ reported ps).
  { intros k. unfold ks. rewrite elem_of_elements. set_solver. }
  assert (Hkeep : ∀ p, p ∈ ps → T' !! port_no p = T1 !! port_no p).
  { intros p Hp. rewrite HT'. rewrite decide_False; [done|].
    rewrite Hks. intros [_ Hno]. apply Hno, elem_of_reported. eauto. }
  assert (Hold : ∀ k l, k ∈ ks → T1 !! k = Some l → ports s !! k = Some l).
  { intros k l [Hk _]%Hks Hl. apply elem_of_dom in Hk as [l' Hl'].
    by rewrite (lookup_weaken _ _ _ _ Hl' Hsub) in Hl; simplify_eq. }
  repeat split.
  - apply set_eq. intros k. rewrite elem_of_dom, HT'.
    destruct (decide (k ∈ ks)) as [Hk|Hk].
    + apply Hks in Hk as [_ Hk]. split; [by intros [? ?]|done].
    + rewrite <- elem_of_dom, Hdom1. rewrite Hks in Hk.
      split; [|set_solver].
      intros [Hd|?]%elem_of_union; [|done].
      destruct (decide (k ∈ reported ps)); [done|]. destruct Hk; done.
  - rewrite HT', decide_True; [done|]. apply Hks. split; [|done].
    apply elem_of_dom; eauto.
  - eapply Hgone.
    + apply Hks. split; [apply elem_of_dom; eauto|done].
    + by eapply lookup_weaken.
    + apply Hfr; [done|]. intros p Hp Hp'.
      apply H0, elem_of_reported. exists p. split; [done|].
      exact (table_ok_inj _ _ _ _ _ Hok Hp' H).
  - rewrite Hkeep by done. by eapply lookup_weaken.
  - apply Hfr'; [by eapply Htr|].
    intros k Hk Hk'. pose proof (Hold _ _ Hk Hk') as Hk''.
    apply Hks in Hk as [_ Hk]. apply Hk, elem_of_reported. exists p.
    split; [done|]. exact (table_ok_inj _ _ _ _ _ Hok H0 Hk'').
  - intros p Hp Hp'. destruct (Hnew p Hp Hp') as (l & Hl & HT1 & HH1).
    exists l. split; [done|]. split; [by rewrite Hkeep|].
    apply Hfr'; [done|].
    intros k Hk Hk'. pose proof (Hold _ _ Hk Hk') as Hk''.
    destruct (Hok _ _ Hk'') as (? & ? & ?). congruence.
  - intros l o Ho Hno. apply Hfr'.
    + apply Hfr; [done|]. intros p _. apply Hno.
    + intros k Hk Hk'. eapply Hno. by eapply Hold.
  - done.
Qed.

(** ** When full-mode reconciliation returns *)

Lemma run_update_port_untouched_gone self s U p l o w :
  switches w !! self = Some s →
  ports s !! port_no p = Some l →
  portobjs w !! l = Some o →
  name o = ofp_name p → number o = port_no p →
  port_no p ∉ U →
  OpenFlowSwitch.update_port self U p w
  = (upd_portobjs <[l := updated o p]> w, Raise KeyError).
Proof.
  intros Hs Hl Ho Hn Hk HU. unfold OpenFlowSwitch.update_port.
  erewrite run_bind_ret by (by apply run_get_switch).
  rewrite Hl.
  erewrite run_bind_ret by (by apply run__update).
  by rewrite (bool_decide_eq_false_2 _ HU).
Qed.

Lemma update_ports_returns self ps : ∀ w s U w' U',
  switches w !! self = Some s →
  table_ok (ports s) (portobjs w) →
  U ⊆ dom (ports s) →
  foldM (OpenFlowSwitch.update_port self) U ps w = (w', Ret U') →
  NoDup (port_no <$> ps) ∧
  names_agree (ports s) (portobjs w) ps ∧
  (∀ p, p ∈ ps → port_no p ∈ dom (ports s) → port_no p ∈ U).
Proof.
  induction ps as [|p ps IH]; intros w s U w' U' Hs Hok HU Hrun.
  - split; [constructor|]. split; [intros ? ? ? []%elem_of_nil|intros ? []%elem_of_nil].
  - cbn [foldM] in Hrun.
    destruct (ports s !! port_no p) as [l|] eqn:Hl.
    + destruct (Hok _ _ Hl) as (o & Ho & Hnum).
      destruct (decide (name o = ofp_name p)) as [Hn|Hn].
      2:{ erewrite run_bind_raise in Hrun; [done|].
          unfold OpenFlowSwitch.update_port.
          erewrite run_bind_ret by (by apply run_get_switch).
          rewrite Hl. erewrite run_bind_raise; [done|].
          eapply run__update_fail; [done|by left]. }
      destruct (decide (port_no p ∈ U)) as [Hin|Hin].
      2:{ erewrite run_bind_raise in Hrun; [done|].
          by eapply run_update_port_untouched_gone. }
      erewrite run_bind_ret in Hrun by (by eapply run_update_port_tracked).
      apply IH with (s := s) in Hrun as (Hnd & Hnames & Hcov).
      * split; [|split].
        -- rewrite fmap_cons. apply NoDup_cons. split; [|done].
           intros (q & Hq & Hqin)%list_elem_of_fmap.
           assert (port_no q ∈ U ∖ {[port_no p]}) as Hbad.
           { apply Hcov; [done|]. rewrite <- Hq. apply elem_of_dom; eauto. }
           set_solver.
        -- intros q l' o' [->|Hq]%elem_of_cons Hl' Ho'.
           { congruence. }
           destruct (decide (l' = l)) as [->|Hne].
           ++ assert (o' = o) as -> by congruence.
              specialize (Hnames q l (updated o p) Hq Hl').
              cbn [portobjs upd_portobjs] in Hnames.
              rewrite lookup_insert_eq in Hnames. by apply Hnames.
           ++ apply (Hnames q l' o' Hq Hl').
              cbn [portobjs upd_portobjs]. by rewrite lookup_insert_ne.
        -- intros q [->|Hq]%elem_of_cons Hd; [done|].
           specialize (Hcov q Hq Hd). set_solver.
      * done.
      * intros n l' Hl'. cbn [portobjs upd_portobjs].
        destruct (decide (l' = l)) as [->|Hne].
        -- rewrite lookup_insert_eq. eexists. split; [done|].
           cbn. rewrite Hnum. by eapply table_ok_inj.
        -- rewrite lookup_insert_ne by done. by apply Hok.
      * set_solver.
    + erewrite run_bind_ret in Hrun by (by eapply run_update_port_new).
      set (l := fresh (dom (portobjs w))) in *.
      assert (Hfresh : portobjs w !! l = None) by apply fresh_port_None.
      apply IH with (s := set_ports <[port_no p := l]> s)
        in Hrun as (Hnd & Hnames & Hcov).
      * assert (HpU : port_no p ∉ U).
        { intros Hin. apply HU in Hin. apply elem_of_dom in Hin as [? ?]. congruence. }
        split; [|split].
        -- rewrite fmap_cons. apply NoDup_cons. split; [|done].
           intros (q & Hq & Hqin)%list_elem_of_fmap.
           apply HpU. rewrite Hq. apply Hcov; [done|].
           cbn [ports set_ports]. rewrite dom_insert. set_solver.
        -- intros q l' o' [->|Hq]%elem_of_cons Hl' Ho'; [congruence|].
           assert (l' ≠ l) by congruence.
           assert (port_no q ≠ port_no p) by congruence.
           apply (Hnames q l' o' Hq).
           ++ cbn [ports set_ports]. by rewrite lookup_insert_ne.
           ++ cbn [portobjs upd_switches upd_portobjs]. by rewrite lookup_insert_ne.
        -- intros q [->|Hq]%elem_of_cons Hd.
           { apply elem_of_dom in Hd as [? ?]. congruence. }
           apply Hcov; [done|]. cbn [ports set_ports]. rewrite dom_insert. set_solver.
      * cbn [switches upd_switches upd_portobjs]. apply lookup_insert_eq.
      * cbn [ports set_ports portobjs upd_switches upd_portobjs].
        intros n l' Hl'. destruct (decide (n = port_no p)) as [->|Hne].
        -- rewrite lookup_insert_eq in Hl'. injection Hl' as <-.
           rewrite lookup_insert_eq. by eexists.
        -- rewrite lookup_insert_ne in Hl' by done.
           destruct (Hok _ _ Hl') as (o' & Ho' & ?).
           rewrite lookup_insert_ne by congruence. eauto.
      * cbn [ports set_ports]. rewrite dom_insert. set_solver.
Qed.

(** Full-mode reconciliation returns exactly for the port lists of unique
    numbers that report the tracked ports under the name they were created
    with; for every other list it raises. *)
Lemma update_all_ports_returns_iff self s ps w :
  switches w !! self = Some s →
  table_ok (ports s) (portobjs w) →
  eval (OpenFlowSwitch.update_all_ports self ps) w = Ret tt
  ↔ NoDup (port_no <$> ps) ∧ names_agree (ports s) (portobjs w) ps.
Proof.
  intros Hs Hok. split.
  - unfold eval, OpenFlowSwitch.update_all_ports.
    erewrite run_bind_ret by (by apply run_get_switch).
    rewrite run_bind.
    destruct (foldM (OpenFlowSwitch.update_port self) (dom (ports s)) ps w)
      as [w' [U'|e]] eqn:Hrun; [|done].
    intros _. by destruct (update_ports_returns _ _ _ _ _ _ _ Hs Hok (reflexivity _) Hrun)
      as (? & ? & _).
  - intros [Hnd Hnames].
    destruct (update_all_ports_end_state self s ps w Hs Hok Hnd Hnames)
      as (T' & H' & Hrun & _).
    unfold eval. by rewrite Hrun.
Qed.


(** ** Incremental port-status events *)

Lemma run_PortStatus_delete_tracked self s ofp l o w :
  reason ofp = OFPPR_DELETE →
  switches w !! self = Some s →
  ports s !! port_no (desc ofp) = Some l →
  portobjs w !! l = Some o →
  OpenFlowSwitch._handle_con_PortStatus self ofp w
  = (upd_trace (λ t, t ++ [RaisedPortStatus self ofp])
       (upd_switches <[self := set_ports (delete (port_no (desc ofp))) s]>
          (upd_portobjs <[l := set_exists false o]> w)), Ret tt).
Proof.
  intros Hr Hs Hl Ho. unfold OpenFlowSwitch._handle_con_PortStatus.
  rewrite (bool_decide_eq_true_2 _ Hr).
  erewrite run_bind_ret; [by rewrite run_emit|].
  erewrite run_bind_ret by (by apply run_get_switch).
  rewrite Hl.
  erewrite run_bind_ret by (by apply run_assign_port).
  by erewrite run_assign_switch.
Qed.

Lemma run_PortStatus_delete_untracked self s ofp w :
  reason ofp = OFPPR_DELETE →
  switches w !! self = Some s →
  ports s !! port_no (desc ofp) = None →
  OpenFlowSwitch._handle_con_PortStatus self ofp w
  = (upd_trace (λ t, t ++ [RaisedPortStatus self ofp]) w, Ret tt).
Proof.
  intros Hr Hs Hl. unfold OpenFlowSwitch._handle_con_PortStatus.
  rewrite (bool_decide_eq_true_2 _ Hr).
  erewrite run_bind_ret; [by rewrite run_emit|].
  erewrite run_bind_ret by (by apply run_get_switch).
  by rewrite Hl.
Qed.

Lemma run_PortStatus_modify_tracked self s ofp l o w :
  reason ofp = OFPPR_MODIFY →
  switches w !! self = Some s →
  ports s !! port_no (desc ofp) = Some l →
  portobjs w !! l = Some o →
  name o = ofp_name (desc ofp) → number o = port_no (desc ofp) →
  OpenFlowSwitch._handle_con_PortStatus self ofp w
  = (upd_trace (λ t, t ++ [RaisedPortStatus self ofp])
       (upd_portobjs <[l := updated o (desc ofp)]> w), Ret tt).
Proof.
  intros Hr Hs Hl Ho Hn Hk. unfold OpenFlowSwitch._handle_con_PortStatus.
  rewrite bool_decide_eq_false_2 by (rewrite Hr; done).
  rewrite (bool_decide_eq_true_2 _ Hr).
  erewrite run_bind_ret; [by rewrite run_emit|].
  erewrite run_bind_ret by (by apply run_get_switch).
  rewrite Hl. by apply run__update.
Qed.

Lemma run_PortStatus_modify_mismatch self s ofp l o w :
  reason ofp = OFPPR_MODIFY →
  switches w !! self = Some s →
  ports s !! port_no (desc ofp) = Some l →
  portobjs w !! l = Some o →
  name o ≠ ofp_name (desc ofp) ∨ number o ≠ port_no (desc ofp) →
  OpenFlowSwitch._handle_con_PortStatus self ofp w = (w, Raise AssertionError).
Proof.
  intros Hr Hs Hl Ho Hne. unfold OpenFlowSwitch._handle_con_PortStatus.
  rewrite bool_decide_eq_false_2 by (rewrite Hr; done).
  rewrite (bool_decide_eq_true_2 _ Hr).
  erewrite run_bind_raise; [done|].
  erewrite run_bind_ret by (by apply run_get_switch).
  rewrite Hl. by eapply run__update_fail.
Qed.

Lemma run_PortStatus_modify_untracked self s ofp w :
  reason ofp = OFPPR_MODIFY →
  switches w !! self = Some s →
  ports s !! port_no (desc ofp) = None →
  OpenFlowSwitch._handle_con_PortStatus self ofp w = (w, Raise KeyError).
Proof.
  intros Hr Hs Hl. unfold OpenFlowSwitch._handle_con_PortStatus.
  rewrite bool_decide_eq_false_2 by (rewrite Hr; done).
  rewrite (bool_decide_eq_true_2 _ Hr).
  erewrite run_bind_raise; [done|].
  erewrite run_bind_ret by (by apply run_get_switch).
  by rewrite Hl.
Qed.

Lemma run_PortStatus_add_untracked self s ofp w :
  reason ofp = OFPPR_ADD →
  switches w !! self = Some s →
  ports s !! port_no (desc ofp) = None →
  OpenFlowSwitch._handle_con_PortStatus self ofp w
  = (upd_trace (λ t, t ++ [RaisedPortStatus self ofp])
       (upd_switches
          <[self := set_ports <[port_no (desc ofp) := fresh (dom (portobjs w))]> s]>
          (upd_portobjs <[fresh (dom (portobjs w)) := created (desc ofp)]> w)),
     Ret tt).
Proof.
  intros Hr Hs Hl. unfold OpenFlowSwitch._handle_con_PortStatus.
  rewrite !bool_decide_eq_false_2 by (rewrite Hr; done).
  rewrite (bool_decide_eq_true_2 _ Hr). cbn [negb].
  erewrite run_bind_ret; [by rewrite run_emit|].
  erewrite run_bind_ret by (by apply run_get_switch).
  rewrite (bool_decide_eq_true_2 _ Hl). cbn [negb].
  erewrite run_bind_ret by apply run_port__init__.
  by erewrite run_assign_switch.
Qed.

Lemma run_PortStatus_add_tracked self s ofp l w :
  reason ofp = OFPPR_ADD →
  switches w !! self = Some s →
  ports s !! port_no (desc ofp) = Some l →
  OpenFlowSwitch._handle_con_PortStatus self ofp w = (w, Raise AssertionError).
Proof.
  intros Hr Hs Hl. unfold OpenFlowSwitch._handle_con_PortStatus.
  rewrite !bool_decide_eq_false_2 by (rewrite Hr; done).
  rewrite (bool_decide_eq_true_2 _ Hr). cbn [negb].
  erewrite run_bind_raise; [done|].
  erewrite run_bind_ret by (by apply run_get_switch).
  rewrite bool_decide_eq_false_2 by (rewrite Hl; done). done.
Qed.

(** C10.  The number and the name of a port never change: an in-place update
    of a tracked port (by [_update] itself, by a turn of the full-mode loop,
    by full-mode reconciliation, by an incremental "modify") whose descriptor
    has another name or number fails an assertion and changes nothing; an
    update that passes the assertions replaces only the hardware address,
    the config and the state of the port object. *)
Theorem C10_port_identity_immutable self s l o p U ps w :
  switches w !! self = Some s →
  ports s !! port_no p = Some l →
  portobjs w !! l = Some o →
  (name o ≠ ofp_name p ∨ number o ≠ port_no p →
     OpenFlowPort._update l p w = (w, Raise AssertionError) ∧
     foldM (OpenFlowSwitch.update_port self) U (p :: ps) w = (w, Raise AssertionError) ∧
     OpenFlowSwitch.update_all_ports self (p :: ps) w = (w, Raise AssertionError) ∧
     OpenFlowSwitch._handle_con_PortStatus self (mk_port_status OFPPR_MODIFY p) w
     = (w, Raise AssertionError)) ∧
  (name o = ofp_name p → number o = port_no p →
     ∃ o', OpenFlowPort._update l p w = (upd_portobjs <[l := o']> w, Ret tt) ∧
           number o' = number o ∧ name o' = name o ∧
           isController o' = isController o ∧
           exists_ o' = exists_ o ∧ entities o' = entities o ∧
           hwAddr o' = EthAddr (hw_addr p) ∧
           _config o' = config p ∧ _state o' = state p).
Proof.
  intros Hs Hl Ho. split.
  - intros Hne.
    assert (Hturn : ∀ U', OpenFlowSwitch.update_port self U' p w
                          = (w, Raise AssertionError)).
    { intros U'. unfold OpenFlowSwitch.update_port.
      erewrite run_bind_ret by (by apply run_get_switch).
      rewrite Hl. erewrite run_bind_raise; [done|]. by eapply run__update_fail. }
    split; [by eapply run__update_fail|]. split; [|split].
    + cbn [foldM]. by erewrite run_bind_raise.
    + unfold OpenFlowSwitch.update_all_ports.
      erewrite run_bind_ret by (by apply run_get_switch).
      erewrite run_bind_raise; [done|].
      cbn [foldM]. by erewrite run_bind_raise.
    + by eapply run_PortStatus_modify_mismatch.
  - intros Hn Hk. exists (updated o p). split; [by apply run__update|done].
Qed.

Lemma C10_port_identity_immutable_witness :
  ∃ s o,
    switches world_one_switch !! 0%nat = Some s ∧
    ports s !! port_no eth0_renamed = Some 0%nat ∧
    portobjs world_one_switch !! 0%nat = Some o ∧
    name o ≠ ofp_name eth0_renamed ∧
    OpenFlowSwitch.update_all_ports 0 [eth0_renamed; eth1] world_one_switch
    = (world_one_switch, Raise AssertionError).
Proof.
  eexists _, _.
  assert (H1 : switches world_one_switch !! 0%nat
               = Some (mkSwitch 1 {[1 := 0%nat; 2 := 1%nat]} 5 (Some 7%nat) [0%nat] None))
    by (vm_compute; reflexivity).
  assert (H2 : portobjs world_one_switch !! 0%nat = Some (created eth0))
    by (vm_compute; reflexivity).
  split; [exact H1|]. split; [vm_compute; reflexivity|]. split; [exact H2|].
  split; [by vm_compute|].
  refine (proj1 (proj2 (proj2 (proj1
    (C10_port_identity_immutable 0 _ 0 _ eth0_renamed ∅ [eth1] _ H1 _ H2) _)))).
  - vm_compute; reflexivity.
  - left. by vm_compute.
Defined.

Lemma table_okb_sound T H : table_okb T H = true → table_ok T H.
Proof.
  unfold table_okb. rewrite forallb_forall. intros Hall n l Hl.
  assert (Hin : In (n, l) (map_to_list T))
    by (apply list_elem_of_In; by apply elem_of_map_to_list).
  apply Hall in Hin. cbn in Hin.
  destruct (H !! l) as [o|]; [|discriminate].
  exists o. split; [done|]. by apply bool_decide_eq_true in Hin.
Qed.

Lemma names_agreeb_sound T H ps : names_agreeb T H ps = true → names_agree T H ps.
Proof.
  unfold names_agreeb. rewrite forallb_forall. intros Hall p l o Hp Hl Ho.
  assert (Hin : In p ps) by (by apply list_elem_of_In).
  apply Hall in Hin. rewrite Hl, Ho in Hin.
  by apply bool_decide_eq_true in Hin.
Qed.


(** C8, as the code has it.  An incremental port-status event is handled
    thus: "add" of an untracked number creates a port object that did not
    exist and inserts it, and fails an assertion on a tracked number;
    "modify" of a tracked number updates its object in place and raises a
    [KeyError] on an untracked number; "delete" of a tracked number sets
    [exists = False] on its object and removes it from the table, and on an
    untracked number it changes no switch and no port and raises nothing
    (line 245 guards it); the event is then raised again by the switch. *)
Theorem C8_port_status_incremental self s ofp w :
  switches w !! self = Some s →
  (reason ofp = OFPPR_ADD →
     (ports s !! port_no (desc ofp) = None →
        OpenFlowSwitch._handle_con_PortStatus self ofp w
        = (upd_trace (λ t, t ++ [RaisedPortStatus self ofp])
             (upd_switches
                <[self := set_ports <[port_no (desc ofp) := fresh (dom (portobjs w))]> s]>
                (upd_portobjs <[fresh (dom (portobjs w)) := created (desc ofp)]> w)),
           Ret tt)) ∧
     (∀ l, ports s !! port_no (desc ofp) = Some l →
        OpenFlowSwitch._handle_con_PortStatus self ofp w = (w, Raise AssertionError))) ∧
  (reason ofp = OFPPR_MODIFY →
     (∀ l o, ports s !! port_no (desc ofp) = Some l → portobjs w !! l = Some o →
        name o = ofp_name (desc ofp) → number o = port_no (desc ofp) →
        OpenFlowSwitch._handle_con_PortStatus self ofp w
        = (upd_trace (λ t, t ++ [RaisedPortStatus self ofp])
             (upd_portobjs <[l := updated o (desc ofp)]> w), Ret tt)) ∧
     (ports s !! port_no (desc ofp) = None →
        OpenFlowSwitch._handle_con_PortStatus self ofp w = (w, Raise KeyError))) ∧
  (reason ofp = OFPPR_DELETE →
     (∀ l o, ports s !! port_no (desc ofp) = Some l → portobjs w !! l = Some o →
        OpenFlowSwitch._handle_con_PortStatus self ofp w
        = (upd_trace (λ t, t ++ [RaisedPortStatus self ofp])
             (upd_switches <[self := set_ports (delete (port_no (desc ofp))) s]>
                (upd_portobjs <[l := set_exists false o]> w)), Ret tt)) ∧
     (ports s !! port_no (desc ofp) = None →
        OpenFlowSwitch._handle_con_PortStatus self ofp w
        = (upd_trace (λ t, t ++ [RaisedPortStatus self ofp]) w, Ret tt))).
Proof.
  intros Hs. split; [|split]; intros Hr; split.
  - intros Hl. by eapply run_PortStatus_add_untracked.
  - intros l Hl. by eapply run_PortStatus_add_tracked.
  - intros l o Hl Ho Hn Hk. by eapply run_PortStatus_modify_tracked.
  - intros Hl. by eapply run_PortStatus_modify_untracked.
  - intros l o Hl Ho. by eapply run_PortStatus_delete_tracked.
  - intros Hl. by eapply run_PortStatus_delete_untracked.
Qed.

Lemma world_one_switch_0 :
  switches world_one_switch !! 0%nat
  = Some (mkSwitch 1 {[1 := 0%nat; 2 := 1%nat]} 5 (Some 7%nat) [0%nat] None).
Proof. vm_compute; reflexivity. Qed.

Lemma C8_port_status_incremental_witness :
  switches world_one_switch !! 0%nat
  = Some (mkSwitch 1 {[1 := 0%nat; 2 := 1%nat]} 5 (Some 7%nat) [0%nat] None) ∧
  OpenFlowSwitch._handle_con_PortStatus 0 (mk_port_status OFPPR_DELETE eth2)
    world_one_switch
  = (upd_trace (λ t, t ++ [RaisedPortStatus 0 (mk_port_status OFPPR_DELETE eth2)])
       world_one_switch, Ret tt).
Proof.
  split; [exact world_one_switch_0|].
  refine (proj2 (proj2 (proj2
    (C8_port_status_incremental 0 _ (mk_port_status OFPPR_DELETE eth2) _
       world_one_switch_0)) _) _).
  - reflexivity.
  - vm_compute; reflexivity.
Defined.

(** C8 as stated fails: a "delete" for port 3, which switch 1 does not track,
    is not an error. *)
Lemma C8_delete_untracked_counterexample :
  (∃ s, switches world_one_switch !! 0%nat = Some s ∧
        ports s !! port_no eth2 = None) ∧
  eval (OpenFlowSwitch._handle_con_PortStatus 0 (mk_port_status OFPPR_DELETE eth2))
       world_one_switch = Ret tt.
Proof.
  split.
  - eexists. split; [exact world_one_switch_0|]. vm_compute; reflexivity.
  - vm_compute; reflexivity.
Qed.

(** ** Idempotence of full-mode reconciliation *)

Lemma updated_id o p : port_matches o p → updated o p = o.
Proof.
  intros (_ & _ & Hh & Hc & Hs). destruct o; unfold updated; cbn in *. congruence.
Qed.

Lemma run_update_ports_fixed self ps : ∀ w s U,
  switches w !! self = Some s →
  NoDup (port_no <$> ps) →
  (∀ p, p ∈ ps → ∃ l o, ports s !! port_no p = Some l ∧
                        portobjs w !! l = Some o ∧ port_matches o p) →
  (∀ p, p ∈ ps → port_no p ∈ U) →
  foldM (OpenFlowSwitch.update_port self) U ps w = (w, Ret (U ∖ reported ps)).
Proof.
  induction ps as [|p ps IH]; intros w s U Hs Hnd Hall HU.
  - cbn [foldM]. rewrite run_mret. do 2 f_equal. unfold reported; cbn. set_solver.
  - rewrite fmap_cons in Hnd. apply NoDup_cons in Hnd as [Hp Hnd].
    destruct (Hall p) as (l & o & Hl & Ho & Hm); [apply list_elem_of_here|].
    cbn [foldM].
    erewrite run_bind_ret.
    2:{ eapply run_update_port_tracked; try done; [apply Hm..|].
        apply HU, list_elem_of_here. }
    rewrite (updated_id _ _ Hm), (upd_portobjs_id _ w) by (by apply insert_id).
    erewrite IH; try done.
    + do 2 f_equal. rewrite reported_cons. set_solver.
    + intros q Hq. apply Hall. by apply list_elem_of_further.
    + intros q Hq. apply elem_of_difference. split.
      * apply HU. by apply list_elem_of_further.
      * apply not_elem_of_singleton. intros Heq. apply Hp. rewrite <- Heq.
        apply list_elem_of_fmap. eauto.
Qed.

(** C9.  Full-mode reconciliation is idempotent: once a complete port list
    has been applied to a switch, applying the same list again returns
    normally and leaves the whole world as it is: no port is added, none is
    removed, no field of a port object changes. *)
Theorem C9_full_mode_idempotent self s ps w :
  switches w !! self = Some s →
  table_ok (ports s) (portobjs w) →
  NoDup (port_no <$> ps) →
  names_agree (ports s) (portobjs w) ps →
  ∃ w1,
    OpenFlowSwitch.update_all_ports self ps w = (w1, Ret tt) ∧
    OpenFlowSwitch.update_all_ports self ps w1 = (w1, Ret tt).
Proof.
  intros Hs Hok Hnd Hnames.
  destruct (update_all_ports_end_state self s ps w)
    as (T' & H' & Hrun & Hdom & _ & Htr & Hnew & _ & Hok'); [done..|].
  eexists. split; [exact Hrun|].
  set (s1 := set_ports (λ _, T') s).
  set (w1 := upd_switches <[self := s1]> (upd_portobjs (λ _, H') w)).
  assert (Hs1 : switches w1 !! self = Some s1).
  { cbn [w1 switches upd_switches upd_portobjs]. apply lookup_insert_eq. }
  unfold OpenFlowSwitch.update_all_ports.
  erewrite run_bind_ret by (by apply run_get_switch).
  erewrite run_bind_ret.
  2:{ eapply run_update_ports_fixed; [exact Hs1|exact Hnd| |].
      - intros p Hp. cbn [w1 s1 ports set_ports portobjs upd_switches upd_portobjs].
        destruct (ports s !! port_no p) as [l|] eqn:Hl.
        + destruct (Hok _ _ Hl) as (o & Ho & Hnum).
          destruct (Htr p l o Hp Hl Ho) as [HT HH].
          exists l, (updated o p). repeat split; try done.
          cbn. by eapply Hnames.
        + destruct (Hnew p Hp Hl) as (l & _ & HT & HH).
          exists l, (created p). by repeat split.
      - intros p Hp. cbn [s1 ports set_ports]. rewrite Hdom.
        apply elem_of_reported. eauto. }
  cbn [s1 ports set_ports].
  replace (dom T' ∖ reported ps) with (∅ : gset N) by set_solver.
  by rewrite elements_empty, for_each_nil.
Qed.

Lemma C9_full_mode_idempotent_witness :
  ∃ w1,
    switches world_one_switch !! 0%nat
    = Some (mkSwitch 1 {[1 := 0%nat; 2 := 1%nat]} 5 (Some 7%nat) [0%nat] None) ∧
    table_ok {[1 := 0%nat; 2 := 1%nat]} (portobjs world_one_switch) ∧
    NoDup (port_no <$> [eth0_down; eth2]) ∧
    names_agree {[1 := 0%nat; 2 := 1%nat]} (portobjs world_one_switch)
      [eth0_down; eth2] ∧
    OpenFlowSwitch.update_all_ports 0 [eth0_down; eth2] world_one_switch = (w1, Ret tt) ∧
    OpenFlowSwitch.update_all_ports 0 [eth0_down; eth2] w1 = (w1, Ret tt).
Proof.
  assert (H2 : table_ok {[1 := 0%nat; 2 := 1%nat]} (portobjs world_one_switch))
    by (apply table_okb_sound; vm_compute; reflexivity).
  assert (H3 : NoDup (port_no <$> [eth0_down; eth2])).
  { cbn. apply NoDup_cons. split; [|apply NoDup_singleton].
    intros Hin%list_elem_of_singleton. discriminate. }
  assert (H4 : names_agree {[1 := 0%nat; 2 := 1%nat]} (portobjs world_one_switch)
                 [eth0_down; eth2])
    by (apply names_agreeb_sound; vm_compute; reflexivity).
  destruct (C9_full_mode_idempotent 0 _ [eth0_down; eth2] _ world_one_switch_0 H2 H3 H4)
    as (w1 & Hrun1 & Hrun2).
  exists w1.
  exact (conj world_one_switch_0 (conj H2 (conj H3 (conj H4 (conj Hrun1 Hrun2))))).
Defined.

(** ** Link events *)

Lemma run_getattr c b w :
  attrs (adaptor w) !! c = Some b → OpenFlowTopology.getattr c w = (w, Ret b).
Proof.
  intros H. unfold OpenFlowTopology.getattr.
  erewrite run_bind_ret by apply run_get. by rewrite H.
Qed.

Lemma run_getattr_None c w :
  attrs (adaptor w) !! c = None →
  OpenFlowTopology.getattr c w = (w, Raise AttributeError).
Proof.
  intros H. unfold OpenFlowTopology.getattr.
  erewrite run_bind_ret by apply run_get. by rewrite H.
Qed.

Lemma run_getEntityByID id w :
  Topology.getEntityByID id w = (w, Ret (topology_entities w !! id)).
Proof. reflexivity. Qed.

Lemma run_addEntity_single l o e w :
  portobjs w !! l = Some o →
  OpenFlowPort.addEntity l e true w
  = (upd_portobjs <[l := set_entities {[e]} o]> w, Ret tt).
Proof. intros Ho. unfold OpenFlowPort.addEntity. by apply run_assign_port. Qed.

Lemma run_entities_remove l o e w :
  portobjs w !! l = Some o → e ∈ entities o →
  OpenFlowPort.entities_remove l e w
  = (upd_portobjs <[l := set_entities (entities o ∖ {[e]}) o]> w, Ret tt).
Proof.
  intros Ho He. unfold OpenFlowPort.entities_remove.
  erewrite run_bind_ret by (by apply run_get_port).
  by rewrite (bool_decide_eq_true_2 _ He).
Qed.

Lemma run_entities_remove_absent l o e w :
  portobjs w !! l = Some o → e ∉ entities o →
  OpenFlowPort.entities_remove l e w = (w, Raise KeyError).
Proof.
  intros Ho He. unfold OpenFlowPort.entities_remove.
  erewrite run_bind_ret by (by apply run_get_port).
  by rewrite (bool_decide_eq_false_2 _ He).
Qed.

(** The handler, once both switches and both ports are resolved. *)
Lemma run_LinkEvent_resolved ev sw1 sw2 s1 s2 l1 l2 w :
  attrs (adaptor w) !! "topology"%string = Some true →
  topology_entities w !! dpid1 (link ev) = Some sw1 →
  topology_entities w !! dpid2 (link ev) = Some sw2 →
  switches w !! sw1 = Some s1 → switches w !! sw2 = Some s2 →
  ports s1 !! port1 (link ev) = Some l1 → ports s2 !! port2 (link ev) = Some l2 →
  OpenFlowTopology._handle_openflow_discovery_LinkEvent ev w
  = (if added ev then
       OpenFlowPort.addEntity l1 sw2 true;;
       s2 ← get_switch sw2;
       match ports s2 !! port2 (link ev) with
       | Some p => OpenFlowPort.addEntity p sw1 true
       | None => raise KeyError
       end
     else if removed ev then
       OpenFlowPort.entities_remove l1 sw2;;
       s2 ← get_switch sw2;
       match ports s2 !! port2 (link ev) with
       | Some p => OpenFlowPort.entities_remove p sw1
       | None => raise KeyError
       end
     else mret tt) w.
Proof.
  intros Ht H1 H2 Hs1 Hs2 Hl1 Hl2.
  unfold OpenFlowTopology._handle_openflow_discovery_LinkEvent.
  erewrite run_bind_ret by (by apply run_getattr). cbn [negb].
  erewrite run_bind_ret by apply run_getEntityByID.
  erewrite run_bind_ret by apply run_getEntityByID.
  rewrite H1, H2.
  erewrite run_bind_ret by (by apply run_get_switch).
  erewrite run_bind_ret by (by apply run_get_switch).
  rewrite Hl1, Hl2.
  destruct (added ev); [|destruct (removed ev); [|done]].
  - erewrite run_bind_ret by (by apply run_get_switch). by rewrite Hl1.
  - erewrite run_bind_ret by (by apply run_get_switch). by rewrite Hl1.
Qed.

(** The handler drops the event when something does not resolve. *)
Lemma run_LinkEvent_dropped ev w :
  is_Some (attrs (adaptor w) !! "topology"%string) →
  store_ok w →
  attrs (adaptor w) !! "topology"%string = Some false ∨
  topology_entities w !! dpid1 (link ev) = None ∨
  topology_entities w !! dpid2 (link ev) = None ∨
  (∃ sw s, topology_entities w !! dpid1 (link ev) = Some sw ∧
           switches w !! sw = Some s ∧ ports s !! port1 (link ev) = None) ∨
  (∃ sw s, topology_entities w !! dpid2 (link ev) = Some sw ∧
           switches w !! sw = Some s ∧ ports s !! port2 (link ev) = None) →
  OpenFlowTopology._handle_openflow_discovery_LinkEvent ev w = (w, Ret tt).
Proof.
  intros [b Hb] Hstore Hcase.
  unfold OpenFlowTopology._handle_openflow_discovery_LinkEvent.
  erewrite run_bind_ret by (by apply run_getattr).
  destruct b; cbn [negb]; [|done].
  destruct Hcase as [Hf|Hcase]; [congruence|].
  erewrite run_bind_ret by apply run_getEntityByID.
  erewrite run_bind_ret by apply run_getEntityByID.
  destruct (topology_entities w !! dpid1 (link ev)) as [sw1|] eqn:H1; [|done].
  destruct (topology_entities w !! dpid2 (link ev)) as [sw2|] eqn:H2; [|done].
  destruct (Hstore _ _ H1) as [s1 Hs1]. destruct (Hstore _ _ H2) as [s2 Hs2].
  erewrite run_bind_ret by (by apply run_get_switch).
  erewrite run_bind_ret by (by apply run_get_switch).
  destruct Hcase as [?|[?|[(sw & s & Hsw & Hs & Hp)|(sw & s & Hsw & Hs & Hp)]]];
    try done; simplify_eq.
  - by rewrite Hp.
  - rewrite Hp. by destruct (ports s1 !! port1 (link ev)).
Qed.

Lemma link_added_end_state ev sw1 sw2 s1 s2 l1 l2 o1 o2 w :
  added ev = true →
  attrs (adaptor w) !! "topology"%string = Some true →
  topology_entities w !! dpid1 (link ev) = Some sw1 →
  topology_entities w !! dpid2 (link ev) = Some sw2 →
  switches w !! sw1 = Some s1 → switches w !! sw2 = Some s2 →
  ports s1 !! port1 (link ev) = Some l1 → ports s2 !! port2 (link ev) = Some l2 →
  portobjs w !! l1 = Some o1 → portobjs w !! l2 = Some o2 →
  (l1 = l2 → sw1 = sw2) →
  ∃ H',
    OpenFlowTopology._handle_openflow_discovery_LinkEvent ev w
    = (upd_portobjs (λ _, H') w, Ret tt) ∧
    H' !! l1 = Some (set_entities {[sw2]} o1) ∧
    H' !! l2 = Some (set_entities {[sw1]} o2) ∧
    (∀ l, l ≠ l1 → l ≠ l2 → H' !! l = portobjs w !! l).
Proof.
  intros Ha Ht H1 H2 Hs1 Hs2 Hl1 Hl2 Ho1 Ho2 Halias.
  erewrite run_LinkEvent_resolved by done. rewrite Ha.
  erewrite run_bind_ret by (by apply run_addEntity_single).
  erewrite run_bind_ret by (by apply run_get_switch).
  rewrite Hl2.
  destruct (decide (l1 = l2)) as [<-|Hne].
  - assert (sw1 = sw2) as <- by auto. assert (o2 = o1) as -> by congruence.
    erewrite run_addEntity_single
      by (cbn [portobjs upd_portobjs]; apply lookup_insert_eq).
    eexists. split; [reflexivity|]. cbn.
    rewrite !lookup_insert_eq. repeat split.
    intros l Hl _. by rewrite !lookup_insert_ne.
  - erewrite run_addEntity_single
      by (cbn [portobjs upd_portobjs]; by rewrite lookup_insert_ne).
    eexists. split; [reflexivity|]. cbn.
    rewrite lookup_insert_eq, lookup_insert_ne, lookup_insert_eq by done.
    repeat split. intros l ? ?. by rewrite !lookup_insert_ne.
Qed.

Lemma store_okb_sound w : store_okb w = true → store_ok w.
Proof.
  unfold store_okb. rewrite forallb_forall. intros Hall id sw Hid.
  assert (Hin : In (id, sw) (map_to_list (topology_entities w)))
    by (apply list_elem_of_In; by apply elem_of_map_to_list).
  apply Hall in Hin. by apply bool_decide_eq_true in Hin.
Qed.

Lemma elem_of_tracked_ports w sw s n l :
  switches w !! sw = Some s → ports s !! n = Some l → In (sw, l) (tracked_ports w).
Proof.
  intros Hs Hl. unfold tracked_ports. apply in_flat_map.
  exists (sw, s). split.
  - apply list_elem_of_In. by apply elem_of_map_to_list.
  - apply list_elem_of_In, list_elem_of_fmap. exists (n, l). split; [done|].
    by apply elem_of_map_to_list.
Qed.

Lemma ports_unsharedb_sound w : ports_unsharedb w = true → ports_unshared w.
Proof.
  unfold ports_unsharedb. rewrite forallb_forall.
  intros Hall sw1 sw2 s1 s2 n1 n2 l Hs1 Hs2 Hl1 Hl2.
  pose proof (Hall _ (elem_of_tracked_ports _ _ _ _ _ Hs1 Hl1)) as Hrow.
  rewrite forallb_forall in Hrow.
  pose proof (Hrow _ (elem_of_tracked_ports _ _ _ _ _ Hs2 Hl2)) as Hb.
  cbn in Hb. rewrite bool_decide_eq_true_2 in Hb by done.
  by apply bool_decide_eq_true in Hb.
Qed.

(** C5.  A link-added event whose switch IDs or port numbers do not all
    resolve (or that arrives while the topology store is not bound) is
    dropped: the world is unchanged and nothing is raised.  Otherwise the
    neighbor set of each of the two ports is replaced by the set that holds
    exactly the other switch, whatever the port held before, and no other
    port object changes. *)
Theorem C5_link_added ev w :
  added ev = true →
  is_Some (attrs (adaptor w) !! "topology"%string) →
  store_ok w →
  ports_unshared w →
  (attrs (adaptor w) !! "topology"%string = Some false ∨
   topology_entities w !! dpid1 (link ev) = None ∨
   topology_entities w !! dpid2 (link ev) = None ∨
   (∃ sw s, topology_entities w !! dpid1 (link ev) = Some sw ∧
            switches w !! sw = Some s ∧ ports s !! port1 (link ev) = None) ∨
   (∃ sw s, topology_entities w !! dpid2 (link ev) = Some sw ∧
            switches w !! sw = Some s ∧ ports s !! port2 (link ev) = None) →
   OpenFlowTopology._handle_openflow_discovery_LinkEvent ev w = (w, Ret tt)) ∧
  (∀ sw1 sw2 s1 s2 l1 l2 o1 o2,
     attrs (adaptor w) !! "topology"%string = Some true →
     topology_entities w !! dpid1 (link ev) = Some sw1 →
     topology_entities w !! dpid2 (link ev) = Some sw2 →
     switches w !! sw1 = Some s1 → switches w !! sw2 = Some s2 →
     ports s1 !! port1 (link ev) = Some l1 → ports s2 !! port2 (link ev) = Some l2 →
     portobjs w !! l1 = Some o1 → portobjs w !! l2 = Some o2 →
     ∃ H',
       OpenFlowTopology._handle_openflow_discovery_LinkEvent ev w
       = (upd_portobjs (λ _, H') w, Ret tt) ∧
       H' !! l1 = Some (set_entities {[sw2]} o1) ∧
       H' !! l2 = Some (set_entities {[sw1]} o2) ∧
       (∀ l, l ≠ l1 → l ≠ l2 → H' !! l = portobjs w !! l)).
Proof.
  intros Ha Hattr Hstore Hun. split.
  - by apply run_LinkEvent_dropped.
  - intros sw1 sw2 s1 s2 l1 l2 o1 o2 Ht H1 H2 Hs1 Hs2 Hl1 Hl2 Ho1 Ho2.
    eapply link_added_end_state; try done.
    intros <-. by eapply Hun.
Qed.

Lemma world_two_switches_ok :
  store_ok world_two_switches ∧ ports_unshared world_two_switches.
Proof.
  split.
  - apply store_okb_sound. vm_compute; reflexivity.
  - apply ports_unsharedb_sound. vm_compute; reflexivity.
Qed.

Lemma world_two_switches_bound :
  attrs (adaptor world_two_switches) !! "topology"%string = Some true.
Proof. vm_compute; reflexivity. Qed.

Lemma world_two_switches_0 :
  switches world_two_switches !! 0%nat
  = Some (mkSwitch 1 {[1 := 0%nat; 2 := 1%nat]} 5 (Some 7%nat) [0%nat] None).
Proof. vm_compute; reflexivity. Qed.

Lemma world_two_switches_1 :
  switches world_two_switches !! 1%nat
  = Some (mkSwitch 2 {[1 := 2%nat]} 5 (Some 8%nat) [1%nat] None).
Proof. vm_compute; reflexivity. Qed.

Lemma world_two_switches_port0 :
  portobjs world_two_switches !! 0%nat = Some (created eth0).
Proof. vm_compute; reflexivity. Qed.

Lemma world_two_switches_port2 :
  portobjs world_two_switches !! 2%nat = Some (created eth0).
Proof. vm_compute; reflexivity. Qed.

Lemma C5_link_added_witness :
  added link_added = true ∧
  is_Some (attrs (adaptor world_two_switches) !! "topology"%string) ∧
  store_ok world_two_switches ∧
  ports_unshared world_two_switches ∧
  ∃ H',
    OpenFlowTopology._handle_openflow_discovery_LinkEvent link_added world_two_switches
    = (upd_portobjs (λ _, H') world_two_switches, Ret tt) ∧
    H' !! 0%nat = Some (set_entities {[1%nat]} (created eth0)) ∧
    H' !! 2%nat = Some (set_entities {[0%nat]} (created eth0)).
Proof.
  assert (Hb : is_Some (attrs (adaptor world_two_switches) !! "topology"%string))
    by (rewrite world_two_switches_bound; eauto).
  destruct world_two_switches_ok as [Hst Hun].
  assert (E1 : topology_entities world_two_switches !! dpid1 (link link_added)
               = Some 0%nat) by (vm_compute; reflexivity).
  assert (E2 : topology_entities world_two_switches !! dpid2 (link link_added)
               = Some 1%nat) by (vm_compute; reflexivity).
  assert (P1 : ports (mkSwitch 1 {[1 := 0%nat; 2 := 1%nat]} 5 (Some 7%nat) [0%nat] None)
                 !! port1 (link link_added) = Some 0%nat) by (vm_compute; reflexivity).
  assert (P2 : ports (mkSwitch 2 {[1 := 2%nat]} 5 (Some 8%nat) [1%nat] None)
                 !! port2 (link link_added) = Some 2%nat) by (vm_compute; reflexivity).
  destruct (proj2 (C5_link_added link_added world_two_switches eq_refl Hb Hst Hun)
              _ _ _ _ _ _ _ _
              world_two_switches_bound E1 E2
              world_two_switches_0 world_two_switches_1 P1 P2
              world_two_switches_port0 world_two_switches_port2)
    as (H' & Hrun & H1 & H2 & _).
  split; [reflexivity|]. split; [exact Hb|]. split; [exact Hst|]. split; [exact Hun|].
  exists H'. exact (conj Hrun (conj H1 H2)).
Defined.




(** ** Frame reasoning *)

Section preserves.
Context (R : World → World → Prop) `{!PreOrder R}.

Lemma preserves_ret {A} (a : A) : preserves R (mret a).
Proof. intros w. cbn. reflexivity. Qed.

Lemma preserves_raise {A} e : preserves R (raise (A := A) e).
Proof. intros w. cbn. reflexivity. Qed.

Lemma preserves_get : preserves R get.
Proof. intros w. cbn. reflexivity. Qed.

Lemma preserves_bind {A B} (m : M A) (k : A → M B) :
  preserves R m → (∀ a, preserves R (k a)) → preserves R (m ≫= k).
Proof.
  intros Hm Hk w. rewrite run_bind. specialize (Hm w).
  destruct (m w) as [w' [a|e]]; cbn in *; [|done].
  etrans; [exact Hm|apply Hk].
Qed.

Lemma preserves_foldM {A S} (body : S → A → M S) xs :
  (∀ s x, preserves R (body s x)) → ∀ s, preserves R (foldM body s xs).
Proof.
  intros Hb. induction xs as [|x xs IH]; intros s; cbn [foldM].
  - apply preserves_ret.
  - apply preserves_bind; [apply Hb|apply IH].
Qed.

Lemma preserves_for_each {A} (body : A → M unit) xs :
  (∀ x, preserves R (body x)) → preserves R (for_each xs body).
Proof. intros Hb. apply preserves_foldM. intros _ x. apply Hb. Qed.

Lemma preserves_get_switch l : preserves R (get_switch l).
Proof. intros w. unfold get_switch. destruct (switches w !! l); cbn; reflexivity. Qed.

Lemma preserves_get_port l : preserves R (get_port l).
Proof. intros w. unfold get_port. destruct (portobjs w !! l); cbn; reflexivity. Qed.

Lemma preserves_getEntityByID id : preserves R (Topology.getEntityByID id).
Proof. intros w. cbn. reflexivity. Qed.

Lemma preserves_getattr c : preserves R (OpenFlowTopology.getattr c).
Proof.
  intros w. unfold OpenFlowTopology.getattr. rewrite run_bind, run_get.
  destruct (attrs (adaptor w) !! c); cbn; reflexivity.
Qed.
End preserves.

Section frame.
Context (P : SwitchObj → SwitchObj → Prop) `{!PreOrder P}.
Context (Q : gmap nat TimerObj → gmap nat TimerObj → Prop) `{!PreOrder Q}.

#[export] Instance frame_preorder : PreOrder (frame P Q).
Proof.
  split.
  - intros w. repeat split; try done.
    + exists []. by rewrite app_nil_r.
    + intros l s s' H1 H2. simplify_eq. reflexivity.
  - intros w1 w2 w3 (Ht1 & Ha1 & Hc1 & (r1 & Hr1 & Hq1) & Hd1 & Hs1 & Hq1')
                    (Ht2 & Ha2 & Hc2 & (r2 & Hr2 & Hq2) & Hd2 & Hs2 & Hq2').
    repeat split; try congruence.
    + exists (r1 ++ r2). split.
      * by rewrite Hr2, Hr1, app_assoc.
      * by apply Forall_app.
    + intros l s s'' H1 H3.
      assert (is_Some (switches w2 !! l)) as [s' H2].
      { apply elem_of_dom. rewrite Hd1. apply elem_of_dom; eauto. }
      etrans; [by eapply Hs1|by eapply Hs2].
    + by etrans.
Qed.

Lemma frame_same w w' :
  topology_entities w' = topology_entities w → adaptor w' = adaptor w →
  components w' = components w → trace w' = trace w →
  switches w' = switches w → timers w' = timers w →
  frame P Q w w'.
Proof.
  intros Ht Ha Hc Htr Hs Htm. repeat split; try done.
  - exists []. by rewrite app_nil_r.
  - by rewrite Hs.
  - intros l s s' H1 H2. rewrite Hs in H2. simplify_eq. reflexivity.
  - rewrite Htm. reflexivity.
Qed.

Lemma frame_upd_portobjs f : preserves (frame P Q) (modify (upd_portobjs f)).
Proof. intros w. by apply frame_same. Qed.

Lemma frame_upd_con_listeners f : preserves (frame P Q) (modify (upd_con_listeners f)).
Proof. intros w. by apply frame_same. Qed.

Lemma frame_emit o : quiet_obs o → preserves (frame P Q) (emit o).
Proof.
  intros Ho w. unfold emit, modify, frame.
  cbn [fst switches topology_entities adaptor components trace timers upd_trace].
  split; [done|]. split; [done|]. split; [done|]. split; [|split; [done|split]].
  - exists [o]. split; [done|]. by apply Forall_singleton.
  - intros l s s' H1 H2. cbn [switches upd_trace] in H2. simplify_eq. reflexivity.
  - reflexivity.
Qed.

Lemma frame_assign_switch l f :
  (∀ s, P s (f s)) → preserves (frame P Q) (assign_switch l f).
Proof.
  intros Hf w. unfold assign_switch. rewrite run_bind.
  unfold get_switch. destruct (switches w !! l) as [s|] eqn:Hs; [|reflexivity].
  unfold put_switch, modify, frame.
  cbn [fst switches topology_entities adaptor components trace timers upd_switches].
  split; [done|]. split; [done|]. split; [done|]. split; [|split; [|split]].
  - exists []. by rewrite app_nil_r.
  - rewrite dom_insert_L.
    assert (l ∈ dom (switches w)) by (apply elem_of_dom; eauto). set_solver.
  - intros l' s1 s' H1 H2. cbn [switches upd_switches] in H2.
    destruct (decide (l = l')) as [<-|Hne].
    + rewrite lookup_insert_eq in H2. simplify_eq. apply Hf.
    + rewrite lookup_insert_ne in H2 by done. simplify_eq. reflexivity.
  - reflexivity.
Qed.

Lemma frame_assign_port l f : preserves (frame P Q) (assign_port l f).
Proof.
  unfold assign_port. apply preserves_bind; [apply _|apply preserves_get_port; apply _|].
  intros p. apply frame_upd_portobjs.
Qed.

Lemma frame_new_port p : preserves (frame P Q) (new_port p).
Proof. intros w. apply (frame_upd_portobjs _ w). Qed.

Lemma frame_listenTo c self : preserves (frame P Q) (EventMixin.listenTo c self).
Proof. intros w. apply (frame_upd_con_listeners _ w). Qed.

Lemma frame_removeListeners c ls :
  preserves (frame P Q) (EventMixin.removeListeners c ls).
Proof. apply frame_upd_con_listeners. Qed.
End frame.

Section frame_ports.
Context (P : SwitchObj → SwitchObj → Prop) `{!PreOrder P}.
Context (Q : gmap nat TimerObj → gmap nat TimerObj → Prop) `{!PreOrder Q}.
Hypothesis P_ports : ∀ f s, P s (set_ports f s).
Hypothesis P_capabilities : ∀ c s, P s (set_capabilities c s).
Hypothesis P_listeners : ∀ ls s, P s (set__listeners ls s).

Lemma frame__update l p : preserves (frame P Q) (OpenFlowPort._update l p).
Proof.
  unfold OpenFlowPort._update.
  apply preserves_bind; [apply _|apply preserves_get_port; apply _|]. intros o.
  destruct (negb _); [apply preserves_raise; apply _|].
  destruct (negb _); [apply preserves_raise; apply _|].
  repeat (apply preserves_bind; [apply _|by apply frame_assign_port|intros _]).
  by apply frame_assign_port.
Qed.

Lemma frame_port__init__ p : preserves (frame P Q) (OpenFlowPort.__init__ p).
Proof.
  unfold OpenFlowPort.__init__.
  apply preserves_bind; [apply _|by apply frame_new_port|]. intros l.
  apply preserves_bind; [apply _|apply preserves_get_port; apply _|]. intros o.
  apply preserves_bind; [apply _|by apply frame_upd_portobjs|]. intros _.
  apply preserves_bind; [apply _|by apply frame__update|]. intros _.
  repeat (apply preserves_bind; [apply _|by apply frame_assign_port|intros _]).
  apply preserves_ret; apply _.
Qed.

Lemma frame_update_port self U p :
  preserves (frame P Q) (OpenFlowSwitch.update_port self U p).
Proof.
  unfold OpenFlowSwitch.update_port.
  apply preserves_bind; [apply _|apply preserves_get_switch; apply _|]. intros s.
  destruct (ports s !! port_no p).
  - apply preserves_bind; [apply _|by apply frame__update|]. intros _.
    destruct (bool_decide _); [apply preserves_ret|apply preserves_raise]; apply _.
  - apply preserves_bind; [apply _|by apply frame_port__init__|]. intros l.
    apply preserves_bind; [apply _|by apply frame_assign_switch|]. intros _.
    apply preserves_ret; apply _.
Qed.

Lemma frame_drop_port self k : preserves (frame P Q) (OpenFlowSwitch.drop_port self k).
Proof.
  unfold OpenFlowSwitch.drop_port.
  apply preserves_bind; [apply _|apply preserves_get_switch; apply _|]. intros s.
  destruct (ports s !! k); [|apply preserves_raise; apply _].
  apply preserves_bind; [apply _|by apply frame_assign_port|]. intros _.
  by apply frame_assign_switch.
Qed.

Lemma frame_update_all_ports self ps :
  preserves (frame P Q) (OpenFlowSwitch.update_all_ports self ps).
Proof.
  unfold OpenFlowSwitch.update_all_ports.
  apply preserves_bind; [apply _|apply preserves_get_switch; apply _|]. intros s.
  apply preserves_bind; [apply _| |].
  - apply preserves_foldM; [apply _|]. intros. apply frame_update_port.
  - intros U. apply preserves_for_each; [apply _|]. intros. apply frame_drop_port.
Qed.

Lemma frame_PortStatus self ofp :
  preserves (frame P Q) (OpenFlowSwitch._handle_con_PortStatus self ofp).
Proof.
  unfold OpenFlowSwitch._handle_con_PortStatus.
  apply preserves_bind; [apply _| |intros _; by apply frame_emit].
  destruct (bool_decide (reason ofp = OFPPR_DELETE)).
  { apply preserves_bind; [apply _|apply preserves_get_switch; apply _|]. intros s.
    destruct (ports s !! _); [|apply preserves_ret; apply _].
    apply preserves_bind; [apply _|by apply frame_assign_port|]. intros _.
    by apply frame_assign_switch. }
  destruct (bool_decide (reason ofp = OFPPR_MODIFY)).
  { apply preserves_bind; [apply _|apply preserves_get_switch; apply _|]. intros s.
    destruct (ports s !! _); [by apply frame__update|apply preserves_raise; apply _]. }
  destruct (negb _); [apply preserves_raise; apply _|].
  apply preserves_bind; [apply _|apply preserves_get_switch; apply _|]. intros s.
  destruct (negb _); [apply preserves_raise; apply _|].
  apply preserves_bind; [apply _|by apply frame_port__init__|]. intros l.
  by apply frame_assign_switch.
Qed.

(** lines 219-234 of [_setConnection]: what follows the timer *)
Lemma frame_setConnection_tail self (ofp : option ofp_features_reply)
    (connection_ : option nat) :
  preserves (frame P Q)
    (match ofp with
     | Some ofp =>
         assign_switch self (set_capabilities (ofp_capabilities ofp));;
         OpenFlowSwitch.update_all_ports self (ofp_ports ofp)
     | None => mret tt
     end;;
     match connection_ with
     | Some c =>
         ls ← EventMixin.listenTo c self;
         assign_switch self (set__listeners ls)
     | None => mret tt
     end).
Proof.
  apply preserves_bind; [apply _| |intros _].
  - destruct ofp; [|apply preserves_ret; apply _].
    apply preserves_bind; [apply _|by apply frame_assign_switch|]. intros _.
    apply frame_update_all_ports.
  - destruct connection_; [|apply preserves_ret; apply _].
    apply preserves_bind; [apply _|by apply frame_listenTo|]. intros ls.
    by apply frame_assign_switch.
Qed.

Lemma frame_LinkEvent ev :
  preserves (frame P Q) (OpenFlowTopology._handle_openflow_discovery_LinkEvent ev).
Proof.
  unfold OpenFlowTopology._handle_openflow_discovery_LinkEvent.
  apply preserves_bind; [apply _|apply preserves_getattr; apply _|]. intros b.
  destruct (negb b); [apply preserves_ret; apply _|].
  apply preserves_bind; [apply _|apply preserves_getEntityByID; apply _|]. intros o1.
  apply preserves_bind; [apply _|apply preserves_getEntityByID; apply _|]. intros o2.
  destruct o1 as [sw1|], o2 as [sw2|]; try (apply preserves_ret; apply _).
  apply preserves_bind; [apply _|apply preserves_get_switch; apply _|]. intros s1.
  apply preserves_bind; [apply _|apply preserves_get_switch; apply _|]. intros s2.
  destruct (ports s1 !! port1 (link ev)), (ports s2 !! port2 (link ev));
    try (apply preserves_ret; apply _).
  assert (Hrm : ∀ l e, preserves (frame P Q) (OpenFlowPort.entities_remove l e)).
  { intros l e. unfold OpenFlowPort.entities_remove.
    apply preserves_bind; [apply _|apply preserves_get_port; apply _|]. intros o.
    destruct (bool_decide _); [by apply frame_upd_portobjs|].
    apply preserves_raise; apply _. }
  destruct (added ev); [|destruct (removed ev); [|apply preserves_ret; apply _]].
  - apply preserves_bind; [apply _|apply preserves_get_switch; apply _|]. intros s.
    apply preserves_bind; [apply _| |intros ?].
    { destruct (ports s !! _); [|apply preserves_raise; apply _].
      unfold OpenFlowPort.addEntity. by apply frame_assign_port. }
    apply preserves_bind; [apply _|apply preserves_get_switch; apply _|]. intros s'.
    destruct (ports s' !! _); [|apply preserves_raise; apply _].
    unfold OpenFlowPort.addEntity. by apply frame_assign_port.
  - apply preserves_bind; [apply _|apply preserves_get_switch; apply _|]. intros s.
    apply preserves_bind; [apply _| |intros ?].
    { destruct (ports s !! _); [apply Hrm|apply preserves_raise; apply _]. }
    apply preserves_bind; [apply _|apply preserves_get_switch; apply _|]. intros s'.
    destruct (ports s' !! _); [apply Hrm|apply preserves_raise; apply _].
Qed.
End frame_ports.

(** ** [_setConnection] *)

Lemma dom_cancel_timer s T : dom (cancel_timer s T) = dom T.
Proof. unfold cancel_timer. destruct (_reconnectTimeout s); [apply dom_alter_L|done]. Qed.

Lemma run_setConnection self s connection_ ofp w :
  switches w !! self = Some s →
  OpenFlowSwitch._setConnection self connection_ ofp w
  = (match connection_ with
     | None =>
         t ← Timer.new RECONNECT_TIMEOUT self;
         assign_switch self (set__reconnectTimeout (Some t))
     | Some _ => mret tt
     end;;
     match ofp with
     | Some ofp =>
         assign_switch self (set_capabilities (ofp_capabilities ofp));;
         OpenFlowSwitch.update_all_ports self (ofp_ports ofp)
     | None => mret tt
     end;;
     match connection_ with
     | Some c =>
         ls ← EventMixin.listenTo c self;
         assign_switch self (set__listeners ls)
     | None => mret tt
     end) (after_line_216 self s connection_ w).
Proof.
  intros Hs. unfold OpenFlowSwitch._setConnection.
  erewrite run_bind_ret by (by apply run_get_switch).
  set (w1 := upd_con_listeners (drop_listeners s) w).
  assert (H1 : (match connection s with
                | Some c => EventMixin.removeListeners c (_listeners s)
                | None => mret tt
                end) w = (w1, Ret tt)).
  { unfold w1, drop_listeners. destruct (connection s); [done|].
    rewrite run_mret. f_equal. by destruct w. }
  erewrite run_bind_ret by exact H1.
  assert (Hs1 : switches w1 !! self = Some s) by done.
  erewrite run_bind_ret by (by apply run_assign_switch).
  erewrite run_bind_ret
    by (apply run_assign_switch; cbn [switches upd_switches]; apply lookup_insert_eq).
  erewrite run_bind_ret
    by (apply run_get_switch; cbn [switches upd_switches]; apply lookup_insert_eq).
  cbn [_reconnectTimeout set_connection set__listeners].
  rewrite !upd_switches_twice.
  match goal with |- (?m ≫= ?k) ?w0 = _ =>
    assert (H2 : m w0 = (after_line_216 self s connection_ w, Ret tt)) end.
  { unfold after_line_216, cancel_timer.
    destruct (_reconnectTimeout s) as [t|] eqn:Ht.
    - unfold Timer.cancel. erewrite run_bind_ret by apply run_modify.
      erewrite run_assign_switch
        by (cbn [switches upd_switches upd_timers compose]; apply lookup_insert_eq).
      f_equal. destruct w; unfold w1, upd_switches, upd_timers, upd_con_listeners; cbn.
      f_equal. rewrite !insert_insert_eq. done.
    - rewrite run_mret. f_equal.
      destruct w, s; unfold w1, upd_switches, upd_timers, upd_con_listeners; cbn in *.
      f_equal. rewrite insert_insert_eq. by subst. }
  by erewrite run_bind_ret by exact H2.
Qed.

Lemma after_line_216_switch self s connection_ w :
  switches (after_line_216 self s connection_ w) !! self
  = Some (mkSwitch (dpid s) (ports s) (capabilities s) connection_ [] None).
Proof. unfold after_line_216. cbn [switches upd_switches]. apply lookup_insert_eq. Qed.

Lemma run_setConnection_None self s w :
  switches w !! self = Some s →
  OpenFlowSwitch._setConnection self None None w = (after_disconnect self s w, Ret tt).
Proof.
  intros Hs. rewrite (run_setConnection _ _ _ _ _ Hs).
  unfold Timer.new.
  erewrite run_bind_ret.
  2:{ erewrite run_bind_ret by reflexivity.
      apply run_assign_switch. cbn [switches upd_switches upd_timers after_line_216].
      apply lookup_insert_eq. }
  erewrite run_bind_ret by apply run_mret. rewrite run_mret. f_equal.
  unfold after_disconnect, after_line_216.
  destruct w; unfold upd_switches, upd_timers, upd_con_listeners; cbn.
  rewrite dom_cancel_timer, insert_insert_eq. done.
Qed.

(** ** Connection-up *)

(** The first connection-up of a switch ID: the whole handler, in closed form. *)
Lemma run_ConnectionUp_new event_dpid c ofp w :
  attrs (adaptor w) !! "topology"%string = Some true →
  topology_entities w !! event_dpid = None →
  NoDup (port_no <$> ofp_ports ofp) →
  ∃ T' H',
    let sw := fresh (dom (switches w)) in
    let l := fresh (dom (con_listeners w)) in
    OpenFlowTopology._handle_openflow_ConnectionUp event_dpid c ofp w
    = (upd_trace (λ t, t ++ [LogInfoConnected event_dpid; RaisedSwitchJoin sw])
         (upd_topology_entities <[event_dpid := sw]>
            (upd_switches
               <[sw := mkSwitch event_dpid T' (ofp_capabilities ofp) (Some c) [l] None]>
               (upd_con_listeners <[l := (c, sw)]>
                  (upd_portobjs (λ _, H') w)))), Ret tt) ∧
    dom T' = reported (ofp_ports ofp) ∧
    table_ok T' H' ∧
    (∀ p, p ∈ ofp_ports ofp →
       ∃ lp, portobjs w !! lp = None ∧ T' !! port_no p = Some lp ∧
             H' !! lp = Some (created p)) ∧
    (∀ lp o, portobjs w !! lp = Some o → H' !! lp = Some o).
Proof.
  intros Ht Hnone Hnd.
  set (sw := fresh (dom (switches w))).
  set (s0 := mkSwitch event_dpid ∅ 0 None [] None).
  set (w0 := upd_switches <[sw := s0]> w).
  set (s1 := mkSwitch event_dpid ∅ 0 (Some c) [] None).
  set (s2 := set_capabilities (ofp_capabilities ofp) s1).
  set (w2 := upd_switches <[sw := s2]> w).
  assert (Hs2 : switches w2 !! sw = Some s2).
  { cbn [w2 switches upd_switches]. apply lookup_insert_eq. }
  destruct (update_all_ports_end_state sw s2 (ofp_ports ofp) w2 Hs2)
    as (T' & H' & Hrun & Hdom & _ & _ & Hnew & Hfr & Hok'); [| done | |].
  { intros n l Hn. cbn in Hn. by rewrite lookup_empty in Hn. }
  { intros p l o _ Hl. cbn in Hl. by rewrite lookup_empty in Hl. }
  exists T', H'. cbn zeta. split; [|split; [done|split; [done|split]]].
  - unfold OpenFlowTopology._handle_openflow_ConnectionUp.
    erewrite run_bind_ret by (by apply run_getattr). cbn [negb].
    erewrite run_bind_ret by apply run_getEntityByID.
    rewrite Hnone.
    erewrite run_bind_ret.
    2:{ erewrite run_bind_ret by reflexivity. apply run_mret. }
    cbv beta iota. fold sw s0 w0.
    erewrite run_bind_ret.
    2:{ rewrite (run_setConnection sw s0) by (cbn [w0 switches upd_switches];
                                               apply lookup_insert_eq).
        erewrite run_bind_ret by apply run_mret.
        assert (Ha : after_line_216 sw s0 (Some c) w0 = upd_switches <[sw := s1]> w).
        { unfold after_line_216, w0, drop_listeners, cancel_timer, s0.
          cbn [connection _reconnectTimeout dpid ports capabilities].
          world_eq. by rewrite insert_insert_eq. }
        rewrite Ha.
        erewrite run_bind_ret.
        2:{ erewrite run_bind_ret
              by (apply run_assign_switch; cbn [switches upd_switches];
                  apply lookup_insert_eq).
            match goal with |- _ _ _ ?X = _ => replace X with w2 end; [exact Hrun|].
            unfold w2, s2. world_eq. by rewrite insert_insert_eq. }
        erewrite run_bind_ret by reflexivity.
        apply run_assign_switch. cbn [switches upd_switches upd_portobjs upd_con_listeners].
        apply lookup_insert_eq. }
    erewrite run_bind_ret by apply run_emit.
    unfold Topology.addEntity.
    erewrite run_bind_ret.
    2:{ erewrite run_bind_ret.
        2:{ apply run_get_switch.
            cbn [switches upd_switches upd_portobjs upd_con_listeners upd_trace].
            apply lookup_insert_eq. }
        apply run_modify. }
    rewrite run_emit. f_equal.
    unfold w2. world_eq.
    + by rewrite !insert_insert_eq.
    + by rewrite <- app_assoc.
  - intros p Hp. apply (Hnew p Hp). cbn. apply lookup_empty.
  - intros lp o Ho. apply Hfr; [done|]. intros n. cbn. by rewrite lookup_empty.
Qed.

#[export] Instance same_dpid_preorder : PreOrder same_dpid.
Proof. split; [done|]. unfold same_dpid. intros ???; congruence. Qed.

#[export] Instance same_link_preorder : PreOrder same_link.
Proof.
  split; [done|]. unfold same_link.
  intros ??? (?&?&?) (?&?&?). repeat split; congruence.
Qed.

#[export] Instance any_timers_preorder : PreOrder any_timers.
Proof. by split. Qed.

(** A connection-up for a known switch: lines 120-127 and 211-216 in closed
    form, then the rest. *)
Lemma run_ConnectionUp_existing event_dpid c ofp sw s w :
  attrs (adaptor w) !! "topology"%string = Some true →
  topology_entities w !! event_dpid = Some sw →
  switches w !! sw = Some s →
  OpenFlowTopology._handle_openflow_ConnectionUp event_dpid c ofp w
  = reconnect_rest event_dpid sw c ofp
      (after_line_216 sw s (Some c) (warned event_dpid s w)).
Proof.
  intros Ht Hsw Hs.
  unfold OpenFlowTopology._handle_openflow_ConnectionUp.
  erewrite run_bind_ret by (by apply run_getattr). cbn [negb].
  erewrite run_bind_ret by apply run_getEntityByID.
  rewrite Hsw.
  assert (Hw : (match connection s with
                | Some _ => emit (LogWarnAlreadyConnected event_dpid)
                | None => mret tt
                end) w = (warned event_dpid s w, Ret tt)).
  { unfold warned. by destruct (connection s). }
  erewrite run_bind_ret.
  2:{ erewrite run_bind_ret by (by apply run_get_switch).
      erewrite run_bind_ret by exact Hw. apply run_mret. }
  cbv beta iota.
  assert (Hs' : switches (warned event_dpid s w) !! sw = Some s).
  { unfold warned. by destruct (connection s). }
  unfold reconnect_rest. rewrite !run_bind.
  rewrite (run_setConnection _ _ _ _ _ Hs'). rewrite !run_bind.
  rewrite !run_mret.
  repeat match goal with |- context [match ?m ?w0 with _ => _ end] =>
    lazymatch m with
    | emit _ => fail
    | _ => destruct (m w0) as [? [[]|?]]
    end end; reflexivity.
Qed.

Lemma frame_reconnect_rest event_dpid sw c ofp :
  preserves (frame same_link eq) (reconnect_rest event_dpid sw c ofp).
Proof.
  unfold reconnect_rest.
  apply preserves_bind; [apply _| |intros ?].
  - apply preserves_bind; [apply _|apply preserves_ret; apply _|intros ?].
    apply (frame_setConnection_tail same_link eq) with (ofp := Some ofp)
      (connection_ := Some c); done.
  - apply preserves_bind; [apply _|apply frame_emit; [apply _..|exact I]|intros ?].
    apply preserves_ret; apply _.
Qed.

(** ** Events that keep the lifecycle of every switch *)

Ltac same_obj := intros; unfold same_dpid, same_link; by cbn.

Section frame_lifecycle.
Local Abbreviation R := (frame same_dpid any_timers).

Lemma frame_upd_timers f : preserves R (modify (upd_timers f)).
Proof.
  intros w. unfold modify, frame. world_fields. cbn [fst]. world_fields.
  split; [done|]. split; [done|]. split; [done|]. split; [|split; [done|split]].
  - exists []. by rewrite app_nil_r.
  - intros l s s' H1 H2. simplify_eq. reflexivity.
  - done.
Qed.

Lemma frame_Timer_new timeout cb : preserves R (Timer.new timeout cb).
Proof. intros w. apply (frame_upd_timers _ w). Qed.

Lemma frame_setConnection self connection_ ofp :
  preserves R (OpenFlowSwitch._setConnection self connection_ ofp).
Proof.
  unfold OpenFlowSwitch._setConnection.
  apply preserves_bind; [apply _|apply preserves_get_switch; apply _|]. intros s.
  apply preserves_bind; [apply _| |intros ?].
  { destruct (connection s); [apply frame_removeListeners; apply _|].
    apply preserves_ret; apply _. }
  apply preserves_bind; [apply _|apply frame_assign_switch; [apply _..|same_obj]|intros ?].
  apply preserves_bind; [apply _|apply frame_assign_switch; [apply _..|same_obj]|intros ?].
  apply preserves_bind; [apply _|apply preserves_get_switch; apply _|]. intros s'.
  apply preserves_bind; [apply _| |intros ?].
  { destruct (_reconnectTimeout s'); [|apply preserves_ret; apply _].
    apply preserves_bind; [apply _|apply frame_upd_timers|intros ?].
    apply frame_assign_switch; [apply _..|same_obj]. }
  apply preserves_bind; [apply _| |intros ?].
  { destruct connection_; [apply preserves_ret; apply _|].
    apply preserves_bind; [apply _|apply frame_Timer_new|intros t].
    apply frame_assign_switch; [apply _..|same_obj]. }
  apply (frame_setConnection_tail same_dpid any_timers); same_obj.
Qed.

Lemma frame_openflow_ConnectionDown event_dpid :
  preserves R (OpenFlowTopology._handle_openflow_ConnectionDown event_dpid).
Proof.
  unfold OpenFlowTopology._handle_openflow_ConnectionDown.
  apply preserves_bind; [apply _|apply preserves_getattr; apply _|]. intros b.
  destruct (negb b); [apply preserves_raise; apply _|].
  apply preserves_bind; [apply _|apply preserves_getEntityByID; apply _|]. intros o.
  destruct o as [sw|]; [|apply frame_emit; [apply _..|exact I]].
  apply preserves_bind; [apply _|apply preserves_get_switch; apply _|]. intros s.
  apply preserves_bind; [apply _| |intros ?].
  { destruct (connection s); [apply preserves_ret; apply _|].
    apply frame_emit; [apply _..|exact I]. }
  apply preserves_bind; [apply _|apply frame_assign_switch; [apply _..|same_obj]|intros ?].
  apply frame_emit; [apply _..|exact I].
Qed.

Lemma frame_from_connection c h :
  (∀ sw, preserves R (h sw)) → preserves R (EventLoop.from_connection c h).
Proof.
  intros Hh. unfold EventLoop.from_connection.
  apply preserves_bind; [apply _|apply preserves_get; apply _|]. intros w.
  by apply preserves_for_each; [apply _|].
Qed.

Lemma frame_from_component prefix h :
  preserves R h → preserves R (EventLoop.from_component prefix h).
Proof.
  intros Hh. unfold EventLoop.from_component.
  apply preserves_bind; [apply _|apply preserves_get; apply _|]. intros w.
  destruct (bool_decide _); [done|apply preserves_ret; apply _].
Qed.

Lemma frame_deliver_quiet e : quiet e → preserves R (EventLoop.deliver e).
Proof.
  destruct e; cbn [quiet EventLoop.deliver]; intros Hq; try done.
  - apply frame_from_component, frame_openflow_ConnectionDown.
  - apply frame_from_component. apply frame_LinkEvent; first [apply _|same_obj].
  - apply frame_from_connection. intros sw. apply frame_PortStatus; first [apply _|same_obj].
  - apply frame_from_connection. intros sw.
    apply frame_setConnection.
  - apply frame_from_connection. intros sw. apply frame_emit; [apply _..|exact I].
  - apply frame_from_connection. intros sw. apply frame_emit; [apply _..|exact I].
  - apply frame_from_connection. intros sw. apply frame_emit; [apply _..|exact I].
Qed.

Lemma frame_run_quiet es : Forall quiet es → ∀ w, R w (EventLoop.run es w).
Proof.
  induction 1 as [|e es He _ IH]; intros w; cbn [EventLoop.run]; [reflexivity|].
  etrans; [|apply IH]. by apply frame_deliver_quiet.
Qed.
End frame_lifecycle.

Lemma warned_fields event_dpid s w :
  switches (warned event_dpid s w) = switches w ∧
  portobjs (warned event_dpid s w) = portobjs w ∧
  timers (warned event_dpid s w) = timers w ∧
  con_listeners (warned event_dpid s w) = con_listeners w ∧
  components (warned event_dpid s w) = components w ∧
  topology_entities (warned event_dpid s w) = topology_entities w ∧
  adaptor (warned event_dpid s w) = adaptor w ∧
  trace (warned event_dpid s w)
  = trace w ++ match connection s with
               | Some _ => [LogWarnAlreadyConnected event_dpid]
               | None => []
               end.
Proof.
  unfold warned. destruct (connection s); world_fields; rewrite ?app_nil_r; done.
Qed.

(** A connection-up for a known switch, whatever its outcome: no entity is
    created or registered, the timer of the switch is cancelled, the new
    connection handle is installed, and nothing is said about joins and
    leaves. *)
Lemma ConnectionUp_existing_spec event_dpid c ofp sw s w :
  attrs (adaptor w) !! "topology"%string = Some true →
  topology_entities w !! event_dpid = Some sw →
  switches w !! sw = Some s →
  let w' := exec (OpenFlowTopology._handle_openflow_ConnectionUp event_dpid c ofp) w in
  topology_entities w' = topology_entities w ∧
  adaptor w' = adaptor w ∧
  components w' = components w ∧
  dom (switches w') = dom (switches w) ∧
  timers w' = cancel_timer s (timers w) ∧
  (∃ s', switches w' !! sw = Some s' ∧ dpid s' = dpid s ∧
         connection s' = Some c ∧ _reconnectTimeout s' = None) ∧
  (∃ rest, trace w' = trace (warned event_dpid s w) ++ rest ∧ Forall quiet_obs rest).
Proof.
  intros Ht Hsw Hs w'.
  pose proof (frame_reconnect_rest event_dpid sw c ofp
                (after_line_216 sw s (Some c) (warned event_dpid s w))) as Hfr.
  assert (Hw' : w' = (reconnect_rest event_dpid sw c ofp
                        (after_line_216 sw s (Some c) (warned event_dpid s w))).1).
  { unfold w', exec. by erewrite run_ConnectionUp_existing. }
  rewrite <- Hw' in Hfr. clear Hw'.
  destruct (warned_fields event_dpid s w) as (Hw1 & _ & Hw3 & _ & Hw5 & Hw6 & Hw7 & _).
  destruct Hfr as (Hf1 & Hf2 & Hf3 & Hf4 & Hf5 & Hf6 & Hf7).
  unfold after_line_216 in Hf1, Hf2, Hf3, Hf4, Hf5, Hf7. world_fields in Hf1. world_fields in Hf2. world_fields in Hf3.
  world_fields in Hf4. world_fields in Hf5. world_fields in Hf7.
  rewrite Hw1 in Hf5. rewrite Hw3 in Hf7.
  assert (Hd : dom (switches w') = dom (switches w)).
  { rewrite Hf5, dom_insert_L.
    assert (sw ∈ dom (switches w)) by (apply elem_of_dom; eauto). set_solver. }
  split; [congruence|]. split; [congruence|]. split; [congruence|].
  split; [done|]. split; [done|]. split; [|done].
  assert (is_Some (switches w' !! sw)) as [s' Hs'].
  { apply elem_of_dom. rewrite Hd. apply elem_of_dom; eauto. }
  exists s'. split; [done|].
  destruct (Hf6 sw _ s' (after_line_216_switch _ _ _ _) Hs') as (H1 & H2 & H3).
  done.
Qed.

(** ** Joins and leaves in the trace *)

Lemma joins_app t1 t2 : joins (t1 ++ t2) = joins t1 ++ joins t2.
Proof. apply omap_app. Qed.

Lemma leaves_app t1 t2 : leaves (t1 ++ t2) = leaves t1 ++ leaves t2.
Proof. apply omap_app. Qed.

Lemma joins_quiet t : Forall quiet_obs t → joins t = [].
Proof. induction 1 as [|o t Ho _ IH]; [done|]. by destruct o. Qed.

Lemma leaves_quiet t : Forall quiet_obs t → leaves t = [].
Proof. induction 1 as [|o t Ho _ IH]; [done|]. by destruct o. Qed.

Lemma frame_joins P Q w w' : frame P Q w w' → joins (trace w') = joins (trace w).
Proof.
  intros (_ & _ & _ & (rest & -> & Hq) & _).
  by rewrite joins_app, (joins_quiet _ Hq), app_nil_r.
Qed.

Lemma frame_leaves P Q w w' : frame P Q w w' → leaves (trace w') = leaves (trace w).
Proof.
  intros (_ & _ & _ & (rest & -> & Hq) & _).
  by rewrite leaves_app, (leaves_quiet _ Hq), app_nil_r.
Qed.

Lemma run_from_component prefix h w :
  prefix ∈ listening (adaptor w) → EventLoop.from_component prefix h w = h w.
Proof.
  intros Hl. unfold EventLoop.from_component.
  erewrite run_bind_ret by apply run_get. by rewrite (bool_decide_eq_true_2 _ Hl).
Qed.

Lemma run_from_component_deaf prefix h w :
  prefix ∉ listening (adaptor w) → EventLoop.from_component prefix h w = (w, Ret tt).
Proof.
  intros Hl. unfold EventLoop.from_component.
  erewrite run_bind_ret by apply run_get. by rewrite (bool_decide_eq_false_2 _ Hl).
Qed.

(** ** Identity across reconnection *)

(** C1.  A switch ID that the store does not know connects (with a port list
    of unique numbers), then any events happen that are neither a
    connection-up, nor a registration, nor a timer expiry (so: disconnects at
    either level, in any order, within the grace window), then the same ID
    connects again, with any handshake.  The first connect registers a switch
    object that did not exist; that same object is registered after every
    step; no other switch object is ever created; the join is raised on the
    first connect and never again; the last connect installs its connection
    handle.  Moreover a connection-up for a registered switch that is
    connected logs the already-connected warning, installs the new handle,
    creates no switch object and registers nothing. *)
Theorem C1_identity_across_reconnect event_dpid c1 ofp1 es c2 ofp2 w :
  "openflow"%string ∈ listening (adaptor w) →
  attrs (adaptor w) !! "topology"%string = Some true →
  topology_entities w !! event_dpid = None →
  NoDup (port_no <$> ofp_ports ofp1) →
  Forall quiet es →
  let sw := fresh (dom (switches w)) in
  let w1 := EventLoop.run [ConnectionUp event_dpid c1 ofp1] w in
  let w2 := EventLoop.run es w1 in
  let w3 := EventLoop.run [ConnectionUp event_dpid c2 ofp2] w2 in
  (switches w !! sw = None ∧
   topology_entities w1 !! event_dpid = Some sw ∧
   topology_entities w2 !! event_dpid = Some sw ∧
   topology_entities w3 !! event_dpid = Some sw ∧
   dom (switches w3) = dom (switches w) ∪ {[sw]} ∧
   joins (trace w1) = joins (trace w) ++ [sw] ∧
   joins (trace w2) = joins (trace w) ++ [sw] ∧
   joins (trace w3) = joins (trace w) ++ [sw] ∧
   (∃ s3, switches w3 !! sw = Some s3 ∧ dpid s3 = event_dpid ∧
          connection s3 = Some c2)) ∧
  (∀ d c ofp l s c0 v,
     attrs (adaptor v) !! "topology"%string = Some true →
     topology_entities v !! d = Some l →
     switches v !! l = Some s →
     connection s = Some c0 →
     let v' := exec (OpenFlowTopology._handle_openflow_ConnectionUp d c ofp) v in
     (∃ rest, trace v' = trace v ++ LogWarnAlreadyConnected d :: rest ∧
              Forall quiet_obs rest) ∧
     (∃ s', switches v' !! l = Some s' ∧ dpid s' = dpid s ∧ connection s' = Some c) ∧
     dom (switches v') = dom (switches v) ∧
     topology_entities v' = topology_entities v).
Proof.
  intros Hlis Ht Hnone Hnd Hq sw w1 w2 w3. split.
  - assert (Hfresh : switches w !! sw = None) by apply fresh_switch_None.
    destruct (run_ConnectionUp_new event_dpid c1 ofp1 w Ht Hnone Hnd)
      as (T' & H' & Hrun & _).
    cbn zeta in Hrun. fold sw in Hrun.
    assert (Hw1 : w1 = (OpenFlowTopology._handle_openflow_ConnectionUp
                          event_dpid c1 ofp1 w).1).
    { unfold w1. cbn [EventLoop.run EventLoop.deliver]. unfold exec.
      by rewrite run_from_component. }
    rewrite Hrun in Hw1. cbn [fst] in Hw1.
    assert (Hst1 : topology_entities w1 !! event_dpid = Some sw).
    { rewrite Hw1. world_fields. apply lookup_insert_eq. }
    assert (Hd1 : dom (switches w1) = dom (switches w) ∪ {[sw]}).
    { rewrite Hw1. world_fields. rewrite dom_insert_L. set_solver. }
    assert (Hj1 : joins (trace w1) = joins (trace w) ++ [sw]).
    { rewrite Hw1. world_fields. by rewrite joins_app. }
    assert (Ha1 : adaptor w1 = adaptor w) by (by rewrite Hw1).
    pose proof (frame_run_quiet es Hq w1) as Hfr. fold w2 in Hfr.
    pose proof (frame_joins _ _ _ _ Hfr) as Hj2.
    destruct Hfr as (Hst2 & Ha2 & _ & _ & Hd2 & Hsame & _).
    assert (is_Some (switches w2 !! sw)) as [s2 Hs2].
    { apply elem_of_dom. rewrite Hd2, Hd1. set_solver. }
    assert (Hdp2 : dpid s2 = event_dpid).
    { apply (Hsame sw (mkSwitch event_dpid T' (ofp_capabilities ofp1) (Some c1)
                                   [fresh (dom (con_listeners w))] None) s2);
        [|exact Hs2].
      rewrite Hw1. world_fields. apply lookup_insert_eq. }
    assert (Hw3 : w3 = exec (OpenFlowTopology._handle_openflow_ConnectionUp
                               event_dpid c2 ofp2) w2).
    { unfold w3. cbn [EventLoop.run EventLoop.deliver]. unfold exec.
      rewrite run_from_component; [done|]. by rewrite Ha2, Ha1. }
    destruct (ConnectionUp_existing_spec event_dpid c2 ofp2 sw s2 w2)
      as (Hst3 & _ & _ & Hd3 & _ & (s3 & Hs3 & Hdp3 & Hc3 & _) & (rest & Htr3 & Hq3)).
    { by rewrite Ha2, Ha1. }
    { by rewrite Hst2. }
    { done. }
    rewrite <- Hw3 in Hst3, Hd3, Hs3, Htr3.
    split; [done|]. split; [done|]. split; [by rewrite Hst2|].
    split; [by rewrite Hst3, Hst2|]. split; [by rewrite Hd3, Hd2|].
    split; [done|]. split; [by rewrite Hj2|]. split.
    + rewrite Htr3, joins_app, (joins_quiet _ Hq3), app_nil_r.
      destruct (warned_fields event_dpid s2 w2) as (_ & _ & _ & _ & _ & _ & _ & ->).
      rewrite joins_app, Hj2, Hj1.
      destruct (connection s2); cbn; by rewrite app_nil_r.
    + exists s3. split; [done|]. split; [|done].
      by rewrite Hdp3.
  - intros d c ofp l s c0 v Hv1 Hv2 Hv3 Hv4 v'.
    destruct (ConnectionUp_existing_spec d c ofp l s v Hv1 Hv2 Hv3)
      as (Hst & _ & _ & Hd & _ & (s' & Hs' & Hdp & Hc & _) & (rest & Htr & Hq')).
    fold v' in Hst, Hd, Hs', Htr.
    split; [|split; [by exists s'|done]].
    exists rest. split; [|done].
    destruct (warned_fields d s v) as (_ & _ & _ & _ & _ & _ & _ & Hwt).
    rewrite Htr, Hwt, Hv4, <- app_assoc. done.
Qed.

Lemma world_ready_listening : "openflow"%string ∈ listening (adaptor world_ready).
Proof. apply (bool_decide_unpack _). vm_compute. exact I. Qed.

Lemma world_ready_bound :
  attrs (adaptor world_ready) !! "topology"%string = Some true.
Proof. vm_compute; reflexivity. Qed.

Lemma NoDup_eth0_eth1 : NoDup (port_no <$> [eth0; eth1]).
Proof.
  cbn. apply NoDup_cons. split; [|apply NoDup_singleton].
  intros Hin%list_elem_of_singleton. discriminate.
Qed.

Lemma C1_identity_across_reconnect_witness :
  "openflow"%string ∈ listening (adaptor world_ready) ∧
  attrs (adaptor world_ready) !! "topology"%string = Some true ∧
  topology_entities world_ready !! 1 = None ∧
  NoDup (port_no <$> ofp_ports (mk_features 5 [eth0; eth1])) ∧
  Forall quiet [ConConnectionDown 7; ConnectionDown 1] ∧
  topology_entities
    (EventLoop.run [ConnectionUp 1 8 (mk_features 5 [eth0_renamed; eth2])]
       (EventLoop.run [ConConnectionDown 7; ConnectionDown 1]
          (EventLoop.run [ConnectionUp 1 7 (mk_features 5 [eth0; eth1])] world_ready)))
    !! 1
  = Some (fresh (dom (switches world_ready))).
Proof.
  assert (H3 : topology_entities world_ready !! 1 = None) by (vm_compute; reflexivity).
  assert (H5 : Forall quiet [ConConnectionDown 7; ConnectionDown 1])
    by (repeat constructor).
  split; [exact world_ready_listening|]. split; [exact world_ready_bound|].
  split; [exact H3|]. split; [exact NoDup_eth0_eth1|]. split; [exact H5|].
  exact (proj1 (proj2 (proj2 (proj2 (proj1
    (C1_identity_across_reconnect 1 7 (mk_features 5 [eth0; eth1])
       [ConConnectionDown 7; ConnectionDown 1] 8 (mk_features 5 [eth0_renamed; eth2])
       world_ready world_ready_listening world_ready_bound H3 NoDup_eth0_eth1 H5)))))).
Defined.

(** ** The grace window *)

Lemma after_disconnect_switch self s w :
  switches (after_disconnect self s w) !! self
  = Some (mkSwitch (dpid s) (ports s) (capabilities s) None []
            (Some (fresh (dom (timers w))))).
Proof. unfold after_disconnect. world_fields. apply lookup_insert_eq. Qed.

Lemma after_disconnect_timer self s w :
  timers (after_disconnect self s w) !! fresh (dom (timers w))
  = Some (mkTimer RECONNECT_TIMEOUT self true).
Proof. unfold after_disconnect. world_fields. apply lookup_insert_eq. Qed.

(** The expiry of a pending timer, when pox.core has the topology store. *)
Lemma run_expire t sw s o w :
  timers w !! t = Some o → pending o = true → callback o = sw →
  switches w !! sw = Some s →
  "topology"%string ∈ components w →
  EventLoop.expire t w
  = (upd_trace (λ tr, tr ++ [RaisedSwitchLeave sw])
       (upd_topology_entities (delete (dpid s))
          (upd_switches <[sw := set__reconnectTimeout None s]>
             (upd_timers <[t := cancelled o]> w))), Ret tt).
Proof.
  intros Ht Hp <- Hs Htop. unfold EventLoop.expire.
  erewrite run_bind_ret by apply run_get.
  rewrite Ht, Hp.
  erewrite run_bind_ret by apply run_modify.
  unfold OpenFlowSwitch._timer_ReconnectTimeout.
  erewrite run_bind_ret by (by apply run_assign_switch).
  erewrite run_bind_ret by apply run_get.
  world_fields. rewrite (bool_decide_eq_true_2 _ Htop).
  erewrite run_bind_ret.
  2:{ unfold Topology.removeEntity.
      erewrite run_bind_ret
        by (apply run_get_switch; world_fields; apply lookup_insert_eq).
      apply run_modify. }
  rewrite run_emit. reflexivity.
Qed.

Lemma run_expire_not_pending t w :
  (∀ o, timers w !! t = Some o → pending o = false) →
  EventLoop.expire t w = (w, Ret tt).
Proof.
  intros Hnp. unfold EventLoop.expire.
  erewrite run_bind_ret by apply run_get.
  destruct (timers w !! t) as [o|] eqn:Ht; [|done].
  by rewrite (Hnp o eq_refl).
Qed.

(** C2.  A switch disconnects: its own connection-down handler arms a timer
    for the grace period.  If the timer expires with no connection-up before
    (and pox.core has the topology store), the timer reference of the switch
    is cleared, the switch is removed from the store and exactly one leave is
    raised: a later expiry of the same timer does nothing.  If a connection-up
    for the switch arrives first, whatever its handshake, the timer is
    cancelled and the switch refers to no timer, no leave is raised, the
    switch stays registered, and the expiry of the cancelled timer does
    nothing. *)
Theorem C2_grace_window sw s w :
  switches w !! sw = Some s →
  let w1 := exec (OpenFlowSwitch._handle_con_ConnectionDown sw) w in
  let t := fresh (dom (timers w)) in
  ((∃ s1, switches w1 !! sw = Some s1 ∧ connection s1 = None ∧
          _reconnectTimeout s1 = Some t) ∧
   timers w1 !! t = Some (mkTimer RECONNECT_TIMEOUT sw true) ∧
   topology_entities w1 = topology_entities w ∧
   trace w1 = trace w) ∧
  ("topology"%string ∈ components w →
   let w2 := exec (EventLoop.expire t) w1 in
   eval (EventLoop.expire t) w1 = Ret tt ∧
   (∃ s2, switches w2 !! sw = Some s2 ∧ _reconnectTimeout s2 = None) ∧
   topology_entities w2 = delete (dpid s) (topology_entities w) ∧
   trace w2 = trace w1 ++ [RaisedSwitchLeave sw] ∧
   EventLoop.expire t w2 = (w2, Ret tt)) ∧
  (∀ c ofp,
     attrs (adaptor w) !! "topology"%string = Some true →
     topology_entities w !! dpid s = Some sw →
     let w2 := exec (OpenFlowTopology._handle_openflow_ConnectionUp (dpid s) c ofp) w1 in
     (∃ o, timers w2 !! t = Some o ∧ pending o = false) ∧
     (∃ s2, switches w2 !! sw = Some s2 ∧ _reconnectTimeout s2 = None ∧
            connection s2 = Some c) ∧
     leaves (trace w2) = leaves (trace w1) ∧
     topology_entities w2 = topology_entities w ∧
     EventLoop.expire t w2 = (w2, Ret tt)).
Proof.
  intros Hs w1 t.
  assert (Hw1 : w1 = after_disconnect sw s w).
  { unfold w1, exec, OpenFlowSwitch._handle_con_ConnectionDown.
    by rewrite (run_setConnection_None _ _ _ Hs). }
  set (s1 := mkSwitch (dpid s) (ports s) (capabilities s) None [] (Some t)).
  assert (Hs1 : switches w1 !! sw = Some s1)
    by (rewrite Hw1; apply after_disconnect_switch).
  assert (Ht1 : timers w1 !! t = Some (mkTimer RECONNECT_TIMEOUT sw true))
    by (rewrite Hw1; apply after_disconnect_timer).
  assert (Hst1 : topology_entities w1 = topology_entities w) by (by rewrite Hw1).
  assert (Htr1 : trace w1 = trace w) by (by rewrite Hw1).
  split; [|split].
  - split; [by exists s1|done].
  - intros Htop w2.
    assert (Hrun : EventLoop.expire t w1
                   = (upd_trace (λ tr, tr ++ [RaisedSwitchLeave sw])
                        (upd_topology_entities (delete (dpid s1))
                           (upd_switches <[sw := set__reconnectTimeout None s1]>
                              (upd_timers
                                 <[t := cancelled (mkTimer RECONNECT_TIMEOUT sw true)]>
                                 w1))), Ret tt)).
    { eapply run_expire; try done. by rewrite Hw1. }
    unfold w2, exec, eval. rewrite Hrun. cbn [fst snd]. world_fields.
    split; [done|]. split; [|split; [by rewrite Hst1|split; [done|]]].
    + eexists. split; [apply lookup_insert_eq|done].
    + apply run_expire_not_pending. world_fields. intros o.
      rewrite lookup_insert_eq. by intros [= <-].
  - intros c ofp Hbound Hreg w2.
    destruct (ConnectionUp_existing_spec (dpid s) c ofp sw s1 w1)
      as (Hst & _ & _ & _ & Htm & (s2 & Hs2 & _ & Hc2 & Ht2) & (rest & Htr & Hq));
      [by rewrite Hw1|by rewrite Hst1|done|].
    fold w2 in Hst, Htm, Hs2, Htr.
    assert (Hcancel : timers w2 !! t = Some (cancelled (mkTimer RECONNECT_TIMEOUT sw true))).
    { rewrite Htm. unfold cancel_timer. cbn [s1 _reconnectTimeout].
      by rewrite lookup_alter_eq, Ht1. }
    split; [by eexists|]. split; [by exists s2|]. split; [|split].
    + rewrite Htr. unfold warned. cbn [s1 connection].
      by rewrite leaves_app, (leaves_quiet _ Hq), app_nil_r.
    + by rewrite Hst.
    + apply run_expire_not_pending. intros o. rewrite Hcancel. by intros [= <-].
Qed.

Lemma C2_grace_window_witness :
  switches world_one_switch !! 0%nat
  = Some (mkSwitch 1 {[1 := 0%nat; 2 := 1%nat]} 5 (Some 7%nat) [0%nat] None) ∧
  timers (exec (OpenFlowSwitch._handle_con_ConnectionDown 0) world_one_switch)
    !! fresh (dom (timers world_one_switch))
  = Some (mkTimer RECONNECT_TIMEOUT 0 true).
Proof.
  split; [exact world_one_switch_0|].
  exact (proj1 (proj2 (proj1
    (C2_grace_window 0 _ world_one_switch world_one_switch_0)))).
Defined.

(** ** Connection-down *)

Lemma run_openflow_ConnectionDown event_dpid sw s w :
  attrs (adaptor w) !! "topology"%string = Some true →
  topology_entities w !! event_dpid = Some sw →
  switches w !! sw = Some s →
  OpenFlowTopology._handle_openflow_ConnectionDown event_dpid w
  = (upd_trace (λ t, t ++ [LogInfoDisconnected event_dpid])
       (upd_switches <[sw := set_connection None s]>
          (match connection s with
           | Some _ => w
           | None => upd_trace (λ t, t ++ [LogWarnWasNotConnected event_dpid]) w
           end)), Ret tt).
Proof.
  intros Ht Hsw Hs. unfold OpenFlowTopology._handle_openflow_ConnectionDown.
  erewrite run_bind_ret by (by apply run_getattr). cbn [negb].
  erewrite run_bind_ret by apply run_getEntityByID.
  rewrite Hsw.
  erewrite run_bind_ret by (by apply run_get_switch).
  destruct (connection s).
  - erewrite run_bind_ret by apply run_mret.
    erewrite run_bind_ret by (by apply run_assign_switch).
    by rewrite run_emit.
  - erewrite run_bind_ret by apply run_emit.
    erewrite run_bind_ret by (by apply run_assign_switch).
    by rewrite run_emit.
Qed.

(** C3 as stated fails.  After the adaptor's connection-down handler, switch
    1 has no connection handle and no timer reference, no timer exists, and
    the switch is still registered.  After the connection-down of the nexus
    and then that of connection 7, the timer is armed, but the switch still
    observes connection 7: its registration was not dropped. *)
Lemma C3_nexus_disconnect_counterexample :
  let w1 := EventLoop.run [ConnectionDown 1] world_one_switch in
  let w2 := EventLoop.run [ConnectionDown 1; ConConnectionDown 7] world_one_switch in
  (∃ s, switches w1 !! 0%nat = Some s ∧
        connection s = None ∧ _reconnectTimeout s = None ∧
        timers w1 = ∅ ∧
        topology_entities w1 !! dpid s = Some 0%nat) ∧
  (∃ s, switches w2 !! 0%nat = Some s ∧
        connection s = None ∧ _reconnectTimeout s = Some 0%nat ∧
        timers w2 !! 0%nat = Some (mkTimer RECONNECT_TIMEOUT 0 true) ∧
        EventMixin.subscribers 7 w2 = [0%nat]).
Proof.
  cbn zeta. split.
  - eexists. split; [vm_compute; reflexivity|].
    repeat split; vm_compute; reflexivity.
  - eexists. split; [vm_compute; reflexivity|].
    repeat split; vm_compute; reflexivity.
Qed.


(** ** The dependency gate *)

Lemma upd_adaptor_twice f g w :
  upd_adaptor f (upd_adaptor g w) = upd_adaptor (f ∘ g) w.
Proof. reflexivity. Qed.

Lemma adaptor_ext a a' :
  _wantComponents a = _wantComponents a' → wantComponents a = wantComponents a' →
  attrs a = attrs a' → listening a = listening a' →
  listening_core a = listening_core a' → a = a'.
Proof. destruct a, a'; cbn. by intros -> -> -> -> ->. Qed.

Lemma resolved_attrs_lookup C cs m c :
  resolved_attrs C cs m !! c
  = if decide (c ∈ cs) then Some (bool_decide (c ∈ C)) else m !! c.
Proof.
  revert m. induction cs as [|x cs IH]; intros m; cbn.
  - by rewrite decide_False by apply not_elem_of_nil.
  - unfold resolved_attrs in *. rewrite IH.
    destruct (decide (c ∈ cs)) as [Hin|Hin].
    + rewrite decide_True; [done|]. by apply list_elem_of_further.
    + destruct (decide (c = x)) as [->|Hne].
      * rewrite lookup_insert_eq, decide_True; [done|]. apply list_elem_of_here.
      * rewrite lookup_insert_ne by done.
        rewrite decide_False; [done|]. by intros [?|?]%elem_of_cons.
Qed.

Lemma run_resolve_one G c w :
  OpenFlowTopology.resolve_one G c w
  = (upd_adaptor
       (λ a, mkAdaptor (_wantComponents a) (wantComponents a)
               (<[c := bool_decide (c ∈ components w)]> (attrs a))
               (listening a ∪ ({[c]} ∩ components w)) (listening_core a)) w,
     Ret (G ∪ ({[c]} ∩ components w))).
Proof.
  unfold OpenFlowTopology.resolve_one, OpenFlowTopology.hasComponent.
  erewrite run_bind_ret.
  2:{ erewrite run_bind_ret by apply run_get. apply run_mret. }
  destruct (decide (c ∈ components w)) as [Hc|Hc].
  - rewrite (bool_decide_eq_true_2 _ Hc).
    unfold OpenFlowTopology.assign.
    erewrite run_bind_ret by apply run_modify.
    erewrite run_bind_ret by apply run_modify.
    rewrite run_mret. f_equal.
    + world_eq. apply adaptor_ext; cbn; try done. f_equal. set_solver.
    + f_equal. set_solver.
  - rewrite (bool_decide_eq_false_2 _ Hc).
    unfold OpenFlowTopology.assign.
    erewrite run_bind_ret by apply run_modify.
    rewrite run_mret. f_equal.
    + world_eq. apply adaptor_ext; cbn; try done. set_solver.
    + f_equal. set_solver.
Qed.

Lemma run_resolve_loop cs : ∀ w G,
  foldM OpenFlowTopology.resolve_one G cs w
  = (upd_adaptor
       (λ a, mkAdaptor (_wantComponents a) (wantComponents a)
               (resolved_attrs (components w) cs (attrs a))
               (listening a ∪ (list_to_set cs ∩ components w)) (listening_core a)) w,
     Ret (G ∪ (list_to_set cs ∩ components w))).
Proof.
  induction cs as [|c cs IH]; intros w G; cbn [foldM].
  - rewrite run_mret. f_equal.
    + world_eq. apply adaptor_ext; cbn; try done. set_solver.
    + f_equal. set_solver.
  - erewrite run_bind_ret by apply run_resolve_one.
    rewrite IH. world_fields. f_equal.
    + world_eq. apply adaptor_ext; cbn; try done. set_solver.
    + f_equal. set_solver.
Qed.

Lemma run_want_remove c W w :
  _wantComponents (adaptor w) = Some W → c ∈ W →
  OpenFlowTopology.want_remove c w
  = (upd_adaptor (OpenFlowTopology.set__wantComponents (Some (W ∖ {[c]}))) w, Ret tt).
Proof.
  intros HW Hc. unfold OpenFlowTopology.want_remove.
  erewrite run_bind_ret by apply run_get.
  by rewrite HW, (bool_decide_eq_true_2 _ Hc).
Qed.

Lemma run_remove_loop ks : ∀ w W,
  _wantComponents (adaptor w) = Some W →
  (∀ k, k ∈ ks → k ∈ W) → NoDup ks →
  for_each ks OpenFlowTopology.want_remove w
  = (upd_adaptor (OpenFlowTopology.set__wantComponents (Some (W ∖ list_to_set ks))) w,
     Ret tt).
Proof.
  induction ks as [|k ks IH]; intros w W HW Hin Hnd.
  - rewrite for_each_nil. f_equal. world_eq.
    apply adaptor_ext; cbn; try done. rewrite HW. f_equal. set_solver.
  - apply NoDup_cons in Hnd as [Hk Hnd].
    rewrite for_each_cons.
    erewrite run_want_remove; [|done|apply Hin, list_elem_of_here].
    erewrite IH; [|reflexivity| |done].
    + f_equal. world_eq. apply adaptor_ext; cbn; try done. f_equal. set_solver.
    + intros x Hx. apply elem_of_difference. split.
      * apply Hin. by apply list_elem_of_further.
      * apply not_elem_of_singleton. intros ->. done.
Qed.

Lemma size_zero_iff (W : gset string) : size W = 0%nat ↔ W = ∅.
Proof. rewrite size_empty_iff. apply leibniz_equiv_iff. Qed.

Lemma run_resolveComponents_nothing w :
  _wantComponents (adaptor w) = None ∨ _wantComponents (adaptor w) = Some ∅ →
  OpenFlowTopology._resolveComponents w
  = (upd_adaptor (OpenFlowTopology.set__wantComponents None) w, Ret true).
Proof.
  intros Hw. unfold OpenFlowTopology._resolveComponents.
  erewrite run_bind_ret by apply run_get.
  destruct Hw as [-> | ->]; [done|].
  by rewrite bool_decide_eq_true_2 by (by apply size_zero_iff).
Qed.

Lemma run_resolveComponents W w :
  _wantComponents (adaptor w) = Some W → W ≠ ∅ →
  OpenFlowTopology._resolveComponents w
  = if decide (W ⊆ components w) then
      (upd_trace (λ t, t ++ [LogDebugReady])
         (upd_adaptor
            (λ a, OpenFlowTopology.set_wantComponents (Some tt)
                    (resolved W (components w) a)) w), Ret true)
    else (upd_adaptor (resolved W (components w)) w, Ret false).
Proof.
  intros HW Hne. unfold OpenFlowTopology._resolveComponents.
  erewrite run_bind_ret by apply run_get. rewrite HW.
  rewrite bool_decide_eq_false_2 by (by rewrite size_zero_iff).
  erewrite run_bind_ret by apply run_resolve_loop.
  set (w1 := upd_adaptor _ w).
  assert (Hgot : (∅ ∪ (list_to_set (elements W) ∩ components w) : gset string)
                 = W ∩ components w).
  { rewrite list_to_set_elements_L. set_solver. }
  rewrite Hgot.
  erewrite run_bind_ret.
  2:{ apply (run_remove_loop _ w1 W).
      - unfold w1. world_fields. done.
      - intros k Hk%elem_of_elements. set_solver.
      - apply NoDup_elements. }
  rewrite list_to_set_elements_L.
  erewrite run_bind_ret by apply run_get.
  world_fields. cbn [_wantComponents OpenFlowTopology.set__wantComponents].
  assert (Hw' : upd_adaptor
                  (OpenFlowTopology.set__wantComponents
                     (Some (W ∖ (W ∩ components w)))) w1
                = upd_adaptor (resolved W (components w)) w).
  { unfold w1. world_eq. apply adaptor_ext; cbn; try done.
    - f_equal. set_solver.
    - f_equal. rewrite list_to_set_elements_L. done. }
  rewrite Hw'.
  destruct (decide (W ⊆ components w)) as [Hsub|Hsub].
  - rewrite bool_decide_eq_true_2 by (apply size_zero_iff; set_solver).
    unfold OpenFlowTopology.assign.
    erewrite run_bind_ret by apply run_modify.
    erewrite run_bind_ret by apply run_emit.
    by rewrite run_mret.
  - rewrite bool_decide_eq_false_2; [done|].
    rewrite size_zero_iff. intros Hempty. apply Hsub. set_solver.
Qed.

Lemma ready_count_app t1 t2 : ready_count (t1 ++ t2) = (ready_count t1 + ready_count t2)%nat.
Proof. unfold ready_count. by rewrite List.filter_app, length_app. Qed.

Lemma gate_inv_resolved W W' w :
  _wantComponents (adaptor w) = Some W' → W' ≠ ∅ → W' ⊆ W →
  (∀ c, c ∈ W → c ∉ W' → c ∈ components w) →
  (∀ c, c ∉ W' → attrs (adaptor w) !! c = if decide (c ∈ W) then Some true else None) →
  listening (adaptor w) = W ∖ W' →
  wantComponents (adaptor w) = None →
  ready_count (trace w) = 0%nat →
  let r := OpenFlowTopology._resolveComponents w in
  r.2 = Ret (bool_decide (W ⊆ components w)) ∧
  components r.1 = components w ∧
  _wantComponents (adaptor r.1) = Some (W ∖ components w) ∧
  wantComponents (adaptor r.1) = (if decide (W ⊆ components w) then Some tt else None) ∧
  (∀ c, attrs (adaptor r.1) !! c
        = if decide (c ∈ W) then Some (bool_decide (c ∈ components w)) else None) ∧
  listening (adaptor r.1) = W ∩ components w ∧
  listening_core (adaptor r.1) = listening_core (adaptor w) ∧
  ready_count (trace r.1) = (if decide (W ⊆ components w) then 1 else 0)%nat.
Proof.
  intros HW' HW'ne Hsub Hdone Hattrs Hlis Htypo Hcnt r.
  assert (Hiff : W' ⊆ components w ↔ W ⊆ components w).
  { split; [|set_solver]. intros H c Hc.
    destruct (decide (c ∈ W')); [set_solver|by apply Hdone]. }
  assert (Hwant : W' ∖ components w = W ∖ components w).
  { apply set_eq. intros c. rewrite !elem_of_difference. split; [set_solver|].
    intros [Hc Hn]. split; [|done].
    destruct (decide (c ∈ W')); [done|]. exfalso. by apply Hn, Hdone. }
  assert (Hlis' : listening (adaptor w) ∪ W' ∩ components w = W ∩ components w).
  { rewrite Hlis. apply set_eq. intros c.
    rewrite elem_of_union, !elem_of_intersection, elem_of_difference.
    split.
    - intros [[Hc Hn]|[Hc Hn]]; [|set_solver]. split; [done|by apply Hdone].
    - intros [Hc Hn]. destruct (decide (c ∈ W')); [by right|by left]. }
  assert (Hattrs' : ∀ c, resolved_attrs (components w) (elements W') (attrs (adaptor w)) !! c
                         = if decide (c ∈ W) then Some (bool_decide (c ∈ components w))
                           else None).
  { intros c. rewrite resolved_attrs_lookup.
    destruct (decide (c ∈ elements W')) as [Hc|Hc].
    - rewrite elem_of_elements in Hc. rewrite decide_True; [done|]. by apply Hsub.
    - rewrite elem_of_elements in Hc. rewrite Hattrs by done.
      destruct (decide (c ∈ W)); [|done].
      by rewrite bool_decide_eq_true_2 by (by apply Hdone). }
  unfold r. rewrite (run_resolveComponents W' w HW' HW'ne).
  destruct (decide (W' ⊆ components w)) as [Hs|Hs].
  - assert (Hs' : W ⊆ components w) by (by apply Hiff).
    rewrite (decide_True (P := W ⊆ components w)) by done.
    rewrite (bool_decide_eq_true_2 _ Hs').
    cbn [fst snd]. world_fields.
    cbn [resolved OpenFlowTopology.set_wantComponents _wantComponents wantComponents
         attrs listening listening_core].
    rewrite ready_count_app, Hcnt, Hwant, Hlis'.
    repeat split; try done. by rewrite decide_True.
  - assert (Hs' : ¬ W ⊆ components w) by (by rewrite <- Hiff).
    rewrite (decide_False (P := W ⊆ components w)) by done.
    rewrite (bool_decide_eq_false_2 _ Hs').
    cbn [fst snd]. world_fields.
    cbn [resolved _wantComponents wantComponents attrs listening listening_core].
    rewrite Hwant, Hlis'.
    repeat split; try done. by rewrite decide_False.
Qed.

Ltac gate_close :=
  repeat split; try done;
  first [ by rewrite decide_True by done
        | by rewrite decide_False by done
        | by rewrite bool_decide_eq_true_2 by done
        | by rewrite bool_decide_eq_false_2 by (by intros ?)
        | idtac ].

Lemma gate_init_inv W C :
  W ≠ ∅ →
  gate_inv W (gate_init (Some W) C) ∧ components (gate_init (Some W) C) = C.
Proof.
  intros HW. unfold gate_init, exec, OpenFlowTopology.__init__.
  erewrite run_bind_ret by apply run_modify.
  set (w0 := upd_adaptor _ _).
  destruct (gate_inv_resolved W W w0) as (Hr & Hc & H1 & H2 & H3 & H4 & H5 & H6);
    try done.
  { intros c Hc. cbn. rewrite lookup_empty. by rewrite decide_False. }
  { cbn. set_solver. }
  rewrite run_bind.
  destruct (OpenFlowTopology._resolveComponents w0) as [w1 o]. cbn [fst snd] in *.
  subst o. change (components w0) with C in *.
  change (listening_core (adaptor w0)) with false in H5.
  destruct (decide (W ⊆ C)) as [Hs|Hs].
  - rewrite (bool_decide_eq_true_2 _ Hs). cbn [negb]. rewrite run_mret. cbn [fst].
    split; [|done]. unfold gate_inv. rewrite Hc.
    rewrite H1, H2, H4, H5, H6. gate_close.
  - rewrite (bool_decide_eq_false_2 _ Hs). cbn [negb].
    unfold OpenFlowTopology.assign. rewrite run_modify. cbn [fst]. world_fields.
    split; [|done]. unfold gate_inv. world_fields. rewrite Hc.
    cbn [OpenFlowTopology.set_listening_core _wantComponents wantComponents attrs
         listening listening_core].
    rewrite H1, H2, H4, H6. gate_close.
Qed.

Lemma gate_register_inv W n w :
  gate_inv W w →
  gate_inv W (exec (EventLoop.register n) w) ∧
  components (exec (EventLoop.register n) w) = components w ∪ {[n]}.
Proof.
  intros (H1 & H2 & H3 & H4 & H5 & H6).
  unfold exec, EventLoop.register.
  erewrite run_bind_ret by apply run_modify.
  erewrite run_bind_ret by apply run_get.
  set (w0 := upd_components _ w).
  assert (HC : components w0 = components w ∪ {[n]}) by done.
  change (adaptor w0) with (adaptor w). rewrite H5.
  destruct (decide (W ⊆ components w)) as [Hs|Hs].
  - (* ready: the handler is not listening *)
    rewrite bool_decide_eq_false_2 by (by intros ?).
    rewrite run_mret. cbn [fst]. split; [|done].
    assert (Hs' : W ⊆ components w0) by (rewrite HC; set_solver).
    unfold gate_inv. change (adaptor w0) with (adaptor w).
    change (trace w0) with (trace w).
    rewrite H1, H2, H4, H5, H6.
    split; [f_equal; set_solver|].
    split; [by rewrite decide_True|].
    split; [|split; [set_solver|split]].
    + intros c. rewrite H3. destruct (decide (c ∈ W)); [|done].
      by rewrite !bool_decide_eq_true_2 by set_solver.
    + by rewrite !bool_decide_eq_false_2 by (by intros ?).
    + by rewrite decide_True.
  - (* not ready: the handler resolves again *)
    rewrite bool_decide_eq_true_2 by done.
    destruct (gate_inv_resolved W (W ∖ components w) w0)
      as (Hr & Hc & G1 & G2 & G3 & G4 & G5 & G6); try done.
    { intros He. apply Hs. intros c Hc.
      destruct (decide (c ∈ components w)); [done|]. exfalso. set_solver. }
    { set_solver. }
    { intros c Hc Hn. rewrite HC. apply elem_of_union_l.
      destruct (decide (c ∈ components w)); [done|]. exfalso. apply Hn. set_solver. }
    { intros c Hn. change (adaptor w0) with (adaptor w). rewrite H3.
      destruct (decide (c ∈ W)); [|done].
      rewrite bool_decide_eq_true_2; [done|].
      destruct (decide (c ∈ components w)); [done|]. exfalso. apply Hn. set_solver. }
    { change (adaptor w0) with (adaptor w). rewrite H4.
      apply set_eq. intros c. rewrite elem_of_intersection, !elem_of_difference.
      split.
      - intros [Hc Hin]. split; [done|]. by intros [_ ?].
      - intros [Hc Hn]. split; [done|].
        destruct (decide (c ∈ components w)); [done|]. exfalso. by apply Hn. }
    unfold OpenFlowTopology._handle_ComponentRegistered.
    rewrite !run_bind.
    destruct (OpenFlowTopology._resolveComponents w0) as [w1 o]. cbn [fst snd] in *.
    subst o. rewrite run_mret.
    change (listening_core (adaptor w0)) with (listening_core (adaptor w)) in G5.
    rewrite H5, bool_decide_eq_true_2 in G5 by done.
    destruct (decide (W ⊆ components w0)) as [Hs'|Hs'].
    + rewrite (bool_decide_eq_true_2 _ Hs').
      unfold OpenFlowTopology.assign. rewrite run_modify. cbn [fst]. world_fields.
      split; [|by rewrite Hc]. unfold gate_inv. world_fields. rewrite Hc.
      cbn [OpenFlowTopology.set_listening_core _wantComponents wantComponents attrs
           listening listening_core].
      rewrite G1, G2, G4, G6. gate_close.
    + rewrite (bool_decide_eq_false_2 _ Hs'). rewrite run_mret. cbn [fst].
      split; [|by rewrite Hc]. unfold gate_inv. rewrite Hc.
      rewrite G1, G2, G4, G5, G6. gate_close.
Qed.

Lemma gate_run_inv W names : ∀ w,
  gate_inv W w →
  gate_inv W (EventLoop.run (registrations names) w) ∧
  components (EventLoop.run (registrations names) w)
  = components w ∪ list_to_set names.
Proof.
  induction names as [|n names IH]; intros w Hinv; cbn [registrations fmap list_fmap EventLoop.run].
  - split; [done|]. cbn. set_solver.
  - destruct (gate_register_inv W n w Hinv) as [Hinv' Hc'].
    destruct (IH _ Hinv') as [Hinv'' Hc''].
    split; [exact Hinv''|].
    etrans; [exact Hc''|]. cbn [EventLoop.deliver]. rewrite Hc'. cbn. set_solver.
Qed.

Lemma run_register_ready n w :
  gate_ready w →
  EventLoop.deliver (ComponentRegistered n) w
  = (upd_components (λ cs, cs ∪ {[n]}) w, Ret tt).
Proof.
  intros Hr. cbn [EventLoop.deliver]. unfold EventLoop.register.
  erewrite run_bind_ret by apply run_modify.
  erewrite run_bind_ret by apply run_get.
  world_fields. unfold gate_ready in Hr. by rewrite Hr.
Qed.

Lemma run_registrations_ready names : ∀ w,
  gate_ready w →
  adaptor (EventLoop.run (registrations names) w) = adaptor w ∧
  trace (EventLoop.run (registrations names) w) = trace w ∧
  components (EventLoop.run (registrations names) w)
  = components w ∪ list_to_set names.
Proof.
  induction names as [|n names IH]; intros w Hr; cbn [registrations fmap list_fmap EventLoop.run].
  - repeat split. cbn. set_solver.
  - unfold exec. rewrite (run_register_ready _ _ Hr). cbn [fst].
    destruct (IH (upd_components (λ cs, cs ∪ {[n]}) w)) as (Ha & Ht & Hc); [done|].
    split; [done|]. split; [done|].
    etrans; [exact Hc|]. world_fields. cbn. set_solver.
Qed.

Lemma gate_init_idle W C :
  W = None ∨ W = Some ∅ →
  gate_init W C
  = upd_adaptor (λ _, idle_adaptor) (upd_components (λ _, C) empty_world).
Proof.
  intros HW. unfold gate_init, exec, OpenFlowTopology.__init__.
  erewrite run_bind_ret by apply run_modify.
  erewrite run_bind_ret.
  2:{ apply run_resolveComponents_nothing. world_fields. cbn. by destruct HW as [-> | ->]; [left|right]. }
  cbn [negb]. rewrite run_mret. cbn [fst]. world_eq.
Qed.

Lemma run_LinkEvent_unbound ev w :
  attrs (adaptor w) !! "topology"%string = Some false →
  OpenFlowTopology._handle_openflow_discovery_LinkEvent ev w = (w, Ret tt).
Proof.
  intros Hf. unfold OpenFlowTopology._handle_openflow_discovery_LinkEvent.
  by erewrite run_bind_ret by (by apply run_getattr).
Qed.

Lemma gate_inv_adaptor W w w' :
  gate_inv W w → gate_inv W w' → components w = components w' →
  adaptor w = adaptor w'.
Proof.
  intros (H1 & H2 & H3 & H4 & H5 & _) (G1 & G2 & G3 & G4 & G5 & _) Hc.
  apply adaptor_ext.
  - by rewrite H1, G1, Hc.
  - by rewrite H2, G2, Hc.
  - apply map_eq. intros c. by rewrite H3, G3, Hc.
  - by rewrite H4, G4, Hc.
  - by rewrite H5, G5, Hc.
Qed.

(** The world of a gate that wants [W], once [names] have registered on top of [C0]. *)
Lemma gate_state W C0 names :
  let w := EventLoop.run (registrations names) (gate_init W C0) in
  components w = C0 ∪ list_to_set names ∧
  match W with
  | Some W' =>
      if decide (W' = ∅) then adaptor w = idle_adaptor ∧ trace w = []
      else gate_inv W' w
  | None => adaptor w = idle_adaptor ∧ trace w = []
  end.
Proof.
  intros w. unfold w.
  assert (Hidle : W = None ∨ W = Some ∅ →
                  components (EventLoop.run (registrations names) (gate_init W C0))
                  = C0 ∪ list_to_set names ∧
                  adaptor (EventLoop.run (registrations names) (gate_init W C0))
                  = idle_adaptor ∧
                  trace (EventLoop.run (registrations names) (gate_init W C0)) = []).
  { intros HW. rewrite (gate_init_idle _ _ HW).
    destruct (run_registrations_ready names
                (upd_adaptor (λ _, idle_adaptor) (upd_components (λ _, C0) empty_world)))
      as (Ha & Ht & Hc); [done|].
    by rewrite Ha, Ht, Hc. }
  destruct W as [W'|].
  - destruct (decide (W' = ∅)) as [->|Hne].
    + destruct Hidle as (? & ? & ?); [by right|done].
    + destruct (gate_init_inv W' C0 Hne) as [Hinv Hc].
      destruct (gate_run_inv W' names _ Hinv) as [Hinv' Hc'].
      split; [by rewrite Hc', Hc|done].
  - destruct Hidle as (? & ? & ?); [by left|done].
Qed.

(** C7, as the code has it.  For every set of wanted collaborators, every
    set of collaborators registered when the adaptor is created and every
    sequence of later registrations: the gate is ready exactly when every
    wanted collaborator has registered (at once if nothing is wanted),
    whatever the order; "ready" is logged at most once, and only by a ready
    gate; a ready gate stays ready; once ready the gate does not listen to
    registrations, which then change nothing of the adaptor; the state of
    the adaptor depends on the set of registered collaborators only.  The
    adaptor observes the events of a collaborator exactly when it is wanted
    and registered, ready or not; a link event that arrives while the wanted
    topology store has not registered is ignored: nothing changes and nothing
    is raised. *)
Theorem C7_dependency_gate W C0 names :
  let wanted : gset string := default ∅ W in
  let w := EventLoop.run (registrations names) (gate_init W C0) in
  (gate_ready w ↔ wanted ⊆ C0 ∪ list_to_set names) ∧
  (ready_count (trace w) ≤ 1)%nat ∧
  (ready_count (trace w) = 1%nat → gate_ready w) ∧
  (∀ more, gate_ready w →
     gate_ready (EventLoop.run (registrations more) w) ∧
     adaptor (EventLoop.run (registrations more) w) = adaptor w ∧
     trace (EventLoop.run (registrations more) w) = trace w) ∧
  (∀ n, gate_ready w →
     EventLoop.deliver (ComponentRegistered n) w
     = (upd_components (λ cs, cs ∪ {[n]}) w, Ret tt)) ∧
  (∀ names', list_to_set names' =@{gset string} list_to_set names →
     adaptor (EventLoop.run (registrations names') (gate_init W C0)) = adaptor w) ∧
  (∀ c, c ∈ listening (adaptor w) ↔ c ∈ wanted ∧ c ∈ C0 ∪ list_to_set names) ∧
  (∀ ev, "topology"%string ∈ wanted → "topology"%string ∉ C0 ∪ list_to_set names →
     OpenFlowTopology._handle_openflow_discovery_LinkEvent ev w = (w, Ret tt)).
Proof.
  intros wanted w.
  destruct (gate_state W C0 names) as [Hc Hst]. fold w in Hc, Hst.
  assert (Hmore : ∀ more, gate_ready w →
            gate_ready (EventLoop.run (registrations more) w) ∧
            adaptor (EventLoop.run (registrations more) w) = adaptor w ∧
            trace (EventLoop.run (registrations more) w) = trace w).
  { intros more Hr. destruct (run_registrations_ready more w Hr) as (Ha & Ht & _).
    split; [|done]. unfold gate_ready. by rewrite Ha. }
  assert (Hidle : adaptor w = idle_adaptor ∧ trace w = [] → wanted = ∅ →
    (gate_ready w ↔ wanted ⊆ C0 ∪ list_to_set names) ∧
    (ready_count (trace w) ≤ 1)%nat ∧
    (ready_count (trace w) = 1%nat → gate_ready w) ∧
    (∀ names', list_to_set names' =@{gset string} list_to_set names →
       adaptor (EventLoop.run (registrations names') (gate_init W C0)) = idle_adaptor →
       adaptor (EventLoop.run (registrations names') (gate_init W C0)) = adaptor w) ∧
    (∀ c, c ∈ listening (adaptor w) ↔ c ∈ wanted ∧ c ∈ C0 ∪ list_to_set names) ∧
    (∀ ev, "topology"%string ∈ wanted → "topology"%string ∉ C0 ∪ list_to_set names →
       OpenFlowTopology._handle_openflow_discovery_LinkEvent ev w = (w, Ret tt))).
  { intros [Ha Ht] Hw. unfold gate_ready. rewrite Ha, Ht, Hw.
    split; [split; [set_solver|done]|]. split; [cbn; lia|]. split; [done|].
    split; [by intros ? _ ->|]. split; [cbn; set_solver|set_solver]. }
  destruct W as [W'|]; [destruct (decide (W' = ∅)) as [HW|HW]|].
  - destruct (Hidle Hst HW) as (I1 & I2 & I3 & I4 & I5 & I6).
    split; [done|]. split; [done|]. split; [done|]. split; [done|].
    split; [intros n; apply run_register_ready|].
    split; [|done].
    intros names' Hn. apply I4; [done|].
    destruct (gate_state (Some W') C0 names') as [_ Hst'].
    rewrite decide_True in Hst' by done. apply Hst'.
  - destruct Hst as (H1 & H2 & H3 & H4 & H5 & H6).
    rewrite Hc in H1, H2, H3, H4, H5, H6. cbn [wanted default].
    assert (Hready : gate_ready w ↔ W' ⊆ C0 ∪ list_to_set names).
    { unfold gate_ready. rewrite H5. split.
      - intros Hb. apply bool_decide_eq_false in Hb.
        destruct (decide (W' ⊆ C0 ∪ list_to_set names)); done.
      - intros Hs. by rewrite bool_decide_eq_false_2 by (by intros ?). }
    split; [done|]. split; [rewrite H6; destruct (decide _); lia|].
    split. { rewrite H6. destruct (decide _); [by rewrite Hready|done]. }
    split; [done|]. split; [intros n; apply run_register_ready|].
    split; [|split].
    + intros names' Hn.
      destruct (gate_state (Some W') C0 names') as [Hc' Hst'].
      rewrite decide_False in Hst' by done.
      eapply gate_inv_adaptor; [exact Hst'| |].
      * repeat split; by rewrite ?Hc.
      * by rewrite Hc', Hc, Hn.
    + intros c. rewrite H4. set_solver.
    + intros ev Hin Hnot. apply run_LinkEvent_unbound.
      rewrite H3, decide_True by done. by rewrite bool_decide_eq_false_2.
  - destruct (Hidle Hst eq_refl) as (I1 & I2 & I3 & I4 & I5 & I6).
    split; [done|]. split; [done|]. split; [done|]. split; [done|].
    split; [intros n; apply run_register_ready|].
    split; [|done].
    intros names' Hn. apply I4; [done|].
    destruct (gate_state None C0 names') as [_ Hst']. apply Hst'.
Qed.

Lemma C7_dependency_gate_witness :
  gate_ready
    (EventLoop.run
       (registrations ["topology"; "openflow_discovery"; "openflow"]%string)
       (gate_init (Some default_wantComponents) ∅)).
Proof.
  apply (proj1 (C7_dependency_gate (Some default_wantComponents) ∅
                  ["topology"; "openflow_discovery"; "openflow"]%string)).
  apply (bool_decide_unpack _). vm_compute. exact I.
Defined.

(** C7 as stated fails: with the protocol layer and the topology store
    registered but not the discovery layer, the gate is not ready, and yet a
    connection-up creates and registers a switch. *)
Lemma C7_event_before_ready_counterexample :
  let w := launch {[ "openflow"%string; "topology"%string ]} in
  let w' := EventLoop.run [ConnectionUp 1 7 (mk_features 5 [eth0; eth1])] w in
  ¬ gate_ready w ∧
  switches w = ∅ ∧ topology_entities w = ∅ ∧
  topology_entities w' !! 1 = Some 0%nat ∧
  is_Some (switches w' !! 0%nat) ∧
  joins (trace w') = [0%nat].
Proof.
  cbn zeta. split; [|split; [|split; [|split; [|split]]]].
  - unfold gate_ready. by vm_compute.
  - vm_compute; reflexivity.
  - vm_compute; reflexivity.
  - vm_compute; reflexivity.
  - eexists. vm_compute; reflexivity.
  - vm_compute; reflexivity.
Qed.

(** Before the topology store has registered, a connection-up that reaches
    the adaptor is not ignored: line 120 raises an [AttributeError]. *)
Lemma ConnectionUp_before_topology_raises :
  let w := launch {[ "openflow"%string ]} in
  ¬ gate_ready w ∧
  EventLoop.deliver (ConnectionUp 1 7 (mk_features 5 [eth0; eth1])) w
  = (w, Raise AttributeError).
Proof.
  cbn zeta. split.
  - unfold gate_ready. by vm_compute.
  - vm_compute; reflexivity.
Qed.

(** ** Every reachable world is well-formed *)

Section keeps.
Context (I : World → Prop).

Lemma keeps_ret {A} (a : A) : keeps I (mret a).
Proof. by intros w. Qed.

Lemma keeps_raise {A} e : keeps I (raise (A := A) e).
Proof. by intros w. Qed.

Lemma keeps_get : keeps I get.
Proof. by intros w. Qed.

Lemma keeps_bind {A B} (m : M A) (k : A → M B) :
  keeps I m → (∀ a, keeps I (k a)) → keeps I (m ≫= k).
Proof.
  intros Hm Hk w Hw. rewrite run_bind. specialize (Hm w Hw).
  destruct (m w) as [w' [a|e]]; cbn in *; [|done]. by apply Hk.
Qed.

Lemma keeps_foldM {A S} (body : S → A → M S) xs :
  (∀ s x, keeps I (body s x)) → ∀ s, keeps I (foldM body s xs).
Proof.
  intros Hb. induction xs as [|x xs IH]; intros s; cbn [foldM].
  - apply keeps_ret.
  - apply keeps_bind; [apply Hb|apply IH].
Qed.

Lemma keeps_for_each {A} (body : A → M unit) xs :
  (∀ x, keeps I (body x)) → keeps I (for_each xs body).
Proof. intros Hb. apply keeps_foldM. intros _ x. apply Hb. Qed.

Lemma keeps_get_switch l : keeps I (get_switch l).
Proof. intros w Hw. unfold get_switch. by destruct (switches w !! l). Qed.

Lemma keeps_get_port l : keeps I (get_port l).
Proof. intros w Hw. unfold get_port. by destruct (portobjs w !! l). Qed.

Lemma keeps_getEntityByID id : keeps I (Topology.getEntityByID id).
Proof. by intros w. Qed.

Lemma keeps_getattr c : keeps I (OpenFlowTopology.getattr c).
Proof.
  intros w Hw. unfold OpenFlowTopology.getattr. rewrite run_bind, run_get.
  by destruct (attrs (adaptor w) !! c).
Qed.
End keeps.

(** ** Invariants that the gate cannot break *)

Section keeps_gate.
Context (I : World → Prop).
Hypothesis I_adaptor : ∀ f, keeps I (modify (upd_adaptor f)).
Hypothesis I_emit : ∀ o, keeps I (emit o).

Lemma keeps_resolveComponents : keeps I OpenFlowTopology._resolveComponents.
Proof.
  unfold OpenFlowTopology._resolveComponents.
  apply keeps_bind; [apply keeps_get|]. intros w.
  assert (Hassign : ∀ f, keeps I (OpenFlowTopology.assign f)).
  { intros f. apply I_adaptor. }
  destruct (_wantComponents (adaptor w)) as [want|].
  2:{ apply keeps_bind; [apply Hassign|intros ?; apply keeps_ret]. }
  destruct (bool_decide _).
  { apply keeps_bind; [apply Hassign|intros ?; apply keeps_ret]. }
  apply keeps_bind.
  { apply keeps_foldM. intros G c. unfold OpenFlowTopology.resolve_one.
    apply keeps_bind.
    { unfold OpenFlowTopology.hasComponent.
      apply keeps_bind; [apply keeps_get|intros ?; apply keeps_ret]. }
    intros [].
    - apply keeps_bind; [apply Hassign|intros ?].
      apply keeps_bind; [apply Hassign|intros ?]. apply keeps_ret.
    - apply keeps_bind; [apply Hassign|intros ?]. apply keeps_ret. }
  intros got. apply keeps_bind.
  { apply keeps_for_each. intros c. unfold OpenFlowTopology.want_remove.
    apply keeps_bind; [apply keeps_get|]. intros w'.
    destruct (_wantComponents (adaptor w')); [|apply keeps_raise].
    destruct (bool_decide _); [apply Hassign|apply keeps_raise]. }
  intros _. apply keeps_bind; [apply keeps_get|]. intros w'.
  destruct (_wantComponents (adaptor w')); [|apply keeps_raise].
  destruct (bool_decide _); [|apply keeps_ret].
  apply keeps_bind; [apply Hassign|intros ?].
  apply keeps_bind; [apply I_emit|intros ?]. apply keeps_ret.
Qed.

Hypothesis I_components : ∀ f, keeps I (modify (upd_components f)).

Lemma keeps_register n : keeps I (EventLoop.register n).
Proof.
  unfold EventLoop.register.
  apply keeps_bind; [apply I_components|intros ?].
  apply keeps_bind; [apply keeps_get|]. intros w.
  destruct (listening_core (adaptor w)); [|apply keeps_ret].
  apply keeps_bind.
  { unfold OpenFlowTopology._handle_ComponentRegistered.
    apply keeps_bind; [apply keeps_resolveComponents|intros ?]. apply keeps_ret. }
  intros []; [apply I_adaptor|apply keeps_ret].
Qed.
End keeps_gate.

Lemma wf_same w w' :
  switches w' = switches w → portobjs w' = portobjs w →
  topology_entities w' = topology_entities w → wf w → wf w'.
Proof.
  intros Hs Hp Ht (H1 & H2 & H3). unfold wf, store_ok, tables_ok, ports_unshared.
  rewrite Hs, Hp, Ht. done.
Qed.

Lemma keeps_wf_timers f : keeps wf (modify (upd_timers f)).
Proof. intros w. by apply wf_same. Qed.
Lemma keeps_wf_con_listeners f : keeps wf (modify (upd_con_listeners f)).
Proof. intros w. by apply wf_same. Qed.
Lemma keeps_wf_components f : keeps wf (modify (upd_components f)).
Proof. intros w. by apply wf_same. Qed.
Lemma keeps_wf_adaptor f : keeps wf (modify (upd_adaptor f)).
Proof. intros w. by apply wf_same. Qed.
Lemma keeps_wf_emit o : keeps wf (emit o).
Proof. intros w. by apply wf_same. Qed.

(** an assignment to a switch that leaves its ports, or removes some *)
Lemma keeps_wf_assign_switch l f :
  (∀ s, ports (f s) ⊆ ports s) → keeps wf (assign_switch l f).
Proof.
  intros Hf w (H1 & H2 & H3). unfold assign_switch. rewrite run_bind.
  unfold get_switch. destruct (switches w !! l) as [s|] eqn:Hs; [|done].
  cbn [fst put_switch modify]. unfold wf, store_ok, tables_ok, ports_unshared.
  world_fields.
  assert (Hold : ∀ sw s' n lp, <[l := f s]> (switches w) !! sw = Some s' →
                   ports s' !! n = Some lp →
                   ∃ s0, switches w !! sw = Some s0 ∧ ports s0 !! n = Some lp).
  { intros sw s' n lp Hsw Hn. destruct (decide (l = sw)) as [<-|Hne].
    - rewrite lookup_insert_eq in Hsw. simplify_eq. exists s. split; [done|].
      by eapply lookup_weaken.
    - rewrite lookup_insert_ne in Hsw by done. eauto. }
  split; [|split].
  - intros id sw Hid. destruct (decide (l = sw)) as [<-|Hne].
    + rewrite lookup_insert_eq. eauto.
    + rewrite lookup_insert_ne by done. eauto.
  - intros sw s' Hsw n lp Hn.
    destruct (Hold _ _ _ _ Hsw Hn) as (s0 & Hs0 & Hn0). by eapply H2.
  - intros sw1 sw2 s1 s2 n1 n2 lp Hs1 Hs2 Hn1 Hn2.
    destruct (Hold _ _ _ _ Hs1 Hn1) as (? & ? & ?).
    destruct (Hold _ _ _ _ Hs2 Hn2) as (? & ? & ?). by eapply H3.
Qed.

(** an assignment to a port that leaves its number *)
Lemma keeps_wf_assign_port l f :
  (∀ o, number (f o) = number o) → keeps wf (assign_port l f).
Proof.
  intros Hf w (H1 & H2 & H3). unfold assign_port. rewrite run_bind.
  unfold get_port. destruct (portobjs w !! l) as [o|] eqn:Ho; [|done].
  cbn [fst put_port modify]. unfold wf, store_ok, tables_ok, ports_unshared.
  world_fields. split; [done|]. split; [|done].
  intros sw s Hsw n lp Hn. destruct (H2 _ _ Hsw _ _ Hn) as (o' & Ho' & Hnum).
  destruct (decide (l = lp)) as [<-|Hne].
  - exists (f o). rewrite lookup_insert_eq. split; [done|]. rewrite Hf. congruence.
  - exists o'. by rewrite lookup_insert_ne.
Qed.

Lemma keeps_wf__update l p : keeps wf (OpenFlowPort._update l p).
Proof.
  unfold OpenFlowPort._update.
  apply keeps_bind; [apply keeps_get_port|]. intros o.
  destruct (negb _); [apply keeps_raise|].
  destruct (negb _); [apply keeps_raise|].
  repeat (apply keeps_bind; [by apply keeps_wf_assign_port|intros ?]).
  by apply keeps_wf_assign_port.
Qed.

(** a new port object enters the table of a switch *)
Lemma wf_add_port self s n o w :
  wf w → switches w !! self = Some s → number o = n →
  wf (upd_switches <[self := set_ports <[n := fresh (dom (portobjs w))]> s]>
        (upd_portobjs <[fresh (dom (portobjs w)) := o]> w)).
Proof.
  intros (H1 & H2 & H3) Hs Hnum.
  set (l := fresh (dom (portobjs w))).
  assert (Hl : portobjs w !! l = None) by apply fresh_port_None.
  assert (Hnot : ∀ sw s' n', switches w !! sw = Some s' → ports s' !! n' ≠ Some l).
  { intros sw s' n' Hsw Hn. destruct (H2 _ _ Hsw _ _ Hn) as (? & ? & ?). congruence. }
  unfold wf, store_ok, tables_ok, ports_unshared. world_fields.
  split; [|split].
  - intros id sw Hid. destruct (decide (self = sw)) as [<-|Hne].
    + rewrite lookup_insert_eq. eauto.
    + rewrite lookup_insert_ne by done. eauto.
  - intros sw s' Hsw n' lp Hn. destruct (decide (self = sw)) as [<-|Hne].
    + rewrite lookup_insert_eq in Hsw. simplify_eq. cbn [ports set_ports] in Hn.
      apply lookup_insert_Some in Hn as [[<- <-]|[Hne Hn]].
      * exists o. by rewrite lookup_insert_eq.
      * destruct (H2 _ _ Hs _ _ Hn) as (o' & Ho' & Hnum').
        exists o'. rewrite lookup_insert_ne; [done|]. intros <-. congruence.
    + rewrite lookup_insert_ne in Hsw by done.
      destruct (H2 _ _ Hsw _ _ Hn) as (o' & Ho' & Hnum').
      exists o'. rewrite lookup_insert_ne; [done|]. intros <-. congruence.
  - assert (Hcase : ∀ sw s' n' lp, <[self := set_ports <[n := l]> s]> (switches w) !! sw = Some s' →
                      ports s' !! n' = Some lp →
                      (sw = self ∧ lp = l) ∨
                      (lp ≠ l ∧ ∃ s0, switches w !! sw = Some s0 ∧ ports s0 !! n' = Some lp)).
    { intros sw s' n' lp Hsw Hn. destruct (decide (self = sw)) as [<-|Hne].
      - rewrite lookup_insert_eq in Hsw. simplify_eq. cbn [ports set_ports] in Hn.
        apply lookup_insert_Some in Hn as [[<- <-]|[Hne Hn]]; [by left|].
        right. split; [intros ->; by eapply Hnot|eauto].
      - rewrite lookup_insert_ne in Hsw by done.
        right. split; [intros ->; by eapply Hnot|eauto]. }
    intros sw1 sw2 s1 s2 n1 n2 lp Hs1 Hs2 Hn1 Hn2.
    destruct (Hcase _ _ _ _ Hs1 Hn1) as [[-> ->]|[Hne1 (x1 & Hx1 & Hy1)]],
             (Hcase _ _ _ _ Hs2 Hn2) as [[-> Heq]|[Hne2 (x2 & Hx2 & Hy2)]];
      try done. by eapply H3.
Qed.

(** a new port object that no table refers to *)
Lemma wf_new_port o w :
  wf w → wf (upd_portobjs <[fresh (dom (portobjs w)) := o]> w).
Proof.
  intros (H1 & H2 & H3). unfold wf, store_ok, tables_ok, ports_unshared. world_fields.
  split; [done|]. split; [|done].
  intros sw s Hsw n lp Hn. destruct (H2 _ _ Hsw _ _ Hn) as (o' & Ho' & Hnum).
  exists o'. rewrite lookup_insert_ne; [done|]. intros <-.
  by rewrite fresh_port_None in Ho'.
Qed.

Lemma keeps_wf_port__init__ p : keeps wf (OpenFlowPort.__init__ p).
Proof. intros w Hw. rewrite run_port__init__. by apply wf_new_port. Qed.

Lemma keeps_wf_update_port self U p : keeps wf (OpenFlowSwitch.update_port self U p).
Proof.
  intros w Hw. unfold OpenFlowSwitch.update_port. rewrite run_bind.
  unfold get_switch. destruct (switches w !! self) as [s|] eqn:Hs; [|done].
  destruct (ports s !! port_no p) as [l|] eqn:Hl.
  - refine (keeps_bind wf _ _ (keeps_wf__update l p) _ w Hw). intros _.
    destruct (bool_decide _); [apply keeps_ret|apply keeps_raise].
  - erewrite run_bind_ret by apply run_port__init__.
    erewrite run_bind_ret by (by apply run_assign_switch).
    rewrite run_mret. cbn [fst]. by apply wf_add_port.
Qed.

Lemma keeps_wf_drop_port self k : keeps wf (OpenFlowSwitch.drop_port self k).
Proof.
  unfold OpenFlowSwitch.drop_port.
  apply keeps_bind; [apply keeps_get_switch|]. intros s.
  destruct (ports s !! k); [|apply keeps_raise].
  apply keeps_bind; [by apply keeps_wf_assign_port|]. intros _.
  apply keeps_wf_assign_switch. intros s'. apply delete_subseteq.
Qed.

Lemma keeps_wf_update_all_ports self ps :
  keeps wf (OpenFlowSwitch.update_all_ports self ps).
Proof.
  unfold OpenFlowSwitch.update_all_ports.
  apply keeps_bind; [apply keeps_get_switch|]. intros s.
  apply keeps_bind.
  - apply keeps_foldM. intros. apply keeps_wf_update_port.
  - intros U. apply keeps_for_each. intros. apply keeps_wf_drop_port.
Qed.

Lemma keeps_wf_PortStatus self ofp :
  keeps wf (OpenFlowSwitch._handle_con_PortStatus self ofp).
Proof.
  unfold OpenFlowSwitch._handle_con_PortStatus.
  apply keeps_bind; [|intros _; apply keeps_wf_emit].
  destruct (bool_decide (reason ofp = OFPPR_DELETE)).
  { apply keeps_bind; [apply keeps_get_switch|]. intros s.
    destruct (ports s !! _); [|apply keeps_ret].
    apply keeps_bind; [by apply keeps_wf_assign_port|]. intros _.
    apply keeps_wf_assign_switch. intros s'. apply delete_subseteq. }
  destruct (bool_decide (reason ofp = OFPPR_MODIFY)).
  { apply keeps_bind; [apply keeps_get_switch|]. intros s.
    destruct (ports s !! _); [apply keeps_wf__update|apply keeps_raise]. }
  destruct (negb _); [apply keeps_raise|].
  intros w Hw. rewrite run_bind.
  unfold get_switch. destruct (switches w !! self) as [s|] eqn:Hs; [|done].
  destruct (negb _); [done|].
  erewrite run_bind_ret by apply run_port__init__.
  erewrite run_assign_switch by done. cbn [fst]. by apply wf_add_port.
Qed.

Lemma keeps_wf_setConnection self connection_ ofp :
  keeps wf (OpenFlowSwitch._setConnection self connection_ ofp).
Proof.
  unfold OpenFlowSwitch._setConnection.
  apply keeps_bind; [apply keeps_get_switch|]. intros s.
  apply keeps_bind; [|intros ?].
  { destruct (connection s); [apply keeps_wf_con_listeners|apply keeps_ret]. }
  apply keeps_bind; [by apply keeps_wf_assign_switch|intros ?].
  apply keeps_bind; [by apply keeps_wf_assign_switch|intros ?].
  apply keeps_bind; [apply keeps_get_switch|]. intros s'.
  apply keeps_bind; [|intros ?].
  { destruct (_reconnectTimeout s'); [|apply keeps_ret].
    apply keeps_bind; [apply keeps_wf_timers|intros ?].
    by apply keeps_wf_assign_switch. }
  apply keeps_bind; [|intros ?].
  { destruct connection_; [apply keeps_ret|].
    apply keeps_bind; [intros w; apply (keeps_wf_timers _ w)|intros t].
    by apply keeps_wf_assign_switch. }
  apply keeps_bind; [|intros ?].
  { destruct ofp; [|apply keeps_ret].
    apply keeps_bind; [by apply keeps_wf_assign_switch|intros ?].
    apply keeps_wf_update_all_ports. }
  destruct connection_; [|apply keeps_ret].
  apply keeps_bind; [intros w; apply (keeps_wf_con_listeners _ w)|intros ls].
  by apply keeps_wf_assign_switch.
Qed.

Lemma keeps_wf_new_switch d : keeps wf (OpenFlowSwitch.__init__ d).
Proof.
  intros w (H1 & H2 & H3). unfold OpenFlowSwitch.__init__, new_switch. cbn [fst].
  set (l := fresh (dom (switches w))).
  assert (Hl : switches w !! l = None) by apply fresh_switch_None.
  unfold wf, store_ok, tables_ok, ports_unshared. world_fields.
  assert (Hcase : ∀ sw s, <[l := mkSwitch d ∅ 0 None [] None]> (switches w) !! sw = Some s →
                    (ports s = ∅) ∨ switches w !! sw = Some s).
  { intros sw s Hsw. apply lookup_insert_Some in Hsw as [[<- <-]|[_ Hsw]]; [by left|by right]. }
  split; [|split].
  - intros id sw Hid. destruct (decide (l = sw)) as [<-|Hne].
    + rewrite lookup_insert_eq. eauto.
    + rewrite lookup_insert_ne by done. eauto.
  - intros sw s Hsw n lp Hn. destruct (Hcase _ _ Hsw) as [He|Hold].
    + by rewrite He, lookup_empty in Hn.
    + by eapply H2.
  - intros sw1 sw2 s1 s2 n1 n2 lp Hs1 Hs2 Hn1 Hn2.
    destruct (Hcase _ _ Hs1) as [He|Hold1]; [by rewrite He, lookup_empty in Hn1|].
    destruct (Hcase _ _ Hs2) as [He|Hold2]; [by rewrite He, lookup_empty in Hn2|].
    by eapply H3.
Qed.

Lemma keeps_wf_addEntity sw : keeps wf (Topology.addEntity sw).
Proof.
  intros w (H1 & H2 & H3). unfold Topology.addEntity. rewrite run_bind.
  unfold get_switch. destruct (switches w !! sw) as [s|] eqn:Hs; [|done].
  cbn [fst modify]. unfold wf, store_ok, tables_ok, ports_unshared. world_fields.
  split; [|done]. intros id sw' Hid.
  apply lookup_insert_Some in Hid as [[_ <-]|[_ Hid]]; eauto.
Qed.

Lemma keeps_wf_removeEntity sw : keeps wf (Topology.removeEntity sw).
Proof.
  intros w (H1 & H2 & H3). unfold Topology.removeEntity. rewrite run_bind.
  unfold get_switch. destruct (switches w !! sw) as [s|] eqn:Hs; [|done].
  cbn [fst modify]. unfold wf, store_ok, tables_ok, ports_unshared. world_fields.
  split; [|done]. intros id sw' Hid.
  apply lookup_delete_Some in Hid as [_ Hid]. eauto.
Qed.

Lemma keeps_wf_ConnectionUp d c ofp :
  keeps wf (OpenFlowTopology._handle_openflow_ConnectionUp d c ofp).
Proof.
  unfold OpenFlowTopology._handle_openflow_ConnectionUp.
  apply keeps_bind; [apply keeps_getattr|]. intros b.
  destruct (negb b); [apply keeps_raise|].
  apply keeps_bind; [apply keeps_getEntityByID|]. intros o.
  apply keeps_bind.
  { destruct o as [sw|].
    - apply keeps_bind; [apply keeps_get_switch|]. intros s.
      apply keeps_bind; [|intros ?; apply keeps_ret].
      destruct (connection s); [apply keeps_wf_emit|apply keeps_ret].
    - apply keeps_bind; [apply keeps_wf_new_switch|]. intros sw. apply keeps_ret. }
  intros [sw add].
  apply keeps_bind; [apply keeps_wf_setConnection|intros ?].
  apply keeps_bind; [apply keeps_wf_emit|intros ?].
  destruct add; [|apply keeps_ret].
  apply keeps_bind; [apply keeps_wf_addEntity|intros ?]. apply keeps_wf_emit.
Qed.

Lemma keeps_wf_ConnectionDown d :
  keeps wf (OpenFlowTopology._handle_openflow_ConnectionDown d).
Proof.
  unfold OpenFlowTopology._handle_openflow_ConnectionDown.
  apply keeps_bind; [apply keeps_getattr|]. intros b.
  destruct (negb b); [apply keeps_raise|].
  apply keeps_bind; [apply keeps_getEntityByID|]. intros o.
  destruct o as [sw|]; [|apply keeps_wf_emit].
  apply keeps_bind; [apply keeps_get_switch|]. intros s.
  apply keeps_bind; [|intros ?].
  { destruct (connection s); [apply keeps_ret|apply keeps_wf_emit]. }
  apply keeps_bind; [by apply keeps_wf_assign_switch|intros ?].
  apply keeps_wf_emit.
Qed.

Lemma keeps_wf_LinkEvent ev :
  keeps wf (OpenFlowTopology._handle_openflow_discovery_LinkEvent ev).
Proof.
  unfold OpenFlowTopology._handle_openflow_discovery_LinkEvent.
  apply keeps_bind; [apply keeps_getattr|]. intros b.
  destruct (negb b); [apply keeps_ret|].
  apply keeps_bind; [apply keeps_getEntityByID|]. intros o1.
  apply keeps_bind; [apply keeps_getEntityByID|]. intros o2.
  destruct o1 as [sw1|], o2 as [sw2|]; try apply keeps_ret.
  apply keeps_bind; [apply keeps_get_switch|]. intros s1.
  apply keeps_bind; [apply keeps_get_switch|]. intros s2.
  destruct (ports s1 !! port1 (link ev)), (ports s2 !! port2 (link ev));
    try apply keeps_ret.
  assert (Hadd : ∀ l e, keeps wf (OpenFlowPort.addEntity l e true)).
  { intros l e. by apply keeps_wf_assign_port. }
  assert (Hrm : ∀ l e, keeps wf (OpenFlowPort.entities_remove l e)).
  { intros l e w Hw. unfold OpenFlowPort.entities_remove. rewrite run_bind.
    unfold get_port. destruct (portobjs w !! l) as [o|] eqn:Ho; [|done].
    destruct (bool_decide _); [|done].
    pose proof (keeps_wf_assign_port l (set_entities (entities o ∖ {[e]}))
                  (λ _, eq_refl) w Hw) as Hk.
    by erewrite run_assign_port in Hk. }
  destruct (added ev); [|destruct (removed ev); [|apply keeps_ret]].
  - apply keeps_bind; [apply keeps_get_switch|]. intros s.
    apply keeps_bind; [|intros ?].
    { destruct (ports s !! _); [apply Hadd|apply keeps_raise]. }
    apply keeps_bind; [apply keeps_get_switch|]. intros s'.
    destruct (ports s' !! _); [apply Hadd|apply keeps_raise].
  - apply keeps_bind; [apply keeps_get_switch|]. intros s.
    apply keeps_bind; [|intros ?].
    { destruct (ports s !! _); [apply Hrm|apply keeps_raise]. }
    apply keeps_bind; [apply keeps_get_switch|]. intros s'.
    destruct (ports s' !! _); [apply Hrm|apply keeps_raise].
Qed.

Lemma keeps_wf_register n : keeps wf (EventLoop.register n).
Proof.
  apply keeps_register;
    [apply keeps_wf_adaptor|apply keeps_wf_emit|apply keeps_wf_components].
Qed.

Lemma keeps_wf_expire t : keeps wf (EventLoop.expire t).
Proof.
  unfold EventLoop.expire.
  apply keeps_bind; [apply keeps_get|]. intros w.
  destruct (timers w !! t) as [o|]; [|apply keeps_ret].
  destruct (pending o); [|apply keeps_ret].
  apply keeps_bind; [apply keeps_wf_timers|intros ?].
  unfold OpenFlowSwitch._timer_ReconnectTimeout.
  apply keeps_bind; [by apply keeps_wf_assign_switch|intros ?].
  apply keeps_bind; [apply keeps_get|]. intros w'.
  apply keeps_bind; [|intros ?; apply keeps_wf_emit].
  destruct (bool_decide _); [apply keeps_wf_removeEntity|apply keeps_raise].
Qed.

Lemma keeps_wf_deliver e : keeps wf (EventLoop.deliver e).
Proof.
  assert (Hcomp : ∀ prefix h, keeps wf h → keeps wf (EventLoop.from_component prefix h)).
  { intros prefix h Hh. unfold EventLoop.from_component.
    apply keeps_bind; [apply keeps_get|]. intros w.
    destruct (bool_decide _); [done|apply keeps_ret]. }
  assert (Hcon : ∀ c h, (∀ sw, keeps wf (h sw)) → keeps wf (EventLoop.from_connection c h)).
  { intros c h Hh. unfold EventLoop.from_connection.
    apply keeps_bind; [apply keeps_get|]. intros w. by apply keeps_for_each. }
  destruct e; cbn [EventLoop.deliver].
  - apply keeps_wf_register.
  - apply Hcomp, keeps_wf_ConnectionUp.
  - apply Hcomp, keeps_wf_ConnectionDown.
  - apply Hcomp, keeps_wf_LinkEvent.
  - apply Hcon. intros sw. apply keeps_wf_PortStatus.
  - apply Hcon. intros sw. apply keeps_wf_setConnection.
  - apply Hcon. intros sw. apply keeps_wf_emit.
  - apply Hcon. intros sw. apply keeps_wf_emit.
  - apply Hcon. intros sw. apply keeps_wf_emit.
  - apply keeps_wf_expire.
Qed.

Lemma wf_empty_world : wf empty_world.
Proof.
  unfold wf, store_ok, tables_ok, ports_unshared. cbn.
  split; [|split]; intros *; by rewrite lookup_empty.
Qed.

Lemma wf_gate_init W C : wf (gate_init W C).
Proof.
  unfold gate_init, exec, OpenFlowTopology.__init__.
  apply (keeps_bind wf).
  - apply keeps_wf_adaptor.
  - intros ?. apply keeps_bind.
    + apply keeps_resolveComponents; [apply keeps_wf_adaptor|apply keeps_wf_emit].
    + intros []; [apply keeps_ret|apply keeps_wf_adaptor].
  - apply (keeps_wf_components _ empty_world), wf_empty_world.
Qed.

Lemma wf_run es : ∀ w, wf w → wf (EventLoop.run es w).
Proof.
  induction es as [|e es IH]; intros w Hw; cbn [EventLoop.run]; [done|].
  apply IH. by apply keeps_wf_deliver.
Qed.

(** Every world that events lead to, from the creation of the adaptor on, is
    well-formed. *)
Lemma wf_reachable W C es : wf (EventLoop.run es (gate_init W C)).
Proof. apply wf_run, wf_gate_init. Qed.

(** ** The timer a switch refers to *)

#[export] Instance same_timer_preorder : PreOrder same_timer.
Proof.
  split; [done|]. unfold same_timer.
  intros ??? (?&?&?) (?&?&?). repeat split; [congruence..|auto].
Qed.

Lemma timer_inv_frame w w' : frame same_timer eq w w' → timer_inv w → timer_inv w'.
Proof.
  intros (_ & _ & _ & _ & Hd & Hs & Ht) Hinv sw s' t Hs' Ht'.
  assert (is_Some (switches w !! sw)) as [s Hsw].
  { apply elem_of_dom. rewrite <- Hd. apply elem_of_dom; eauto. }
  destruct (Hs _ _ _ Hsw Hs') as (_ & Hto & Hc).
  destruct (Hinv sw s t Hsw) as [Hcn Htm]; [congruence|].
  split; [by apply Hc|]. by rewrite <- Ht.
Qed.

Lemma keeps_timer_inv_frame {A} (m : M A) :
  preserves (frame same_timer eq) m → keeps timer_inv m.
Proof. intros Hm w Hw. eapply timer_inv_frame; [apply Hm|done]. Qed.

Lemma timer_inv_same w w' :
  switches w' = switches w → timers w' = timers w → timer_inv w → timer_inv w'.
Proof. intros Hs Ht Hinv. unfold timer_inv. rewrite Hs, Ht. done. Qed.

Lemma keeps_timer_inv_emit o : keeps timer_inv (emit o).
Proof. intros w. by apply timer_inv_same. Qed.

Lemma keeps_timer_inv_adaptor f : keeps timer_inv (modify (upd_adaptor f)).
Proof. intros w. by apply timer_inv_same. Qed.

Lemma keeps_timer_inv_components f : keeps timer_inv (modify (upd_components f)).
Proof. intros w. by apply timer_inv_same. Qed.

Lemma keeps_timer_inv_store f : keeps timer_inv (modify (upd_topology_entities f)).
Proof. intros w. by apply timer_inv_same. Qed.

(** after line 216 the switch refers to no timer, and no other switch is
    concerned *)
Lemma timer_inv_after_line_216 self s connection_ w :
  switches w !! self = Some s → timer_inv w →
  timer_inv (after_line_216 self s connection_ w).
Proof.
  intros Hs Hinv sw s' t Hs' Ht'. unfold after_line_216 in *. world_fields in Hs'.
  world_fields.
  destruct (decide (self = sw)) as [<-|Hne].
  { rewrite lookup_insert_eq in Hs'. by simplify_eq. }
  rewrite lookup_insert_ne in Hs' by done.
  destruct (Hinv _ _ _ Hs' Ht') as [Hc Htm]. split; [done|].
  unfold cancel_timer. destruct (_reconnectTimeout s) as [t0|] eqn:Ht0; [|done].
  destruct (Hinv _ _ _ Hs Ht0) as [_ Htm0].
  rewrite lookup_alter_ne; [done|]. intros <-. congruence.
Qed.

Lemma timer_inv_after_disconnect self s w :
  switches w !! self = Some s → timer_inv w → timer_inv (after_disconnect self s w).
Proof.
  intros Hs Hinv sw s' t Hs' Ht'. unfold after_disconnect in *. world_fields in Hs'.
  world_fields.
  assert (Hfresh : timers w !! fresh (dom (timers w)) = None)
    by apply not_elem_of_dom, is_fresh.
  destruct (decide (self = sw)) as [<-|Hne].
  { rewrite lookup_insert_eq in Hs'. simplify_eq. cbn in Ht'. simplify_eq.
    split; [done|]. apply lookup_insert_eq. }
  rewrite lookup_insert_ne in Hs' by done.
  destruct (Hinv _ _ _ Hs' Ht') as [Hc Htm]. split; [done|].
  rewrite lookup_insert_ne by congruence.
  unfold cancel_timer. destruct (_reconnectTimeout s) as [t0|] eqn:Ht0; [|done].
  destruct (Hinv _ _ _ Hs Ht0) as [_ Htm0].
  rewrite lookup_alter_ne; [done|]. intros <-. congruence.
Qed.

Lemma same_timer_ports f s : same_timer s (set_ports f s).
Proof. by unfold same_timer. Qed.
Lemma same_timer_capabilities c s : same_timer s (set_capabilities c s).
Proof. by unfold same_timer. Qed.
Lemma same_timer_listeners ls s : same_timer s (set__listeners ls s).
Proof. by unfold same_timer. Qed.

Lemma keeps_timer_inv_setConnection self connection_ ofp :
  keeps timer_inv (OpenFlowSwitch._setConnection self connection_ ofp).
Proof.
  intros w Hinv.
  destruct (switches w !! self) as [s|] eqn:Hs.
  2:{ unfold OpenFlowSwitch._setConnection.
      by erewrite run_bind_raise by (by apply run_get_switch_None). }
  rewrite (run_setConnection _ _ _ _ _ Hs).
  pose proof (timer_inv_after_line_216 self s connection_ w Hs Hinv) as Ha.
  assert (Htail : ∀ v, timer_inv v →
            timer_inv ((match ofp with
                        | Some ofp =>
                            assign_switch self (set_capabilities (ofp_capabilities ofp));;
                            OpenFlowSwitch.update_all_ports self (ofp_ports ofp)
                        | None => mret tt
                        end;;
                        match connection_ with
                        | Some c =>
                            ls ← EventMixin.listenTo c self;
                            assign_switch self (set__listeners ls)
                        | None => mret tt
                        end) v).1).
  { intros v Hv. eapply timer_inv_frame; [|exact Hv].
    apply (frame_setConnection_tail same_timer eq);
      [apply same_timer_ports|apply same_timer_capabilities|apply same_timer_listeners]. }
  destruct connection_ as [c|].
  - erewrite run_bind_ret by apply run_mret. by apply Htail.
  - pose proof (run_setConnection_None self s w Hs) as Hnone.
    rewrite (run_setConnection _ _ _ _ _ Hs) in Hnone.
    destruct ofp as [ofp|].
    + (* [_setConnection(None, ofp)]: the timer is armed, then the ports *)
      erewrite run_bind_ret.
      2:{ unfold Timer.new. erewrite run_bind_ret by reflexivity.
          apply run_assign_switch. unfold after_line_216. world_fields.
          apply lookup_insert_eq. }
      apply Htail.
      assert (Heq : upd_switches
                <[self := set__reconnectTimeout
                            (Some (fresh (dom (timers (after_line_216 self s None w)))))
                            (mkSwitch (dpid s) (ports s) (capabilities s) None [] None)]>
                (upd_timers
                   <[fresh (dom (timers (after_line_216 self s None w)))
                     := mkTimer RECONNECT_TIMEOUT self true]>
                   (after_line_216 self s None w))
              = after_disconnect self s w).
      { unfold after_disconnect, after_line_216. world_eq.
        - by rewrite dom_cancel_timer, insert_insert_eq.
        - by rewrite dom_cancel_timer. }
      rewrite Heq. by apply timer_inv_after_disconnect.
    + rewrite Hnone. by apply timer_inv_after_disconnect.
Qed.

Lemma keeps_timer_inv_assign_switch l f :
  (∀ s, same_timer s (f s)) → keeps timer_inv (assign_switch l f).
Proof.
  intros Hf. apply keeps_timer_inv_frame.
  apply frame_assign_switch; [apply _..|done].
Qed.

Lemma keeps_timer_inv_new_switch d : keeps timer_inv (OpenFlowSwitch.__init__ d).
Proof.
  intros w Hinv sw s t Hs Ht. unfold OpenFlowSwitch.__init__, new_switch in *.
  cbn [fst] in *. world_fields in Hs. world_fields.
  apply lookup_insert_Some in Hs as [[_ <-]|[_ Hs]]; [done|]. by eapply Hinv.
Qed.

Lemma keeps_timer_inv_addEntity sw : keeps timer_inv (Topology.addEntity sw).
Proof.
  unfold Topology.addEntity.
  apply keeps_bind; [apply keeps_get_switch|]. intros s. apply keeps_timer_inv_store.
Qed.

Lemma keeps_timer_inv_removeEntity sw : keeps timer_inv (Topology.removeEntity sw).
Proof.
  unfold Topology.removeEntity.
  apply keeps_bind; [apply keeps_get_switch|]. intros s. apply keeps_timer_inv_store.
Qed.

Lemma keeps_timer_inv_ConnectionUp d c ofp :
  keeps timer_inv (OpenFlowTopology._handle_openflow_ConnectionUp d c ofp).
Proof.
  unfold OpenFlowTopology._handle_openflow_ConnectionUp.
  apply keeps_bind; [apply keeps_getattr|]. intros b.
  destruct (negb b); [apply keeps_raise|].
  apply keeps_bind; [apply keeps_getEntityByID|]. intros o.
  apply keeps_bind.
  { destruct o as [sw|].
    - apply keeps_bind; [apply keeps_get_switch|]. intros s.
      apply keeps_bind; [|intros ?; apply keeps_ret].
      destruct (connection s); [apply keeps_timer_inv_emit|apply keeps_ret].
    - apply keeps_bind; [apply keeps_timer_inv_new_switch|]. intros sw.
      apply keeps_ret. }
  intros [sw add].
  apply keeps_bind; [apply keeps_timer_inv_setConnection|intros ?].
  apply keeps_bind; [apply keeps_timer_inv_emit|intros ?].
  destruct add; [|apply keeps_ret].
  apply keeps_bind; [apply keeps_timer_inv_addEntity|intros ?].
  apply keeps_timer_inv_emit.
Qed.

Lemma keeps_timer_inv_ConnectionDown d :
  keeps timer_inv (OpenFlowTopology._handle_openflow_ConnectionDown d).
Proof.
  unfold OpenFlowTopology._handle_openflow_ConnectionDown.
  apply keeps_bind; [apply keeps_getattr|]. intros b.
  destruct (negb b); [apply keeps_raise|].
  apply keeps_bind; [apply keeps_getEntityByID|]. intros o.
  destruct o as [sw|]; [|apply keeps_timer_inv_emit].
  apply keeps_bind; [apply keeps_get_switch|]. intros s.
  apply keeps_bind; [|intros ?].
  { destruct (connection s); [apply keeps_ret|apply keeps_timer_inv_emit]. }
  apply keeps_bind; [|intros ?; apply keeps_timer_inv_emit].
  apply keeps_timer_inv_assign_switch. intros s'. by unfold same_timer.
Qed.

Lemma keeps_timer_inv_expire t : keeps timer_inv (EventLoop.expire t).
Proof.
  intros w Hinv. unfold EventLoop.expire. rewrite run_bind, run_get.
  destruct (timers w !! t) as [o|] eqn:Ht; [|done].
  destruct (pending o) eqn:Hp; [|done].
  erewrite run_bind_ret by apply run_modify.
  set (w1 := upd_timers _ w).
  (* the only switch that may refer to [t] is the one it is bound to *)
  assert (Hw1 : ∀ sw s t', switches w1 !! sw = Some s → _reconnectTimeout s = Some t' →
                  (connection s = None ∧
                   timers w1 !! t' = Some (mkTimer RECONNECT_TIMEOUT sw true)) ∨
                  (t' = t ∧ sw = callback o)).
  { intros sw s t' Hs Ht'. destruct (Hinv _ _ _ Hs Ht') as [Hc Htm].
    destruct (decide (t' = t)) as [->|Hne].
    - right. split; [done|]. rewrite Ht in Htm. by simplify_eq.
    - left. split; [done|]. unfold w1. world_fields. by rewrite lookup_insert_ne. }
  unfold OpenFlowSwitch._timer_ReconnectTimeout.
  rewrite run_bind. unfold assign_switch at 1. rewrite run_bind.
  unfold get_switch at 1.
  destruct (switches w1 !! callback o) as [s0|] eqn:Hs0.
  2:{ cbn [fst]. intros sw s t' Hs Ht'.
      destruct (Hw1 _ _ _ Hs Ht') as [?|[_ ->]]; [done|congruence]. }
  unfold put_switch. rewrite run_modify.
  set (w2 := upd_switches _ w1).
  assert (Hw2 : timer_inv w2).
  { intros sw s t' Hs Ht'. unfold w2 in Hs. world_fields in Hs.
    destruct (decide (callback o = sw)) as [<-|Hne].
    - rewrite lookup_insert_eq in Hs. by simplify_eq.
    - rewrite lookup_insert_ne in Hs by done.
      destruct (Hw1 _ _ _ Hs Ht') as [?|[_ ->]]; [done|congruence]. }
  revert Hw2. generalize w2. clear.
  change (keeps timer_inv
            (w ← get;
             (if bool_decide ("topology"%string ∈ components w)
              then Topology.removeEntity (callback o)
              else raise AttributeError);;
             emit (RaisedSwitchLeave (callback o)))).
  apply keeps_bind; [apply keeps_get|]. intros w'.
  apply keeps_bind; [|intros ?; apply keeps_timer_inv_emit].
  destruct (bool_decide _); [apply keeps_timer_inv_removeEntity|apply keeps_raise].
Qed.


Lemma keeps_timer_inv_register n : keeps timer_inv (EventLoop.register n).
Proof.
  apply keeps_register;
    [apply keeps_timer_inv_adaptor|apply keeps_timer_inv_emit
    |apply keeps_timer_inv_components].
Qed.

Lemma keeps_timer_inv_deliver e : keeps timer_inv (EventLoop.deliver e).
Proof.
  assert (Hcomp : ∀ prefix h, keeps timer_inv h →
                    keeps timer_inv (EventLoop.from_component prefix h)).
  { intros prefix h Hh. unfold EventLoop.from_component.
    apply keeps_bind; [apply keeps_get|]. intros w.
    destruct (bool_decide _); [done|apply keeps_ret]. }
  assert (Hcon : ∀ c h, (∀ sw, keeps timer_inv (h sw)) →
                   keeps timer_inv (EventLoop.from_connection c h)).
  { intros c h Hh. unfold EventLoop.from_connection.
    apply keeps_bind; [apply keeps_get|]. intros w. by apply keeps_for_each. }
  destruct e; cbn [EventLoop.deliver].
  - apply keeps_timer_inv_register.
  - apply Hcomp, keeps_timer_inv_ConnectionUp.
  - apply Hcomp, keeps_timer_inv_ConnectionDown.
  - apply Hcomp, keeps_timer_inv_frame.
    apply frame_LinkEvent; apply _.
  - apply Hcon. intros sw. apply keeps_timer_inv_frame.
    apply frame_PortStatus; first [apply _|apply same_timer_ports].
  - apply Hcon. intros sw. apply keeps_timer_inv_setConnection.
  - apply Hcon. intros sw. apply keeps_timer_inv_emit.
  - apply Hcon. intros sw. apply keeps_timer_inv_emit.
  - apply Hcon. intros sw. apply keeps_timer_inv_emit.
  - apply keeps_timer_inv_expire.
Qed.

Lemma timer_inv_gate_init W C : timer_inv (gate_init W C).
Proof.
  unfold gate_init, exec, OpenFlowTopology.__init__.
  apply (keeps_bind timer_inv).
  - apply keeps_timer_inv_adaptor.
  - intros ?. apply keeps_bind.
    + apply keeps_resolveComponents;
        [apply keeps_timer_inv_adaptor|apply keeps_timer_inv_emit].
    + intros []; [apply keeps_ret|apply keeps_timer_inv_adaptor].
  - intros sw s t Hs. world_fields in Hs. unfold empty_world in Hs.
    cbn [switches] in Hs. by rewrite lookup_empty in Hs.
Qed.

(** In every world that events lead to, a switch that refers to a timer is
    disconnected and its timer is pending. *)
Lemma timer_inv_reachable W C es : timer_inv (EventLoop.run es (gate_init W C)).
Proof.
  generalize (timer_inv_gate_init W C). generalize (gate_init W C).
  induction es as [|e es IH]; intros w Hw; cbn [EventLoop.run]; [done|].
  apply IH. by apply keeps_timer_inv_deliver.
Qed.

(** C3, as the code has it.  The switch's own connection-down handler
    ([_handle_con_ConnectionDown], which runs [_setConnection(None)]) returns
    normally, clears the connection handle, forgets its registrations, arms a
    timer that did not exist, pending, for the grace period and bound to the
    switch, and cancels the timer the switch referred to before; the
    registrations the switch had made on the old connection are dropped when
    the handle was still set, and none is dropped when it was already
    cleared.  The adaptor's connection-down handler for a registered switch
    only clears the connection handle (and logs): the timer reference and the
    registrations are as before.  In every world that events lead to, a
    switch that refers to a timer has no connection handle, and that timer is
    pending, bound to the switch and armed for the grace period. *)
Theorem C3_connection_down sw s w :
  switches w !! sw = Some s →
  (let w1 := exec (OpenFlowSwitch._handle_con_ConnectionDown sw) w in
   let t := fresh (dom (timers w)) in
   eval (OpenFlowSwitch._handle_con_ConnectionDown sw) w = Ret tt ∧
   switches w1 !! sw
   = Some (mkSwitch (dpid s) (ports s) (capabilities s) None [] (Some t)) ∧
   timers w !! t = None ∧
   timers w1 !! t = Some (mkTimer RECONNECT_TIMEOUT sw true) ∧
   (∀ t0 o, _reconnectTimeout s = Some t0 → timers w !! t0 = Some o →
            timers w1 !! t0 = Some (cancelled o)) ∧
   (∀ c l x, connection s = Some c → l ∈ _listeners s →
             con_listeners w1 !! l ≠ Some (c, x)) ∧
   (connection s = None → con_listeners w1 = con_listeners w)) ∧
  (∀ d,
     attrs (adaptor w) !! "topology"%string = Some true →
     topology_entities w !! d = Some sw →
     let w1 := exec (OpenFlowTopology._handle_openflow_ConnectionDown d) w in
     eval (OpenFlowTopology._handle_openflow_ConnectionDown d) w = Ret tt ∧
     switches w1 = <[sw := set_connection None s]> (switches w) ∧
     timers w1 = timers w ∧
     con_listeners w1 = con_listeners w ∧
     topology_entities w1 = topology_entities w) ∧
  (∀ W C es l x t,
     let v := EventLoop.run es (gate_init W C) in
     switches v !! l = Some x → _reconnectTimeout x = Some t →
     connection x = None ∧
     timers v !! t = Some (mkTimer RECONNECT_TIMEOUT l true)).
Proof.
  intros Hs. split; [|split; [|intros W C es l x t v; apply timer_inv_reachable]].
  - intros w1 t.
    assert (Hrun : OpenFlowSwitch._handle_con_ConnectionDown sw w
                   = (after_disconnect sw s w, Ret tt))
      by (by apply run_setConnection_None).
    unfold w1, exec, eval. rewrite Hrun. cbn [fst snd].
    assert (Hfresh : timers w !! t = None) by apply not_elem_of_dom, is_fresh.
    split; [done|]. split; [apply after_disconnect_switch|].
    split; [done|]. split; [apply after_disconnect_timer|].
    unfold after_disconnect. world_fields. fold t. split; [|split].
    + intros t0 o Ht0 Ho. unfold cancel_timer. rewrite Ht0.
      rewrite lookup_insert_ne by congruence.
      by rewrite lookup_alter_eq, Ho.
    + intros c l x Hc Hl Hlook. unfold drop_listeners in Hlook. rewrite Hc in Hlook.
      apply map_lookup_filter_Some in Hlook as [_ Hno]. by apply Hno.
    + intros Hc. unfold drop_listeners. by rewrite Hc.
  - intros d Ht Hsw w1. unfold w1, exec, eval.
    rewrite (run_openflow_ConnectionDown _ _ _ _ Ht Hsw Hs). cbn [fst snd].
    by destruct (connection s).
Qed.

Lemma C3_connection_down_witness :
  switches world_one_switch !! 0%nat
  = Some (mkSwitch 1 {[1 := 0%nat; 2 := 1%nat]} 5 (Some 7%nat) [0%nat] None) ∧
  eval (OpenFlowSwitch._handle_con_ConnectionDown 0) world_one_switch = Ret tt.
Proof.
  split; [exact world_one_switch_0|].
  exact (proj1 (proj1 (C3_connection_down 0 _ world_one_switch world_one_switch_0))).
Defined.

(** * More of the code *)

(** ** The neighbor set of a port *)

Lemma run_addEntity l o e w :
  portobjs w !! l = Some o →
  OpenFlowPort.addEntity l e false w
  = (upd_portobjs <[l := set_entities (entities o ∪ {[e]}) o]> w, Ret tt).
Proof.
  intros Ho. unfold OpenFlowPort.addEntity.
  by rewrite (run_assign_port _ _ _ _ Ho).
Qed.

Lemma run__contains__ l o e w :
  portobjs w !! l = Some o →
  OpenFlowPort.__contains__ l e w = (w, Ret (bool_decide (e ∈ entities o))).
Proof.
  intros Ho. unfold OpenFlowPort.__contains__.
  by erewrite run_bind_ret by (by apply run_get_port).
Qed.

Lemma set_entities_id o : set_entities (entities o) o = o.
Proof. by destruct o. Qed.

(** X1.  The neighbor set of a port object behaves as a set: after
    [addEntity(e)] the port contains [e] and whatever it contained before,
    and adding [e] again changes nothing; after [addEntity(e, single=True)]
    it contains [e] and nothing else; removing a neighbor that was just added
    to a port that did not hold it gives back the world as it was, and
    afterwards the port does not contain it. *)
Theorem X1_port_neighbour_set l o e w :
  portobjs w !! l = Some o →
  let w1 := exec (OpenFlowPort.addEntity l e false) w in
  let w2 := exec (OpenFlowPort.addEntity l e true) w in
  eval (OpenFlowPort.addEntity l e false) w = Ret tt ∧
  (∀ e', eval (OpenFlowPort.__contains__ l e') w1
         = Ret (bool_decide (e' = e ∨ e' ∈ entities o))) ∧
  OpenFlowPort.addEntity l e false w1 = (w1, Ret tt) ∧
  (∀ e', eval (OpenFlowPort.__contains__ l e') w2 = Ret (bool_decide (e' = e))) ∧
  (e ∉ entities o → OpenFlowPort.entities_remove l e w1 = (w, Ret tt)) ∧
  (e ∉ entities o → OpenFlowPort.entities_remove l e w = (w, Raise KeyError)) ∧
  (∀ l' o', l' ≠ l → portobjs w !! l' = Some o' →
            portobjs w1 !! l' = Some o' ∧ portobjs w2 !! l' = Some o').
Proof.
  intros Ho w1 w2.
  assert (Hw1 : w1 = upd_portobjs <[l := set_entities (entities o ∪ {[e]}) o]> w).
  { unfold w1, exec. by rewrite (run_addEntity _ _ _ _ Ho). }
  assert (Hw2 : w2 = upd_portobjs <[l := set_entities {[e]} o]> w).
  { unfold w2, exec. by rewrite (run_addEntity_single _ _ _ _ Ho). }
  assert (H1 : portobjs w1 !! l = Some (set_entities (entities o ∪ {[e]}) o)).
  { rewrite Hw1. world_fields. apply lookup_insert_eq. }
  assert (H2 : portobjs w2 !! l = Some (set_entities {[e]} o)).
  { rewrite Hw2. world_fields. apply lookup_insert_eq. }
  split; [unfold eval; by rewrite (run_addEntity _ _ _ _ Ho)|].
  split.
  { intros e'. unfold eval. rewrite (run__contains__ _ _ _ _ H1). cbn [snd].
    f_equal. apply bool_decide_ext. cbn. set_solver. }
  split.
  { rewrite (run_addEntity _ _ _ _ H1). f_equal. rewrite Hw1.
    world_eq. rewrite insert_insert_eq. f_equal. destruct o; unfold set_entities; cbn.
    f_equal. set_solver. }
  split.
  { intros e'. unfold eval. rewrite (run__contains__ _ _ _ _ H2). cbn [snd].
    f_equal. apply bool_decide_ext. cbn. set_solver. }
  split.
  { intros He. erewrite run_entities_remove; [|exact H1|cbn; set_solver].
    f_equal. rewrite Hw1. world_eq. rewrite insert_insert_eq.
    apply insert_id. rewrite Ho. f_equal.
    destruct o; unfold set_entities; cbn in *. f_equal. set_solver. }
  split.
  { intros He. by eapply run_entities_remove_absent. }
  intros l' o' Hne Ho'. rewrite Hw1, Hw2. world_fields.
  by rewrite !lookup_insert_ne.
Qed.

Lemma world_two_switches_port1 :
  portobjs world_two_switches !! 1%nat = Some (created eth1).
Proof. vm_compute; reflexivity. Qed.

Lemma X1_port_neighbour_set_witness :
  portobjs world_two_switches !! 1%nat = Some (created eth1) ∧
  eval (OpenFlowPort.__contains__ 1 4)
       (exec (OpenFlowPort.addEntity 1 4 false) world_two_switches)
  = Ret (bool_decide (4%nat = 4%nat ∨ 4%nat ∈ entities (created eth1))).
Proof.
  split; [exact world_two_switches_port1|].
  exact (proj1 (proj2
    (X1_port_neighbour_set 1 _ 4 world_two_switches world_two_switches_port1)) 4%nat).
Defined.

(** ** Creating a port *)

(** X2.  [OpenFlowPort(ofp)] never fails (the assertions of [_update] hold
    for a port that is being created) and allocates an object that did not
    exist: it has the number, name, hardware address, config and state of the
    descriptor, it exists, it has no neighbor, and it is a controller port
    exactly when its number is [OFPP_CONTROLLER]; no other port object
    changes, and an [_update] with the same descriptor changes nothing. *)
Theorem X2_port_creation p w :
  ∃ l o,
    OpenFlowPort.__init__ p w = (upd_portobjs <[l := o]> w, Ret l) ∧
    portobjs w !! l = None ∧
    port_matches o p ∧
    exists_ o = true ∧ entities o = ∅ ∧
    (isController o = true ↔ port_no p = OFPP_CONTROLLER) ∧
    (∀ e, eval (OpenFlowPort.__contains__ l e) (upd_portobjs <[l := o]> w) = Ret false) ∧
    OpenFlowPort._update l p (upd_portobjs <[l := o]> w)
    = (upd_portobjs <[l := o]> w, Ret tt).
Proof.
  exists (fresh (dom (portobjs w))), (created p).
  set (l := fresh (dom (portobjs w))).
  assert (Hl : portobjs (upd_portobjs <[l := created p]> w) !! l = Some (created p)).
  { world_fields. apply lookup_insert_eq. }
  split; [apply run_port__init__|]. split; [apply fresh_port_None|].
  split; [done|]. split; [done|]. split; [done|]. split.
  { cbn. split; [by intros ?%bool_decide_eq_true|by intros ?; apply bool_decide_eq_true]. }
  split.
  { intros e. unfold eval. rewrite (run__contains__ _ _ _ _ Hl). cbn. done. }
  erewrite run__update by done. f_equal. world_eq.
  by rewrite insert_insert_eq.
Qed.

(** ** Connection-down at the adaptor: the edges *)

(** X3.  The adaptor's connection-down handler, at its edges.  While the
    topology store is not bound it raises an [AttributeError] and changes
    nothing.  For a switch ID that the store does not know it logs the
    does-not-exist warning and nothing else: no switch is created and no
    "disconnected" line is logged.  For a registered switch that has no
    connection handle it logs the was-not-connected warning and the
    "disconnected" line, and every object is as before: a repeated
    connection-down is harmless. *)
Theorem X3_connection_down_edges d w :
  (attrs (adaptor w) !! "topology"%string ≠ Some true →
     OpenFlowTopology._handle_openflow_ConnectionDown d w = (w, Raise AttributeError)) ∧
  (attrs (adaptor w) !! "topology"%string = Some true →
   topology_entities w !! d = None →
     OpenFlowTopology._handle_openflow_ConnectionDown d w
     = (upd_trace (λ t, t ++ [LogWarnDoesNotExist d]) w, Ret tt)) ∧
  (∀ sw s,
     attrs (adaptor w) !! "topology"%string = Some true →
     topology_entities w !! d = Some sw →
     switches w !! sw = Some s → connection s = None →
     OpenFlowTopology._handle_openflow_ConnectionDown d w
     = (upd_trace (λ t, t ++ [LogWarnWasNotConnected d; LogInfoDisconnected d]) w,
        Ret tt)).
Proof.
  split; [|split].
  - intros Hn. unfold OpenFlowTopology._handle_openflow_ConnectionDown.
    destruct (attrs (adaptor w) !! "topology"%string) as [[]|] eqn:Ha; [done| |].
    + by erewrite run_bind_ret by (by apply run_getattr).
    + erewrite run_bind_raise; [done|]. by apply run_getattr_None.
  - intros Ht Hd. unfold OpenFlowTopology._handle_openflow_ConnectionDown.
    erewrite run_bind_ret by (by apply run_getattr). cbn [negb].
    erewrite run_bind_ret by apply run_getEntityByID.
    by rewrite Hd.
  - intros sw s Ht Hd Hs Hc.
    rewrite (run_openflow_ConnectionDown _ _ _ _ Ht Hd Hs), Hc. f_equal.
    world_eq.
    + apply insert_id. rewrite Hs. f_equal. destruct s; cbn in *. by subst.
    + by rewrite <- app_assoc.
Qed.

(** ** [launch] *)

Lemma exec_bind_ret {A B} (m : M A) (k : A → M B) w w' a :
  m w = (w', Ret a) → exec (m ≫= k) w = exec (k a) w'.
Proof. intros H. unfold exec. by rewrite (run_bind_ret _ _ _ _ _ H). Qed.

(** The constructor of the adaptor returns normally. *)
Lemma run_gate_init W C :
  OpenFlowTopology.__init__ W (upd_components (λ _, C) empty_world)
  = (gate_init W C, Ret tt).
Proof.
  unfold gate_init, exec, OpenFlowTopology.__init__.
  erewrite !run_bind_ret by apply run_modify.
  set (w0 := upd_adaptor _ _).
  destruct W as [W|].
  - destruct (decide (W = ∅)) as [->|Hne].
    + erewrite !run_bind_ret by (apply run_resolveComponents_nothing; by right).
      done.
    + rewrite !run_bind.
      rewrite (run_resolveComponents W w0 eq_refl Hne).
      destruct (decide (W ⊆ components w0)); done.
  - erewrite !run_bind_ret by (apply run_resolveComponents_nothing; by left).
    done.
Qed.

Lemma launch_run cs :
  "openflow_topology"%string ∉ cs →
  launch cs
  = EventLoop.run (registrations ["openflow_topology"%string])
      (gate_init (Some default_wantComponents) cs).
Proof.
  intros Hn. unfold launch. rewrite bool_decide_eq_false_2 by done.
  cbn [registrations fmap list_fmap EventLoop.run EventLoop.deliver].
  by rewrite (exec_bind_ret _ _ _ _ _ (run_gate_init _ _)).
Qed.

Lemma wf_launch cs : wf (launch cs).
Proof.
  destruct (decide ("openflow_topology"%string ∈ cs)) as [Hin|Hn].
  - unfold launch. rewrite bool_decide_eq_true_2 by done.
    apply (keeps_wf_components (λ _, cs) empty_world), wf_empty_world.
  - rewrite launch_run by done. apply wf_reachable.
Qed.

Lemma default_wantComponents_ne : default_wantComponents ≠ ∅.
Proof.
  intros He. assert (H : "openflow"%string ∈ default_wantComponents).
  { unfold default_wantComponents. set_solver. }
  rewrite He in H. set_solver.
Qed.

Lemma no_objects_launch cs : no_objects (launch cs).
Proof.
  assert (H0 : no_objects (upd_components (λ _, cs) empty_world)) by done.
  assert (Ha : ∀ f, keeps no_objects (modify (upd_adaptor f))) by (by intros f w).
  assert (He : ∀ o, keeps no_objects (emit o)) by (by intros o w).
  assert (Hc : ∀ f, keeps no_objects (modify (upd_components f))) by (by intros f w).
  unfold launch. destruct (bool_decide _); [done|].
  unfold exec. revert H0. generalize (upd_components (λ _, cs) empty_world).
  apply (keeps_bind no_objects).
  - unfold OpenFlowTopology.__init__.
    apply keeps_bind; [apply Ha|]. intros ?. apply keeps_bind.
    + by apply keeps_resolveComponents.
    + intros []; [apply keeps_ret|apply Ha].
  - intros ?. by apply keeps_register.
Qed.

Lemma not_wanted_openflow_topology :
  "openflow_topology"%string ∉ default_wantComponents.
Proof. apply (bool_decide_unpack _). vm_compute. exact I. Qed.

(** X4.  [launch()] creates and registers the adaptor unless a component
    named "openflow_topology" exists, in which case it does nothing.  After
    a launch that did create it, "openflow_topology" is registered, the
    adaptor is ready exactly when "openflow", "topology" and
    "openflow_discovery" were all registered before the launch, it observes
    exactly those of the three that were, it has logged "ready" once if it is
    ready and never otherwise, and no switch, port, timer or store entry
    exists. *)
Theorem X4_launch cs :
  ("openflow_topology"%string ∈ cs →
     launch cs = upd_components (λ _, cs) empty_world) ∧
  ("openflow_topology"%string ∉ cs →
     components (launch cs) = cs ∪ {["openflow_topology"%string]} ∧
     (gate_ready (launch cs) ↔ default_wantComponents ⊆ cs) ∧
     listening (adaptor (launch cs)) = default_wantComponents ∩ cs ∧
     ready_count (trace (launch cs))
     = (if decide (default_wantComponents ⊆ cs) then 1 else 0)%nat) ∧
  no_objects (launch cs).
Proof.
  split; [|split; [|apply no_objects_launch]].
  - intros Hin. unfold launch. by rewrite bool_decide_eq_true_2.
  - intros Hn. rewrite launch_run by done.
    destruct (gate_state (Some default_wantComponents) cs ["openflow_topology"%string])
      as [Hc Hst].
    rewrite decide_False in Hst by apply default_wantComponents_ne.
    destruct Hst as (H1 & H2 & H3 & H4 & H5 & H6).
    pose proof not_wanted_openflow_topology as Hoft.
    revert Hc H1 H2 H3 H4 H5 H6 Hoft.
    generalize (EventLoop.run (registrations ["openflow_topology"%string])
                  (gate_init (Some default_wantComponents) cs)).
    change (list_to_set ["openflow_topology"%string] : gset string)
      with ({["openflow_topology"%string]} ∪ ∅ : gset string).
    generalize default_wantComponents. generalize "openflow_topology"%string.
    intros n W w Hc H1 H2 H3 H4 H5 H6 Hoft.
    assert (Hsub : W ⊆ components w ↔ W ⊆ cs) by (rewrite Hc; set_solver).
    split; [rewrite Hc; set_solver|]. split; [|split].
    + unfold gate_ready. rewrite H5, <- Hsub. split.
      * intros Hb%bool_decide_eq_false. by destruct (decide (W ⊆ components w)).
      * intros Hs. by rewrite bool_decide_eq_false_2 by (by intros ?).
    + rewrite H4, Hc. set_solver.
    + rewrite H6.
      destruct (decide (W ⊆ components w)) as [Hs|Hs], (decide (W ⊆ cs)) as [Hs'|Hs'];
        try done; exfalso; tauto.
Qed.

(** ** [findPortForEntity] *)

Lemma run_find_loop entity w : ∀ (kvs : list (N * nat)) (found : option nat),
  (∀ kv, kv ∈ kvs → is_Some (portobjs w !! kv.2)) →
  ∃ r,
    foldM (λ (found : option nat) (kv : N * nat),
             match found return M (option nat) with
             | Some _ => mret found
             | None =>
                 b ← OpenFlowPort.__contains__ kv.2 entity;
                 mret (if b : bool then Some kv.2 else None)
             end) found kvs w = (w, Ret r) ∧
    (is_Some found → r = found) ∧
    (found = None →
       (∀ l, r = Some l →
          ∃ kv o, kv ∈ kvs ∧ kv.2 = l ∧ portobjs w !! l = Some o ∧ entity ∈ entities o) ∧
       (r = None →
          ∀ kv o, kv ∈ kvs → portobjs w !! kv.2 = Some o → entity ∉ entities o)).
Proof.
  induction kvs as [|kv kvs IH]; intros found Hall.
  - exists found. split; [done|]. split; [done|]. intros ->. split; [done|].
    intros _ kv o []%elem_of_nil.
  - cbn [foldM]. destruct found as [x|].
    + rewrite (run_bind_ret _ _ _ _ _ (run_mret _ _)).
      destruct (IH (Some x)) as (r & Hrun & Hr & _).
      { intros ? ?. apply Hall. by apply list_elem_of_further. }
      exists r. split; [done|]. split; [done|]. done.
    + destruct (Hall kv) as [o Ho]; [apply list_elem_of_here|].
      erewrite run_bind_ret.
      2:{ erewrite run_bind_ret by (by apply run__contains__). apply run_mret. }
      destruct (decide (entity ∈ entities o)) as [Hin|Hin].
      * rewrite (bool_decide_eq_true_2 _ Hin).
        destruct (IH (Some kv.2)) as (r & Hrun & Hr & _).
        { intros ? ?. apply Hall. by apply list_elem_of_further. }
        exists r. split; [done|]. split; [by intros [? ?]|]. intros _.
        rewrite (Hr (mk_is_Some _ _ eq_refl)). split; [|done].
        intros l [= <-]. exists kv, o. split; [apply list_elem_of_here|done].
      * rewrite (bool_decide_eq_false_2 _ Hin).
        destruct (IH None) as (r & Hrun & _ & Hr).
        { intros ? ?. apply Hall. by apply list_elem_of_further. }
        destruct (Hr eq_refl) as [Hsome Hnone].
        exists r. split; [done|]. split; [by intros [? ?]|]. intros _. split.
        -- intros l Hl. destruct (Hsome l Hl) as (kv' & o' & ? & ? & ? & ?).
           exists kv', o'. split; [by apply list_elem_of_further|done].
        -- intros Hr' kv' o' [->|Hkv]%elem_of_cons Ho'.
           ++ congruence.
           ++ by eapply Hnone.
Qed.

Lemma findPortForEntity_spec self s entity w :
  switches w !! self = Some s →
  table_ok (ports s) (portobjs w) →
  ∃ r,
    OpenFlowSwitch.findPortForEntity self entity w = (w, Ret r) ∧
    (∀ l, r = Some l →
       ∃ n o, ports s !! n = Some l ∧ portobjs w !! l = Some o ∧ entity ∈ entities o) ∧
    (r = None ↔
       ∀ n l o, ports s !! n = Some l → portobjs w !! l = Some o → entity ∉ entities o).
Proof.
  intros Hs Hok. unfold OpenFlowSwitch.findPortForEntity.
  erewrite run_bind_ret by (by apply run_get_switch).
  destruct (run_find_loop entity w (map_to_list (ports s)) None)
    as (r & Hrun & _ & Hr).
  { intros [n l] Hkv%elem_of_map_to_list. cbn.
    destruct (Hok _ _ Hkv) as (o & Ho & _). eauto. }
  destruct (Hr eq_refl) as [Hsome Hnone].
  exists r. split; [done|]. split; [|split].
  - intros l Hl. destruct (Hsome l Hl) as ([n l'] & o & Hkv & Heq & Ho & Hin).
    cbn in Heq. subst l'. exists n, o. split; [by apply elem_of_map_to_list|done].
  - intros Hr' n l o Hl Ho. apply (Hnone Hr' (n, l) o); [|done].
    by apply elem_of_map_to_list.
  - intros Hno. destruct r as [l|]; [|done].
    destruct (Hsome l eq_refl) as ([n l'] & o & Hkv%elem_of_map_to_list & Heq & Ho & Hin).
    cbn in Heq. subst l'. by destruct (Hno n l o).
Qed.

(** X5.  [findPortForEntity] changes nothing and never raises on a switch
    whose table is well formed.  A port it returns is a port of the switch
    that holds the entity as a neighbor, and it returns [None] exactly when
    no port of the switch holds the entity. *)
Theorem X5_findPortForEntity self s entity w :
  switches w !! self = Some s →
  table_ok (ports s) (portobjs w) →
  ∃ r,
    OpenFlowSwitch.findPortForEntity self entity w = (w, Ret r) ∧
    (∀ l, r = Some l →
       ∃ n o, ports s !! n = Some l ∧ portobjs w !! l = Some o ∧ entity ∈ entities o) ∧
    (r = None ↔
       ∀ n l o, ports s !! n = Some l → portobjs w !! l = Some o → entity ∉ entities o).
Proof. apply findPortForEntity_spec. Qed.

Lemma world_two_switches_table :
  table_ok {[1 := 0%nat; 2 := 1%nat]} (portobjs world_two_switches).
Proof. apply table_okb_sound. vm_compute; reflexivity. Qed.

Lemma X5_findPortForEntity_witness :
  switches world_two_switches !! 0%nat
  = Some (mkSwitch 1 {[1 := 0%nat; 2 := 1%nat]} 5 (Some 7%nat) [0%nat] None) ∧
  table_ok {[1 := 0%nat; 2 := 1%nat]} (portobjs world_two_switches) ∧
  ∃ r, OpenFlowSwitch.findPortForEntity 0 1 world_two_switches
       = (world_two_switches, Ret r).
Proof.
  split; [exact world_two_switches_0|]. split; [exact world_two_switches_table|].
  destruct (X5_findPortForEntity 0 _ 1 world_two_switches
              world_two_switches_0 world_two_switches_table) as (r & Hrun & _).
  exists r. exact Hrun.
Defined.

(** X6.  After a link-added event whose switches and ports resolve, each of
    the two switches finds a port for the other: [findPortForEntity] returns
    a port of the switch that holds the other switch as a neighbor. *)
Theorem X6_link_added_then_find ev sw1 sw2 s1 s2 l1 l2 w :
  added ev = true →
  attrs (adaptor w) !! "topology"%string = Some true →
  wf w →
  topology_entities w !! dpid1 (link ev) = Some sw1 →
  topology_entities w !! dpid2 (link ev) = Some sw2 →
  switches w !! sw1 = Some s1 → switches w !! sw2 = Some s2 →
  ports s1 !! port1 (link ev) = Some l1 → ports s2 !! port2 (link ev) = Some l2 →
  let w' := exec (OpenFlowTopology._handle_openflow_discovery_LinkEvent ev) w in
  (∃ l n o, eval (OpenFlowSwitch.findPortForEntity sw1 sw2) w' = Ret (Some l) ∧
            ports s1 !! n = Some l ∧ portobjs w' !! l = Some o ∧ sw2 ∈ entities o) ∧
  (∃ l n o, eval (OpenFlowSwitch.findPortForEntity sw2 sw1) w' = Ret (Some l) ∧
            ports s2 !! n = Some l ∧ portobjs w' !! l = Some o ∧ sw1 ∈ entities o).
Proof.
  intros Ha Ht Hwf H1 H2 Hs1 Hs2 Hl1 Hl2 w'.
  destruct Hwf as (Hst & Htab & Hun).
  destruct (Htab _ _ Hs1 _ _ Hl1) as (o1 & Ho1 & _).
  destruct (Htab _ _ Hs2 _ _ Hl2) as (o2 & Ho2 & _).
  destruct (link_added_end_state ev sw1 sw2 s1 s2 l1 l2 o1 o2 w)
    as (H' & Hrun & Hh1 & Hh2 & Hrest); try done.
  { intros <-. by eapply Hun. }
  assert (Hwf' : wf w').
  { unfold w', exec. by apply keeps_wf_LinkEvent. }
  assert (Hw' : w' = upd_portobjs (λ _, H') w) by (unfold w', exec; by rewrite Hrun).
  assert (Hs1' : switches w' !! sw1 = Some s1) by (by rewrite Hw').
  assert (Hs2' : switches w' !! sw2 = Some s2) by (by rewrite Hw').
  assert (Hp1 : portobjs w' !! l1 = Some (set_entities {[sw2]} o1)) by (by rewrite Hw').
  assert (Hp2 : portobjs w' !! l2 = Some (set_entities {[sw1]} o2)) by (by rewrite Hw').
  destruct Hwf' as (_ & Htab' & _).
  split.
  - destruct (findPortForEntity_spec sw1 s1 sw2 w' Hs1' (Htab' _ _ Hs1'))
      as (r & Hrun' & Hsome & Hnone).
    destruct r as [l|].
    + destruct (Hsome l eq_refl) as (n & o & ? & ? & ?).
      exists l, n, o. unfold eval. by rewrite Hrun'.
    + exfalso. apply (proj1 Hnone eq_refl _ _ _ Hl1 Hp1). cbn. set_solver.
  - destruct (findPortForEntity_spec sw2 s2 sw1 w' Hs2' (Htab' _ _ Hs2'))
      as (r & Hrun' & Hsome & Hnone).
    destruct r as [l|].
    + destruct (Hsome l eq_refl) as (n & o & ? & ? & ?).
      exists l, n, o. unfold eval. by rewrite Hrun'.
    + exfalso. apply (proj1 Hnone eq_refl _ _ _ Hl2 Hp2). cbn. set_solver.
Qed.

Lemma wf_world_two_switches : wf world_two_switches.
Proof.
  unfold world_two_switches, world_one_switch, world_ready.
  apply wf_run, wf_run, wf_launch.
Qed.

Lemma X6_link_added_then_find_witness :
  added link_added = true ∧
  attrs (adaptor world_two_switches) !! "topology"%string = Some true ∧
  wf world_two_switches ∧
  topology_entities world_two_switches !! dpid1 (link link_added) = Some 0%nat ∧
  topology_entities world_two_switches !! dpid2 (link link_added) = Some 1%nat ∧
  switches world_two_switches !! 0%nat
  = Some (mkSwitch 1 {[1 := 0%nat; 2 := 1%nat]} 5 (Some 7%nat) [0%nat] None) ∧
  switches world_two_switches !! 1%nat
  = Some (mkSwitch 2 {[1 := 2%nat]} 5 (Some 8%nat) [1%nat] None) ∧
  ∃ l n o,
    eval (OpenFlowSwitch.findPortForEntity 0 1)
         (exec (OpenFlowTopology._handle_openflow_discovery_LinkEvent link_added)
               world_two_switches) = Ret (Some l) ∧
    ports (mkSwitch 1 {[1 := 0%nat; 2 := 1%nat]} 5 (Some 7%nat) [0%nat] None) !! n
    = Some l ∧
    portobjs (exec (OpenFlowTopology._handle_openflow_discovery_LinkEvent link_added)
                   world_two_switches) !! l = Some o ∧
    1%nat ∈ entities o.
Proof.
  assert (E1 : topology_entities world_two_switches !! dpid1 (link link_added)
               = Some 0%nat) by (vm_compute; reflexivity).
  assert (E2 : topology_entities world_two_switches !! dpid2 (link link_added)
               = Some 1%nat) by (vm_compute; reflexivity).
  assert (P1 : ports (mkSwitch 1 {[1 := 0%nat; 2 := 1%nat]} 5 (Some 7%nat) [0%nat] None)
                 !! port1 (link link_added) = Some 0%nat) by (vm_compute; reflexivity).
  assert (P2 : ports (mkSwitch 2 {[1 := 2%nat]} 5 (Some 8%nat) [1%nat] None)
                 !! port2 (link link_added) = Some 2%nat) by (vm_compute; reflexivity).
  split; [reflexivity|]. split; [exact world_two_switches_bound|].
  split; [exact wf_world_two_switches|]. split; [exact E1|]. split; [exact E2|].
  split; [exact world_two_switches_0|]. split; [exact world_two_switches_1|].
  exact (proj1 (X6_link_added_then_find link_added 0%nat 1%nat _ _ 0%nat 2%nat
                  world_two_switches eq_refl world_two_switches_bound
                  wf_world_two_switches E1 E2
                  world_two_switches_0 world_two_switches_1 P1 P2)).
Defined.

(** ** Port-status events, one after the other *)

(** X7.  Incremental events compose as follows.  An "add" of an untracked
    port followed by a "delete" of the same port gives back the switch
    object as it was; the port object that the "add" created stays in the
    heap, marked as not existing.  A "delete" of a tracked port followed by
    an "add" of the same number tracks a port object that did not exist
    before: the old object is not reused and stays marked as not existing.
    A "modify" that is repeated changes nothing but the trace. *)
Theorem X7_port_status_sequences self s p w :
  switches w !! self = Some s →
  let add := mk_port_status OFPPR_ADD p in
  let del := mk_port_status OFPPR_DELETE p in
  let mod_ := mk_port_status OFPPR_MODIFY p in
  (ports s !! port_no p = None →
     let l := fresh (dom (portobjs w)) in
     let w2 := exec (OpenFlowSwitch._handle_con_PortStatus self del)
                 (exec (OpenFlowSwitch._handle_con_PortStatus self add) w) in
     switches w2 = switches w ∧
     portobjs w !! l = None ∧
     portobjs w2 = <[l := set_exists false (created p)]> (portobjs w) ∧
     trace w2 = trace w ++ [RaisedPortStatus self add; RaisedPortStatus self del]) ∧
  (∀ l o, ports s !! port_no p = Some l → portobjs w !! l = Some o →
     let w1 := exec (OpenFlowSwitch._handle_con_PortStatus self del) w in
     let l' := fresh (dom (portobjs w)) in
     let w2 := exec (OpenFlowSwitch._handle_con_PortStatus self add) w1 in
     l' ≠ l ∧
     switches w2 !! self = Some (set_ports <[port_no p := l']> s) ∧
     portobjs w2 !! l = Some (set_exists false o) ∧
     portobjs w2 !! l' = Some (created p)) ∧
  (∀ l o, ports s !! port_no p = Some l → portobjs w !! l = Some o →
     name o = ofp_name p → number o = port_no p →
     let w1 := exec (OpenFlowSwitch._handle_con_PortStatus self mod_) w in
     OpenFlowSwitch._handle_con_PortStatus self mod_ w1
     = (upd_trace (λ t, t ++ [RaisedPortStatus self mod_]) w1, Ret tt)).
Proof.
  intros Hs add del mod_. split; [|split].
  - intros Hl l w2.
    assert (Hfresh : portobjs w !! l = None) by apply fresh_port_None.
    unfold w2, exec.
    rewrite (run_PortStatus_add_untracked self s add w eq_refl Hs Hl). cbn [fst].
    fold l. cbn [desc add].
    erewrite (run_PortStatus_delete_tracked self _ del l (created p)); try done.
    2:{ world_fields. apply lookup_insert_eq. }
    2:{ cbn. apply lookup_insert_eq. }
    2:{ world_fields. apply lookup_insert_eq. }
    cbn [fst]. world_fields. cbn [desc del].
    split; [|split; [done|split]].
    + rewrite insert_insert_eq. apply insert_id. rewrite Hs. f_equal.
      destruct s; unfold set_ports; cbn in *. f_equal.
      rewrite delete_insert_eq. symmetry. by apply delete_id.
    + by rewrite insert_insert_eq.
    + by rewrite <- app_assoc.
  - intros l o Hl Ho w1 l' w2.
    assert (Hne : l' ≠ l).
    { intros Heq. pose proof (fresh_port_None w) as Hf. fold l' in Hf. congruence. }
    split; [done|]. unfold w2, w1, exec.
    rewrite (run_PortStatus_delete_tracked self s del l o w eq_refl Hs Hl Ho).
    cbn [fst]. cbn [desc del].
    erewrite (run_PortStatus_add_untracked self _ add); try done.
    2:{ world_fields. apply lookup_insert_eq. }
    2:{ cbn. apply lookup_delete_eq. }
    cbn [fst]. world_fields. cbn [desc add].
    assert (Hdom : fresh (dom (<[l := set_exists false o]> (portobjs w))) = l').
    { unfold l'. f_equal. rewrite dom_insert_L.
      assert (l ∈ dom (portobjs w)) by (apply elem_of_dom; eauto). set_solver. }
    rewrite Hdom. split; [|split].
    + rewrite lookup_insert_eq. f_equal.
      destruct s; unfold set_ports; cbn. f_equal. by rewrite insert_delete_eq.
    + rewrite lookup_insert_ne by done. apply lookup_insert_eq.
    + apply lookup_insert_eq.
  - intros l o Hl Ho Hn Hk w1. unfold w1, exec.
    rewrite (run_PortStatus_modify_tracked self s mod_ l o w eq_refl Hs Hl Ho Hn Hk).
    cbn [fst]. cbn [desc mod_].
    erewrite (run_PortStatus_modify_tracked self s mod_ l (updated o p)); try done.
    2:{ world_fields. apply lookup_insert_eq. }
    f_equal. world_eq. rewrite insert_insert_eq. done.
Qed.

Lemma X7_port_status_sequences_witness :
  switches world_one_switch !! 0%nat
  = Some (mkSwitch 1 {[1 := 0%nat; 2 := 1%nat]} 5 (Some 7%nat) [0%nat] None) ∧
  switches
    (exec (OpenFlowSwitch._handle_con_PortStatus 0 (mk_port_status OFPPR_DELETE eth2))
       (exec (OpenFlowSwitch._handle_con_PortStatus 0 (mk_port_status OFPPR_ADD eth2))
          world_one_switch))
  = switches world_one_switch.
Proof.
  split; [exact world_one_switch_0|].
  refine (proj1 (proj1
    (X7_port_status_sequences 0 _ eth2 world_one_switch world_one_switch_0) _)).
  vm_compute; reflexivity.
Defined.

(** ** Full-mode reconciliation against the empty list *)

(** X8.  Full-mode reconciliation against an empty port list returns
    normally and empties the port table of the switch: every port that was
    tracked is marked as not existing, and its object is otherwise as it
    was. *)
Theorem X8_full_mode_empty_list self s w :
  switches w !! self = Some s →
  table_ok (ports s) (portobjs w) →
  let w' := exec (OpenFlowSwitch.update_all_ports self []) w in
  eval (OpenFlowSwitch.update_all_ports self []) w = Ret tt ∧
  switches w' = <[self := set_ports (λ _, ∅) s]> (switches w) ∧
  (∀ n l o, ports s !! n = Some l → portobjs w !! l = Some o →
     portobjs w' !! l = Some (set_exists false o)) ∧
  (∀ l o, portobjs w !! l = Some o → (∀ n, ports s !! n ≠ Some l) →
     portobjs w' !! l = Some o).
Proof.
  intros Hs Hok w'.
  destruct (update_all_ports_end_state self s [] w Hs Hok)
    as (T' & H' & Hrun & Hdom & Hgone & _ & _ & Hrest & _).
  { constructor. }
  { intros p l o []%elem_of_nil. }
  assert (HT : T' = ∅).
  { apply (dom_empty_iff_L (M := gmap N)). rewrite Hdom. done. }
  unfold w', exec, eval. rewrite Hrun. cbn [fst snd]. world_fields. subst T'.
  split; [done|]. split; [done|]. split; [|done].
  intros n l o Hl Ho. apply (Hgone n l o Hl); [|done]. set_solver.
Qed.

Lemma world_one_switch_table :
  table_ok {[1 := 0%nat; 2 := 1%nat]} (portobjs world_one_switch).
Proof. apply table_okb_sound. vm_compute; reflexivity. Qed.

Lemma X8_full_mode_empty_list_witness :
  switches world_one_switch !! 0%nat
  = Some (mkSwitch 1 {[1 := 0%nat; 2 := 1%nat]} 5 (Some 7%nat) [0%nat] None) ∧
  table_ok {[1 := 0%nat; 2 := 1%nat]} (portobjs world_one_switch) ∧
  eval (OpenFlowSwitch.update_all_ports 0 []) world_one_switch = Ret tt.
Proof.
  split; [exact world_one_switch_0|]. split; [exact world_one_switch_table|].
  exact (proj1 (X8_full_mode_empty_list 0 _ world_one_switch
                  world_one_switch_0 world_one_switch_table)).
Defined.

(** ** Reconnecting after the grace window *)

(** X9.  A switch that disconnects and stays away until its timer expires is
    gone for good: a later connection-up for the same switch ID creates a
    switch object that did not exist, with port objects that did not exist,
    registers it under the ID and raises a join for it, after the leave of
    the old object.  The old object stays in the heap, disconnected and with
    the ports it had, and is not registered any more. *)
Theorem X9_reconnect_after_grace_window sw s c ofp w :
  attrs (adaptor w) !! "topology"%string = Some true →
  "topology"%string ∈ components w →
  switches w !! sw = Some s →
  topology_entities w !! dpid s = Some sw →
  NoDup (port_no <$> ofp_ports ofp) →
  let t := fresh (dom (timers w)) in
  let w1 := exec (OpenFlowSwitch._handle_con_ConnectionDown sw) w in
  let w2 := exec (EventLoop.expire t) w1 in
  let w3 := exec (OpenFlowTopology._handle_openflow_ConnectionUp (dpid s) c ofp) w2 in
  let sw' := fresh (dom (switches w)) in
  sw' ≠ sw ∧
  topology_entities w2 !! dpid s = None ∧
  topology_entities w3 !! dpid s = Some sw' ∧
  switches w3 !! sw = Some (mkSwitch (dpid s) (ports s) (capabilities s) None [] None) ∧
  (∃ s', switches w3 !! sw' = Some s' ∧ dpid s' = dpid s ∧ connection s' = Some c ∧
         dom (ports s') = reported (ofp_ports ofp) ∧
         (∀ n l, ports s' !! n = Some l → portobjs w !! l = None)) ∧
  trace w3 = trace w ++ [RaisedSwitchLeave sw; LogInfoConnected (dpid s);
                         RaisedSwitchJoin sw'].
Proof.
  intros Ht Htop Hs Hreg Hnd t w1 w2 w3 sw'.
  assert (Hne : sw' ≠ sw).
  { intros Heq. pose proof (fresh_switch_None w) as Hf. fold sw' in Hf. congruence. }
  assert (Hw1 : w1 = after_disconnect sw s w).
  { unfold w1, exec, OpenFlowSwitch._handle_con_ConnectionDown.
    by rewrite (run_setConnection_None _ _ _ Hs). }
  set (s1 := mkSwitch (dpid s) (ports s) (capabilities s) None [] (Some t)).
  assert (Hs1 : switches w1 !! sw = Some s1)
    by (rewrite Hw1; apply after_disconnect_switch).
  assert (Ht1 : timers w1 !! t = Some (mkTimer RECONNECT_TIMEOUT sw true))
    by (rewrite Hw1; apply after_disconnect_timer).
  assert (Hrun2 : EventLoop.expire t w1
                  = (upd_trace (λ tr, tr ++ [RaisedSwitchLeave sw])
                       (upd_topology_entities (delete (dpid s1))
                          (upd_switches <[sw := set__reconnectTimeout None s1]>
                             (upd_timers
                                <[t := cancelled (mkTimer RECONNECT_TIMEOUT sw true)]>
                                w1))), Ret tt)).
  { eapply run_expire; try done. by rewrite Hw1. }
  assert (Hw2 : w2 = upd_trace (λ tr, tr ++ [RaisedSwitchLeave sw])
                       (upd_topology_entities (delete (dpid s))
                          (upd_switches <[sw := set__reconnectTimeout None s1]>
                             (upd_timers
                                <[t := cancelled (mkTimer RECONNECT_TIMEOUT sw true)]>
                                w1)))).
  { unfold w2, exec. by rewrite Hrun2. }
  assert (Hst2 : topology_entities w2 !! dpid s = None).
  { rewrite Hw2. world_fields. apply lookup_delete_eq. }
  assert (Hdom2 : dom (switches w2) = dom (switches w)).
  { rewrite Hw2, Hw1. unfold after_disconnect. world_fields.
    rewrite !dom_insert_L.
    assert (sw ∈ dom (switches w)) by (apply elem_of_dom; eauto). set_solver. }
  assert (Hp2 : portobjs w2 = portobjs w) by (by rewrite Hw2, Hw1).
  assert (Hsw2 : switches w2 !! sw
                 = Some (mkSwitch (dpid s) (ports s) (capabilities s) None [] None)).
  { rewrite Hw2. world_fields. apply lookup_insert_eq. }
  assert (Htr2 : trace w2 = trace w ++ [RaisedSwitchLeave sw]) by (by rewrite Hw2, Hw1).
  destruct (run_ConnectionUp_new (dpid s) c ofp w2)
    as (T' & H' & Hrun3 & HdomT & Hok & Hnew & Hold); [by rewrite Hw2, Hw1|done|done|].
  cbn zeta in Hrun3. rewrite Hdom2 in Hrun3. fold sw' in Hrun3.
  assert (Hw3 : w3 = (OpenFlowTopology._handle_openflow_ConnectionUp (dpid s) c ofp w2).1)
    by done.
  rewrite Hrun3 in Hw3. cbn [fst] in Hw3.
  split; [done|]. split; [done|]. split; [|split; [|split]].
  - rewrite Hw3. world_fields. apply lookup_insert_eq.
  - rewrite Hw3. world_fields. by rewrite lookup_insert_ne.
  - eexists. split; [rewrite Hw3; world_fields; apply lookup_insert_eq|].
    split; [done|]. split; [done|]. split; [done|].
    intros n l Hl. cbn [ports] in Hl.
    assert (n ∈ reported (ofp_ports ofp)) as (p & Hp & <-)%elem_of_reported.
    { rewrite <- HdomT. apply elem_of_dom; eauto. }
    destruct (Hnew p Hp) as (lp & Hfresh & HT & _).
    rewrite Hp2 in Hfresh. congruence.
  - rewrite Hw3. world_fields. rewrite Htr2, <- app_assoc. done.
Qed.

Lemma world_one_switch_registered :
  topology_entities world_one_switch !! 1 = Some 0%nat.
Proof. vm_compute; reflexivity. Qed.

Lemma world_one_switch_bound :
  attrs (adaptor world_one_switch) !! "topology"%string = Some true.
Proof. vm_compute; reflexivity. Qed.

Lemma world_one_switch_topology : "topology"%string ∈ components world_one_switch.
Proof. apply (bool_decide_unpack _). vm_compute. exact I. Qed.

Lemma X9_reconnect_after_grace_window_witness :
  attrs (adaptor world_one_switch) !! "topology"%string = Some true ∧
  "topology"%string ∈ components world_one_switch ∧
  switches world_one_switch !! 0%nat
  = Some (mkSwitch 1 {[1 := 0%nat; 2 := 1%nat]} 5 (Some 7%nat) [0%nat] None) ∧
  topology_entities world_one_switch !! 1 = Some 0%nat ∧
  NoDup (port_no <$> ofp_ports (mk_features 5 [eth0; eth1])) ∧
  fresh (dom (switches world_one_switch)) ≠ 0%nat.
Proof.
  split; [exact world_one_switch_bound|]. split; [exact world_one_switch_topology|].
  split; [exact world_one_switch_0|]. split; [exact world_one_switch_registered|].
  split; [exact NoDup_eth0_eth1|].
  exact (proj1 (X9_reconnect_after_grace_window 0 _ 8 (mk_features 5 [eth0; eth1])
                  world_one_switch world_one_switch_bound world_one_switch_topology
                  world_one_switch_0 world_one_switch_registered NoDup_eth0_eth1)).
Defined.

(** ** Handlers, from the steps they are made of *)

Section handlers.
Context (R : World → World → Prop) `{!PreOrder R}.
Hypothesis R_assign_switch :
  ∀ l f, (∀ s, dpid (f s) = dpid s) → preserves R (assign_switch l f).
Hypothesis R_assign_port :
  ∀ l f, (∀ o, port_kept o (f o) ∧ entities (f o) = entities o) →
         preserves R (assign_port l f).
Hypothesis R_port_init : ∀ p, preserves R (OpenFlowPort.__init__ p).
Hypothesis R_new_switch : ∀ d, preserves R (OpenFlowSwitch.__init__ d).
Hypothesis R_timer_new : ∀ n cb, preserves R (Timer.new n cb).
Hypothesis R_timer_cancel : ∀ t, preserves R (Timer.cancel t).
Hypothesis R_timer_fire :
  ∀ t o w, timers w !! t = Some o → R w (upd_timers <[t := cancelled o]> w).
Hypothesis R_listeners : ∀ f, preserves R (modify (upd_con_listeners f)).
Hypothesis R_store : ∀ f, preserves R (modify (upd_topology_entities f)).
Hypothesis R_emit : ∀ o, is_ready o = false → preserves R (emit o).

Local Ltac step := apply preserves_bind; [apply _| |].
Local Ltac leaf :=
  first [ apply preserves_ret; apply _ | apply preserves_raise; apply _
        | apply preserves_get; apply _ | apply preserves_get_switch; apply _
        | apply preserves_get_port; apply _ | apply preserves_getEntityByID; apply _
        | apply preserves_getattr; apply _
        | by apply R_emit
        | apply R_assign_switch; by intros []
        | apply R_assign_port; by intros [] ].

Lemma handlers__update l p : preserves R (OpenFlowPort._update l p).
Proof.
  unfold OpenFlowPort._update. step; [leaf|]. intros o.
  destruct (negb _); [leaf|]. destruct (negb _); [leaf|].
  step; [leaf|intros _]. step; [leaf|intros _]. leaf.
Qed.

Lemma handlers_update_all_ports self ps :
  preserves R (OpenFlowSwitch.update_all_ports self ps).
Proof.
  unfold OpenFlowSwitch.update_all_ports. step; [leaf|]. intros s. step.
  - apply preserves_foldM; [apply _|]. intros U p.
    unfold OpenFlowSwitch.update_port. step; [leaf|]. intros s'.
    destruct (ports s' !! port_no p).
    + step; [apply handlers__update|intros _]. destruct (bool_decide _); leaf.
    + step; [apply R_port_init|intros l]. step; [leaf|intros _]. leaf.
  - intros U. apply preserves_for_each; [apply _|]. intros k.
    unfold OpenFlowSwitch.drop_port. step; [leaf|]. intros s'.
    destruct (ports s' !! k); [|leaf]. step; [leaf|intros _]. leaf.
Qed.

Lemma handlers_setConnection self connection_ ofp :
  preserves R (OpenFlowSwitch._setConnection self connection_ ofp).
Proof.
  unfold OpenFlowSwitch._setConnection. step; [leaf|]. intros s.
  step. { destruct (connection s); [apply R_listeners|leaf]. } intros _.
  step; [leaf|intros _]. step; [leaf|intros _]. step; [leaf|]. intros s'.
  step.
  { destruct (_reconnectTimeout s'); [|leaf]. step; [apply R_timer_cancel|intros _]. leaf. }
  intros _. step.
  { destruct connection_; [leaf|]. step; [apply R_timer_new|intros t]. leaf. }
  intros _. step.
  { destruct ofp; [|leaf]. step; [leaf|intros _]. apply handlers_update_all_ports. }
  intros _. destruct connection_; [|leaf].
  step; [|intros ls; leaf]. intros w. apply (R_listeners _ w).
Qed.

Lemma handlers_timer_ReconnectTimeout self :
  preserves R (OpenFlowSwitch._timer_ReconnectTimeout self).
Proof.
  unfold OpenFlowSwitch._timer_ReconnectTimeout. step; [leaf|intros _].
  step; [leaf|]. intros w. step; [|intros _; leaf].
  destruct (bool_decide _); [|leaf].
  unfold Topology.removeEntity. step; [leaf|]. intros s. apply R_store.
Qed.

Lemma handlers_PortStatus self ofp :
  preserves R (OpenFlowSwitch._handle_con_PortStatus self ofp).
Proof.
  unfold OpenFlowSwitch._handle_con_PortStatus. step; [|intros _; leaf].
  destruct (bool_decide (reason ofp = OFPPR_DELETE)).
  { step; [leaf|]. intros s. destruct (ports s !! _); [|leaf].
    step; [leaf|intros _]. leaf. }
  destruct (bool_decide (reason ofp = OFPPR_MODIFY)).
  { step; [leaf|]. intros s.
    destruct (ports s !! _); [apply handlers__update|leaf]. }
  destruct (negb _); [leaf|]. step; [leaf|]. intros s.
  destruct (negb _); [leaf|]. step; [apply R_port_init|intros l]. leaf.
Qed.

Lemma handlers_ConnectionUp d c ofp :
  preserves R (OpenFlowTopology._handle_openflow_ConnectionUp d c ofp).
Proof.
  unfold OpenFlowTopology._handle_openflow_ConnectionUp.
  step; [leaf|]. intros b. destruct (negb b); [leaf|].
  step; [leaf|]. intros o. step.
  { destruct o as [sw|].
    - step; [leaf|]. intros s. step; [|intros _; leaf].
      destruct (connection s); leaf.
    - step; [apply R_new_switch|intros sw]. leaf. }
  intros [sw add]. step; [apply handlers_setConnection|intros _].
  step; [leaf|intros _]. destruct add; [|leaf].
  step; [|intros _; leaf].
  unfold Topology.addEntity. step; [leaf|]. intros s. apply R_store.
Qed.

Lemma handlers_ConnectionDown d :
  preserves R (OpenFlowTopology._handle_openflow_ConnectionDown d).
Proof.
  unfold OpenFlowTopology._handle_openflow_ConnectionDown.
  step; [leaf|]. intros b. destruct (negb b); [leaf|].
  step; [leaf|]. intros o. destruct o as [sw|]; [|leaf].
  step; [leaf|]. intros s. step. { destruct (connection s); leaf. }
  intros _. step; [leaf|intros _]. leaf.
Qed.

Lemma handlers_expire t : preserves R (EventLoop.expire t).
Proof.
  intros w. unfold EventLoop.expire. rewrite run_bind, run_get.
  destruct (timers w !! t) as [o|] eqn:Ho; [|reflexivity].
  destruct (pending o); [|reflexivity].
  erewrite run_bind_ret by apply run_modify.
  etrans; [exact (R_timer_fire t o w Ho)|]. apply handlers_timer_ReconnectTimeout.
Qed.

(** Every event but a registration and a link event. *)
Lemma handlers_deliver_other e :
  (∀ n, e ≠ ComponentRegistered n) → (∀ ev, e ≠ DiscoveryLinkEvent ev) →
  preserves R (EventLoop.deliver e).
Proof.
  intros He Hl.
  assert (Hcomp : ∀ prefix h, preserves R h →
                  preserves R (EventLoop.from_component prefix h)).
  { intros prefix h Hh. unfold EventLoop.from_component. step; [leaf|]. intros w.
    destruct (bool_decide _); [done|leaf]. }
  assert (Hcon : ∀ c h, (∀ sw, preserves R (h sw)) →
                 preserves R (EventLoop.from_connection c h)).
  { intros c h Hh. unfold EventLoop.from_connection. step; [leaf|]. intros w.
    by apply preserves_for_each; [apply _|]. }
  destruct e as [n| | |ev| | | | | |]; cbn [EventLoop.deliver].
  - by destruct (He n).
  - apply Hcomp, handlers_ConnectionUp.
  - apply Hcomp, handlers_ConnectionDown.
  - by destruct (Hl ev).
  - apply Hcon. intros sw. apply handlers_PortStatus.
  - apply Hcon. intros sw. apply handlers_setConnection.
  - apply Hcon. intros sw. by apply R_emit.
  - apply Hcon. intros sw. by apply R_emit.
  - apply Hcon. intros sw. by apply R_emit.
  - apply handlers_expire.
Qed.

Hypothesis R_entities : ∀ l E, preserves R (assign_port l (set_entities E)).

Lemma handlers_LinkEvent ev :
  preserves R (OpenFlowTopology._handle_openflow_discovery_LinkEvent ev).
Proof.
  unfold OpenFlowTopology._handle_openflow_discovery_LinkEvent.
  step; [leaf|]. intros b. destruct (negb b); [leaf|].
  step; [leaf|]. intros o1. step; [leaf|]. intros o2.
  destruct o1 as [sw1|], o2 as [sw2|]; try leaf.
  step; [leaf|]. intros s1. step; [leaf|]. intros s2.
  destruct (ports s1 !! port1 (link ev)), (ports s2 !! port2 (link ev)); try leaf.
  assert (Hadd : ∀ l e, preserves R (OpenFlowPort.addEntity l e true)).
  { intros l e. unfold OpenFlowPort.addEntity. apply R_entities. }
  assert (Hrm : ∀ l e, preserves R (OpenFlowPort.entities_remove l e)).
  { intros l e w. unfold OpenFlowPort.entities_remove. rewrite run_bind.
    unfold get_port. destruct (portobjs w !! l) as [o|] eqn:Ho; [|reflexivity].
    destruct (bool_decide _); [|reflexivity].
    pose proof (R_entities l (entities o ∖ {[e]}) w) as Hf.
    by rewrite (run_assign_port _ _ _ _ Ho) in Hf. }
  destruct (added ev); [|destruct (removed ev); [|leaf]].
  - step; [leaf|]. intros s. step.
    { destruct (ports s !! _); [apply Hadd|leaf]. }
    intros _. step; [leaf|]. intros s'. destruct (ports s' !! _); [apply Hadd|leaf].
  - step; [leaf|]. intros s. step.
    { destruct (ports s !! _); [apply Hrm|leaf]. }
    intros _. step; [leaf|]. intros s'. destruct (ports s' !! _); [apply Hrm|leaf].
Qed.

(** Every event but a registration. *)
Lemma handlers_deliver e :
  (∀ n, e ≠ ComponentRegistered n) → preserves R (EventLoop.deliver e).
Proof.
  intros He. destruct e; try (by apply handlers_deliver_other).
  cbn [EventLoop.deliver]. unfold EventLoop.from_component.
  step; [leaf|]. intros w. destruct (bool_decide _); [apply handlers_LinkEvent|leaf].
Qed.

Hypothesis R_adaptor : ∀ f, preserves R (modify (upd_adaptor f)).
Hypothesis R_components :
  ∀ n, preserves R (modify (upd_components (λ cs, cs ∪ {[n]}))).
Hypothesis R_emit_ready : preserves R (emit LogDebugReady).

Lemma handlers_register n : preserves R (EventLoop.register n).
Proof.
  assert (He : ∀ o, preserves R (emit o)).
  { intros o. destruct (is_ready o) eqn:Ho; [|by apply R_emit].
    destruct o; try discriminate. apply R_emit_ready. }
  assert (Hres : preserves R OpenFlowTopology._resolveComponents).
  { intros w. apply (keeps_resolveComponents (λ w', R w w')); [| |reflexivity].
    - intros f w' Hw'. etrans; [exact Hw'|apply R_adaptor].
    - intros o w' Hw'. etrans; [exact Hw'|apply He]. }
  unfold EventLoop.register. step; [apply R_components|intros _].
  step; [leaf|]. intros w. destruct (listening_core (adaptor w)); [|leaf].
  step.
  - unfold OpenFlowTopology._handle_ComponentRegistered. step; [exact Hres|]. intros; leaf.
  - intros []; [apply R_adaptor|leaf].
Qed.

Lemma handlers_deliver_any e : preserves R (EventLoop.deliver e).
Proof.
  destruct e; try (by apply handlers_deliver).
  apply handlers_register.
Qed.

Lemma handlers_run es : ∀ w, R w (EventLoop.run es w).
Proof.
  induction es as [|e es IH]; intros w; cbn [EventLoop.run]; [reflexivity|].
  etrans; [apply handlers_deliver_any|apply IH].
Qed.

End handlers.

(** ** Objects are never lost, identities never change *)

#[export] Instance port_kept_preorder : PreOrder port_kept.
Proof.
  split; [done|]. unfold port_kept.
  intros ??? (?&?&?&?) (?&?&?&?). repeat split; [congruence..|auto].
Qed.

#[export] Instance timer_kept_preorder : PreOrder timer_kept.
Proof.
  split; [done|]. unfold timer_kept.
  intros ??? (?&?&?) (?&?&?). repeat split; [congruence..|auto].
Qed.

#[export] Instance stable_preorder : PreOrder stable.
Proof.
  split.
  - intros w. split; [|split; [|split; [|split]]]; [eauto| | | |done].
    + intros l o Ho. by exists o.
    + intros t o Ho. by exists o.
    + exists []. by rewrite app_nil_r.
  - intros w1 w2 w3 (Hs1 & Hp1 & Ht1 & [r1 Hr1] & Hc1) (Hs2 & Hp2 & Ht2 & [r2 Hr2] & Hc2).
    split; [|split; [|split; [|split]]].
    + intros l s H1. destruct (Hs1 _ _ H1) as (s' & H2 & ?).
      destruct (Hs2 _ _ H2) as (s'' & H3 & ?). exists s''. split; [done|congruence].
    + intros l o H1. destruct (Hp1 _ _ H1) as (o' & H2 & ?).
      destruct (Hp2 _ _ H2) as (o'' & H3 & ?). exists o''. split; [done|by etrans].
    + intros t o H1. destruct (Ht1 _ _ H1) as (o' & H2 & ?).
      destruct (Ht2 _ _ H2) as (o'' & H3 & ?). exists o''. split; [done|by etrans].
    + exists (r1 ++ r2). by rewrite Hr2, Hr1, app_assoc.
    + set_solver.
Qed.

Lemma stable_same w w' :
  switches w' = switches w → portobjs w' = portobjs w → timers w' = timers w →
  trace w' = trace w → components w' = components w → stable w w'.
Proof.
  intros Hs Hp Ht Htr Hc. unfold stable. rewrite Hs, Hp, Ht, Htr, Hc.
  repeat split; eauto.
  - intros l o Ho. by exists o.
  - intros l o Ho. by exists o.
  - exists []. by rewrite app_nil_r.
Qed.

Lemma stable_switches f w :
  (∀ l s, switches w !! l = Some s →
          ∃ s', f (switches w) !! l = Some s' ∧ dpid s' = dpid s) →
  stable w (upd_switches f w).
Proof.
  intros Hf. split; [exact Hf|]. world_fields. repeat split; eauto.
  - intros l o Ho. by exists o.
  - intros l o Ho. by exists o.
  - exists []. by rewrite app_nil_r.
Qed.

Lemma stable_portobjs f w :
  (∀ l o, portobjs w !! l = Some o →
          ∃ o', f (portobjs w) !! l = Some o' ∧ port_kept o o') →
  stable w (upd_portobjs f w).
Proof.
  intros Hf. split; [|split; [exact Hf|]]; world_fields; repeat split; eauto.
  - intros l o Ho. by exists o.
  - exists []. by rewrite app_nil_r.
Qed.

Lemma stable_timers f w :
  (∀ t o, timers w !! t = Some o →
          ∃ o', f (timers w) !! t = Some o' ∧ timer_kept o o') →
  stable w (upd_timers f w).
Proof.
  intros Hf. split; [|split; [|split; [exact Hf|]]]; world_fields; repeat split; eauto.
  - intros l o Ho. by exists o.
  - exists []. by rewrite app_nil_r.
Qed.

Lemma stable_fresh_insert `{Countable K} {A} (m : gmap K A) k x y
    (P : A → A → Prop) `{!Reflexive P} :
  m !! k = None → ∀ l, m !! l = Some y → ∃ y', <[k := x]> m !! l = Some y' ∧ P y y'.
Proof.
  intros Hk l Hl. exists y. split; [|done].
  rewrite lookup_insert_ne; [done|]. congruence.
Qed.

Lemma stable_assign_switch l f :
  (∀ s, dpid (f s) = dpid s) → preserves stable (assign_switch l f).
Proof.
  intros Hf w. unfold assign_switch. rewrite run_bind. unfold get_switch.
  destruct (switches w !! l) as [s|] eqn:Hs; [|reflexivity].
  apply stable_switches. intros l' s' Hl'.
  destruct (decide (l' = l)) as [->|Hne].
  - rewrite lookup_insert_eq. exists (f s). split; [done|]. rewrite Hf. congruence.
  - rewrite lookup_insert_ne by done. exists s'. by split.
Qed.

Lemma stable_assign_port l f :
  (∀ o, port_kept o (f o)) → preserves stable (assign_port l f).
Proof.
  intros Hf w. unfold assign_port. rewrite run_bind. unfold get_port.
  destruct (portobjs w !! l) as [o|] eqn:Ho; [|reflexivity].
  apply stable_portobjs. intros l' o' Hl'.
  destruct (decide (l' = l)) as [->|Hne].
  - rewrite lookup_insert_eq. exists (f o). split; [done|].
    rewrite Ho in Hl'. injection Hl' as <-. apply Hf.
  - rewrite lookup_insert_ne by done. exists o'. by split.
Qed.

Lemma stable_port__init__ p : preserves stable (OpenFlowPort.__init__ p).
Proof.
  intros w. rewrite run_port__init__. apply stable_portobjs.
  intros l o Ho. apply (stable_fresh_insert _ _ _ _ port_kept); [|done].
  apply fresh_port_None.
Qed.

Lemma stable_new_switch d : preserves stable (OpenFlowSwitch.__init__ d).
Proof.
  intros w. apply stable_switches. intros l s Hs. exists s. split; [|done].
  rewrite lookup_insert_ne; [done|]. pose proof (fresh_switch_None w). congruence.
Qed.

Lemma stable_timer_new n cb : preserves stable (Timer.new n cb).
Proof.
  intros w. apply stable_timers. intros t o Ho.
  apply (stable_fresh_insert _ _ _ _ timer_kept); [|done].
  apply not_elem_of_dom, is_fresh.
Qed.

Lemma stable_timer_cancel t : preserves stable (Timer.cancel t).
Proof.
  intros w. apply stable_timers. intros t' o Ho.
  destruct (decide (t' = t)) as [->|Hne].
  - rewrite lookup_alter_eq, Ho. eexists. split; [done|]. by repeat split.
  - rewrite lookup_alter_ne by done. exists o. by split.
Qed.

Lemma stable_timer_fire t o w :
  timers w !! t = Some o → stable w (upd_timers <[t := cancelled o]> w).
Proof.
  intros Ho. apply stable_timers. intros t' o' Ho'.
  destruct (decide (t' = t)) as [->|Hne].
  - rewrite lookup_insert_eq. eexists. split; [done|].
    rewrite Ho in Ho'. injection Ho' as <-. by repeat split.
  - rewrite lookup_insert_ne by done. exists o'. by split.
Qed.

Lemma stable_emit o : preserves stable (emit o).
Proof.
  intros w. unfold emit, modify. cbn [fst].
  split; [|split; [|split; [|split]]]; world_fields.
  - intros l s Hs. by exists s.
  - intros l p Hp. by exists p.
  - intros t x Hx. by exists x.
  - by exists [o].
  - done.
Qed.

Lemma stable_run es w : stable w (EventLoop.run es w).
Proof.
  apply (handlers_run stable).
  - apply stable_assign_switch.
  - intros l f Hf. apply stable_assign_port. intros o. apply Hf.
  - apply stable_port__init__.
  - apply stable_new_switch.
  - apply stable_timer_new.
  - apply stable_timer_cancel.
  - apply stable_timer_fire.
  - intros f w'. by apply stable_same.
  - intros f w'. by apply stable_same.
  - intros o _. apply stable_emit.
  - intros l E. apply stable_assign_port. by intros [].
  - intros f w'. by apply stable_same.
  - intros n w'. unfold modify. cbn [fst].
    split; [|split; [|split; [|split]]]; world_fields.
    + intros l s Hs. by exists s.
    + intros l p Hp. by exists p.
    + intros t x Hx. by exists x.
    + exists []. by rewrite app_nil_r.
    + set_solver.
  - apply stable_emit.
Qed.

(** X10.  Whatever the events, from any world: no switch, port or timer
    object is ever lost; a switch keeps its dpid; a port keeps its number,
    its name and its controller flag, and a port that was marked as not
    existing is never marked as existing again; a timer keeps its delay and
    the switch it is bound to, and a timer that was cancelled or has fired is
    never pending again; the trace only grows, and no component is ever
    unregistered. *)
Theorem X10_objects_are_stable es w :
  let w' := EventLoop.run es w in
  (∀ l s, switches w !! l = Some s →
          ∃ s', switches w' !! l = Some s' ∧ dpid s' = dpid s) ∧
  (∀ l o, portobjs w !! l = Some o →
          ∃ o', portobjs w' !! l = Some o' ∧
                number o' = number o ∧ name o' = name o ∧
                isController o' = isController o ∧
                (exists_ o = false → exists_ o' = false)) ∧
  (∀ t o, timers w !! t = Some o →
          ∃ o', timers w' !! t = Some o' ∧
                timeToWake o' = timeToWake o ∧ callback o' = callback o ∧
                (pending o = false → pending o' = false)) ∧
  (∃ rest, trace w' = trace w ++ rest) ∧
  components w ⊆ components w'.
Proof. exact (stable_run es w). Qed.

#[export] Instance gate_same_preorder : PreOrder gate_same.
Proof.
  split; [done|]. unfold gate_same.
  intros ??? (?&?&?) (?&?&?). repeat split; congruence.
Qed.

Lemma gate_same_fields w w' :
  adaptor w' = adaptor w → components w' = components w → trace w' = trace w →
  gate_same w w'.
Proof. intros Ha Hc Ht. unfold gate_same. by rewrite Ha, Hc, Ht. Qed.

Lemma gate_same_deliver e :
  (∀ n, e ≠ ComponentRegistered n) → preserves gate_same (EventLoop.deliver e).
Proof.
  apply (handlers_deliver gate_same).
  - intros l f _ w. unfold assign_switch. rewrite run_bind. unfold get_switch.
    destruct (switches w !! l); [|reflexivity]. by apply gate_same_fields.
  - intros l f _ w. unfold assign_port. rewrite run_bind. unfold get_port.
    destruct (portobjs w !! l); [|reflexivity]. by apply gate_same_fields.
  - intros p w. rewrite run_port__init__. by apply gate_same_fields.
  - intros d w. by apply gate_same_fields.
  - intros n cb w. by apply gate_same_fields.
  - intros t w. by apply gate_same_fields.
  - intros t o w _. by apply gate_same_fields.
  - intros f w. by apply gate_same_fields.
  - intros f w. by apply gate_same_fields.
  - intros o Ho w. unfold emit, modify, gate_same. cbn [fst]. world_fields.
    split; [done|]. split; [done|].
    rewrite ready_count_app. unfold ready_count at 2. cbn [List.filter].
    rewrite Ho. cbn. lia.
  - intros l E w. unfold assign_port. rewrite run_bind. unfold get_port.
    destruct (portobjs w !! l); [|reflexivity]. by apply gate_same_fields.
Qed.

Lemma registered_names_cons e es :
  (list_to_set (registered_names (e :: es)) : gset string)
  = match e with ComponentRegistered n => {[n]} | _ => ∅ end
    ∪ list_to_set (registered_names es).
Proof. destruct e; cbn; set_solver. Qed.

Lemma gate_inv_same W w w' : gate_same w w' → gate_inv W w → gate_inv W w'.
Proof. intros (Ha & Hc & Hr). unfold gate_inv. by rewrite Ha, Hc, Hr. Qed.

Lemma gate_inv_deliver W e w :
  gate_inv W w →
  gate_inv W (exec (EventLoop.deliver e) w) ∧
  components (exec (EventLoop.deliver e) w)
  = components w ∪ match e with ComponentRegistered n => {[n]} | _ => ∅ end.
Proof.
  intros Hinv.
  assert (Hother : (∀ n, e ≠ ComponentRegistered n) →
                   gate_inv W (exec (EventLoop.deliver e) w) ∧
                   components (exec (EventLoop.deliver e) w) = components w).
  { intros He. pose proof (gate_same_deliver e He w) as Hs. split.
    - by eapply gate_inv_same.
    - apply Hs. }
  destruct e; try (destruct Hother as [? ->]; [done|split; [done|set_solver]]).
  apply gate_register_inv, Hinv.
Qed.

Lemma gate_inv_run W es : ∀ w,
  gate_inv W w →
  gate_inv W (EventLoop.run es w) ∧
  components (EventLoop.run es w) = components w ∪ list_to_set (registered_names es).
Proof.
  induction es as [|e es IH]; intros w Hinv; cbn [EventLoop.run].
  - split; [done|]. cbn. set_solver.
  - destruct (gate_inv_deliver W e w Hinv) as [Hinv' Hc'].
    destruct (IH _ Hinv') as [Hinv'' Hc''].
    split; [done|]. rewrite Hc'', Hc', registered_names_cons. set_solver.
Qed.

(** The gate that wants nothing, among all events. *)
Lemma idle_run es : ∀ w,
  adaptor w = idle_adaptor → 
  adaptor (EventLoop.run es w) = idle_adaptor ∧
  ready_count (trace (EventLoop.run es w)) = ready_count (trace w) ∧
  components (EventLoop.run es w) = components w ∪ list_to_set (registered_names es).
Proof.
  induction es as [|e es IH]; intros w Ha; cbn [EventLoop.run].
  - split; [done|]. split; [done|]. cbn. set_solver.
  - assert (Hstep : adaptor (exec (EventLoop.deliver e) w) = idle_adaptor ∧
                    ready_count (trace (exec (EventLoop.deliver e) w))
                    = ready_count (trace w) ∧
                    components (exec (EventLoop.deliver e) w)
                    = components w
                      ∪ match e with ComponentRegistered n => {[n]} | _ => ∅ end).
    { assert (Hother : (∀ n, e ≠ ComponentRegistered n) →
                       adaptor (exec (EventLoop.deliver e) w) = idle_adaptor ∧
                       ready_count (trace (exec (EventLoop.deliver e) w))
                       = ready_count (trace w) ∧
                       components (exec (EventLoop.deliver e) w) = components w).
      { intros He. destruct (gate_same_deliver e He w) as (H1 & H2 & H3).
        split; [unfold exec; by rewrite H1|done]. }
      destruct e;
        try (destruct Hother as (? & ? & ->); [done|split; [done|split; [done|set_solver]]]).
      unfold exec. rewrite run_register_ready by (unfold gate_ready; by rewrite Ha).
      done. }
    destruct Hstep as (Ha' & Hr' & Hc').
    destruct (IH _ Ha') as (Ha'' & Hr'' & Hc'').
    split; [done|]. split; [congruence|].
    rewrite Hc'', Hc', registered_names_cons. set_solver.
Qed.

Lemma registered_names_registrations names :
  registered_names (registrations names) = names.
Proof. induction names as [|n names IH]; cbn; [done|]. by f_equal. Qed.

(** X11.  The gate among all events.  For every wanted set, every set of
    components registered at construction and every sequence of events
    (registrations, connections, links, port changes, timer expiries, in any
    order): the registered components are those of the start and those that
    registered since; the gate is ready exactly when every wanted collaborator
    is registered; "ready" was logged at most once, and only by a ready gate;
    the adaptor observes the events of exactly the wanted collaborators that
    are registered, and has each wanted collaborator as an attribute, bound if
    registered and [None] otherwise; the adaptor is the one that the
    registrations alone lead to: no other event changes it. *)
Theorem X11_gate_among_all_events W C0 es :
  let wanted : gset string := default ∅ W in
  let w := EventLoop.run es (gate_init W C0) in
  components w = C0 ∪ list_to_set (registered_names es) ∧
  (gate_ready w ↔ wanted ⊆ components w) ∧
  (ready_count (trace w) ≤ 1)%nat ∧
  (ready_count (trace w) = 1%nat → gate_ready w) ∧
  (∀ c, c ∈ listening (adaptor w) ↔ c ∈ wanted ∧ c ∈ components w) ∧
  (∀ c, c ∈ wanted → attrs (adaptor w) !! c = Some (bool_decide (c ∈ components w))) ∧
  adaptor w
  = adaptor (EventLoop.run (registrations (registered_names es)) (gate_init W C0)).
Proof.
  intros wanted w.
  assert (Hidle : W = None ∨ W = Some ∅ →
    components w = C0 ∪ list_to_set (registered_names es) ∧
    (gate_ready w ↔ wanted ⊆ components w) ∧
    (ready_count (trace w) ≤ 1)%nat ∧
    (ready_count (trace w) = 1%nat → gate_ready w) ∧
    (∀ c, c ∈ listening (adaptor w) ↔ c ∈ wanted ∧ c ∈ components w) ∧
    (∀ c, c ∈ wanted → attrs (adaptor w) !! c = Some (bool_decide (c ∈ components w))) ∧
    adaptor w
    = adaptor (EventLoop.run (registrations (registered_names es)) (gate_init W C0))).
  { intros HW.
    assert (Hw : wanted = ∅) by (unfold wanted; by destruct HW as [-> | ->]).
    assert (Ha0 : adaptor (gate_init W C0) = idle_adaptor)
      by (by rewrite (gate_init_idle _ _ HW)).
    assert (Ht0 : trace (gate_init W C0) = []) by (by rewrite (gate_init_idle _ _ HW)).
    assert (Hc0 : components (gate_init W C0) = C0)
      by (by rewrite (gate_init_idle _ _ HW)).
    destruct (idle_run es _ Ha0) as (Ha & Hr & Hc). fold w in Ha, Hr, Hc.
    destruct (idle_run (registrations (registered_names es)) _ Ha0) as (Ha' & _ & _).
    rewrite Ht0 in Hr. rewrite Hc0 in Hc.
    unfold gate_ready. rewrite Ha, Hr, Ha', Hw.
    split; [done|]. split; [split; [set_solver|done]|].
    split; [cbn; lia|]. split; [done|]. split; [cbn; set_solver|].
    split; [set_solver|done]. }
  destruct W as [W'|]; [destruct (decide (W' = ∅)) as [->|Hne]|];
    [apply Hidle; by right| |apply Hidle; by left].
  destruct (gate_init_inv W' C0 Hne) as [Hinv0 Hc0].
  destruct (gate_inv_run W' es _ Hinv0) as [Hinv Hc]. fold w in Hinv, Hc.
  destruct (gate_inv_run W' (registrations (registered_names es)) _ Hinv0)
    as [Hinv' Hc'].
  rewrite registered_names_registrations in Hc'.
  rewrite Hc0 in Hc, Hc'.
  pose proof (gate_inv_adaptor W' _ _ Hinv Hinv') as Hsame.
  destruct Hinv as (H1 & H2 & H3 & H4 & H5 & H6). cbn [wanted default].
  assert (Hready : gate_ready w ↔ W' ⊆ components w).
  { unfold gate_ready. rewrite H5. split.
    - intros Hb%bool_decide_eq_false. by destruct (decide (W' ⊆ components w)).
    - intros Hs. by rewrite bool_decide_eq_false_2 by (by intros ?). }
  split; [done|]. split; [done|].
  split; [rewrite H6; destruct (decide _); lia|].
  split. { rewrite H6. destruct (decide _); [by rewrite Hready|done]. }
  split; [intros c; rewrite H4; set_solver|]. split.
  - intros c Hc1. by rewrite H3, decide_True.
  - apply Hsame. by rewrite Hc, Hc'.
Qed.

(** ** Invariants, from the units that the handlers are made of

    Some invariants do not hold between two assignments that belong together
    (a port is marked as not existing, then leaves the table; a timer is
    created, then the switch refers to it).  Such invariants are kept by the
    handlers as soon as they are kept by these units. *)

Section units.
Context (I : World → Prop).
Hypothesis I_same : ∀ w w',
  switches w' = switches w → portobjs w' = portobjs w → timers w' = timers w →
  topology_entities w' = topology_entities w → I w → I w'.
Hypothesis I_switch_misc : ∀ l s s' w,
  switches w !! l = Some s →
  dpid s' = dpid s → ports s' = ports s →
  _reconnectTimeout s' = _reconnectTimeout s →
  (connection s = None → connection s' = None) →
  I w → I (upd_switches <[l := s']> w).
Hypothesis I_port_misc : ∀ l o o' w,
  portobjs w !! l = Some o →
  number o' = number o → name o' = name o → exists_ o' = exists_ o →
  I w → I (upd_portobjs <[l := o']> w).
Hypothesis I_add_port : ∀ self s p w,
  switches w !! self = Some s → ports s !! port_no p = None →
  I w →
  I (upd_switches <[self := set_ports <[port_no p := fresh (dom (portobjs w))]> s]>
       (upd_portobjs <[fresh (dom (portobjs w)) := created p]> w)).
Hypothesis I_remove_port : ∀ self s k l o w,
  switches w !! self = Some s → ports s !! k = Some l → portobjs w !! l = Some o →
  I w →
  I (upd_switches <[self := set_ports (delete k) s]>
       (upd_portobjs <[l := set_exists false o]> w)).
Hypothesis I_connect : ∀ self s c w,
  switches w !! self = Some s → I w → I (after_line_216 self s (Some c) w).
Hypothesis I_disconnect : ∀ self s w,
  switches w !! self = Some s → I w → I (after_disconnect self s w).
Hypothesis I_new_switch : ∀ d w,
  I w → I (upd_switches <[fresh (dom (switches w)) := mkSwitch d ∅ 0 None [] None]> w).
Hypothesis I_addEntity : ∀ sw s w,
  switches w !! sw = Some s → I w → I (upd_topology_entities <[dpid s := sw]> w).
Hypothesis I_removeEntity : ∀ sw s w,
  switches w !! sw = Some s → I w → I (upd_topology_entities (delete (dpid s)) w).
Hypothesis I_expire : ∀ t o w,
  timers w !! t = Some o → pending o = true → I w →
  I (match switches w !! callback o with
     | Some s => upd_switches <[callback o := set__reconnectTimeout None s]>
                   (upd_timers <[t := cancelled o]> w)
     | None => upd_timers <[t := cancelled o]> w
     end).

Lemma units_emit o : keeps I (emit o).
Proof. intros w. by apply I_same. Qed.

Lemma units_assign_switch l f :
  (∀ s, dpid (f s) = dpid s ∧ ports (f s) = ports s ∧
        _reconnectTimeout (f s) = _reconnectTimeout s ∧
        (connection s = None → connection (f s) = None)) →
  keeps I (assign_switch l f).
Proof.
  intros Hf w Hw. unfold assign_switch. rewrite run_bind. unfold get_switch.
  destruct (switches w !! l) as [s|] eqn:Hs; [|done].
  destruct (Hf s) as (? & ? & ? & ?). by apply (I_switch_misc l s).
Qed.

Lemma units_assign_port l f :
  (∀ o, number (f o) = number o ∧ name (f o) = name o ∧ exists_ (f o) = exists_ o) →
  keeps I (assign_port l f).
Proof.
  intros Hf w Hw. unfold assign_port. rewrite run_bind. unfold get_port.
  destruct (portobjs w !! l) as [o|] eqn:Ho; [|done].
  destruct (Hf o) as (? & ? & ?). by apply (I_port_misc l o).
Qed.

Lemma units__update l p : keeps I (OpenFlowPort._update l p).
Proof.
  unfold OpenFlowPort._update.
  apply keeps_bind; [apply keeps_get_port|]. intros o.
  destruct (negb _); [apply keeps_raise|].
  destruct (negb _); [apply keeps_raise|].
  repeat (apply keeps_bind; [by apply units_assign_port|intros ?]).
  by apply units_assign_port.
Qed.

Lemma units_add_port self s p w :
  switches w !! self = Some s → ports s !! port_no p = None → I w →
  I ((l ← OpenFlowPort.__init__ p;
      assign_switch self (set_ports <[port_no p := l]>)) w).1.
Proof.
  intros Hs Hl Hw.
  erewrite run_bind_ret by apply run_port__init__.
  erewrite run_assign_switch by done. cbn [fst]. by apply I_add_port.
Qed.

Lemma units_remove_port self s k l w :
  switches w !! self = Some s → ports s !! k = Some l → I w →
  I ((assign_port l (set_exists false);;
      assign_switch self (set_ports (delete k))) w).1.
Proof.
  intros Hs Hl Hw. rewrite run_bind. unfold assign_port at 1. rewrite run_bind.
  unfold get_port. destruct (portobjs w !! l) as [o|] eqn:Ho; [|done].
  cbn [put_port modify]. erewrite run_assign_switch by done. cbn [fst].
  by apply (I_remove_port self s k l o).
Qed.

Lemma units_update_port self U p : keeps I (OpenFlowSwitch.update_port self U p).
Proof.
  intros w Hw. unfold OpenFlowSwitch.update_port. rewrite run_bind.
  unfold get_switch. destruct (switches w !! self) as [s|] eqn:Hs; [|done].
  destruct (ports s !! port_no p) as [l|] eqn:Hl.
  - refine (keeps_bind I _ _ (units__update l p) _ w Hw). intros _.
    destruct (bool_decide _); [apply keeps_ret|apply keeps_raise].
  - pose proof (units_add_port self s p w Hs Hl Hw) as Hk.
    rewrite run_bind in Hk. rewrite run_bind.
    destruct (OpenFlowPort.__init__ p w) as [w1 [l|e]]; [|done].
    rewrite run_bind. destruct (assign_switch _ _ w1) as [w2 [[]|e]]; done.
Qed.

Lemma units_drop_port self k : keeps I (OpenFlowSwitch.drop_port self k).
Proof.
  intros w Hw. unfold OpenFlowSwitch.drop_port. rewrite run_bind.
  unfold get_switch. destruct (switches w !! self) as [s|] eqn:Hs; [|done].
  destruct (ports s !! k) as [l|] eqn:Hl; [|done].
  by apply (units_remove_port self s k l).
Qed.

Lemma units_update_all_ports self ps :
  keeps I (OpenFlowSwitch.update_all_ports self ps).
Proof.
  unfold OpenFlowSwitch.update_all_ports.
  apply keeps_bind; [apply keeps_get_switch|]. intros s.
  apply keeps_bind.
  - apply keeps_foldM. intros. apply units_update_port.
  - intros U. apply keeps_for_each. intros. apply units_drop_port.
Qed.

Lemma units_PortStatus self ofp :
  keeps I (OpenFlowSwitch._handle_con_PortStatus self ofp).
Proof.
  unfold OpenFlowSwitch._handle_con_PortStatus. cbv zeta.
  apply keeps_bind; [|intros _; apply units_emit].
  destruct (bool_decide (reason ofp = OFPPR_DELETE)).
  { intros w Hw. rewrite run_bind.
    unfold get_switch. destruct (switches w !! self) as [s|] eqn:Hs; [|done].
    destruct (ports s !! _) as [l|] eqn:Hl; [|done].
    by apply (units_remove_port self s _ l). }
  destruct (bool_decide (reason ofp = OFPPR_MODIFY)).
  { apply keeps_bind; [apply keeps_get_switch|]. intros s.
    destruct (ports s !! _); [apply units__update|apply keeps_raise]. }
  destruct (negb _); [apply keeps_raise|].
  intros w Hw. rewrite run_bind.
  unfold get_switch. destruct (switches w !! self) as [s|] eqn:Hs; [|done].
  destruct (ports s !! port_no (desc ofp)) as [l|] eqn:Hl.
  - by rewrite bool_decide_eq_false_2 by done.
  - rewrite bool_decide_eq_true_2 by done. cbn [negb].
    by apply (units_add_port self s).
Qed.

(** [_setConnection(connection, ofp)] of a connection-up *)
Lemma units_setConnection_up self c ofp :
  keeps I (OpenFlowSwitch._setConnection self (Some c) (Some ofp)).
Proof.
  intros w Hw.
  destruct (switches w !! self) as [s|] eqn:Hs.
  2:{ unfold OpenFlowSwitch._setConnection.
      erewrite run_bind_raise; [done|]. by apply run_get_switch_None. }
  rewrite (run_setConnection _ _ _ _ _ Hs).
  pose proof (I_connect self s c w Hs Hw) as Hw1.
  revert Hw1. generalize (after_line_216 self s (Some c) w).
  apply (keeps_bind I); [apply keeps_ret|intros _].
  apply keeps_bind.
  { apply keeps_bind; [by apply units_assign_switch|intros _].
    apply units_update_all_ports. }
  intros _. apply keeps_bind.
  - intros w' Hw'. by apply (I_same w').
  - intros ls. by apply units_assign_switch.
Qed.

(** [_setConnection(None)] of a connection-down *)
Lemma units_setConnection_down self :
  keeps I (OpenFlowSwitch._setConnection self None None).
Proof.
  intros w Hw.
  destruct (switches w !! self) as [s|] eqn:Hs.
  2:{ unfold OpenFlowSwitch._setConnection.
      erewrite run_bind_raise; [done|]. by apply run_get_switch_None. }
  rewrite (run_setConnection_None _ _ _ Hs). by apply I_disconnect.
Qed.

Lemma units_LinkEvent ev :
  keeps I (OpenFlowTopology._handle_openflow_discovery_LinkEvent ev).
Proof.
  unfold OpenFlowTopology._handle_openflow_discovery_LinkEvent.
  apply keeps_bind; [apply keeps_getattr|]. intros b.
  destruct (negb b); [apply keeps_ret|].
  apply keeps_bind; [apply keeps_getEntityByID|]. intros o1.
  apply keeps_bind; [apply keeps_getEntityByID|]. intros o2.
  destruct o1 as [sw1|], o2 as [sw2|]; try apply keeps_ret.
  apply keeps_bind; [apply keeps_get_switch|]. intros s1.
  apply keeps_bind; [apply keeps_get_switch|]. intros s2.
  destruct (ports s1 !! port1 (link ev)), (ports s2 !! port2 (link ev));
    try apply keeps_ret.
  assert (Hadd : ∀ l e, keeps I (OpenFlowPort.addEntity l e true)).
  { intros l e. by apply units_assign_port. }
  assert (Hrm : ∀ l e, keeps I (OpenFlowPort.entities_remove l e)).
  { intros l e w Hw. unfold OpenFlowPort.entities_remove. rewrite run_bind.
    unfold get_port. destruct (portobjs w !! l) as [o|] eqn:Ho; [|done].
    destruct (bool_decide _); [|done]. by apply (I_port_misc l o). }
  destruct (added ev); [|destruct (removed ev); [|apply keeps_ret]].
  - apply keeps_bind; [apply keeps_get_switch|]. intros s.
    apply keeps_bind; [|intros ?].
    { destruct (ports s !! _); [apply Hadd|apply keeps_raise]. }
    apply keeps_bind; [apply keeps_get_switch|]. intros s'.
    destruct (ports s' !! _); [apply Hadd|apply keeps_raise].
  - apply keeps_bind; [apply keeps_get_switch|]. intros s.
    apply keeps_bind; [|intros ?].
    { destruct (ports s !! _); [apply Hrm|apply keeps_raise]. }
    apply keeps_bind; [apply keeps_get_switch|]. intros s'.
    destruct (ports s' !! _); [apply Hrm|apply keeps_raise].
Qed.

Lemma units_ConnectionUp d c ofp :
  keeps I (OpenFlowTopology._handle_openflow_ConnectionUp d c ofp).
Proof.
  unfold OpenFlowTopology._handle_openflow_ConnectionUp.
  apply keeps_bind; [apply keeps_getattr|]. intros b.
  destruct (negb b); [apply keeps_raise|].
  apply keeps_bind; [apply keeps_getEntityByID|]. intros o.
  apply keeps_bind.
  { destruct o as [sw|].
    - apply keeps_bind; [apply keeps_get_switch|]. intros s.
      apply keeps_bind; [|intros ?; apply keeps_ret].
      destruct (connection s); [apply units_emit|apply keeps_ret].
    - apply keeps_bind; [|intros sw; apply keeps_ret].
      intros w Hw. by apply I_new_switch. }
  intros [sw add].
  apply keeps_bind; [apply units_setConnection_up|intros ?].
  apply keeps_bind; [apply units_emit|intros ?].
  destruct add; [|apply keeps_ret].
  apply keeps_bind; [|intros ?; apply units_emit].
  intros w Hw. unfold Topology.addEntity. rewrite run_bind. unfold get_switch.
  destruct (switches w !! sw) as [s|] eqn:Hs; [|done]. by apply (I_addEntity sw s).
Qed.

Lemma units_ConnectionDown d :
  keeps I (OpenFlowTopology._handle_openflow_ConnectionDown d).
Proof.
  unfold OpenFlowTopology._handle_openflow_ConnectionDown.
  apply keeps_bind; [apply keeps_getattr|]. intros b.
  destruct (negb b); [apply keeps_raise|].
  apply keeps_bind; [apply keeps_getEntityByID|]. intros o.
  destruct o as [sw|]; [|apply units_emit].
  apply keeps_bind; [apply keeps_get_switch|]. intros s.
  apply keeps_bind; [|intros ?].
  { destruct (connection s); [apply keeps_ret|apply units_emit]. }
  apply keeps_bind; [by apply units_assign_switch|intros ?].
  apply units_emit.
Qed.

Lemma units_expire t : keeps I (EventLoop.expire t).
Proof.
  intros w Hw. unfold EventLoop.expire. rewrite run_bind, run_get.
  destruct (timers w !! t) as [o|] eqn:Ho; [|done].
  destruct (pending o) eqn:Hp; [|done].
  erewrite run_bind_ret by apply run_modify.
  pose proof (I_expire t o w Ho Hp Hw) as Hw1.
  unfold OpenFlowSwitch._timer_ReconnectTimeout.
  rewrite run_bind. unfold assign_switch at 1. rewrite run_bind. unfold get_switch.
  change (switches (upd_timers _ w)) with (switches w).
  destruct (switches w !! callback o) as [s|] eqn:Hs; [|done].
  cbn [put_switch modify].
  revert Hw1.
  change (upd_timers <[t := {| timeToWake := timeToWake o; callback := callback o;
                               pending := false |}]> w)
    with (upd_timers <[t := cancelled o]> w).
  generalize (upd_switches <[callback o := set__reconnectTimeout None s]>
                (upd_timers <[t := cancelled o]> w)).
  apply (keeps_bind I); [apply keeps_get|]. intros w'.
  apply keeps_bind; [|intros ?; apply units_emit].
  destruct (bool_decide _); [|apply keeps_raise].
  intros w2 Hw2. unfold Topology.removeEntity. rewrite run_bind. unfold get_switch.
  destruct (switches w2 !! callback o) as [s2|] eqn:Hs2; [|done].
  by apply (I_removeEntity (callback o) s2).
Qed.

Lemma units_deliver e : keeps I (EventLoop.deliver e).
Proof.
  assert (Hcomp : ∀ prefix h, keeps I h → keeps I (EventLoop.from_component prefix h)).
  { intros prefix h Hh. unfold EventLoop.from_component.
    apply keeps_bind; [apply keeps_get|]. intros w.
    destruct (bool_decide _); [done|apply keeps_ret]. }
  assert (Hcon : ∀ c h, (∀ sw, keeps I (h sw)) → keeps I (EventLoop.from_connection c h)).
  { intros c h Hh. unfold EventLoop.from_connection.
    apply keeps_bind; [apply keeps_get|]. intros w. by apply keeps_for_each. }
  destruct e; cbn [EventLoop.deliver].
  - apply keeps_register.
    + intros f w Hw. by apply (I_same w).
    + apply units_emit.
    + intros f w Hw. by apply (I_same w).
  - apply Hcomp, units_ConnectionUp.
  - apply Hcomp, units_ConnectionDown.
  - apply Hcomp, units_LinkEvent.
  - apply Hcon. intros sw. apply units_PortStatus.
  - apply Hcon. intros sw. apply units_setConnection_down.
  - apply Hcon. intros sw. apply units_emit.
  - apply Hcon. intros sw. apply units_emit.
  - apply Hcon. intros sw. apply units_emit.
  - apply units_expire.
Qed.

Lemma units_run es : ∀ w, I w → I (EventLoop.run es w).
Proof.
  induction es as [|e es IH]; intros w Hw; cbn [EventLoop.run]; [done|].
  apply IH. by apply units_deliver.
Qed.

Lemma units_gate_init W C : I empty_world → I (gate_init W C).
Proof.
  intros H0. unfold gate_init, exec, OpenFlowTopology.__init__.
  apply (keeps_bind I).
  - intros w Hw. by apply (I_same w).
  - intros ?. apply keeps_bind.
    + apply keeps_resolveComponents; [|apply units_emit].
      intros f w Hw. by apply (I_same w).
    + intros []; [apply keeps_ret|]. intros w Hw. by apply (I_same w).
  - by apply (I_same empty_world).
Qed.

Lemma units_reachable W C es : I empty_world → I (EventLoop.run es (gate_init W C)).
Proof. intros H0. by apply units_run, units_gate_init. Qed.

End units.

(** ** Well-formedness, unit by unit *)

(** Switch objects change, none is lost, and no table gains an entry. *)
Lemma wf_switches w w' :
  portobjs w' = portobjs w → topology_entities w' = topology_entities w →
  (∀ sw, is_Some (switches w !! sw) → is_Some (switches w' !! sw)) →
  (∀ sw s' n l, switches w' !! sw = Some s' → ports s' !! n = Some l →
                ∃ s, switches w !! sw = Some s ∧ ports s !! n = Some l) →
  wf w → wf w'.
Proof.
  intros Hp Ht Hdom Hold (H1 & H2 & H3).
  unfold wf, store_ok, tables_ok, ports_unshared. rewrite Hp, Ht.
  split; [|split].
  - intros id sw Hid. apply Hdom. by eapply H1.
  - intros sw s' Hsw n l Hn. destruct (Hold _ _ _ _ Hsw Hn) as (s & Hs & Hl).
    by eapply H2.
  - intros sw1 sw2 s1 s2 n1 n2 l Hs1 Hs2 Hn1 Hn2.
    destruct (Hold _ _ _ _ Hs1 Hn1) as (? & ? & ?).
    destruct (Hold _ _ _ _ Hs2 Hn2) as (? & ? & ?). by eapply H3.
Qed.

Lemma wf_switch_update l s s' w :
  switches w !! l = Some s → ports s' ⊆ ports s → wf w →
  wf (upd_switches <[l := s']> w).
Proof.
  intros Hs Hsub. apply wf_switches; [done..| |]; world_fields.
  - intros sw Hsw. destruct (decide (sw = l)) as [->|Hne].
    + rewrite lookup_insert_eq. eauto.
    + by rewrite lookup_insert_ne.
  - intros sw s0 n lp Hsw Hn. destruct (decide (sw = l)) as [->|Hne].
    + rewrite lookup_insert_eq in Hsw. injection Hsw as <-.
      exists s. split; [done|]. by eapply lookup_weaken.
    + rewrite lookup_insert_ne in Hsw by done. eauto.
Qed.

Lemma wf_port_update l o o' w :
  portobjs w !! l = Some o → number o' = number o → wf w →
  wf (upd_portobjs <[l := o']> w).
Proof.
  intros Ho Hnum (H1 & H2 & H3). unfold wf, store_ok, tables_ok, ports_unshared.
  world_fields. split; [done|]. split; [|done].
  intros sw s Hsw n lp Hn. destruct (H2 _ _ Hsw _ _ Hn) as (x & Hx & Hnx).
  destruct (decide (lp = l)) as [->|Hne].
  - exists o'. rewrite lookup_insert_eq. split; [done|]. congruence.
  - exists x. by rewrite lookup_insert_ne.
Qed.

Lemma wf_remove_port self s k l o w :
  switches w !! self = Some s → portobjs w !! l = Some o → wf w →
  wf (upd_switches <[self := set_ports (delete k) s]>
        (upd_portobjs <[l := set_exists false o]> w)).
Proof.
  intros Hs Ho Hw. apply (wf_switch_update self s); [done|apply delete_subseteq|].
  by apply (wf_port_update l o).
Qed.

Lemma wf_after_line_216 self s c w :
  switches w !! self = Some s → wf w → wf (after_line_216 self s c w).
Proof.
  intros Hs Hw. unfold after_line_216.
  apply (wf_switch_update self s); [done|done|]. by eapply wf_same.
Qed.

Lemma wf_after_disconnect self s w :
  switches w !! self = Some s → wf w → wf (after_disconnect self s w).
Proof.
  intros Hs Hw. unfold after_disconnect.
  apply (wf_switch_update self s); [done|done|]. by eapply wf_same.
Qed.

Lemma wf_expire t o w :
  wf w →
  wf (match switches w !! callback o with
      | Some s => upd_switches <[callback o := set__reconnectTimeout None s]>
                    (upd_timers <[t := cancelled o]> w)
      | None => upd_timers <[t := cancelled o]> w
      end).
Proof.
  intros Hw. destruct (switches w !! callback o) as [s|] eqn:Hs.
  - apply (wf_switch_update _ s); [done|done|]. by eapply wf_same.
  - by eapply wf_same.
Qed.

Lemma wf_store_add sw s w :
  switches w !! sw = Some s → wf w → wf (upd_topology_entities <[dpid s := sw]> w).
Proof.
  intros Hs Hw. pose proof (keeps_wf_addEntity sw w Hw) as Hk.
  unfold Topology.addEntity in Hk. by erewrite run_bind_ret in Hk by (by apply run_get_switch).
Qed.

Lemma wf_store_remove sw s w :
  switches w !! sw = Some s → wf w → wf (upd_topology_entities (delete (dpid s)) w).
Proof.
  intros Hs Hw. pose proof (keeps_wf_removeEntity sw w Hw) as Hk.
  unfold Topology.removeEntity in Hk.
  by erewrite run_bind_ret in Hk by (by apply run_get_switch).
Qed.

(** ** The exists flag is accurate *)

Lemma exists_inv_switches w w' :
  portobjs w' = portobjs w →
  (∀ sw s' n l, switches w' !! sw = Some s' → ports s' !! n = Some l →
                ∃ s, switches w !! sw = Some s ∧ ports s !! n = Some l) →
  (∀ sw s n l, switches w !! sw = Some s → ports s !! n = Some l →
               ∃ s', switches w' !! sw = Some s' ∧ ports s' !! n = Some l) →
  exists_inv w → exists_inv w'.
Proof.
  intros Hp Hold Hnew [Ha Hb]. unfold exists_inv. rewrite Hp. split.
  - intros sw s' n l o Hsw Hn Ho. destruct (Hold _ _ _ _ Hsw Hn) as (s & Hs & Hl).
    by eapply Ha.
  - intros l o Ho He. destruct (Hb _ _ Ho He) as (sw & s & n & Hs & Hn).
    destruct (Hnew _ _ _ _ Hs Hn) as (s' & Hs' & Hn'). eauto.
Qed.

Lemma exists_inv_switch_update l s s' w :
  switches w !! l = Some s → ports s' = ports s → exists_inv w →
  exists_inv (upd_switches <[l := s']> w).
Proof.
  intros Hs Hp. apply exists_inv_switches; [done| |]; world_fields.
  - intros sw s0 n lp Hsw Hn. destruct (decide (sw = l)) as [->|Hne].
    + rewrite lookup_insert_eq in Hsw. injection Hsw as <-.
      exists s. split; [done|]. by rewrite <- Hp.
    + rewrite lookup_insert_ne in Hsw by done. eauto.
  - intros sw s0 n lp Hsw Hn. destruct (decide (sw = l)) as [->|Hne].
    + rewrite lookup_insert_eq. exists s'. split; [done|].
      rewrite Hp. congruence.
    + rewrite lookup_insert_ne by done. eauto.
Qed.

Lemma exists_inv_same w w' :
  switches w' = switches w → portobjs w' = portobjs w → exists_inv w → exists_inv w'.
Proof. intros Hs Hp. unfold exists_inv. by rewrite Hs, Hp. Qed.

Local Abbreviation wfe := (λ w, wf w ∧ exists_inv w).

Lemma wfe_reachable W C es : wfe (EventLoop.run es (gate_init W C)).
Proof.
  apply (units_reachable wfe).
  - (* same *)
    intros w w' Hs Hp _ Ht [Hw He]. split; [by eapply wf_same|by eapply exists_inv_same].
  - (* switch_misc *)
    intros l s s' w Hs _ Hp _ _ [Hw He]. split.
    + apply (wf_switch_update l s); [done|by rewrite Hp|done].
    + by apply (exists_inv_switch_update l s).
  - (* port_misc *)
    intros l o o' w Ho Hnum _ Hex [Hw [Ha Hb]]. split; [by apply (wf_port_update l o)|].
    split; world_fields.
    + intros sw s n lp x Hsw Hn Hx. destruct (decide (lp = l)) as [->|Hne].
      * rewrite lookup_insert_eq in Hx. injection Hx as <-. rewrite Hex. by eapply Ha.
      * rewrite lookup_insert_ne in Hx by done. by eapply Ha.
    + intros lp x Hx Hxe. destruct (decide (lp = l)) as [->|Hne].
      * rewrite lookup_insert_eq in Hx. injection Hx as <-.
        apply (Hb l o Ho). congruence.
      * rewrite lookup_insert_ne in Hx by done. by eapply Hb.
  - (* add_port *)
    intros self s p w Hs Hl [Hw [Ha Hb]]. split; [by apply wf_add_port|].
    set (l := fresh (dom (portobjs w))).
    split; world_fields.
    + intros sw s0 n lp x Hsw Hn Hx. destruct (decide (lp = l)) as [->|Hne].
      * rewrite lookup_insert_eq in Hx. by injection Hx as <-.
      * rewrite lookup_insert_ne in Hx by done.
        destruct (decide (sw = self)) as [->|Hsw'].
        -- rewrite lookup_insert_eq in Hsw. injection Hsw as <-.
           cbn [ports set_ports] in Hn.
           apply lookup_insert_Some in Hn as [[_ ?]|[_ Hn]]; [done|]. by eapply Ha.
        -- rewrite lookup_insert_ne in Hsw by done. by eapply Ha.
    + intros lp x Hx Hxe. destruct (decide (lp = l)) as [->|Hne].
      * exists self, (set_ports <[port_no p := l]> s), (port_no p).
        rewrite lookup_insert_eq. split; [done|]. cbn. apply lookup_insert_eq.
      * rewrite lookup_insert_ne in Hx by done.
        destruct (Hb _ _ Hx Hxe) as (sw & s0 & n & Hsw & Hn).
        destruct (decide (sw = self)) as [->|Hsw'].
        -- exists self, (set_ports <[port_no p := l]> s), n.
           rewrite lookup_insert_eq. split; [done|]. cbn.
           assert (s0 = s) as -> by congruence.
           rewrite lookup_insert_ne; [done|]. intros Heq. subst n. congruence.
        -- exists sw, s0, n. by rewrite lookup_insert_ne.
  - (* remove_port *)
    intros self s k l o w Hs Hl Ho [Hw [Ha Hb]]. split; [by apply wf_remove_port|].
    destruct Hw as (_ & Htab & Hun).
    split; world_fields.
    + intros sw s0 n lp x Hsw Hn Hx.
      assert (∃ s1, switches w !! sw = Some s1 ∧ ports s1 !! n = Some lp ∧
                    (sw = self → n ≠ k)) as (s1 & Hs1 & Hn1 & Hk).
      { destruct (decide (sw = self)) as [->|Hsw'].
        - rewrite lookup_insert_eq in Hsw. injection Hsw as <-.
          cbn [ports set_ports] in Hn. apply lookup_delete_Some in Hn as [? Hn]. eauto.
        - rewrite lookup_insert_ne in Hsw by done.
          exists s0. split; [done|]. split; [done|]. by intros ?. }
      destruct (decide (lp = l)) as [->|Hne].
      * exfalso. assert (sw = self) as -> by (by eapply Hun).
        assert (s1 = s) as -> by congruence.
        apply (Hk eq_refl). by eapply table_ok_inj; [apply (Htab _ _ Hs)|..].
      * rewrite lookup_insert_ne in Hx by done. by eapply Ha.
    + intros lp x Hx Hxe. destruct (decide (lp = l)) as [->|Hne].
      * rewrite lookup_insert_eq in Hx. by injection Hx as <-.
      * rewrite lookup_insert_ne in Hx by done.
        destruct (Hb _ _ Hx Hxe) as (sw & s0 & n & Hsw & Hn).
        destruct (decide (sw = self)) as [->|Hsw'].
        -- exists self, (set_ports (delete k) s), n.
           rewrite lookup_insert_eq. split; [done|]. cbn.
           assert (s0 = s) as -> by congruence.
           rewrite lookup_delete_ne; [done|]. intros <-. congruence.
        -- exists sw, s0, n. by rewrite lookup_insert_ne.
  - (* connect *)
    intros self s c w Hs [Hw He]. split; [by apply wf_after_line_216|].
    unfold after_line_216. apply (exists_inv_switch_update self s); [done|done|].
    by eapply exists_inv_same.
  - (* disconnect *)
    intros self s w Hs [Hw He]. split; [by apply wf_after_disconnect|].
    unfold after_disconnect. apply (exists_inv_switch_update self s); [done|done|].
    by eapply exists_inv_same.
  - (* new switch *)
    intros d w [Hw He]. split; [apply (keeps_wf_new_switch d w Hw)|].
    pose proof (fresh_switch_None w) as Hf.
    revert He. apply exists_inv_switches; [done| |]; world_fields.
    + intros sw s' n l Hsw Hn.
      apply lookup_insert_Some in Hsw as [[_ <-]|[_ Hsw]]; [|eauto].
      cbn in Hn. by rewrite lookup_empty in Hn.
    + intros sw s n l Hsw Hn. exists s. split; [|done].
      rewrite lookup_insert_ne; [done|]. congruence.
  - (* addEntity *)
    intros sw s w Hs [Hw He].
    split; [by apply (wf_store_add sw s)|by eapply exists_inv_same].
  - (* removeEntity *)
    intros sw s w Hs [Hw He].
    split; [by apply (wf_store_remove sw s)|by eapply exists_inv_same].
  - (* expire *)
    intros t o w Ho Hp [Hw He]. split; [by apply wf_expire|].
    destruct (switches w !! callback o) as [s|] eqn:Hs.
    + apply (exists_inv_switch_update _ s); [done|done|]. by eapply exists_inv_same.
    + by eapply exists_inv_same.
  - split; [apply wf_empty_world|]. split.
    + intros sw s n l o Hsw. cbn in Hsw. by rewrite lookup_empty in Hsw.
    + intros l o Ho. cbn in Ho. by rewrite lookup_empty in Ho.
Qed.

(** X12.  The port tables and the exists flag, in every world that events
    lead to.  A port number that a switch tracks leads to a port object of
    that number; no port object is in the tables of two switches, or twice in
    one table; and a port object is marked as existing exactly when the table
    of some switch refers to it. *)
Theorem X12_exists_flag_is_accurate W C es :
  let w := EventLoop.run es (gate_init W C) in
  (∀ sw s n l, switches w !! sw = Some s → ports s !! n = Some l →
     ∃ o, portobjs w !! l = Some o ∧ number o = n ∧ exists_ o = true) ∧
  (∀ sw1 sw2 s1 s2 n1 n2 l,
     switches w !! sw1 = Some s1 → switches w !! sw2 = Some s2 →
     ports s1 !! n1 = Some l → ports s2 !! n2 = Some l → sw1 = sw2 ∧ n1 = n2) ∧
  (∀ l o, portobjs w !! l = Some o →
     (exists_ o = true ↔ ∃ sw s n, switches w !! sw = Some s ∧ ports s !! n = Some l)).
Proof.
  intros w. destruct (wfe_reachable W C es) as [(Hst & Htab & Hun) [Ha Hb]].
  fold w in Hst, Htab, Hun, Ha, Hb. split; [|split].
  - intros sw s n l Hs Hl. destruct (Htab _ _ Hs _ _ Hl) as (o & Ho & Hnum).
    exists o. split; [done|]. split; [done|]. by eapply Ha.
  - intros sw1 sw2 s1 s2 n1 n2 l Hs1 Hs2 Hl1 Hl2.
    assert (sw1 = sw2) as -> by (by eapply Hun). split; [done|].
    assert (s1 = s2) as -> by congruence.
    by eapply table_ok_inj; [apply (Htab _ _ Hs2)|..].
  - intros l o Ho. split; [by apply Hb|].
    intros (sw & s & n & Hs & Hl). by eapply Ha.
Qed.

(** ** Every pending timer has its switch *)

Lemma timer_owned_same w w' :
  switches w' = switches w → timers w' = timers w → timer_owned w → timer_owned w'.
Proof. intros Hs Ht. unfold timer_owned. by rewrite Hs, Ht. Qed.

Lemma timer_owned_switch_update l s s' w :
  switches w !! l = Some s → _reconnectTimeout s' = _reconnectTimeout s →
  timer_owned w → timer_owned (upd_switches <[l := s']> w).
Proof.
  intros Hs Hr Hown t o Ht Hp. world_fields in Ht. world_fields.
  destruct (Hown t o Ht Hp) as (x & Hx & Hxt).
  destruct (decide (callback o = l)) as [Heq|Hne].
  - rewrite Heq in Hx |- *. rewrite lookup_insert_eq.
    exists s'. split; [done|]. congruence.
  - rewrite lookup_insert_ne by done. eauto.
Qed.

Lemma timer_owned_after_line_216 self s c w :
  switches w !! self = Some s → timer_owned w →
  timer_owned (after_line_216 self s c w).
Proof.
  intros Hs Hown t o Ht Hp. unfold after_line_216 in *. world_fields in Ht. world_fields.
  assert (timers w !! t = Some o ∧ _reconnectTimeout s ≠ Some t) as [Ht0 Hnot].
  { unfold cancel_timer in Ht. destruct (_reconnectTimeout s) as [t0|]; [|done].
    destruct (decide (t = t0)) as [->|Hne].
    - rewrite lookup_alter_eq in Ht. destruct (timers w !! t0); [|done].
      cbn in Ht. injection Ht as <-. done.
    - rewrite lookup_alter_ne in Ht by done. split; [done|congruence]. }
  destruct (Hown t o Ht0 Hp) as (x & Hx & Hxt).
  rewrite lookup_insert_ne; [eauto|]. intros Heq. rewrite <- Heq in Hx. congruence.
Qed.

Lemma timer_owned_after_disconnect self s w :
  switches w !! self = Some s → timer_owned w →
  timer_owned (after_disconnect self s w).
Proof.
  intros Hs Hown t o Ht Hp. unfold after_disconnect in *. world_fields in Ht. world_fields.
  destruct (decide (t = fresh (dom (timers w)))) as [->|Hnew].
  { rewrite lookup_insert_eq in Ht. injection Ht as <-. cbn.
    rewrite lookup_insert_eq. eauto. }
  rewrite lookup_insert_ne in Ht by done.
  assert (timers w !! t = Some o ∧ _reconnectTimeout s ≠ Some t) as [Ht0 Hnot].
  { unfold cancel_timer in Ht. destruct (_reconnectTimeout s) as [t0|]; [|done].
    destruct (decide (t = t0)) as [->|Hne].
    - rewrite lookup_alter_eq in Ht. destruct (timers w !! t0); [|done].
      cbn in Ht. injection Ht as <-. done.
    - rewrite lookup_alter_ne in Ht by done. split; [done|congruence]. }
  destruct (Hown t o Ht0 Hp) as (x & Hx & Hxt).
  rewrite lookup_insert_ne; [eauto|]. intros Heq. rewrite <- Heq in Hx. congruence.
Qed.

Lemma timer_owned_reachable W C es : timer_owned (EventLoop.run es (gate_init W C)).
Proof.
  apply (units_reachable timer_owned).
  - intros w w' Hs _ Ht _. by apply timer_owned_same.
  - intros l s s' w Hs _ _ Hr _. by apply (timer_owned_switch_update l s).
  - intros l o o' w _ _ _ _. by apply timer_owned_same.
  - intros self s p w Hs _ Hown.
    apply (timer_owned_switch_update self s); [done|done|]. by eapply timer_owned_same.
  - intros self s k l o w Hs _ _ Hown.
    apply (timer_owned_switch_update self s); [done|done|]. by eapply timer_owned_same.
  - intros self s c w. apply timer_owned_after_line_216.
  - intros self s w. apply timer_owned_after_disconnect.
  - intros d w Hown t o Ht Hp. world_fields in Ht. world_fields.
    destruct (Hown t o Ht Hp) as (x & Hx & Hxt). exists x. split; [|done].
    rewrite lookup_insert_ne; [done|]. pose proof (fresh_switch_None w). congruence.
  - intros sw s w _. by apply timer_owned_same.
  - intros sw s w _. by apply timer_owned_same.
  - intros t o w Ht Hp Hown.
    destruct (Hown t o Ht Hp) as (s & Hs & Hst). rewrite Hs.
    intros t' o' Ht' Hp'. world_fields in Ht'. world_fields.
    destruct (decide (t' = t)) as [->|Hne].
    { rewrite lookup_insert_eq in Ht'. by injection Ht' as <-. }
    rewrite lookup_insert_ne in Ht' by done.
    destruct (Hown t' o' Ht' Hp') as (x & Hx & Hxt).
    rewrite lookup_insert_ne; [eauto|]. intros Heq. rewrite Heq in Hs. congruence.
  - intros t o Ht. cbn in Ht. by rewrite lookup_empty in Ht.
Qed.

(** X13.  Timers, in every world that events lead to.  A pending timer is
    armed for the grace period, the switch it is bound to exists, refers to
    that very timer and has no connection handle; so a switch is bound to at
    most one pending timer, and a switch that has a connection handle is
    bound to none: no expiry makes a connected switch leave. *)
Theorem X13_pending_timers_have_their_switch W C es :
  let w := EventLoop.run es (gate_init W C) in
  (∀ t o, timers w !! t = Some o → pending o = true →
     timeToWake o = RECONNECT_TIMEOUT ∧
     ∃ s, switches w !! callback o = Some s ∧ _reconnectTimeout s = Some t ∧
          connection s = None) ∧
  (∀ t1 t2 o1 o2,
     timers w !! t1 = Some o1 → timers w !! t2 = Some o2 →
     pending o1 = true → pending o2 = true → callback o1 = callback o2 → t1 = t2) ∧
  (∀ sw s c t o,
     switches w !! sw = Some s → connection s = Some c →
     timers w !! t = Some o → pending o = true → callback o ≠ sw).
Proof.
  intros w.
  pose proof (timer_owned_reachable W C es) as Hown.
  pose proof (timer_inv_reachable W C es) as Hinv. fold w in Hown, Hinv.
  assert (H1 : ∀ t o, timers w !! t = Some o → pending o = true →
     timeToWake o = RECONNECT_TIMEOUT ∧
     ∃ s, switches w !! callback o = Some s ∧ _reconnectTimeout s = Some t ∧
          connection s = None).
  { intros t o Ht Hp. destruct (Hown t o Ht Hp) as (s & Hs & Hst).
    destruct (Hinv _ _ _ Hs Hst) as [Hc Htm]. rewrite Ht in Htm. injection Htm as ->.
    split; [done|]. by exists s. }
  split; [exact H1|]. split.
  - intros t1 t2 o1 o2 Ht1 Ht2 Hp1 Hp2 Hcb.
    destruct (H1 _ _ Ht1 Hp1) as (_ & s1 & Hs1 & Hr1 & _).
    destruct (H1 _ _ Ht2 Hp2) as (_ & s2 & Hs2 & Hr2 & _).
    rewrite Hcb in Hs1. congruence.
  - intros sw s c t o Hs Hc Ht Hp Hcb.
    destruct (H1 _ _ Ht Hp) as (_ & s' & Hs' & _ & Hc'). rewrite Hcb in Hs'. congruence.
Qed.

(** ** The store is keyed by dpid *)

Lemma store_keys_switch_update l s s' w :
  switches w !! l = Some s → dpid s' = dpid s →
  store_keys w → store_keys (upd_switches <[l := s']> w).
Proof.
  intros Hs Hd Hk d sw x Hsw Hx. world_fields in Hsw. world_fields in Hx.
  destruct (decide (sw = l)) as [->|Hne].
  - rewrite lookup_insert_eq in Hx. injection Hx as <-. rewrite Hd. by eapply Hk.
  - rewrite lookup_insert_ne in Hx by done. by eapply Hk.
Qed.

Lemma store_keys_same w w' :
  switches w' = switches w → topology_entities w' = topology_entities w →
  store_keys w → store_keys w'.
Proof. intros Hs Ht. unfold store_keys. by rewrite Hs, Ht. Qed.

Local Abbreviation wfk := (λ w, wf w ∧ store_keys w).

Lemma wfk_reachable W C es : wfk (EventLoop.run es (gate_init W C)).
Proof.
  apply (units_reachable wfk).
  - intros w w' Hs Hp _ Ht [Hw Hk]. split; [by eapply wf_same|by eapply store_keys_same].
  - intros l s s' w Hs Hd Hp _ _ [Hw Hk]. split.
    + apply (wf_switch_update l s); [done|by rewrite Hp|done].
    + by apply (store_keys_switch_update l s).
  - intros l o o' w Ho Hnum _ _ [Hw Hk].
    split; [by apply (wf_port_update l o)|by eapply store_keys_same].
  - intros self s p w Hs Hl [Hw Hk]. split; [by apply wf_add_port|].
    apply (store_keys_switch_update self s); [done|done|]. by eapply store_keys_same.
  - intros self s k l o w Hs Hl Ho [Hw Hk]. split; [by apply wf_remove_port|].
    apply (store_keys_switch_update self s); [done|done|]. by eapply store_keys_same.
  - intros self s c w Hs [Hw Hk]. split; [by apply wf_after_line_216|].
    unfold after_line_216. apply (store_keys_switch_update self s); [done|done|].
    by eapply store_keys_same.
  - intros self s w Hs [Hw Hk]. split; [by apply wf_after_disconnect|].
    unfold after_disconnect. apply (store_keys_switch_update self s); [done|done|].
    by eapply store_keys_same.
  - intros d w [Hw Hk]. split; [apply (keeps_wf_new_switch d w Hw)|].
    intros d' sw x Hsw Hx. world_fields in Hsw. world_fields in Hx.
    destruct Hw as (Hst & _ & _). destruct (Hst _ _ Hsw) as [y Hy].
    rewrite lookup_insert_ne in Hx; [by eapply Hk|].
    pose proof (fresh_switch_None w). congruence.
  - intros sw s w Hs [Hw Hk]. split; [by apply (wf_store_add sw s)|].
    intros d' sw' x Hsw Hx. world_fields in Hsw. world_fields in Hx.
    apply lookup_insert_Some in Hsw as [[<- <-]|[_ Hsw]]; [congruence|by eapply Hk].
  - intros sw s w Hs [Hw Hk]. split; [by apply (wf_store_remove sw s)|].
    intros d' sw' x Hsw Hx. world_fields in Hsw. world_fields in Hx.
    apply lookup_delete_Some in Hsw as [_ Hsw]. by eapply Hk.
  - intros t o w Ht Hp [Hw Hk]. split; [by apply wf_expire|].
    destruct (switches w !! callback o) as [s|] eqn:Hs.
    + apply (store_keys_switch_update _ s); [done|done|]. by eapply store_keys_same.
    + by eapply store_keys_same.
  - split; [apply wf_empty_world|].
    intros d sw s Hd. cbn in Hd. by rewrite lookup_empty in Hd.
Qed.

(** X14.  The topology store, in every world that events lead to.  Every
    entry of the store is a switch object that exists and whose dpid is the
    key it is registered under; so no switch object is registered under two
    IDs. *)
Theorem X14_store_is_keyed_by_dpid W C es :
  let w := EventLoop.run es (gate_init W C) in
  (∀ d sw, topology_entities w !! d = Some sw →
     ∃ s, switches w !! sw = Some s ∧ dpid s = d) ∧
  (∀ d1 d2 sw, topology_entities w !! d1 = Some sw →
               topology_entities w !! d2 = Some sw → d1 = d2).
Proof.
  intros w. destruct (wfk_reachable W C es) as [(Hst & _ & _) Hk]. fold w in Hst, Hk.
  assert (H1 : ∀ d sw, topology_entities w !! d = Some sw →
                 ∃ s, switches w !! sw = Some s ∧ dpid s = d).
  { intros d sw Hd. destruct (Hst _ _ Hd) as [s Hs]. exists s. split; [done|].
    by eapply Hk. }
  split; [exact H1|].
  intros d1 d2 sw Hd1 Hd2.
  destruct (H1 _ _ Hd1) as (s1 & Hs1 & <-). destruct (H1 _ _ Hd2) as (s2 & Hs2 & <-).
  congruence.
Qed.

#[export] Instance neighbours_kept_preorder : PreOrder neighbours_kept.
Proof.
  split.
  - intros w l o Ho. by exists o.
  - intros w1 w2 w3 H1 H2 l o Ho.
    destruct (H1 _ _ Ho) as (o' & Ho' & He'). destruct (H2 _ _ Ho') as (o'' & Ho'' & He'').
    exists o''. split; [done|congruence].
Qed.

#[export] Instance only_neighbours_preorder : PreOrder only_neighbours.
Proof.
  split.
  - intros w. repeat split. intros l. destruct (portobjs w !! l) as [o|]; [|done].
    by destruct o.
  - intros w1 w2 w3 (A1 & A2 & A3 & A4 & A5 & A6 & A7 & A8)
                    (B1 & B2 & B3 & B4 & B5 & B6 & B7 & B8).
    repeat split; try congruence. intros l. specialize (A8 l). specialize (B8 l).
    destruct (portobjs w1 !! l) as [o1|], (portobjs w2 !! l) as [o2|],
             (portobjs w3 !! l) as [o3|]; try done.
    rewrite B8, A8. by destruct o1.
Qed.

Lemma neighbours_kept_same w w' : portobjs w' = portobjs w → neighbours_kept w w'.
Proof. intros Hp l o Ho. exists o. by rewrite Hp. Qed.

Lemma neighbours_kept_assign_port l f :
  (∀ o, entities (f o) = entities o) → preserves neighbours_kept (assign_port l f).
Proof.
  intros Hf w. unfold assign_port. rewrite run_bind. unfold get_port.
  destruct (portobjs w !! l) as [o|] eqn:Ho; [|reflexivity].
  intros l' o' Ho'. cbn [fst put_port modify]. world_fields.
  destruct (decide (l' = l)) as [->|Hne].
  - rewrite lookup_insert_eq. exists (f o). split; [done|]. rewrite Hf. congruence.
  - rewrite lookup_insert_ne by done. by exists o'.
Qed.

Lemma neighbours_kept_modify f :
  (∀ w, portobjs (f w) = portobjs w) → preserves neighbours_kept (modify f).
Proof. intros Hf w. apply neighbours_kept_same, Hf. Qed.

Lemma neighbours_kept_deliver e :
  (∀ ev, e ≠ DiscoveryLinkEvent ev) → preserves neighbours_kept (EventLoop.deliver e).
Proof.
  intros Hl.
  assert (Hreg : (∃ n, e = ComponentRegistered n) ∨ ∀ n, e ≠ ComponentRegistered n).
  { destruct e; try (right; by intros ?). left. by eexists. }
  destruct Hreg as [[n ->]|Hn].
  - apply (handlers_register neighbours_kept).
    + intros o _. by apply neighbours_kept_modify.
    + intros f. by apply neighbours_kept_modify.
    + intros n'. by apply neighbours_kept_modify.
    + by apply neighbours_kept_modify.
  - apply (handlers_deliver_other neighbours_kept); [| | | | | | | | | |done|done].
    + intros l f _ w. unfold assign_switch. rewrite run_bind. unfold get_switch.
      destruct (switches w !! l); [|reflexivity]. by apply neighbours_kept_same.
    + intros l f Hf. apply neighbours_kept_assign_port. intros o. apply Hf.
    + intros p w. rewrite run_port__init__. intros l o Ho. exists o. split; [|done].
      cbn [fst]. world_fields. rewrite lookup_insert_ne; [done|].
      pose proof (fresh_port_None w). congruence.
    + intros d' w. by apply neighbours_kept_same.
    + intros n cb w. by apply neighbours_kept_same.
    + intros t. by apply neighbours_kept_modify.
    + intros t o w _. by apply neighbours_kept_same.
    + intros f. by apply neighbours_kept_modify.
    + intros f. by apply neighbours_kept_modify.
    + intros o _. by apply neighbours_kept_modify.
Qed.

Lemma only_neighbours_put l o E w :
  portobjs w !! l = Some o →
  only_neighbours w (upd_portobjs <[l := set_entities E o]> w).
Proof.
  intros Ho. repeat split. world_fields. intros l'.
  destruct (decide (l' = l)) as [->|Hne].
  - rewrite lookup_insert_eq, Ho. by destruct o.
  - rewrite lookup_insert_ne by done. destruct (portobjs w !! l') as [[]|]; done.
Qed.

Lemma only_neighbours_LinkEvent ev :
  preserves only_neighbours (OpenFlowTopology._handle_openflow_discovery_LinkEvent ev).
Proof.
  unfold OpenFlowTopology._handle_openflow_discovery_LinkEvent.
  apply preserves_bind; [apply _|apply preserves_getattr; apply _|]. intros b.
  destruct (negb b); [apply preserves_ret; apply _|].
  apply preserves_bind; [apply _|apply preserves_getEntityByID; apply _|]. intros o1.
  apply preserves_bind; [apply _|apply preserves_getEntityByID; apply _|]. intros o2.
  destruct o1 as [sw1|], o2 as [sw2|]; try (apply preserves_ret; apply _).
  apply preserves_bind; [apply _|apply preserves_get_switch; apply _|]. intros s1.
  apply preserves_bind; [apply _|apply preserves_get_switch; apply _|]. intros s2.
  destruct (ports s1 !! port1 (link ev)), (ports s2 !! port2 (link ev));
    try (apply preserves_ret; apply _).
  assert (Hadd : ∀ l e, preserves only_neighbours (OpenFlowPort.addEntity l e true)).
  { intros l e w. unfold OpenFlowPort.addEntity, assign_port. rewrite run_bind.
    unfold get_port. destruct (portobjs w !! l) as [o|] eqn:Ho; [|reflexivity].
    by apply only_neighbours_put. }
  assert (Hrm : ∀ l e, preserves only_neighbours (OpenFlowPort.entities_remove l e)).
  { intros l e w. unfold OpenFlowPort.entities_remove. rewrite run_bind.
    unfold get_port. destruct (portobjs w !! l) as [o|] eqn:Ho; [|reflexivity].
    destruct (bool_decide _); [|reflexivity]. by apply only_neighbours_put. }
  destruct (added ev); [|destruct (removed ev); [|apply preserves_ret; apply _]].
  - apply preserves_bind; [apply _|apply preserves_get_switch; apply _|]. intros s.
    apply preserves_bind; [apply _| |intros ?].
    { destruct (ports s !! _); [apply Hadd|apply preserves_raise; apply _]. }
    apply preserves_bind; [apply _|apply preserves_get_switch; apply _|]. intros s'.
    destruct (ports s' !! _); [apply Hadd|apply preserves_raise; apply _].
  - apply preserves_bind; [apply _|apply preserves_get_switch; apply _|]. intros s.
    apply preserves_bind; [apply _| |intros ?].
    { destruct (ports s !! _); [apply Hrm|apply preserves_raise; apply _]. }
    apply preserves_bind; [apply _|apply preserves_get_switch; apply _|]. intros s'.
    destruct (ports s' !! _); [apply Hrm|apply preserves_raise; apply _].
Qed.

(** A link event that is neither an addition nor a removal. *)
Lemma LinkEvent_neither ev :
  added ev = false → removed ev = false →
  preserves eq (OpenFlowTopology._handle_openflow_discovery_LinkEvent ev).
Proof.
  intros Ha Hr. unfold OpenFlowTopology._handle_openflow_discovery_LinkEvent.
  rewrite Ha, Hr.
  apply preserves_bind; [apply _|apply preserves_getattr; apply _|]. intros b.
  destruct (negb b); [apply preserves_ret; apply _|].
  apply preserves_bind; [apply _|apply preserves_getEntityByID; apply _|]. intros o1.
  apply preserves_bind; [apply _|apply preserves_getEntityByID; apply _|]. intros o2.
  destruct o1 as [sw1|], o2 as [sw2|]; try (apply preserves_ret; apply _).
  apply preserves_bind; [apply _|apply preserves_get_switch; apply _|]. intros s1.
  apply preserves_bind; [apply _|apply preserves_get_switch; apply _|]. intros s2.
  destruct (ports s1 !! port1 (link ev)), (ports s2 !! port2 (link ev));
    apply preserves_ret; apply _.
Qed.

(** X15.  Who changes the neighbor sets.  No event but a link event changes
    the neighbors of any port object: a port keeps its neighbors when it is
    updated, when it is deleted, when its switch disconnects, reconnects or
    leaves, and a switch that leaves stays in the neighbor sets that name it.
    A link event, whatever its outcome, changes nothing but neighbor sets: no
    switch, timer, listener, store entry or trace line, no port object is
    created, and every other field of every port object is as before.  A link
    event that is neither an addition nor a removal changes nothing at
    all. *)
Theorem X15_neighbours_change_with_links_only :
  (∀ e w l o, (∀ ev, e ≠ DiscoveryLinkEvent ev) →
     portobjs w !! l = Some o →
     ∃ o', portobjs (exec (EventLoop.deliver e) w) !! l = Some o' ∧
           entities o' = entities o) ∧
  (∀ ev w, only_neighbours w
             (exec (OpenFlowTopology._handle_openflow_discovery_LinkEvent ev) w)) ∧
  (∀ ev w, added ev = false → removed ev = false →
     exec (OpenFlowTopology._handle_openflow_discovery_LinkEvent ev) w = w).
Proof.
  split; [|split].
  - intros e w l o He Ho. by apply (neighbours_kept_deliver e He w).
  - intros ev w. apply only_neighbours_LinkEvent.
  - intros ev w Ha Hr. symmetry. by apply (LinkEvent_neither ev Ha Hr w).
Qed.

(** ** A registered switch connects again *)

(** X16.  A connection-up for a registered switch whose handshake lists
    unique port numbers, under the names the tracked ports have, returns
    normally and keeps what the switch had: the switch object is the same,
    every reported port that was tracked is the same port object, updated in
    place and with the neighbors it had; tracked ports that are not reported
    are marked as not existing and leave the table; the table tracks exactly
    the reported numbers; the capabilities are those of the handshake, the
    connection handle is the new one, the switch refers to no timer, and it
    observes the new connection through one registration. *)
Theorem X16_reconnect_keeps_ports d c ofp sw s w :
  attrs (adaptor w) !! "topology"%string = Some true →
  topology_entities w !! d = Some sw →
  switches w !! sw = Some s →
  table_ok (ports s) (portobjs w) →
  NoDup (port_no <$> ofp_ports ofp) →
  names_agree (ports s) (portobjs w) (ofp_ports ofp) →
  let w' := exec (OpenFlowTopology._handle_openflow_ConnectionUp d c ofp) w in
  eval (OpenFlowTopology._handle_openflow_ConnectionUp d c ofp) w = Ret tt ∧
  topology_entities w' = topology_entities w ∧
  ∃ s' l,
    switches w' !! sw = Some s' ∧
    dpid s' = dpid s ∧ capabilities s' = ofp_capabilities ofp ∧
    connection s' = Some c ∧ _reconnectTimeout s' = None ∧
    _listeners s' = [l] ∧ con_listeners w' !! l = Some (c, sw) ∧
    dom (ports s') = reported (ofp_ports ofp) ∧
    (∀ p l o, p ∈ ofp_ports ofp → ports s !! port_no p = Some l →
       portobjs w !! l = Some o →
       ports s' !! port_no p = Some l ∧
       ∃ o', portobjs w' !! l = Some o' ∧ port_matches o' p ∧
             entities o' = entities o ∧ exists_ o' = exists_ o) ∧
    (∀ n l o, ports s !! n = Some l → n ∉ reported (ofp_ports ofp) →
       portobjs w !! l = Some o →
       ports s' !! n = None ∧ portobjs w' !! l = Some (set_exists false o)).
Proof.
  intros Ht Hreg Hs Hok Hnd Hnames w'.
  set (w0 := warned d s w).
  set (w1 := after_line_216 sw s (Some c) w0).
  set (s1 := mkSwitch (dpid s) (ports s) (capabilities s) (Some c) [] None).
  set (s2 := set_capabilities (ofp_capabilities ofp) s1).
  set (w2 := upd_switches <[sw := s2]> w1).
  destruct (warned_fields d s w) as (Hw01 & Hw02 & _ & _ & _ & Hw06 & _ & _).
  fold w0 in Hw01, Hw02, Hw06.
  assert (Hs1 : switches w1 !! sw = Some s1) by apply after_line_216_switch.
  assert (Hp1 : portobjs w1 = portobjs w) by (by unfold w1, after_line_216; world_fields).
  assert (Hs2 : switches w2 !! sw = Some s2).
  { unfold w2. world_fields. apply lookup_insert_eq. }
  assert (Hp2 : portobjs w2 = portobjs w) by (by unfold w2; world_fields).
  destruct (update_all_ports_end_state sw s2 (ofp_ports ofp) w2 Hs2)
    as (T' & H' & Hrun & Hdom & Hgone & Hkept & _ & _ & _);
    [by rewrite Hp2|done|by rewrite Hp2|].
  rewrite Hp2 in Hgone, Hkept. cbn [s2 s1 ports set_capabilities] in Hgone, Hkept.
  set (w3 := upd_switches <[sw := set_ports (λ _, T') s2]> (upd_portobjs (λ _, H') w2))
    in Hrun.
  set (l := fresh (dom (con_listeners w3))).
  set (w4 := upd_con_listeners <[l := (c, sw)]> w3).
  set (s5 := set__listeners [l] (set_ports (λ _, T') s2)).
  set (w5 := upd_switches <[sw := s5]> w4).
  assert (Hfull : OpenFlowTopology._handle_openflow_ConnectionUp d c ofp w
                  = (upd_trace (λ t, t ++ [LogInfoConnected d]) w5, Ret tt)).
  { rewrite (run_ConnectionUp_existing _ _ _ _ _ _ Ht Hreg Hs). fold w0 w1.
    unfold reconnect_rest.
    erewrite run_bind_ret.
    2:{ erewrite run_bind_ret by apply run_mret.
        erewrite run_bind_ret.
        2:{ erewrite run_bind_ret by (by apply run_assign_switch). exact Hrun. }
        erewrite run_bind_ret by reflexivity.
        apply run_assign_switch. unfold w3. world_fields. apply lookup_insert_eq. }
    erewrite run_bind_ret by apply run_emit. by rewrite run_mret. }
  unfold w', exec, eval. rewrite Hfull. cbn [fst snd].
  split; [done|]. split.
  { world_fields. unfold w1, after_line_216. world_fields. done. }
  exists s5, l. world_fields.
  split; [apply lookup_insert_eq|]. split; [done|]. split; [done|]. split; [done|].
  split; [done|]. split; [done|]. split; [apply lookup_insert_eq|].
  split; [done|]. split.
  - intros p lp o Hp Hl Ho. destruct (Hkept p lp o Hp Hl Ho) as [HT HH].
    split; [done|]. exists (updated o p). split; [done|]. split; [|done].
    destruct (Hok _ _ Hl) as (o0 & Ho0 & Hnum). assert (o0 = o) as -> by congruence.
    repeat split; cbn; try done. by eapply Hnames.
  - intros n lp o Hl Hn Ho. by apply (Hgone n lp o).
Qed.

Lemma X16_reconnect_keeps_ports_witness :
  attrs (adaptor world_one_switch) !! "topology"%string = Some true ∧
  topology_entities world_one_switch !! 1 = Some 0%nat ∧
  switches world_one_switch !! 0%nat
  = Some (mkSwitch 1 {[1 := 0%nat; 2 := 1%nat]} 5 (Some 7%nat) [0%nat] None) ∧
  table_ok {[1 := 0%nat; 2 := 1%nat]} (portobjs world_one_switch) ∧
  NoDup (port_no <$> ofp_ports (mk_features 6 [eth0_down; eth2])) ∧
  names_agree {[1 := 0%nat; 2 := 1%nat]} (portobjs world_one_switch)
    (ofp_ports (mk_features 6 [eth0_down; eth2])) ∧
  eval (OpenFlowTopology._handle_openflow_ConnectionUp 1 9
          (mk_features 6 [eth0_down; eth2])) world_one_switch = Ret tt.
Proof.
  assert (H3 : NoDup (port_no <$> ofp_ports (mk_features 6 [eth0_down; eth2]))).
  { cbn. apply NoDup_cons. split; [|apply NoDup_singleton].
    intros Hin%list_elem_of_singleton. discriminate. }
  assert (H4 : names_agree {[1 := 0%nat; 2 := 1%nat]} (portobjs world_one_switch)
                 (ofp_ports (mk_features 6 [eth0_down; eth2])))
    by (apply names_agreeb_sound; vm_compute; reflexivity).
  split; [exact world_one_switch_bound|]. split; [exact world_one_switch_registered|].
  split; [exact world_one_switch_0|]. split; [exact world_one_switch_table|].
  split; [exact H3|]. split; [exact H4|].
  exact (proj1 (X16_reconnect_keeps_ports 1 9 (mk_features 6 [eth0_down; eth2]) 0 _
                  world_one_switch world_one_switch_bound world_one_switch_registered
                  world_one_switch_0 world_one_switch_table H3 H4)).
Defined.

(** ** Events that are passed on *)

Lemma run_for_each_emit (f : nat → Obs) : ∀ (subs : list nat) w,
  for_each subs (λ sw, emit (f sw)) w = (upd_trace (λ t, t ++ (f <$> subs)) w, Ret tt).
Proof.
  induction subs as [|sw subs IH]; intros w.
  - rewrite for_each_nil. f_equal. world_eq. by rewrite app_nil_r.
  - rewrite for_each_cons, run_emit, IH. f_equal. world_eq.
    by rewrite <- app_assoc.
Qed.

(** X17.  A packet-in, a barrier reply and a flow-removed event of a
    connection are passed on: every switch that observes the connection
    raises the event again, once for each registration it holds on the
    connection, and nothing else changes; an event of a connection that no
    switch observes, whatever its kind, changes nothing. *)
Theorem X17_events_passed_on c w :
  EventLoop.deliver (ConPacketIn c) w
  = (upd_trace (λ t, t ++ (RaisedPacketIn <$> EventMixin.subscribers c w)) w, Ret tt) ∧
  EventLoop.deliver (ConBarrierIn c) w
  = (upd_trace (λ t, t ++ (RaisedBarrierIn <$> EventMixin.subscribers c w)) w, Ret tt) ∧
  EventLoop.deliver (ConFlowRemoved c) w
  = (upd_trace (λ t, t ++ (RaisedFlowRemoved <$> EventMixin.subscribers c w)) w, Ret tt) ∧
  (EventMixin.subscribers c w = [] →
     EventLoop.deliver (ConPacketIn c) w = (w, Ret tt) ∧
     EventLoop.deliver (ConBarrierIn c) w = (w, Ret tt) ∧
     EventLoop.deliver (ConFlowRemoved c) w = (w, Ret tt) ∧
     EventLoop.deliver (ConConnectionDown c) w = (w, Ret tt) ∧
     ∀ ofp, EventLoop.deliver (ConPortStatus c ofp) w = (w, Ret tt)).
Proof.
  cbn [EventLoop.deliver]. unfold EventLoop.from_connection.
  rewrite !(run_bind_ret _ _ _ _ _ (run_get w)).
  split; [apply (run_for_each_emit RaisedPacketIn)|].
  split; [apply (run_for_each_emit RaisedBarrierIn)|].
  split; [apply (run_for_each_emit RaisedFlowRemoved)|].
  intros Hsub. rewrite Hsub. repeat split; try apply for_each_nil.
  intros ofp. erewrite run_bind_ret by apply run_get. rewrite Hsub. apply for_each_nil.
Qed.

(** ** When a handshake is accepted *)

(** X18.  Full-mode reconciliation of a switch whose table is well formed
    returns normally exactly when the reported port numbers are unique and
    every tracked port is reported under the name it has; for every other
    list it raises. *)
Theorem X18_full_mode_returns_iff self s ps w :
  switches w !! self = Some s →
  table_ok (ports s) (portobjs w) →
  (eval (OpenFlowSwitch.update_all_ports self ps) w = Ret tt
   ↔ NoDup (port_no <$> ps) ∧ names_agree (ports s) (portobjs w) ps) ∧
  (¬ (NoDup (port_no <$> ps) ∧ names_agree (ports s) (portobjs w) ps) →
   ∃ e, eval (OpenFlowSwitch.update_all_ports self ps) w = Raise e).
Proof.
  intros Hs Hok.
  pose proof (update_all_ports_returns_iff self s ps w Hs Hok) as Hiff.
  split; [exact Hiff|]. intros Hnot.
  destruct (eval (OpenFlowSwitch.update_all_ports self ps) w) as [[]|e] eqn:He; [|eauto].
  by destruct Hnot; apply Hiff.
Qed.

Lemma X18_full_mode_returns_iff_witness :
  switches world_one_switch !! 0%nat
  = Some (mkSwitch 1 {[1 := 0%nat; 2 := 1%nat]} 5 (Some 7%nat) [0%nat] None) ∧
  table_ok {[1 := 0%nat; 2 := 1%nat]} (portobjs world_one_switch) ∧
  (eval (OpenFlowSwitch.update_all_ports 0 [eth0; eth0]) world_one_switch = Ret tt
   ↔ NoDup (port_no <$> [eth0; eth0]) ∧
     names_agree {[1 := 0%nat; 2 := 1%nat]} (portobjs world_one_switch) [eth0; eth0]).
Proof.
  split; [exact world_one_switch_0|]. split; [exact world_one_switch_table|].
  exact (proj1 (X18_full_mode_returns_iff 0 _ [eth0; eth0] world_one_switch
                  world_one_switch_0 world_one_switch_table)).
Defined.

(** ** A first handshake that repeats a port number *)

(** The first connection-up of a switch ID, up to the reconciliation. *)
Lemma run_ConnectionUp_new_head d c ofp w :
  attrs (adaptor w) !! "topology"%string = Some true →
  topology_entities w !! d = None →
  let sw := fresh (dom (switches w)) in
  let w2 := upd_switches
              <[sw := mkSwitch d ∅ (ofp_capabilities ofp) (Some c) [] None]> w in
  ∀ w3 e, OpenFlowSwitch.update_all_ports sw (ofp_ports ofp) w2 = (w3, Raise e) →
          OpenFlowTopology._handle_openflow_ConnectionUp d c ofp w = (w3, Raise e).
Proof.
  intros Ht Hnone sw w2 w3 e Hrun.
  set (s0 := mkSwitch d ∅ 0 None [] None).
  set (w0 := upd_switches <[sw := s0]> w).
  set (s1 := mkSwitch d ∅ 0 (Some c) [] None).
  unfold OpenFlowTopology._handle_openflow_ConnectionUp.
  erewrite run_bind_ret by (by apply run_getattr). cbn [negb].
  erewrite run_bind_ret by apply run_getEntityByID.
  rewrite Hnone.
  erewrite run_bind_ret.
  2:{ erewrite run_bind_ret by reflexivity. apply run_mret. }
  cbv beta iota. fold sw s0 w0.
  erewrite run_bind_raise; [done|].
  rewrite (run_setConnection sw s0) by (cbn [w0 switches upd_switches];
                                         apply lookup_insert_eq).
  erewrite run_bind_ret by apply run_mret.
  assert (Ha : after_line_216 sw s0 (Some c) w0 = upd_switches <[sw := s1]> w).
  { unfold after_line_216, w0, drop_listeners, cancel_timer, s0.
    cbn [connection _reconnectTimeout dpid ports capabilities].
    world_eq. by rewrite insert_insert_eq. }
  rewrite Ha.
  erewrite run_bind_raise; [done|].
  erewrite run_bind_ret
    by (apply run_assign_switch; cbn [switches upd_switches]; apply lookup_insert_eq).
  match goal with |- _ _ _ ?X = _ => replace X with w2 end; [exact Hrun|].
  unfold w2. world_eq. by rewrite insert_insert_eq.
Qed.

(** X19.  The first connection-up of a switch ID returns normally exactly
    when the port numbers of the handshake are unique.  If a number is
    repeated the handler raises: a switch object that did not exist is left
    behind, with the dpid and the connection handle of the event, but it is
    not registered in the store and no join is raised. *)
Theorem X19_first_connect_needs_unique_ports d c ofp w :
  attrs (adaptor w) !! "topology"%string = Some true →
  topology_entities w !! d = None →
  let w' := exec (OpenFlowTopology._handle_openflow_ConnectionUp d c ofp) w in
  let sw := fresh (dom (switches w)) in
  (eval (OpenFlowTopology._handle_openflow_ConnectionUp d c ofp) w = Ret tt
   ↔ NoDup (port_no <$> ofp_ports ofp)) ∧
  (¬ NoDup (port_no <$> ofp_ports ofp) →
     (∃ e, eval (OpenFlowTopology._handle_openflow_ConnectionUp d c ofp) w = Raise e) ∧
     topology_entities w' = topology_entities w ∧
     joins (trace w') = joins (trace w) ∧
     switches w !! sw = None ∧
     ∃ s', switches w' !! sw = Some s' ∧ dpid s' = d ∧ connection s' = Some c).
Proof.
  intros Ht Hnone w' sw.
  set (s2 := mkSwitch d ∅ (ofp_capabilities ofp) (Some c) [] None).
  set (w2 := upd_switches <[sw := s2]> w).
  assert (Hs2 : switches w2 !! sw = Some s2).
  { unfold w2. world_fields. apply lookup_insert_eq. }
  assert (Hok : table_ok (ports s2) (portobjs w2)).
  { intros n l Hn. cbn in Hn. by rewrite lookup_empty in Hn. }
  assert (Hnames : names_agree (ports s2) (portobjs w2) (ofp_ports ofp)).
  { intros p l o _ Hl. cbn in Hl. by rewrite lookup_empty in Hl. }
  pose proof (update_all_ports_returns_iff sw s2 (ofp_ports ofp) w2 Hs2 Hok) as Hiff.
  assert (Hbad : ¬ NoDup (port_no <$> ofp_ports ofp) →
     (∃ e, eval (OpenFlowTopology._handle_openflow_ConnectionUp d c ofp) w = Raise e) ∧
     topology_entities w' = topology_entities w ∧
     joins (trace w') = joins (trace w) ∧
     switches w !! sw = None ∧
     ∃ s', switches w' !! sw = Some s' ∧ dpid s' = d ∧ connection s' = Some c).
  { intros Hdup.
    destruct (OpenFlowSwitch.update_all_ports sw (ofp_ports ofp) w2) as [w3 [[]|e]] eqn:Hrun.
    { destruct Hdup. apply Hiff. unfold eval. by rewrite Hrun. }
    pose proof (run_ConnectionUp_new_head d c ofp w Ht Hnone w3 e Hrun) as Hfull.
    pose proof (frame_update_all_ports same_link eq) as Hfr.
    specialize (Hfr ltac:(done) sw (ofp_ports ofp) w2). rewrite Hrun in Hfr. cbn [fst] in Hfr.
    pose proof (frame_joins _ _ _ _ Hfr) as Hj.
    destruct Hfr as (Hst & _ & _ & _ & Hd & Hsame & _).
    unfold w', exec, eval. rewrite Hfull. cbn [fst snd].
    split; [eauto|]. split; [by rewrite Hst|]. split; [by rewrite Hj|].
    split; [apply fresh_switch_None|].
    assert (is_Some (switches w3 !! sw)) as [s3 Hs3].
    { apply elem_of_dom. rewrite Hd. apply elem_of_dom. eauto. }
    exists s3. split; [done|].
    destruct (Hsame sw s2 s3 Hs2 Hs3) as (Hd3 & Hc3 & _).
    split; [by rewrite Hd3|by rewrite Hc3]. }
  split; [|exact Hbad]. split.
  - intros Hret. destruct (decide (NoDup (port_no <$> ofp_ports ofp))) as [|Hdup]; [done|].
    destruct (Hbad Hdup) as [[e He] _]. congruence.
  - intros Hnd. destruct (run_ConnectionUp_new d c ofp w Ht Hnone Hnd) as (T' & H' & Hrun & _).
    unfold eval. cbn zeta in Hrun. by rewrite Hrun.
Qed.

Lemma world_ready_empty_store : topology_entities world_ready !! 1 = None.
Proof. vm_compute; reflexivity. Qed.

Lemma X19_first_connect_needs_unique_ports_witness :
  attrs (adaptor world_ready) !! "topology"%string = Some true ∧
  topology_entities world_ready !! 1 = None ∧
  (eval (OpenFlowTopology._handle_openflow_ConnectionUp 1 7 (mk_features 5 [eth0; eth0]))
        world_ready = Ret tt
   ↔ NoDup (port_no <$> ofp_ports (mk_features 5 [eth0; eth0]))).
Proof.
  split; [exact world_ready_bound|]. split; [exact world_ready_empty_store|].
  exact (proj1 (X19_first_connect_needs_unique_ports 1 7 (mk_features 5 [eth0; eth0])
                  world_ready world_ready_bound world_ready_empty_store)).
Defined.

(** ** A timer that expires finds the topology store *)

#[export] Instance same_switches_preorder : PreOrder same_switches.
Proof. split; [done|]. unfold same_switches. intros ???; congruence. Qed.

Lemma run_ConnectionUp_unbound d c ofp w :
  attrs (adaptor w) !! "topology"%string ≠ Some true →
  OpenFlowTopology._handle_openflow_ConnectionUp d c ofp w = (w, Raise AttributeError).
Proof.
  intros Hn. unfold OpenFlowTopology._handle_openflow_ConnectionUp.
  destruct (attrs (adaptor w) !! "topology"%string) as [[]|] eqn:Ha; [done| |].
  - by erewrite run_bind_ret by (by apply run_getattr).
  - erewrite run_bind_raise; [done|]. by apply run_getattr_None.
Qed.

Lemma same_switches_expire t : preserves same_switches (EventLoop.expire t).
Proof.
  apply (handlers_expire same_switches).
  - intros l f _ w. unfold assign_switch. rewrite run_bind. unfold get_switch.
    destruct (switches w !! l) as [s|] eqn:Hs; [|reflexivity].
    unfold same_switches. cbn [fst put_switch modify]. world_fields.
    rewrite dom_insert_L. assert (l ∈ dom (switches w)) by (apply elem_of_dom; eauto).
    set_solver.
  - intros t' o w _. done.
  - intros f w. done.
  - intros o _ w. done.
Qed.

Lemma same_switches_deliver e w :
  (∀ d c ofp, e ≠ ConnectionUp d c ofp) →
  dom (switches (exec (EventLoop.deliver e) w)) = dom (switches w).
Proof.
  intros He. destruct e as [n|d c ofp|d|ev|c ofp|c|c|c|c|t].
  - assert (Hk : keeps (λ w', switches w' = switches w) (EventLoop.register n)).
    { apply keeps_register; by intros ? ? ?. }
    unfold exec. by rewrite (Hk w).
  - by destruct (He d c ofp).
  - by destruct (frame_deliver_quiet (ConnectionDown d) I w) as (_&_&_&_&?&_).
  - by destruct (frame_deliver_quiet (DiscoveryLinkEvent ev) I w) as (_&_&_&_&?&_).
  - by destruct (frame_deliver_quiet (ConPortStatus c ofp) I w) as (_&_&_&_&?&_).
  - by destruct (frame_deliver_quiet (ConConnectionDown c) I w) as (_&_&_&_&?&_).
  - by destruct (frame_deliver_quiet (ConPacketIn c) I w) as (_&_&_&_&?&_).
  - by destruct (frame_deliver_quiet (ConBarrierIn c) I w) as (_&_&_&_&?&_).
  - by destruct (frame_deliver_quiet (ConFlowRemoved c) I w) as (_&_&_&_&?&_).
  - apply same_switches_expire.
Qed.

Lemma switches_need_topology_deliver W e w :
  gate_inv W w ∨ adaptor w = idle_adaptor →
  switches_need_topology w →
  switches_need_topology (exec (EventLoop.deliver e) w).
Proof.
  intros Hgate Hk.
  pose proof (stable_run [e] w) as (_ & _ & _ & _ & Hgrow).
  cbn [EventLoop.run] in Hgrow.
  assert (Hother : (∀ d c ofp, e ≠ ConnectionUp d c ofp) →
                   switches_need_topology (exec (EventLoop.deliver e) w)).
  { intros He. destruct Hk as [Hk|Hk]; [left|right; set_solver].
    apply (dom_empty_iff_L (M := gmap nat)).
    rewrite (same_switches_deliver e w He), Hk. apply dom_empty_L. }
  destruct e; try (by apply Hother).
  destruct (decide (attrs (adaptor w) !! "topology"%string = Some true)) as [Ht|Ht].
  - right. apply Hgrow. destruct Hgate as [(_ & _ & H3 & _)|Hidle].
    + rewrite H3 in Ht. destruct (decide _); [|done].
      injection Ht as Ht. by apply bool_decide_eq_true in Ht.
    + by rewrite Hidle in Ht.
  - cbn [EventLoop.deliver]. unfold exec, EventLoop.from_component.
    erewrite run_bind_ret by apply run_get.
    destruct (bool_decide _); [|done].
    by rewrite (run_ConnectionUp_unbound _ _ _ _ Ht).
Qed.

Lemma gate_inv_or_idle_init W C :
  (∃ W', gate_inv W' (gate_init W C)) ∨ adaptor (gate_init W C) = idle_adaptor.
Proof.
  destruct W as [W'|]; [destruct (decide (W' = ∅)) as [->|Hne]|].
  - right. by rewrite gate_init_idle by (by right).
  - left. exists W'. by apply gate_init_inv.
  - right. by rewrite gate_init_idle by (by left).
Qed.

Lemma switches_need_topology_reachable W C es :
  switches_need_topology (EventLoop.run es (gate_init W C)).
Proof.
  assert (H0 : switches_need_topology (gate_init W C)).
  { left. assert (Hk : switches (gate_init W C) = ∅); [|done].
    unfold gate_init, exec, OpenFlowTopology.__init__.
    apply (keeps_bind (λ w, switches w = ∅)); [by intros ?| |done].
    intros ?. apply keeps_bind.
    - apply keeps_resolveComponents; by intros ? ?.
    - intros []; [apply keeps_ret|by intros ?]. }
  assert (Hgen : ∀ W' es w, gate_inv W' w ∨ adaptor w = idle_adaptor →
                   switches_need_topology w →
                   switches_need_topology (EventLoop.run es w)).
  { intros W' es'. induction es' as [|e es' IH]; intros w Hg Hk; cbn [EventLoop.run]; [done|].
    apply IH; [|by eapply switches_need_topology_deliver].
    destruct Hg as [Hg|Hg].
    - left. by apply gate_inv_deliver.
    - right. by destruct (idle_run [e] w Hg) as (? & _). }
  destruct (gate_inv_or_idle_init W C) as [[W' Hg]|Hg].
  - apply (Hgen W'); [by left|done].
  - apply (Hgen ∅); [by right|done].
Qed.

(** X20.  In every world that events lead to, pox.core has the topology
    store as soon as a switch object exists; so the expiry of a timer never
    fails.  If the timer is pending, the switch it is bound to loses its
    timer reference, its dpid is removed from the store and exactly one
    leave is raised; otherwise the expiry changes nothing. *)
Theorem X20_expiry_never_fails W C es t :
  let w := EventLoop.run es (gate_init W C) in
  (switches w ≠ ∅ → "topology"%string ∈ components w) ∧
  eval (EventLoop.expire t) w = Ret tt ∧
  (∀ o, timers w !! t = Some o → pending o = true →
     ∃ s, switches w !! callback o = Some s ∧
          EventLoop.expire t w
          = (upd_trace (λ tr, tr ++ [RaisedSwitchLeave (callback o)])
               (upd_topology_entities (delete (dpid s))
                  (upd_switches <[callback o := set__reconnectTimeout None s]>
                     (upd_timers <[t := cancelled o]> w))), Ret tt)) ∧
  ((∀ o, timers w !! t = Some o → pending o = false) →
     EventLoop.expire t w = (w, Ret tt)).
Proof.
  intros w.
  pose proof (switches_need_topology_reachable W C es) as Hk.
  pose proof (timer_owned_reachable W C es) as Hown. fold w in Hk, Hown.
  assert (Htop : switches w ≠ ∅ → "topology"%string ∈ components w).
  { intros Hne. by destruct Hk. }
  assert (Hpend : ∀ o, timers w !! t = Some o → pending o = true →
     ∃ s, switches w !! callback o = Some s ∧
          EventLoop.expire t w
          = (upd_trace (λ tr, tr ++ [RaisedSwitchLeave (callback o)])
               (upd_topology_entities (delete (dpid s))
                  (upd_switches <[callback o := set__reconnectTimeout None s]>
                     (upd_timers <[t := cancelled o]> w))), Ret tt)).
  { intros o Ho Hp. destruct (Hown t o Ho Hp) as (s & Hs & _).
    exists s. split; [done|]. eapply run_expire; try done.
    apply Htop. intros He. rewrite He in Hs. by rewrite lookup_empty in Hs. }
  split; [done|]. split; [|split; [done|apply run_expire_not_pending]].
  destruct (timers w !! t) as [o|] eqn:Ho.
  - destruct (pending o) eqn:Hp.
    + destruct (Hpend o eq_refl Hp) as (s & _ & Hrun). unfold eval. by rewrite Hrun.
    + unfold eval. rewrite run_expire_not_pending; [done|].
      intros o' Ho'. congruence.
  - unfold eval. rewrite run_expire_not_pending; [done|]. intros o' Ho'. congruence.
Qed.
